(* ===== verification/_CoqProject ===== *)
-Q . S2P
Prelude.v
PyStr.v
Numpy.v
IdStr.v
Decimal.v
DigitLimit.v
Utf8.v
Sha256.v
HashId.v
HashIdAny.v
Polars.v
IdStrBatch.v
Dispatch.v
CallAny.v
Pipeline.v
Data.v
Fetch.v
FetchConc.v
Package.v
Importer.v
PackageImport.v
