(* ===== verification/Prelude.v ===== *)
(** * zootasks_utils: a verification development

    The repository is a small Python helper library for a citizen-science
    labelling pipeline.  Its code is three functions, a module-level
    value and the package's import statements:

    - [get_hash_id] (src/src/zootasks_utils/_src/upload_utils.py, lines
      12-34) concatenates a subject identifier and an extra key, encodes
      the text as UTF-8, hashes it with SHA-256 and returns the lowercase
      hexadecimal digest.
    - [make_id_str], scalar method (same file, lines 41-68), builds
      [[release_]tile_object] from a tile index ([int | str]), an object
      id and an optional release name, replacing every hyphen of the
      object id by [NEG] through [numpy.char.replace].
    - [make_id_str], data-frame method (same file, lines 71-98), builds
      the identifier for every row of a polars DataFrame as one column
      expression, with a strict cast of [tile_index] to Int64 and polars'
      [str.replace].
    - the two [make_id_str] methods are registered under one name with
      plum's [@dispatch]; a call is resolved on the runtime types of its
      positional arguments, and Python then binds the arguments to the
      positional-only and keyword-only parameters.
    - [euclid_q1_morphology] (src/src/zootasks_utils/data.py) is a static
      pooch descriptor: cache path, DOI base locator and a registry that
      maps a file name to its expected checksum.  Callers hand it to
      [Pooch.fetch], which returns the path of a file of the cache after
      checking it, or downloading and checking it.
    - src/src/zootasks_utils/__init__.py imports these names into the
      package.  The three files run their top-level statements when they
      are imported: docstrings, [__all__], the imports of hashlib, numpy,
      polars, plum and pooch, and the [def] statements, two of them under
      [@dispatch].

    ** Files

    - [Prelude] (this file): the error type of the development (Python
      exceptions as values), the [result] monad with stdpp's bind
      notation, its inversion lemmas and tactics, the hint databases and
      the list and integer lemmas the components share.
    - [PyStr]: Python text.  A [str] is a list of Unicode code points
      (Z); [lit] turns an ASCII literal into one.  It holds the built-ins
      the sources call on text and integers: [str_of_int] ([str(int)],
      f-string formatting of an [int]), [int_of_str] (strict decimal
      parsing), [replace] ([str.replace] with its optional count),
      [rstrip], and the occurrence counter the replacement laws are
      stated with.
    - [Numpy]: fixed-width unicode storage ([np_str]),
      [numpy.char.replace] on a 0-d array and the formatting of its
      result.
    - [IdStr], [Module Scalar]: the scalar [make_id_str]: [prefix],
      [obj_id], [format_tile] and the function itself, with the
      documented format [id_str_spec] as its specification.
    - [Decimal]: the digit loop of [str(int)] without fuel, [digits], by
      well-founded recursion (Equations), and [decimal], the reference
      [str_of_int] is shown equal to.
    - [DigitLimit]: the interpreter's limit on the decimal digits of an
      integer ([IntLimit], 4300 unless configured) and, in
      [Module Limited], the scalar [make_id_str] under it.
    - [Utf8]: [str.encode()] with its one error (a lone surrogate raises
      UnicodeEncodeError), a strict decoder, and the round trip.
    - [Sha256]: FIPS 180-4 SHA-256 on bytes, with 32-bit words kept as Z
      and every wrap-around written out; [hexdigest]; the [Digest] class,
      the interface a hash algorithm promises to its callers.
    - [HashId]: [get_hash_id], first for any [Digest]
      ([get_hash_id_with]), then at SHA-256.
    - [HashIdAny]: the body of [get_hash_id] on [None], [bool], [int],
      [str] and [bytes] values ([pyobj]), with Python's [+] and
      [.encode()] on them, since annotations are not enforced.
    - [Polars], [Module pl]: the fragment of polars the data-frame method
      uses: typed columns with nulls, frames, strict casts, string
      concatenation with broadcast of literals, [str.replace],
      expressions, name resolution and evaluation, [select] and
      [get_column]; the [Int64Parser] class is what the method needs of
      the engine's reader of integers from text.
    - [IdStrBatch], [Module Batch]: the data-frame [make_id_str]: the
      three expressions, [id_expr], the method, and [id_column], the rows
      it is specified to return.
    - [Dispatch]: the parameter lists, plum's signatures and resolution,
      Python's argument binding, and [call_make_id_str] and
      [call_get_hash_id], which take a call to the result of a body.
    - [CallAny]: [call_get_hash_id_any], a call of [get_hash_id] with
      any arguments: the binding of [Dispatch], then the body of
      [HashIdAny].
    - [Pipeline]: [hash_of_id], [get_hash_id] applied to the identifier
      of the scalar [make_id_str], and [get_hash_id] on the rows of the
      data-frame method.
    - [Data]: the dataset descriptor, [pooch.create], the platform's
      cache directory behind the [Platform] class, and what pooch reads
      from a registry entry.
    - [Fetch]: [Pooch.fetch] on a descriptor, from pooch's documented
      behaviour: [world] (the cache, by path, and the server, by
      locator), [verify], [download_action], [stream_download], [fetch];
      the transition system [step] of fetches interleaved with writes by
      others and changes of the server, its traces [steps] and their
      executable form [run]; the [FileHash] class is what a fetch needs
      of [hashlib].
    - [FetchConc]: the same fetch in the steps pooch takes ([pc]: look
      up, download to a temporary file, check, move into place), and
      [cstep], the interleavings of processes that share one cache with
      each other, with writers outside and with the server.
    - [Package]: [__all__] of the package and of upload_utils.py, the
      names each module binds, the import statements of [__init__.py],
      the file tree they run against, and [import_star].
    - [Importer]: Python's import system, from the documented behaviour
      of importlib, and plum's registry: module-level statements
      ([stmt]), files and directories ([source]), the interpreter
      ([interp]: [sys.modules] and the dispatcher's methods), the monad
      [comp] of computations that change it and may raise, [gcd_import]
      with [find_and_load], [load] and [load_spec], and [exec_stmt],
      which runs a statement in a module.
    - [PackageImport]: the three files as the statements at their top
      level ([init_py], [data_py], [upload_utils_head], the three [def]
      statements), the directory they lie in ([src_tree]), and the
      import of the package by [Importer], as the files are
      ([published]); a variant with [data] imported from the package
      itself ([repaired]) is run as evidence for the reported bug only.

    ** Correspondence of state and operations

    The functions of the sources keep no state: each is pure, and is a
    Rocq function of the same name.  The one stateful part is the use of
    the descriptor: [Fetch.fetch] passes the [world] explicitly and
    returns the world after, and an exception leaves the world as it was
    (pooch moves a download into place only after its check).  In
    [FetchConc] a [config] is the shared world and one program counter
    per process; a download lives in the counter, as the temporary file
    does in the process, until it is moved.  A Python exception is a
    value [Err e] of [result]; a function that cannot raise has a plain result
    type.  Python [int] is [Z] (unbounded); polars Int64 is [Z] with its
    range checked at each cast; a SHA-256 word is a [Z] reduced modulo
    [2^32] by every operation.  Python [None] and polars null are
    [None : option _].  A Python dict is a [gmap] ([Data]); keyword
    arguments are an association list ([Dispatch]).  The interpreter of
    [Importer] is a record of two finite maps: [sys_modules], from dotted
    names to the namespace of each loaded module, and [plum_functions],
    from a function name to its registered methods.  A computation
    [comp A] takes the interpreter to a result or an exception and the
    interpreter after it; unlike a fetch, an import that raises keeps
    what it changed before (the modules it had loaded), except the module
    whose body raised, which [load_spec] takes out of [sys.modules]
    again.  An [import] statement is [Import], a [from ... import] is
    [FromImport] with its number of leading dots, and a name is bound in
    a module by [setattr].

    ** What the theorems show

    - [PyStr]: [str_of_int] is injective and inverted by [int_of_str];
      [replace] leaves no occurrence of a one-character pattern that the
      replacement does not contain, its length is given by the number of
      occurrences, and a count of one replaces exactly the first.
    - [Utf8]: encoding succeeds exactly on surrogate-free text, is
      inverted by decoding (hence injective), and is the identity on
      ASCII.
    - [Sha256]: word operations stay below [2^32]; padding yields whole
      64-byte blocks; a digest is 32 bytes; the standard test vectors.
    - [HashId]: [get_hash_id] raises exactly on surrogates, and then
      UnicodeEncodeError at the first one; its result has 64 lowercase
      hexadecimal digits; it depends on the concatenation only; the
      documented example's digest.
    - [IdStr]: the format of the identifier on every branch, its
      refinement of the documented format, integer and text tile indexes
      agree, no hyphen survives, and where the identifier is and is not
      injective.
    - [IdStrBatch]: the result on every well-formed frame (success and
      each error), row count, row order and null rows, and that a row
      agrees with the scalar method exactly when the object id has at
      most one hyphen.
    - [Dispatch]: which method a call selects, that no call is ambiguous,
      what a scalar and a data-frame call return, and which calls raise
      TypeError or NotFoundLookupError.
    - [CallAny]: binding looks at the names of the keywords only
      ([bind_kwargs_fmap]), so a call on text is the call of [Dispatch];
      a call returns exactly when it passes one positional text and the
      keyword [extra_key] with a text, and every other call raises:
      TypeError when it does not bind, else what the body raises.
    - [Decimal]: formatting an integer terminates: [str_of_int] is
      [decimal] on every integer, any fuel of at least the bit length
      gives the same digits, and a positive [n] has [k] digits with
      [10^(k-1) <= n < 10^k].
    - [Sha256], [HashId]: padding is injective below [2^64] bits, so the
      blocks that are compressed determine the text that was hashed.
    - [DigitLimit]: a number has more than [k] digits exactly from
      [10^k] on; the scalar method raises ValueError exactly for an
      integer tile index of [10^limit] or more, and the integers of the
      data-frame method are never refused.
    - [HashIdAny]: a call returns exactly on two texts, and what every
      other pair of values raises, at [+] or at [.encode()].
    - [Pipeline]: when hashing a built identifier returns, for the scalar
      method on every input and for every row of the data-frame method.
    - [Data]: the registry's checksums are well formed, the locator of
      the registered file, and isolation of cache directories.
    - [Fetch]: what one fetch does on every branch ([fetch_Ok_inv],
      [fetch_is_Ok]); by induction on traces, that a cache nobody else
      writes to only ever holds checked files ([steps_cache_ok]) and that
      the set of verified files grows by exactly the fetched ones
      ([steps_verified_files], a refinement of the abstract set of
      verified names); that traces are the runs of [run]; and these at
      the descriptor of the sources, with its path, locator and digest.
    - [FetchConc]: by induction on interleavings, a process that has
      returned holds a checked file ([cstep_inv], [csteps_inv]); the
      steps of one process alone are [Fetch.fetch] ([solo_fetch]); every
      schedule terminates, by the measure [weight], and an unfinished
      process is never blocked ([cstep_progress]).
    - [Package]: the outcome of importing the package, that the import
      statements bind [__all__] whenever they run, and what a star import
      of upload_utils exports.
    - [Importer]: the equations of [gcd_import] and [load] on each
      branch; more fuel never changes a result ([gcd_import_mono],
      [run_stmt_mono]); how [sys_modules] reads after each update; what a
      [def] statement binds and registers, and the NameError of one whose
      decorator is unbound.
    - [PackageImport]: with the files as they are, the import of the
      package and of every module below it raises ImportError for [data]
      whatever is installed ([import_package], [import_below]), leaving
      the namespace package [_src] behind, after which a module below
      [_src] raises KeyError and the package the same ImportError, with
      the interpreter unchanged ([import_after_failure]); by induction on the
      statements run, the package is never loaded and nothing is ever
      registered ([reachable_unloaded], with the rules [keeps_bind],
      [keeps_each] of computations that return and keep the invariant);
      the [def] statements register the two methods of [Dispatch] in
      the order of the file; and [Package] is the erasure of these files
      ([erase_src_tree], [exec_init_agrees]).  As evidence for the
      reported bug, the variant with [from . import data] imports and
      binds [__all__] ([import_here]).

    ** Bounds and fuel

    Two definitions use fuel: [gcd_import], below, and [str_of_int],
    which produces the digits of [n]
    with [digits_fuel n], the bit length of [n], which is never less than
    its number of decimal digits ([digits_fuel_enough]); the round trip
    with [int_of_str] holds for every integer.  [Decimal] proves the
    fuel enough against the definition without fuel
    ([steps_digits_fuel], [str_of_int_decimal]).  Every other recursion
    is structural.  [Decimal] defines [digits] with Equations, with the
    use of function extensionality switched off: no theorem of the
    development depends on an axiom.  SHA-256 is specified for messages
    below [2^64] bits; the length field is reduced modulo [2^64] as in
    the standard.  [str_of_int] is total, as in an interpreter without
    a limit on digits; CPython's limit on the digits of [str(int)] is a
    parameter of [DigitLimit] ([IntLimit], 0 for none), and its theorems
    hold for every limit, hence for the ones CPython accepts (0, or at
    least 640).  A fetch takes
    at most four steps of its process, so [FetchConc.solo] runs with
    fuel 4 and [n] processes have weight at most [4 * n].  The fuel of
    [gcd_import] bounds the depth of nested imports, and running out of
    it is [None], apart from every exception: the import of a dotted
    name of [n] parts nests at most [n] imports of parents and, in the
    package, two more below [__init__.py], so the theorems about the
    published files hold from fuel [n + 2] on and those about a statement
    from [n + 4] on, for every larger fuel by monotonicity; the repaired
    package imports with fuel 4 and not with 3 ([repaired_fuel]).

    ** Assumptions about the libraries

    What the sources call is modelled from the documented behaviour of
    the libraries, and two choices are not settled by the sources: when
    a frame lacks several of the columns that the expression reads,
    [pl.resolve] reports the first in the order the expression reads
    them ([release_name], [tile_index], [object_id]); and [Fetch],
    [FetchConc] describe what a caller does with the descriptor through
    pooch, while the sources only build the descriptor.  [Pipeline]
    composes [get_hash_id] with [make_id_str] as the docstring of
    [get_hash_id] suggests; no line of the sources does.

    ** Not modelled

    polars lazy frames, floating-point, temporal and nested column
    types, and regular-expression patterns of [str.replace] (the pattern
    of the sources, a hyphen, is a literal); numpy arrays of more than
    zero dimensions; plum's ordering of signatures, which no call of
    these methods consults; hashlib's streaming interface ([update] on
    a hash object), which line 32 does not use; polars' lazy resolution
    of a schema; calls of [get_hash_id] on values other than
    [None], [bool], [int], [str] and [bytes] (user classes may define
    [+] and [encode] at will).  Of pooch: MD5 itself (a fetch is proved for every
    [FileHash]), the network and its retries, processors and progress
    bars, file-system paths beyond a map from text to contents
    (permissions, symbolic links, a file name that is an absolute path),
    and a process that is killed between its steps: the temporary file
    it leaves is outside the cache map.  Of the import system: finders
    and loaders other than the path finder on source files, bytecode
    caches, import locks and threads, [importlib.reload], module
    attributes other than [__path__] and the names a body binds, and the
    bodies of hashlib, numpy, polars, plum and pooch, which are
    installed distributions given by the names they export; the value of
    an assignment or of a docstring is opaque there ([OValue]), the
    descriptor itself being the record of [Data]. *)

From Stdlib Require Export ZArith Lia.
From stdpp Require Export numbers base tactics option list.

#[local] Open Scope Z_scope.

(** * Exceptions

    The Python exceptions the modelled code paths can raise, as values. *)

Inductive exn : Type :=
  | UnicodeEncodeError (position : nat)
  | UnicodeDecodeError (position : nat)
  | ColumnNotFoundError (name : list Z)
  | InvalidOperationError
  | ShapeError
  | NotFoundLookupError
  | AmbiguousLookupError
  | TypeError
  | ValueError
  | ImportError (name : list Z)
  | AttributeError (name : list Z)
  | DownloadError
  | ModuleNotFoundError (name : list Z)
  | NameError (name : list Z)
  | KeyError (key : list Z).

#[export] Instance exn_eq_dec : EqDecision exn.
Proof. solve_decision. Defined.

(** * The result monad *)

Inductive result (A : Type) : Type :=
  | Ok (a : A)
  | Err (e : exn).

Arguments Ok {A} a.
Arguments Err {A} e.

#[export] Instance result_eq_dec `{EqDecision A} : EqDecision (result A).
Proof. solve_decision. Defined.

#[export] Instance result_ret : MRet result := λ A a, Ok a.

#[export] Instance result_bind : MBind result := λ A B f m,
  match m with Ok a => f a | Err e => Err e end.

#[export] Instance result_fmap : FMap result := λ A B f m,
  match m with Ok a => Ok (f a) | Err e => Err e end.

Definition is_Ok {A} (m : result A) : Prop := ∃ a, m = Ok a.

Definition is_Err {A} (m : result A) : Prop := ∃ e, m = Err e.

Definition is_Okb {A} (m : result A) : bool :=
  match m with Ok _ => true | Err _ => false end.

Definition result_to_option {A} (m : result A) : option A :=
  match m with Ok a => Some a | Err _ => None end.

Definition of_option {A} (e : exn) (o : option A) : result A :=
  match o with Some a => Ok a | None => Err e end.

#[export] Instance is_Ok_dec {A} (m : result A) : Decision (is_Ok m).
Proof.
  refine (match m with Ok a => left _ | Err e => right _ end);
    [by exists a|by intros [? ?]].
Defined.

(** * Bytes

    A byte string is a list of integers in [0, 256). *)

Notation bytes := (list Z) (only parsing).

Definition is_byte (b : Z) : Prop := 0 ≤ b < 256.

#[export] Instance is_byte_dec b : Decision (is_byte b) := _.

(** Hint databases of the development: [zoo] for resolution, [zoo_len]
    for the length equations that [autorewrite] pushes through. *)

Create HintDb zoo.

Create HintDb zoo_len.

#[export] Hint Rewrite @length_app @length_cons @length_nil @length_fmap
  @length_replicate @length_take @length_drop @length_reverse : zoo_len.

(** * Tactics *)

(** [inv H]: inversion that clears the inverted hypothesis and substitutes. *)
Ltac inv H := inversion H; clear H; simplify_eq.

(** [simplify_result]: computes the monad operations applied to
    constructors and closes goals with clashing constructors. *)
Ltac simplify_result :=
  repeat match goal with
  | H : Ok _ = Ok _ |- _ => injection H as H
  | H : Err _ = Err _ |- _ => injection H as H
  | H : Ok _ = Err _ |- _ => discriminate H
  | H : Err _ = Ok _ |- _ => discriminate H
  | H : is_Ok (Err _) |- _ => destruct H as [? H]; discriminate H
  | H : is_Err (Ok _) |- _ => destruct H as [? H]; discriminate H
  | _ => progress (unfold mret, result_ret in * )
  | _ => progress simplify_eq/=
  end.

(** [by_compute]: decides a closed decidable proposition by evaluation. *)
Ltac by_compute :=
  match goal with
  | |- ?P => apply (bool_decide_unpack P); vm_compute; exact I
  end.

(** [case_result m]: case analysis on a result, remembering the equation. *)
Tactic Notation "case_result" constr(m) "as" ident(a) ident(Hm) :=
  destruct m as [a|a] eqn:Hm; simplify_result.

Section result_lemmas.
Context {A B : Type}.
Implicit Types (m : result A) (f : A → result B) (g : A → B).

Lemma bind_Ok_iff m f b :
  m ≫= f = Ok b ↔ ∃ a, m = Ok a ∧ f a = Ok b.
Proof. destruct m; naive_solver. Qed.

Lemma bind_Err_iff m f e :
  m ≫= f = Err e ↔ m = Err e ∨ ∃ a, m = Ok a ∧ f a = Err e.
Proof. destruct m; naive_solver. Qed.

Lemma fmap_Ok_iff m g b : g <$> m = Ok b ↔ ∃ a, m = Ok a ∧ b = g a.
Proof. destruct m; naive_solver. Qed.

Lemma fmap_Err_iff m g e : g <$> m = Err e ↔ m = Err e.
Proof. destruct m; naive_solver. Qed.

Lemma is_Ok_alt m : is_Ok m ↔ is_Okb m = true.
Proof. destruct m; unfold is_Ok; naive_solver. Qed.

Lemma is_Ok_or_Err m : is_Ok m ∨ is_Err m.
Proof. destruct m; unfold is_Ok, is_Err; eauto. Qed.

Lemma not_is_Ok m : ¬ is_Ok m ↔ is_Err m.
Proof. destruct m; unfold is_Ok, is_Err; naive_solver. Qed.

Lemma is_Ok_bind m f : is_Ok (m ≫= f) ↔ ∃ a, m = Ok a ∧ is_Ok (f a).
Proof. destruct m; unfold is_Ok; naive_solver. Qed.

Lemma is_Ok_fmap m g : is_Ok (g <$> m) ↔ is_Ok m.
Proof. destruct m; unfold is_Ok; naive_solver. Qed.
End result_lemmas.

(** * Traversing a list in the result monad

    [mapM f l] (stdpp's, at the [result] instances) applies [f] from left
    to right and stops at the first error. *)

Section mapM_result.
Context {A B : Type} (f : A → result B).

Lemma mapM_Ok_iff l k :
  mapM f l = Ok k ↔ Forall2 (λ x y, f x = Ok y) l k.
Proof.
  split.
  - revert k. induction l as [|x l IH]; intros k Hk; simplify_result.
    + constructor.
    + apply bind_Ok_iff in Hk as (y & Hy & Hk).
      apply bind_Ok_iff in Hk as (k' & Hk' & ?). simplify_result.
      constructor; auto.
  - induction 1 as [|x y l k Hx _ IH]; [done|].
    cbn. rewrite Hx. cbn. by rewrite IH.
Qed.

Lemma length_mapM_Ok l k : mapM f l = Ok k → length k = length l.
Proof. rewrite mapM_Ok_iff. intros H. symmetry. by eapply Forall2_length. Qed.

Lemma mapM_is_Ok l : is_Ok (mapM f l) ↔ Forall (λ x, is_Ok (f x)) l.
Proof.
  induction l as [|x l IH]; cbn.
  - split; [constructor|by eexists].
  - rewrite Forall_cons_iff. destruct IH as [IH1 IH2].
    destruct (f x) as [y|e]; cbn; [destruct (mapM f l) as [k|e]; cbn|].
    + split; [intros _; split; [by eexists|by apply IH1; eexists]|by eexists].
    + split; [by intros [? ?]|intros [_ [? ?]%IH2]; done].
    + split; [by intros [? ?]|by intros [[? ?] _]].
Qed.

Lemma mapM_is_Err l : is_Err (mapM f l) ↔ Exists (λ x, is_Err (f x)) l.
Proof.
  rewrite <-not_is_Ok, mapM_is_Ok, <-Exists_Forall_neg.
  - rewrite !list.Exists_exists. by setoid_rewrite not_is_Ok.
  - intros x. destruct (is_Ok_or_Err (f x)); [by left|right].
    by apply not_is_Ok.
Qed.

(** An error of the traversal is the error of the first element that
    fails. *)
Lemma mapM_Err_iff l e :
  mapM f l = Err e ↔
  ∃ i x, l !! i = Some x ∧ f x = Err e ∧ Forall (λ x, is_Ok (f x)) (take i l).
Proof.
  induction l as [|x l IH]; cbn.
  - split; [done|]. by intros (i & x & ? & _).
  - destruct (f x) as [y|e'] eqn:Hx; cbn.
    + destruct (mapM f l) as [k|e'']; cbn.
      * split; [done|].
        intros ([|i] & x' & ? & ? & Ht); simplify_eq/=; [congruence|].
        apply Forall_cons in Ht as [_ Ht].
        destruct IH as [_ IH]. discriminate IH. eauto.
      * split.
        -- intros [= ->]. destruct IH as [(i & x' & ? & ? & ?) _]; [done|].
           exists (S i), x'. split_and!; [done..|]. constructor; [|done].
           rewrite Hx. by eexists.
        -- intros ([|i] & x' & ? & ? & Ht); simplify_eq/=; [congruence|].
           apply Forall_cons in Ht as [_ Ht].
           destruct IH as [_ IH]. rewrite IH by eauto. done.
    + split.
      * intros [= ->]. exists 0%nat, x. split_and!; [done..|constructor].
      * intros ([|i] & x' & ? & ? & Ht); simplify_eq/=; [congruence|].
        apply Forall_cons in Ht as [[? Hok] _]. congruence.
Qed.

Lemma mapM_Err_elem l e : mapM f l = Err e → ∃ x, x ∈ l ∧ f x = Err e.
Proof.
  intros (i & x & Hi & ? & _)%mapM_Err_iff. exists x. split; [|done].
  by eapply list_elem_of_lookup_2.
Qed.

Lemma mapM_total l :
  (∀ x, x ∈ l → is_Ok (f x)) → is_Ok (mapM f l).
Proof. intros H. apply mapM_is_Ok. by apply list.Forall_forall. Qed.

Lemma mapM_lookup_Ok l k i x :
  mapM f l = Ok k → l !! i = Some x → ∃ y, k !! i = Some y ∧ f x = Ok y.
Proof.
  rewrite mapM_Ok_iff. intros H Hi.
  destruct (Forall2_lookup_l _ _ _ _ _ H Hi) as (y & ? & ?); eauto.
Qed.
End mapM_result.

Lemma mapM_pure {A B} (g : A → B) (l : list A) :
  mapM (λ x, Ok (g x)) l = Ok (g <$> l).
Proof. apply mapM_Ok_iff. induction l; constructor; auto. Qed.

(** * Lists *)

Section list_lemmas.
Context {A B : Type}.
Implicit Types (l : list A) (f : A → list B).

(** A flattening map whose pieces all have length [n]. *)
Lemma length_bind_const f n l :
  (∀ x, length (f x) = n) → length (l ≫= f) = (n * length l)%nat.
Proof.
  intros Hf. induction l as [|x l IH]; cbn; [lia|].
  rewrite length_app, Hf, IH. lia.
Qed.

Lemma Forall_bind_list (P : B → Prop) f l :
  (∀ x, Forall P (f x)) → Forall P (l ≫= f).
Proof. intros Hf. induction l; cbn; [constructor|]. apply Forall_app; auto. Qed.

(** Two texts cut at the first occurrence of a separator agree part by
    part. *)
Lemma app_sep_inj (u : A) (s1 s2 r1 r2 : list A) :
  u ∉ s1 → u ∉ s2 → s1 ++ u :: r1 = s2 ++ u :: r2 → s1 = s2 ∧ r1 = r2.
Proof.
  revert s2. induction s1 as [|x s1 IH]; intros [|y s2] H1 H2 Heq;
    simplify_eq/=; try done.
  - by apply not_elem_of_cons in H2 as [? _].
  - by apply not_elem_of_cons in H1 as [? _].
  - apply not_elem_of_cons in H1 as [_ H1], H2 as [_ H2].
    destruct (IH s2) as [-> ->]; done.
Qed.

(** An invariant of the step is an invariant of the loop. *)
Lemma foldl_invariant (P : B → Prop) (f : B → A → B) (b : B) l :
  P b → (∀ b x, P b → x ∈ l → P (f b x)) → P (foldl f b l).
Proof.
  revert b. induction l as [|x l IH]; intros b Hb Hf; [done|].
  cbn. apply IH; [apply Hf; [done|left]|].
  intros b' y ? ?. apply Hf; [done|by right].
Qed.

Lemma fmap_zip_with {C D} (g : C → D) (f : A → B → C) l (k : list B) :
  g <$> zip_with f l k = zip_with (λ x y, g (f x y)) l k.
Proof. revert k. induction l; intros [|??]; cbn; by f_equal. Qed.

Lemma last_app_ne l1 l2 : l2 ≠ [] → last (l1 ++ l2) = last l2.
Proof.
  destruct l2 as [|x l2 _] using rev_ind; [done|].
  intros _. by rewrite app_assoc, !last_snoc.
Qed.
End list_lemmas.

(** * Integers *)

Lemma Z_mod_pow2_range (z : Z) (n : Z) : 0 ≤ n → 0 ≤ z mod 2 ^ n < 2 ^ n.
Proof. intros. apply Z.mod_pos_bound. by apply Z.pow_pos_nonneg. Qed.

(** Bitwise operations on integers of [n] bits give integers of [n]
    bits. *)
Section bit_ranges.
Context (n : Z) (Hn : 0 ≤ n).
Implicit Types a b : Z.

Lemma Z_log2_below a : 0 < n → 0 ≤ a < 2 ^ n → Z.log2 a < n.
Proof.
  intros Hpos [Ha Hlt]. destruct (decide (a = 0)) as [->|]; [done|].
  apply Z.log2_lt_pow2; lia.
Qed.

Lemma Z_below_log2 a : 0 ≤ a → Z.log2 a < n → 0 ≤ a < 2 ^ n.
Proof.
  intros Ha Hlog. split; [done|]. destruct (decide (a = 0)) as [->|].
  - by apply Z.pow_pos_nonneg.
  - apply Z.log2_lt_pow2; lia.
Qed.

Lemma Z_below_zero a : n = 0 → 0 ≤ a < 2 ^ n → a = 0.
Proof. intros -> ?. change (2 ^ 0) with 1 in *. lia. Qed.

Lemma Z_pow2_pos : 0 < 2 ^ n.
Proof. by apply Z.pow_pos_nonneg. Qed.

Lemma Z_lor_below a b :
  0 ≤ a < 2 ^ n → 0 ≤ b < 2 ^ n → 0 ≤ Z.lor a b < 2 ^ n.
Proof.
  intros Ha Hb. destruct (decide (n = 0)) as [Hz|].
  { rewrite (Z_below_zero a), (Z_below_zero b) by done.
    change (Z.lor 0 0) with 0. pose proof Z_pow2_pos. lia. }
  apply Z_below_log2; [apply Z.lor_nonneg; lia|].
  rewrite Z.log2_lor by lia.
  pose proof (Z_log2_below a). pose proof (Z_log2_below b). lia.
Qed.

Lemma Z_lxor_below a b :
  0 ≤ a < 2 ^ n → 0 ≤ b < 2 ^ n → 0 ≤ Z.lxor a b < 2 ^ n.
Proof.
  intros Ha Hb. destruct (decide (n = 0)) as [Hz|].
  { rewrite (Z_below_zero a), (Z_below_zero b) by done.
    change (Z.lxor 0 0) with 0. pose proof Z_pow2_pos. lia. }
  apply Z_below_log2; [apply Z.lxor_nonneg; lia|].
  pose proof (Z.log2_lxor a b).
  pose proof (Z_log2_below a). pose proof (Z_log2_below b). lia.
Qed.

Lemma Z_land_below a b :
  0 ≤ a < 2 ^ n → 0 ≤ b < 2 ^ n → 0 ≤ Z.land a b < 2 ^ n.
Proof.
  intros Ha Hb. destruct (decide (n = 0)) as [Hz|].
  { rewrite (Z_below_zero a), (Z_below_zero b) by done.
    change (Z.land 0 0) with 0. pose proof Z_pow2_pos. lia. }
  apply Z_below_log2; [apply Z.land_nonneg; lia|].
  pose proof (Z.log2_land a b).
  pose proof (Z_log2_below a). pose proof (Z_log2_below b). lia.
Qed.

Lemma Z_shiftr_below a k : 0 ≤ k → 0 ≤ a < 2 ^ n → 0 ≤ Z.shiftr a k < 2 ^ n.
Proof.
  intros Hk [Ha Hlt]. rewrite Z.shiftr_div_pow2 by done.
  pose proof (Z.pow_pos_nonneg 2 k). split; [apply Z.div_pos; lia|].
  apply Z.div_lt_upper_bound; [lia|]. nia.
Qed.
End bit_ranges.
