(* ===== verification/PyStr.v ===== *)
(** * Python text and the built-ins the sources call on it

    A Python [str] is a sequence of Unicode code points.  It is modelled
    as a list of integers so that [str.encode] can tell a surrogate from
    a scalar value and so that list lemmas apply to concatenation.

    - [lit] reads an ASCII literal of the sources as text.
    - [str_of_int] is [str(n)] for an [int], which is also what an
      f-string field [{n}] produces.
    - [int_of_str] is the strict decimal reader (an optional minus sign
      and at least one digit) that inverts it.
    - [replace] is [str.replace(old, new, count)]: non-overlapping
      occurrences from the left, at most [count] of them.
    - [rstrip] is [str.rstrip(c)] for one character [c]. *)

From stdpp Require Import strings.
From S2P Require Import Prelude.

#[local] Open Scope Z_scope.

(** * Text *)

Notation codepoint := Z (only parsing).

Notation pystr := (list Z) (only parsing).

(** The code points of an ASCII literal. *)
Fixpoint lit (s : string) : pystr :=
  match s with
  | EmptyString => []
  | String a s => Z.of_nat (Ascii.nat_of_ascii a) :: lit s
  end.

(** [ord('-')], [ord('_')] and [ord('0')]. *)
Definition hyphen : codepoint := 45.

Definition underscore : codepoint := 95.

Definition zero_char : codepoint := 48.

(** Code points range over [0, 0x10FFFF]; the surrogates
    [0xD800 .. 0xDFFF] are code points that are not scalar values. *)
Definition is_codepoint (c : codepoint) : Prop := 0 ≤ c ≤ 0x10FFFF.

Definition is_surrogate (c : codepoint) : Prop := 0xD800 ≤ c ≤ 0xDFFF.

Definition is_scalar (c : codepoint) : Prop := is_codepoint c ∧ ¬ is_surrogate c.

Definition is_ascii (c : codepoint) : Prop := 0 ≤ c < 128.

Definition is_digit (c : codepoint) : Prop := 48 ≤ c ≤ 57.

#[export] Instance is_codepoint_dec c : Decision (is_codepoint c) := _.

#[export] Instance is_surrogate_dec c : Decision (is_surrogate c) := _.

#[export] Instance is_scalar_dec c : Decision (is_scalar c) := _.

#[export] Instance is_ascii_dec c : Decision (is_ascii c) := _.

#[export] Instance is_digit_dec c : Decision (is_digit c) := _.

(** * [str(int)] *)

(** [chr(ord('0') + d)] *)
Definition digit_char (d : Z) : codepoint := zero_char + d.

(** The digits of [n], most significant first, in front of [acc].  Each
    step divides by ten; [fuel] bounds the number of steps. *)
Fixpoint digits_go (fuel : nat) (n : Z) (acc : pystr) : pystr :=
  match fuel with
  | O => acc
  | S fuel =>
      if decide (n ≤ 0) then acc
      else digits_go fuel (n / 10) (digit_char (n mod 10) :: acc)
  end.

(** The bit length of [n] bounds its number of decimal digits. *)
Definition digits_fuel (n : Z) : nat := Z.to_nat (Z.log2 n + 1).

Definition str_of_nonneg (n : Z) : pystr :=
  if decide (n = 0) then [zero_char] else digits_go (digits_fuel n) n [].

Definition str_of_int (z : Z) : pystr :=
  if decide (z < 0) then hyphen :: str_of_nonneg (- z) else str_of_nonneg z.

(** [str(bool)] *)
Definition str_of_bool (b : bool) : pystr :=
  if b then lit "True" else lit "False".

(** * Reading a decimal integer *)

Definition digit_of_char (c : codepoint) : option Z :=
  if decide (is_digit c) then Some (c - zero_char) else None.

Fixpoint parse_digits (acc : Z) (s : pystr) : option Z :=
  match s with
  | [] => Some acc
  | c :: s => d ← digit_of_char c; parse_digits (acc * 10 + d) s
  end.

Definition parse_nat (s : pystr) : option Z :=
  match s with
  | [] => None
  | _ => parse_digits 0 s
  end.

Definition int_of_str (s : pystr) : option Z :=
  match s with
  | c :: s' => if decide (c = hyphen) then Z.opp <$> parse_nat s' else parse_nat s
  | [] => None
  end.

(** * [str.replace] *)

Section replace.
Context {A : Type} `{EqDecision A}.
Implicit Types (old new s : list A) (count : option nat).

(** [count] is the number of replacements still allowed; [None] is
    Python's [-1], no limit. *)
Definition more count : bool :=
  match count with Some O => false | _ => true end.

Definition spend count : option nat := pred <$> count.

(** The scan for a non-empty [old].  [skip] is the number of elements
    of the current match that are still to be passed over. *)
Fixpoint replace_go old new count (skip : nat) s : list A :=
  match s with
  | [] => []
  | c :: s' =>
      match skip with
      | S k => replace_go old new count k s'
      | O =>
          if more count && bool_decide (old `prefix_of` s)
          then new ++ replace_go old new (spend count) (pred (length old)) s'
          else c :: replace_go old new count 0 s'
      end
  end.

(** An empty [old] matches before every element and at the end. *)
Fixpoint replace_empty new count s : list A :=
  if more count then
    new ++ match s with
           | [] => []
           | c :: s' => c :: replace_empty new (spend count) s'
           end
  else s.

Definition replace old new count s : list A :=
  match old with
  | [] => replace_empty new count s
  | _ => replace_go old new count 0 s
  end.

(** The scan for a one-element pattern, written directly. *)
Fixpoint replace1 (c : A) new count s : list A :=
  match s with
  | [] => []
  | x :: s' =>
      if more count && bool_decide (x = c)
      then new ++ replace1 c new (spend count) s'
      else x :: replace1 c new count s'
  end.

(** The number of occurrences of an element. *)
Definition occurrences (c : A) s : nat := length (filter (c =.) s).
End replace.

(** * [str.rstrip] *)

(** [s.rstrip(c)] for a single character [c]. *)
Fixpoint rstrip {A} `{EqDecision A} (c : A) (s : list A) : list A :=
  match s with
  | [] => []
  | x :: s' =>
      match rstrip c s' with
      | [] => if decide (x = c) then [] else [x]
      | r => x :: r
      end
  end.

(** * Properties of literals *)

Lemma lit_app (s1 s2 : string) : lit (s1 +:+ s2) = lit s1 ++ lit s2.
Proof.
  induction s1 as [|a s1 IH]; [done|].
  change (String a s1 +:+ s2) with (String a (s1 +:+ s2)). cbn. by rewrite IH.
Qed.

Lemma length_lit (s : string) : length (lit s) = String.length s.
Proof. induction s; cbn; auto. Qed.

(** * Properties of [str_of_int] *)

Section str_of_int.
Implicit Types (n z d a c : Z) (s acc : pystr) (fuel : nat).

Lemma is_digit_digit_char d : 0 ≤ d < 10 → is_digit (digit_char d).
Proof. unfold is_digit, digit_char, zero_char. lia. Qed.

Lemma digit_of_char_digit_char d :
  0 ≤ d < 10 → digit_of_char (digit_char d) = Some d.
Proof.
  intros Hd. unfold digit_of_char.
  rewrite decide_True by by apply is_digit_digit_char.
  f_equal. unfold digit_char. lia.
Qed.

Lemma digit_of_char_Some c d :
  digit_of_char c = Some d ↔ is_digit c ∧ d = c - zero_char.
Proof. unfold digit_of_char. case_decide; naive_solver. Qed.

(** The accumulator is a suffix of the result. *)
Lemma digits_go_acc fuel n acc :
  digits_go fuel n acc = digits_go fuel n [] ++ acc.
Proof.
  revert n acc. induction fuel as [|fuel IH]; intros n acc; cbn; [done|].
  case_decide; [done|].
  rewrite IH, (IH _ [_]). by rewrite <-app_assoc.
Qed.

(** One step, seen from the least significant digit. *)
Lemma digits_go_step fuel n :
  0 < n →
  digits_go (S fuel) n [] = digits_go fuel (n / 10) [] ++ [digit_char (n mod 10)].
Proof. intros Hn. cbn. rewrite decide_False by lia. apply digits_go_acc. Qed.

Lemma digits_go_zero fuel n acc : n ≤ 0 → digits_go fuel n acc = acc.
Proof. intros Hn. destruct fuel; cbn; [done|]. by rewrite decide_True. Qed.

Lemma digits_go_digits fuel n : Forall is_digit (digits_go fuel n []).
Proof.
  revert n. induction fuel as [|fuel IH]; intros n; [constructor|].
  destruct (decide (n ≤ 0)); [by rewrite digits_go_zero|].
  rewrite digits_go_step by lia. apply Forall_app. split; [apply IH|].
  apply Forall_singleton, is_digit_digit_char. by apply Z.mod_pos_bound.
Qed.

Lemma digits_go_nonempty fuel n : 0 < n → digits_go (S fuel) n [] ≠ [].
Proof. intros Hn. rewrite digits_go_step by done. by intros ?%app_nil_r_inv. Qed.

Lemma parse_digits_snoc a s c :
  parse_digits a (s ++ [c]) =
    v ← parse_digits a s; d ← digit_of_char c; Some (v * 10 + d).
Proof.
  revert a. induction s as [|x s IH]; intros a; cbn.
  - by destruct (digit_of_char c).
  - destruct (digit_of_char x); cbn; [apply IH|done].
Qed.

(** With enough fuel the digits denote the number they were made from. *)
Lemma parse_digits_go fuel n :
  0 ≤ n < 2 ^ Z.of_nat fuel → parse_digits 0 (digits_go fuel n []) = Some n.
Proof.
  revert n. induction fuel as [|fuel IH]; intros n Hn.
  - cbn in *. f_equal. lia.
  - destruct (decide (n = 0)) as [->|]; [by rewrite digits_go_zero|].
    rewrite digits_go_step, parse_digits_snoc, IH by lia || (
      rewrite Nat2Z.inj_succ, Z.pow_succ_r in Hn by lia;
      split; [by apply Z.div_pos; lia|]; apply Z.div_lt_upper_bound; lia).
    cbn. rewrite digit_of_char_digit_char by (apply Z.mod_pos_bound; lia).
    cbn. f_equal. pose proof (Z.div_mod n 10). lia.
Qed.

Lemma digits_fuel_enough n : 0 < n → n < 2 ^ Z.of_nat (digits_fuel n).
Proof.
  intros Hn. unfold digits_fuel.
  pose proof (Z.log2_nonneg n). rewrite Z2Nat.id by lia.
  apply Z.log2_spec in Hn. replace (Z.log2 n + 1) with (Z.succ (Z.log2 n)) by lia.
  lia.
Qed.

Lemma digits_fuel_pos n : 0 < n → ∃ fuel, digits_fuel n = S fuel.
Proof.
  intros Hn. unfold digits_fuel. pose proof (Z.log2_nonneg n).
  exists (Z.to_nat (Z.log2 n)). lia.
Qed.

Lemma str_of_nonneg_digits n : Forall is_digit (str_of_nonneg n).
Proof.
  unfold str_of_nonneg. case_decide; [|apply digits_go_digits].
  by apply Forall_singleton.
Qed.

Lemma str_of_nonneg_nonempty n : 0 ≤ n → str_of_nonneg n ≠ [].
Proof.
  intros Hn. unfold str_of_nonneg. case_decide; [done|].
  destruct (digits_fuel_pos n) as [fuel ->]; [lia|].
  apply digits_go_nonempty. lia.
Qed.

Lemma parse_nat_str_of_nonneg n : 0 ≤ n → parse_nat (str_of_nonneg n) = Some n.
Proof.
  intros Hn. pose proof (str_of_nonneg_nonempty n Hn) as Hne.
  unfold parse_nat. destruct (str_of_nonneg n) as [|c s] eqn:Hs; [done|].
  rewrite <-Hs. unfold str_of_nonneg. case_decide; [by subst|].
  apply parse_digits_go. split; [done|]. apply digits_fuel_enough. lia.
Qed.

Lemma is_digit_not_hyphen c : is_digit c → c ≠ hyphen.
Proof. unfold is_digit, hyphen. lia. Qed.

Lemma is_digit_not_underscore c : is_digit c → c ≠ underscore.
Proof. unfold is_digit, underscore. lia. Qed.

Lemma str_of_nonneg_head n c s : str_of_nonneg n = c :: s → c ≠ hyphen.
Proof.
  intros Hs. pose proof (str_of_nonneg_digits n) as Hd.
  rewrite Hs in Hd. apply Forall_cons_iff in Hd as [Hc _].
  by apply is_digit_not_hyphen.
Qed.

(** Round trip: reading the decimal form of an integer gives it back. *)
Lemma int_of_str_of_int z : int_of_str (str_of_int z) = Some z.
Proof.
  unfold str_of_int. case_decide; cbn.
  - rewrite decide_True by done.
    rewrite parse_nat_str_of_nonneg by lia. cbn. f_equal. lia.
  - pose proof (str_of_nonneg_nonempty z ltac:(lia)).
    destruct (str_of_nonneg z) as [|c s] eqn:Hs; [done|].
    unfold int_of_str. rewrite decide_False by by eapply str_of_nonneg_head.
    rewrite <-Hs. apply parse_nat_str_of_nonneg. lia.
Qed.

#[export] Instance str_of_int_inj : Inj (=) (=) str_of_int.
Proof.
  intros z1 z2 Hz. apply (inj Some).
  by rewrite <-!int_of_str_of_int, Hz.
Qed.

Lemma str_of_int_nonempty z : str_of_int z ≠ [].
Proof.
  unfold str_of_int. case_decide; [done|]. apply str_of_nonneg_nonempty. lia.
Qed.

(** Every character of [str(z)] is a digit or the sign. *)
Lemma str_of_int_chars z :
  Forall (λ c, is_digit c ∨ c = hyphen) (str_of_int z).
Proof.
  unfold str_of_int. case_decide.
  - constructor; [by right|].
    eapply list.Forall_impl; [apply str_of_nonneg_digits|]. by left.
  - eapply list.Forall_impl; [apply str_of_nonneg_digits|]. by left.
Qed.

Lemma underscore_not_in_str_of_int z : underscore ∉ str_of_int z.
Proof.
  intros Hin. pose proof (str_of_int_chars z) as Hc.
  rewrite list.Forall_forall in Hc. destruct (Hc _ Hin) as [Hd|Hh].
  - by apply is_digit_not_underscore in Hd.
  - discriminate Hh.
Qed.

(** The decimal form of an integer is ASCII, hence encodable. *)
Lemma str_of_int_ascii z : Forall is_ascii (str_of_int z).
Proof.
  eapply list.Forall_impl; [apply str_of_int_chars|].
  unfold is_digit, is_ascii, hyphen. lia.
Qed.

Lemma is_ascii_scalar c : is_ascii c → is_scalar c.
Proof. unfold is_ascii, is_scalar, is_codepoint, is_surrogate. lia. Qed.

Lemma str_of_int_scalar z : Forall is_scalar (str_of_int z).
Proof.
  eapply list.Forall_impl; [apply str_of_int_ascii|]. apply is_ascii_scalar.
Qed.
End str_of_int.

#[export] Hint Resolve str_of_int_nonempty underscore_not_in_str_of_int
  str_of_nonneg_digits : zoo.

(** * Properties of [replace] *)

Section replace_lemmas.
Context {A : Type} `{EqDecision A}.
Implicit Types (c x : A) (old new s l : list A) (count : option nat).

Lemma occurrences_nil c : occurrences c [] = 0%nat.
Proof. done. Qed.

Lemma occurrences_cons c x s :
  occurrences c (x :: s) =
    ((if decide (x = c) then 1 else 0) + occurrences c s)%nat.
Proof.
  unfold occurrences. rewrite filter_cons.
  repeat case_decide; naive_solver.
Qed.

Lemma occurrences_app c s1 s2 :
  occurrences c (s1 ++ s2) = (occurrences c s1 + occurrences c s2)%nat.
Proof. unfold occurrences. by rewrite filter_app, length_app. Qed.

Lemma occurrences_zero c s : occurrences c s = 0%nat ↔ c ∉ s.
Proof.
  induction s as [|x s IH].
  - split; [intros _; apply not_elem_of_nil|done].
  - rewrite occurrences_cons, not_elem_of_cons, <-IH.
    case_decide; naive_solver lia.
Qed.

Lemma occurrences_pos c s : (0 < occurrences c s)%nat ↔ c ∈ s.
Proof.
  destruct (decide (c ∈ s)) as [Hin|Hin].
  - split; [done|]. intros _. apply Nat.neq_0_lt_0. by intros ?%occurrences_zero.
  - apply occurrences_zero in Hin as Hz. rewrite Hz. split; [lia|done].
Qed.

(** A one-element pattern matches at a position exactly when the element
    there is the pattern's. *)
Lemma prefix_singleton c x s : [c] `prefix_of` x :: s ↔ x = c.
Proof.
  split; [by intros [k [= -> _]]|intros ->]. by apply prefix_cons, prefix_nil.
Qed.

(** The general scan, given a one-element pattern, is the direct one. *)
Lemma replace_singleton c new count s :
  replace [c] new count s = replace1 c new count s.
Proof.
  unfold replace. revert count. induction s as [|x s IH]; intros count; [done|].
  cbn [replace_go replace1 length pred].
  rewrite (bool_decide_ext _ _ (prefix_singleton c x s)).
  destruct (more count && bool_decide (x = c)); by rewrite IH.
Qed.

Lemma replace1_exhausted c new s : replace1 c new (Some 0%nat) s = s.
Proof. induction s as [|x s IH]; cbn; by rewrite ?IH. Qed.

(** Without a limit the scan is a flattening map. *)
Lemma replace1_unlimited c new s :
  replace1 c new None s = s ≫= λ x, if decide (x = c) then new else [x].
Proof.
  induction s as [|x s IH]; [done|]. cbn. rewrite IH.
  by case_bool_decide; case_decide.
Qed.

Lemma replace1_app c new s1 s2 :
  replace1 c new None (s1 ++ s2) =
    replace1 c new None s1 ++ replace1 c new None s2.
Proof. rewrite !replace1_unlimited. apply bind_app. Qed.

(** Text without the pattern is returned as it is. *)
Lemma replace1_absent c new count s : c ∉ s → replace1 c new count s = s.
Proof.
  revert count. induction s as [|x s IH]; intros count Hs; [done|].
  apply not_elem_of_cons in Hs as [Hx Hs]. cbn.
  rewrite bool_decide_false, andb_false_r by done. by rewrite IH.
Qed.

(** The first occurrence is replaced and the scan goes on after it with
    one replacement less. *)
Lemma replace1_first c new n l1 l2 :
  c ∉ l1 →
  replace1 c new (Some (S n)) (l1 ++ c :: l2) =
    l1 ++ new ++ replace1 c new (Some n) l2.
Proof.
  induction l1 as [|x l1 IH]; intros Hl1; cbn.
  - by rewrite bool_decide_true.
  - apply not_elem_of_cons in Hl1 as [Hx Hl1].
    rewrite bool_decide_false by done. cbn. by rewrite IH.
Qed.

Lemma replace1_first_unlimited c new l1 l2 :
  c ∉ l1 →
  replace1 c new None (l1 ++ c :: l2) = l1 ++ new ++ replace1 c new None l2.
Proof.
  intros Hl1. rewrite replace1_app, (replace1_absent _ _ _ l1) by done.
  cbn. by rewrite bool_decide_true.
Qed.

(** No occurrence of the pattern is left, unless the replacement brings
    one. *)
Lemma replace1_removes c new s : c ∉ new → c ∉ replace1 c new None s.
Proof.
  intros Hnew. rewrite replace1_unlimited, list_elem_of_bind.
  intros (x & Hx & _). case_decide; [done|].
  by apply list_elem_of_singleton in Hx.
Qed.

(** Each occurrence trades one element for the replacement. *)
Lemma length_replace1 c new s :
  (length (replace1 c new None s) + occurrences c s =
     length s + occurrences c s * length new)%nat.
Proof.
  induction s as [|x s IH]; [done|]. rewrite occurrences_cons. cbn.
  case_bool_decide; case_decide; try done; cbn; rewrite ?length_app; lia.
Qed.

(** Replacing all occurrences changes nothing only when there is none. *)
Lemma replace1_fixpoint c new s :
  c ∉ new → replace1 c new None s = s ↔ c ∉ s.
Proof.
  intros Hnew. split; [|apply replace1_absent].
  intros Hs. rewrite <-Hs. by apply replace1_removes.
Qed.

(** A limit of one and no limit give the same text exactly when the
    pattern occurs at most once. *)
Lemma replace1_once_all c new s :
  c ∉ new →
  replace1 c new (Some 1%nat) s = replace1 c new None s
    ↔ (occurrences c s ≤ 1)%nat.
Proof.
  intros Hnew. destruct (decide (c ∈ s)) as [Hin|Hin].
  - apply list_elem_of_split_l in Hin as (l1 & l2 & -> & Hl1).
    rewrite replace1_first, replace1_first_unlimited, replace1_exhausted by done.
    rewrite occurrences_app, occurrences_cons, decide_True by done.
    apply occurrences_zero in Hl1 as ->. split.
    + intros Heq. do 2 apply (inj (app _)) in Heq. symmetry in Heq.
      apply replace1_fixpoint, occurrences_zero in Heq; [lia|done].
    + intros Hle. rewrite (replace1_absent _ _ _ l2); [done|].
      apply occurrences_zero. lia.
  - rewrite !replace1_absent by done. apply occurrences_zero in Hin.
    split; [lia|done].
Qed.

(** A replacement keeps what holds of every character of the text and
    of the new text. *)
Lemma Forall_replace1 (P : A → Prop) c new count s :
  Forall P new → Forall P s → Forall P (replace1 c new count s).
Proof.
  intros Hnew Hs. revert count.
  induction Hs as [|x s Hx _ IH]; intros count; cbn; [constructor|].
  destruct (more count && bool_decide (x = c)).
  - apply Forall_app. auto.
  - constructor; auto.
Qed.

(** And back, when the replaced character has the property too. *)
Lemma Forall_replace1_inv (P : A → Prop) c new count s :
  P c → Forall P (replace1 c new count s) → Forall P s.
Proof.
  intros Hc. revert count. induction s as [|x s IH]; intros count; cbn; [done|].
  destruct (more count && bool_decide (x = c)) eqn:Hx.
  - intros [_ Hs]%Forall_app. apply andb_prop in Hx as [_ ->%bool_decide_eq_true_1].
    constructor; eauto.
  - intros [? ?]%Forall_cons. constructor; eauto.
Qed.
End replace_lemmas.

#[export] Hint Rewrite @occurrences_nil @occurrences_app : zoo_len.

(** * Properties of [rstrip] *)

Section rstrip.
Context {A : Type} `{EqDecision A}.
Implicit Types (c x : A) (s : list A).

Lemma rstrip_snoc_ne c s x : x ≠ c → rstrip c (s ++ [x]) = s ++ [x].
Proof.
  intros Hx. induction s as [|y s IH]; cbn.
  - by rewrite decide_False.
  - rewrite IH. by destruct s.
Qed.

Lemma rstrip_snoc_eq c s : rstrip c (s ++ [c]) = rstrip c s.
Proof.
  induction s as [|y s IH]; cbn.
  - by rewrite decide_True.
  - by rewrite IH.
Qed.

(** Text that does not end in [c] is kept whole. *)
Lemma rstrip_id c s : last s ≠ Some c → rstrip c s = s.
Proof.
  destruct s as [|x s _] using rev_ind; [done|].
  rewrite last_snoc. intros Hx. apply rstrip_snoc_ne. congruence.
Qed.

Lemma last_rstrip c s : last (rstrip c s) ≠ Some c.
Proof.
  induction s as [|x s IH] using rev_ind; [done|].
  destruct (decide (x = c)) as [->|Hx].
  - by rewrite rstrip_snoc_eq.
  - rewrite rstrip_snoc_ne, last_snoc by done. congruence.
Qed.

Lemma rstrip_idemp c s : rstrip c (rstrip c s) = rstrip c s.
Proof. apply rstrip_id, last_rstrip. Qed.

Lemma rstrip_prefix c s : rstrip c s `prefix_of` s.
Proof.
  induction s as [|x s IH] using rev_ind; [done|].
  destruct (decide (x = c)) as [->|Hx].
  - rewrite rstrip_snoc_eq. by apply prefix_app_r.
  - by rewrite rstrip_snoc_ne.
Qed.

(** Only copies of [c] are dropped. *)
Lemma rstrip_replicate c s : ∃ n, s = rstrip c s ++ replicate n c.
Proof.
  induction s as [|x s [n IH]] using rev_ind; [by exists 0%nat|].
  destruct (decide (x = c)) as [->|Hx].
  - exists (S n). rewrite rstrip_snoc_eq.
    rewrite IH at 1. by rewrite <-app_assoc, <-replicate_cons_app.
  - exists 0%nat. by rewrite rstrip_snoc_ne, app_nil_r.
Qed.

Lemma rstrip_cons_ne c x s : x ≠ c → rstrip c (x :: s) = x :: rstrip c s.
Proof. intros Hx. cbn. destruct (rstrip c s); [by rewrite decide_False|done]. Qed.

(** Padding is looked for in the last part only, unless that part is
    all padding. *)
Lemma rstrip_app_r c s1 s2 :
  rstrip c s2 ≠ [] → rstrip c (s1 ++ s2) = s1 ++ rstrip c s2.
Proof.
  intros Hs2. induction s1 as [|x s1 IH]; [done|]. cbn. rewrite IH.
  destruct s1; [by destruct (rstrip c s2)|done].
Qed.

Lemma elem_of_rstrip c s x : x ∈ rstrip c s → x ∈ s.
Proof. intros Hx. by eapply elem_of_prefix; [|apply (rstrip_prefix c)]. Qed.

Lemma Forall_rstrip (P : A → Prop) c s : Forall P s → Forall P (rstrip c s).
Proof.
  rewrite !list.Forall_forall. intros Hs x Hx. by apply Hs, (elem_of_rstrip c).
Qed.
End rstrip.
