(* ===== verification/Numpy.v ===== *)
(** * numpy: fixed-width unicode arrays and [numpy.char.replace]

    The scalar [make_id_str] passes a Python string through
    [numpy.char.replace] and formats the 0-d array it returns.  numpy
    keeps strings in fixed-width unicode arrays, in which trailing NUL
    code points are padding: a string read back from an array has lost
    them.  [np_str] is that conversion; [np_char_replace] applies it to
    each argument and to the result of the element-wise [str.replace]. *)

From stdpp Require Import strings.
From S2P Require Import Prelude PyStr.

#[local] Open Scope Z_scope.

(** * Definitions *)

(** The string a fixed-width unicode array holds for [s]. *)
Definition np_str (s : pystr) : pystr := rstrip 0 s.

(** [numpy.char.replace(a, old, new)] on a 0-d array. *)
Definition np_char_replace (a old new : pystr) : pystr :=
  np_str (replace (np_str old) (np_str new) None (np_str a)).

(** The f-string field [{a}] of a 0-d unicode array: the string it
    holds. *)
Definition format_ndarray (a : pystr) : pystr := np_str a.

(** * Properties of [np_str] and [np_char_replace] *)

Section numpy.
Implicit Types (a old new s : pystr) (c z : Z).

Lemma np_str_id s : last s ≠ Some 0 → np_str s = s.
Proof. apply rstrip_id. Qed.

(** Trailing NUL code points are padding. *)
Lemma np_str_padding s n : np_str (s ++ replicate n 0) = np_str s.
Proof.
  unfold np_str. induction n as [|n IH]; [by rewrite app_nil_r|].
  by rewrite replicate_S_end, app_assoc, rstrip_snoc_eq.
Qed.

Lemma np_str_idemp s : np_str (np_str s) = np_str s.
Proof. apply rstrip_idemp. Qed.

Lemma last_np_str s : last (np_str s) ≠ Some 0.
Proof. apply last_rstrip. Qed.

Lemma np_str_app s1 s2 :
  s2 ≠ [] → last s2 ≠ Some 0 → np_str (s1 ++ s2) = s1 ++ s2.
Proof.
  intros Hne Hlast. apply np_str_id.
  destruct s2 as [|x s2 _] using rev_ind; [done|].
  by rewrite app_assoc, last_snoc in *.
Qed.

(** The last character of a replaced text comes from the text or from
    the replacement. *)
Lemma last_replace1 c new s z :
  new ≠ [] → last new ≠ Some z → last s ≠ Some z →
  last (replace1 c new None s) ≠ Some z.
Proof.
  intros Hne Hnew. destruct s as [|x s _] using rev_ind; [done|].
  rewrite last_snoc, replace1_app. intros Hx. cbn.
  case_bool_decide; cbn.
  - rewrite app_nil_r. destruct new as [|y new _] using rev_ind; [done|].
    by rewrite app_assoc, last_snoc in *.
  - rewrite last_snoc. congruence.
Qed.

(** Replacing hyphens through numpy is the direct scan over the stored
    string. *)
Lemma np_char_replace_hyphen a :
  np_char_replace a (lit "-") (lit "NEG") =
    replace1 hyphen (lit "NEG") None (np_str a).
Proof.
  unfold np_char_replace.
  change (np_str (lit "-")) with [hyphen].
  change (np_str (lit "NEG")) with (lit "NEG").
  rewrite replace_singleton. apply np_str_id.
  apply last_replace1; [done|by compute|apply last_np_str].
Qed.
End numpy.
