(* ===== verification/IdStr.v ===== *)
(** * The scalar [make_id_str]

    Models the first method registered under [make_id_str] in
    src/src/zootasks_utils/_src/upload_utils.py (lines 41-68):

    - the positional parameters [tile_index : int | str],
      [object_id : str] and [release_name : str | None];
    - [prefix], the release name and an underscore, or nothing;
    - [obj_id], the object id with its hyphens replaced through
      [numpy.char.replace];
    - the result, [prefix] followed by the f-string
      [{tile_index}_{obj_id}].

    The two methods of the sources share one name; here each has a
    module of its own, [Scalar] in this file and [Batch] in
    [IdStrBatch]. *)

From stdpp Require Import strings.
From S2P Require Import Prelude PyStr Numpy.

#[local] Open Scope Z_scope.

Module Scalar.

(** * Definitions *)

(** [tile_index: int | str].  [bool] is a subclass of [int], so a boolean
    matches the annotation too; it is formatted as [True] or [False]. *)
Inductive tile_index : Type :=
  | TileInt (n : Z)
  | TileBool (b : bool)
  | TileStr (s : pystr).

#[export] Instance tile_index_eq_dec : EqDecision tile_index.
Proof. solve_decision. Defined.

(** The f-string field [{tile_index}]: [format(tile_index, "")]. *)
Definition format_tile (t : tile_index) : pystr :=
  match t with
  | TileInt n => str_of_int n
  | TileBool b => str_of_bool b
  | TileStr s => s
  end.

(** Line 64: [f"{release_name}_" if release_name is not None else ""]. *)
Definition prefix (release_name : option pystr) : pystr :=
  match release_name with
  | Some r => r ++ lit "_"
  | None => lit ""
  end.

(** Line 66: [np.char.replace(object_id, "-", "NEG")]. *)
Definition obj_id (object_id : pystr) : pystr :=
  np_char_replace object_id (lit "-") (lit "NEG").

(** Lines 63-68, with the parameters of lines 42-44. *)
Definition make_id_str
    (tile : tile_index) (object_id : pystr) (release_name : option pystr)
    : pystr :=
  prefix release_name ++ (format_tile tile ++ lit "_" ++ format_ndarray (obj_id object_id)).

(** The text the documentation gives for the function: the release
    prefix, the tile index, and the object id with every hyphen spelled
    [NEG]. *)
Definition neg_hyphens (object_id : pystr) : pystr :=
  object_id ≫= λ c, if decide (c = hyphen) then lit "NEG" else [c].

Definition id_str_spec
    (tile : pystr) (object_id : pystr) (release_name : option pystr) : pystr :=
  match release_name with
  | Some r => r ++ [underscore] ++ tile ++ [underscore] ++ neg_hyphens object_id
  | None => tile ++ [underscore] ++ neg_hyphens object_id
  end.

(** * The object id *)

Section obj_id.
Implicit Types (o s : pystr) (c : Z).

Lemma neg_hyphens_replace1 o :
  neg_hyphens o = replace1 hyphen (lit "NEG") None o.
Proof. symmetry. apply replace1_unlimited. Qed.

Lemma neg_hyphens_app o1 o2 :
  neg_hyphens (o1 ++ o2) = neg_hyphens o1 ++ neg_hyphens o2.
Proof. apply bind_app. Qed.

Lemma hyphen_not_in_neg_hyphens o : hyphen ∉ neg_hyphens o.
Proof. rewrite neg_hyphens_replace1. by apply replace1_removes; by_compute. Qed.

Lemma length_neg_hyphens o :
  length (neg_hyphens o) = (length o + 2 * occurrences hyphen o)%nat.
Proof.
  rewrite neg_hyphens_replace1.
  pose proof (length_replace1 hyphen (lit "NEG") o) as Hlen.
  change (length (lit "NEG")) with 3%nat in Hlen. lia.
Qed.

Lemma neg_hyphens_absent o : hyphen ∉ o → neg_hyphens o = o.
Proof. rewrite neg_hyphens_replace1. apply replace1_absent. Qed.

(** What the f-string reads from the array: every hyphen of the stored
    object id spelled [NEG]. *)
Lemma format_obj_id o : format_ndarray (obj_id o) = neg_hyphens (np_str o).
Proof.
  unfold format_ndarray, obj_id. rewrite np_char_replace_hyphen.
  rewrite neg_hyphens_replace1. apply np_str_id.
  apply last_replace1; [done|by compute|apply last_np_str].
Qed.
End obj_id.

(** The result with the replacement written as a scan of the stored
    object id. *)
Lemma make_id_str_replace1 (t : tile_index) (o : pystr) (rel : option pystr) :
  make_id_str t o rel =
    prefix rel ++ format_tile t ++ lit "_"
      ++ replace1 hyphen (lit "NEG") None (np_str o).
Proof. unfold make_id_str. by rewrite format_obj_id, neg_hyphens_replace1. Qed.

(** The identifier is valid text exactly when its three parts are. *)
Lemma make_id_str_scalar (t : tile_index) (o : pystr) (rel : option pystr) :
  Forall is_scalar (make_id_str t o rel) ↔
  Forall is_scalar (format_tile t) ∧ Forall is_scalar (np_str o)
  ∧ ∀ r, rel = Some r → Forall is_scalar r.
Proof.
  rewrite make_id_str_replace1, !Forall_app.
  assert (Forall is_scalar (lit "_")) as Hu by by_compute.
  assert (Forall is_scalar (replace1 hyphen (lit "NEG") None (np_str o))
          ↔ Forall is_scalar (np_str o)) as ->.
  { split; [apply Forall_replace1_inv|apply Forall_replace1]; by_compute. }
  destruct rel as [r|]; cbn [prefix]; rewrite ?Forall_app; [|naive_solver].
  split; [intros ((?&?)&?&?&?); split_and!; [done..|by intros ? [= <-]]|].
  intros (?&?&Hr). split_and!; auto.
Qed.

(** * The identifier *)

Section make_id_str.
Implicit Types (t : tile_index) (o r s : pystr) (rel : option pystr).

(** The method, with the prefix unfolded and the replacement carried
    out. *)
Lemma make_id_str_unfold t o rel :
  make_id_str t o rel = id_str_spec (format_tile t) (np_str o) rel.
Proof.
  unfold make_id_str, id_str_spec, prefix. rewrite format_obj_id.
  destruct rel as [r|]; [|done]. by rewrite <-app_assoc.
Qed.

(** C1: for every tile index, object id and release name, the scalar
    [make_id_str] returns the release name and an underscore (when a
    release name is given), the formatted tile index, an underscore, and
    the object id as numpy stores it with every hyphen replaced by
    [NEG]. *)
Theorem make_id_str_format t o rel :
  make_id_str t o rel = id_str_spec (format_tile t) (np_str o) rel.
Proof. apply make_id_str_unfold. Qed.

(** C4: when the object id does not end in a NUL code point, the result
    is exactly the documented format
    [[release_]tile_object-with-NEG-for-hyphens]. *)
Theorem make_id_str_spec t o rel :
  last o ≠ Some 0 →
  make_id_str t o rel = id_str_spec (format_tile t) o rel.
Proof. intros Ho. by rewrite make_id_str_unfold, np_str_id. Qed.

Lemma make_id_str_spec_witness :
  make_id_str (TileInt 12345) (lit "abc-123") (Some (lit "Q1_R1"))
  = lit "Q1_R1_12345_abcNEG123".
Proof.
  rewrite (make_id_str_spec (TileInt 12345) (lit "abc-123") (Some (lit "Q1_R1")));
    [reflexivity|by compute].
Defined.

(** An integer tile index and its decimal text give the same
    identifier. *)
Theorem make_id_str_int_text (n : Z) o rel :
  make_id_str (TileInt n) o rel = make_id_str (TileStr (str_of_int n)) o rel.
Proof. done. Qed.

(** The release name is a prefix added to the identifier built without
    it. *)
Lemma make_id_str_release t o r :
  make_id_str t o (Some r) = r ++ [underscore] ++ make_id_str t o None.
Proof. unfold make_id_str, prefix. by rewrite <-app_assoc. Qed.

(** C24: no hyphen of the object id reaches the identifier: when the tile
    index and the release name contain none, neither does the result. *)
Theorem make_id_str_no_hyphen t o rel :
  hyphen ∉ format_tile t → hyphen ∉ prefix rel →
  hyphen ∉ make_id_str t o rel.
Proof.
  intros Ht Hr. unfold make_id_str. rewrite format_obj_id.
  rewrite !not_elem_of_app. split_and!; [done..| |apply hyphen_not_in_neg_hyphens].
  by_compute.
Qed.

Lemma make_id_str_no_hyphen_witness :
  hyphen ∉ make_id_str (TileInt 12345) (lit "a-b-c") (Some (lit "Q1_R1")).
Proof.
  apply (make_id_str_no_hyphen (TileInt 12345) (lit "a-b-c") (Some (lit "Q1_R1")));
    by_compute.
Defined.

(** C29: the length of the identifier: each hyphen of the stored object
    id adds two characters. *)
Theorem length_make_id_str t o rel :
  length (make_id_str t o rel) =
    (length (prefix rel) + length (format_tile t) + 1
     + length (np_str o) + 2 * occurrences hyphen (np_str o))%nat.
Proof.
  unfold make_id_str. rewrite format_obj_id, !length_app, length_neg_hyphens.
  change (length (lit "_")) with 1%nat. lia.
Qed.

(** C28: with an integer tile index and no release name the identifier
    determines the tile index and the replaced object id. *)
Theorem make_id_str_tile_inj (n1 n2 : Z) o1 o2 :
  make_id_str (TileInt n1) o1 None = make_id_str (TileInt n2) o2 None →
  n1 = n2 ∧ neg_hyphens (np_str o1) = neg_hyphens (np_str o2).
Proof.
  rewrite !make_id_str_unfold. cbn. intros Heq.
  apply app_sep_inj in Heq as [Hn Ho]; [|apply underscore_not_in_str_of_int..].
  by apply (inj str_of_int) in Hn.
Qed.

Lemma make_id_str_tile_inj_witness :
  12345 = 12345 ∧
  neg_hyphens (np_str (lit "a-b")) = neg_hyphens (np_str (lit "aNEGb")).
Proof.
  apply (make_id_str_tile_inj 12345 12345 (lit "a-b") (lit "aNEGb")).
  reflexivity.
Defined.

(** C27: the identifier is not injective in the object id: an id with a
    hyphen and the id that spells it [NEG] collide. *)
Theorem make_id_str_collision t o1 o2 rel :
  make_id_str t (o1 ++ lit "-" ++ o2) rel
  = make_id_str t (o1 ++ lit "NEG" ++ o2) rel.
Proof.
  rewrite !make_id_str_unfold.
  enough (neg_hyphens (np_str (o1 ++ lit "-" ++ o2))
          = neg_hyphens (np_str (o1 ++ lit "NEG" ++ o2))) as Heq
    by (unfold id_str_spec; by rewrite Heq).
  unfold np_str. cbn [lit app].
  rewrite !rstrip_app_r by (by rewrite rstrip_cons_ne).
  rewrite !rstrip_cons_ne by done. by rewrite !neg_hyphens_app.
Qed.

(** C38: NUL code points at the end of the object id do not reach the
    identifier: numpy reads them as padding. *)
Theorem make_id_str_padding t o rel (n : nat) :
  make_id_str t (o ++ replicate n 0) rel = make_id_str t o rel.
Proof. by rewrite !make_id_str_unfold, np_str_padding. Qed.

End make_id_str.

End Scalar.
