(* ===== verification/Decimal.v ===== *)
(** * Termination of integer formatting

    The f-string field [{tile_index}] of line 68 of
    src/src/zootasks_utils/_src/upload_utils.py formats an [int] in
    decimal.  [PyStr.str_of_int] produces the digits with a loop that
    divides by ten and is bounded by fuel, the bit length of the number.
    This file gives the loop without fuel, [digits], by well-founded
    recursion on the number, and shows that the fuel of [PyStr] is
    enough: the two agree on every integer, more fuel changes nothing,
    and the number of steps taken is the number of decimal digits, which
    is at most the bit length. *)

From Equations Require Import Equations.
From stdpp Require Import strings.
From S2P Require Import Prelude PyStr Numpy IdStr.

#[local] Open Scope Z_scope.

(** * Definitions *)

(** The unfolding equation of [digits] is proved from its proof of
    termination alone, without function extensionality. *)
#[local] Unset Equations With Funext.

(** The decimal digits of a positive [n], most significant first; no
    digit for [n ≤ 0].  Each call divides by ten. *)
Equations? digits (n : Z) : pystr by wf (Z.to_nat n) lt :=
  digits n with decide (n ≤ 0) := {
    | left _ => [];
    | right _ => digits (n / 10) ++ [digit_char (n mod 10)] }.
Proof. apply Z2Nat.inj_lt; [apply Z.div_pos; lia|lia|apply Z.div_lt; lia]. Qed.

(** [str(z)] without fuel. *)
Definition decimal (z : Z) : pystr :=
  if decide (z = 0) then [zero_char]
  else if decide (z < 0) then hyphen :: digits (- z) else digits z.

(** The number of divisions the loop makes on [n]. *)
Definition steps (n : Z) : nat := length (digits n).

(** * The loop *)

Section digits.
Implicit Types (n z : Z) (fuel : nat).

Lemma digits_nonpos n : n ≤ 0 → digits n = [].
Proof. intros Hn. rewrite digits_equation_1. by destruct (decide (n ≤ 0)). Qed.

Lemma digits_pos n :
  0 < n → digits n = digits (n / 10) ++ [digit_char (n mod 10)].
Proof.
  intros Hn. rewrite digits_equation_1. destruct (decide (n ≤ 0)); [lia|done].
Qed.

Lemma steps_pos n : 0 < n → steps n = S (steps (n / 10)).
Proof. intros Hn. unfold steps. rewrite digits_pos, length_app by done. cbn. lia. Qed.

(** A number of [k] steps is below [10 ^ k]: the loop ends after as many
    steps as the number has decimal digits. *)
Lemma steps_bound n : n < 10 ^ Z.of_nat (steps n).
Proof.
  funelim (digits n); [unfold steps; rewrite digits_nonpos by done; cbn; lia|].
  rewrite steps_pos, Nat2Z.inj_succ, Z.pow_succ_r by lia.
  pose proof (Z.div_mod n 10). pose proof (Z.mod_pos_bound n 10). lia.
Qed.

Lemma steps_lower n : 0 < n → 10 ^ (Z.of_nat (steps n) - 1) ≤ n.
Proof.
  funelim (digits n); [lia|]. intros _.
  rewrite steps_pos, Nat2Z.inj_succ by lia.
  replace (Z.succ (Z.of_nat (steps (n / 10))) - 1)
    with (Z.of_nat (steps (n / 10))) by lia.
  destruct (decide (n / 10 ≤ 0)) as [Hsmall|Hbig].
  - unfold steps. rewrite digits_nonpos by done. cbn. lia.
  - specialize (H ltac:(lia)).
    replace (Z.of_nat (steps (n / 10)))
      with (Z.succ (Z.of_nat (steps (n / 10)) - 1)) by lia.
    rewrite Z.pow_succ_r by (pose proof (steps_pos (n / 10)); lia).
    pose proof (Z.div_mod n 10). pose proof (Z.mod_pos_bound n 10). lia.
Qed.

(** The loop with fuel is the loop without, as soon as the fuel covers
    the steps. *)
Lemma digits_go_digits_wf fuel n :
  (steps n ≤ fuel)%nat → digits_go fuel n [] = digits n.
Proof.
  revert n. induction fuel as [|fuel IH]; intros n Hf.
  - unfold steps in Hf. destruct (digits n); [done|cbn in Hf; lia].
  - destruct (decide (n ≤ 0)); [by rewrite digits_go_zero, digits_nonpos|].
    rewrite digits_go_step, digits_pos, IH by lia || (rewrite steps_pos in Hf; lia).
    done.
Qed.

(** The bit length is at least the number of decimal digits. *)
Lemma steps_digits_fuel n : (steps n ≤ digits_fuel n)%nat.
Proof.
  destruct (decide (n ≤ 0)) as [|Hn].
  { unfold steps. rewrite digits_nonpos by done. cbn. lia. }
  pose proof (steps_lower n ltac:(lia)) as Hlow.
  pose proof (digits_fuel_enough n ltac:(lia)) as Hup.
  destruct (decide (steps n ≤ digits_fuel n)%nat) as [|Hgt]; [done|exfalso].
  assert (2 ^ Z.of_nat (digits_fuel n) ≤ 10 ^ (Z.of_nat (steps n) - 1)); [|lia].
  transitivity (10 ^ Z.of_nat (digits_fuel n)).
  - apply Z.pow_le_mono_l. lia.
  - apply Z.pow_le_mono_r; lia.
Qed.

Lemma str_of_int_decimal z : str_of_int z = decimal z.
Proof.
  unfold str_of_int, decimal, str_of_nonneg.
  repeat case_decide; try lia; try done;
    by rewrite digits_go_digits_wf by apply steps_digits_fuel.
Qed.
End digits.

(** * Theorems *)

(** Formatting an integer tile index terminates: the digit loop of
    [str(int)] needs no fuel.  Its result is the well-founded
    [decimal], and the loop bounded by any fuel that is at least the bit
    length of the number gives the same digits. *)
Theorem format_tile_terminates (n : Z) (fuel : nat) :
  0 < n → (digits_fuel n ≤ fuel)%nat →
  Scalar.format_tile (Scalar.TileInt n) = decimal n
  ∧ digits_go fuel n [] = Scalar.format_tile (Scalar.TileInt n).
Proof.
  intros Hn Hf. cbn [Scalar.format_tile]. rewrite str_of_int_decimal.
  split; [done|]. unfold decimal. rewrite !decide_False by lia.
  apply digits_go_digits_wf. pose proof (steps_digits_fuel n). lia.
Qed.

Lemma format_tile_terminates_witness :
  Scalar.format_tile (Scalar.TileInt 12345) = decimal 12345
  ∧ digits_go 64 12345 [] = Scalar.format_tile (Scalar.TileInt 12345).
Proof. apply (format_tile_terminates 12345 64); [lia|vm_compute; lia]. Defined.

(** The number of characters of a formatted positive tile index is
    its number of decimal digits [k], with [10 ^ (k - 1) ≤ n < 10 ^ k]. *)
Theorem length_format_tile (n : Z) :
  0 < n →
  10 ^ (Z.of_nat (length (Scalar.format_tile (Scalar.TileInt n))) - 1) ≤ n
    < 10 ^ Z.of_nat (length (Scalar.format_tile (Scalar.TileInt n))).
Proof.
  intros Hn. cbn [Scalar.format_tile]. rewrite str_of_int_decimal.
  unfold decimal. rewrite !decide_False by lia.
  split; [by apply steps_lower|apply steps_bound].
Qed.

Lemma length_format_tile_witness :
  10 ^ (Z.of_nat (length (Scalar.format_tile (Scalar.TileInt 12345))) - 1) ≤ 12345
    < 10 ^ Z.of_nat (length (Scalar.format_tile (Scalar.TileInt 12345))).
Proof. apply (length_format_tile 12345). lia. Defined.
