(* ===== verification/DigitLimit.v ===== *)
(** * The interpreter's limit on the digits of an integer

    The f-string field [{tile_index}] of line 68 of
    src/src/zootasks_utils/_src/upload_utils.py converts an [int] to
    decimal text.  Since CPython 3.11 that conversion raises ValueError
    when the integer has more decimal digits than
    [sys.get_int_max_str_digits()], 4300 unless configured, and 0 for no
    limit.  [IdStr] models the conversion as total; this file adds the
    limit:

    - [IntLimit] is the configured limit, as a class;
    - [num_digits] counts the digits of the text, without the sign;
    - [Limited.make_id_str] is the scalar method under the limit: it
      raises where line 68 does and returns what [Scalar.make_id_str]
      returns otherwise.

    The data-frame method is not concerned: its integers are cast to
    Int64 and have at most 19 digits, below the least limit CPython
    accepts (640). *)

From stdpp Require Import strings.
From S2P Require Import Prelude PyStr Numpy IdStr Decimal.

#[local] Open Scope Z_scope.

(** * Definitions *)

(** [sys.get_int_max_str_digits()].  CPython accepts 0 or at least 640
    as a limit; the class admits every number, and the theorems hold
    for each. *)
Class IntLimit : Type := int_max_str_digits : nat.

(** The limit of an interpreter that is not configured. *)
Definition default_limit : IntLimit := 4300%nat.

(** [sys.set_int_max_str_digits(0)] *)
Definition no_limit : IntLimit := 0%nat.

(** The digits of [str(z)], without the sign. *)
Definition num_digits (z : Z) : nat := length (str_of_nonneg (Z.abs z)).

(** The conversion of [z] is refused. *)
Definition exceeds `{IntLimit} (z : Z) : Prop :=
  int_max_str_digits ≠ 0%nat ∧ (int_max_str_digits < num_digits z)%nat.

#[export] Instance exceeds_dec `{IntLimit} z : Decision (exceeds z) := _.

Module Limited.

(** [str(z)] *)
Definition str_checked `{IntLimit} (z : Z) : result pystr :=
  if decide (exceeds z) then Err ValueError else Ok (str_of_int z).

(** The f-string field [{tile_index}]. *)
Definition format_tile `{IntLimit} (t : Scalar.tile_index) : result pystr :=
  match t with
  | Scalar.TileInt n => str_checked n
  | _ => Ok (Scalar.format_tile t)
  end.

(** Lines 63-68, with the parameters of lines 42-44. *)
Definition make_id_str `{IntLimit}
    (tile : Scalar.tile_index) (object_id : pystr) (release_name : option pystr)
    : result pystr :=
  let prefix := Scalar.prefix release_name in
  let obj_id := Scalar.obj_id object_id in
  field ← format_tile tile;
  Ok (prefix ++ (field ++ lit "_" ++ format_ndarray obj_id)).

End Limited.

(** * Digits *)

Section digits.
Implicit Types (z n : Z) (k : nat).

Lemma num_digits_0 : num_digits 0 = 1%nat.
Proof. done. Qed.

Lemma num_digits_steps z : z ≠ 0 → num_digits z = steps (Z.abs z).
Proof.
  intros Hz. unfold num_digits, str_of_nonneg. rewrite decide_False by lia.
  by rewrite digits_go_digits_wf by apply steps_digits_fuel.
Qed.

(** A number has more than [k] digits exactly from [10 ^ k] on. *)
Lemma num_digits_gt z k : (k < num_digits z)%nat ↔ k = 0%nat ∨ 10 ^ Z.of_nat k ≤ Z.abs z.
Proof.
  destruct (decide (z = 0)) as [->|Hz].
  { rewrite num_digits_0. cbn. pose proof (Z.pow_pos_nonneg 10 (Z.of_nat k)). lia. }
  rewrite num_digits_steps by done.
  pose proof (steps_bound (Z.abs z)) as Hup.
  pose proof (steps_lower (Z.abs z) ltac:(lia)) as Hlow.
  destruct (decide (k = 0%nat)) as [->|Hk].
  { split; [by left|intros _]. destruct (steps (Z.abs z)); [cbn in Hup|]; lia. }
  split.
  - intros Hlt. right. etrans; [|exact Hlow]. apply Z.pow_le_mono_r; lia.
  - intros [?|Hle]; [done|].
    apply Nat2Z.inj_lt, (Z.pow_lt_mono_r_iff 10); lia.
Qed.

Lemma exceeds_iff `{IntLimit} z :
  exceeds z ↔
  int_max_str_digits ≠ 0%nat ∧ 10 ^ Z.of_nat int_max_str_digits ≤ Z.abs z.
Proof. unfold exceeds. rewrite num_digits_gt. naive_solver. Qed.
End digits.

(** * The scalar method under the limit *)

Section limited.
Context `{IntLimit}.
Implicit Types (t : Scalar.tile_index) (o : pystr) (rel : option pystr) (n : Z).

Lemma format_tile_Ok t s :
  Limited.format_tile t = Ok s → s = Scalar.format_tile t.
Proof.
  destruct t; cbn; [|congruence..]. unfold Limited.str_checked.
  case_decide; congruence.
Qed.

(** Only an integer tile index can be refused. *)
Lemma make_id_str_int n o rel :
  Limited.make_id_str (Scalar.TileInt n) o rel =
    if decide (exceeds n) then Err ValueError
    else Ok (Scalar.make_id_str (Scalar.TileInt n) o rel).
Proof.
  unfold Limited.make_id_str, Limited.format_tile, Limited.str_checked.
  by case_decide.
Qed.

Lemma make_id_str_other t o rel :
  (∀ n, t ≠ Scalar.TileInt n) →
  Limited.make_id_str t o rel = Ok (Scalar.make_id_str t o rel).
Proof. by destruct t as [n| |]; [intros Ht; destruct (Ht n)|..]. Qed.

(** An integer that fits 64 bits is never refused: it has at most 19
    digits, and a limit is 0 or at least 640. *)
Lemma int64_not_exceeds n :
  (int_max_str_digits = 0 ∨ 19 ≤ int_max_str_digits)%nat →
  - 2 ^ 63 ≤ n < 2 ^ 63 → ¬ exceeds n.
Proof.
  intros Hl Hn [Hne Hex%num_digits_gt]. destruct Hex as [?|Hex]; [done|].
  assert (10 ^ 19 ≤ 10 ^ Z.of_nat int_max_str_digits)
    by (apply Z.pow_le_mono_r; lia).
  lia.
Qed.

(** C17: the scalar method under the interpreter's limit on integer
    digits raises ValueError exactly for an integer tile index of
    absolute value [10 ^ limit] or more, when a limit is set, and
    returns the identifier of [Scalar.make_id_str] in every other case:
    for a smaller integer, for a Boolean, and for text of any length. *)
Theorem make_id_str_limit t o rel :
  Limited.make_id_str t o rel =
    match t with
    | Scalar.TileInt n =>
        if decide (int_max_str_digits ≠ 0%nat
                   ∧ 10 ^ Z.of_nat int_max_str_digits ≤ Z.abs n)
        then Err ValueError
        else Ok (Scalar.make_id_str t o rel)
    | _ => Ok (Scalar.make_id_str t o rel)
    end.
Proof.
  destruct t as [n| |]; [|by apply make_id_str_other..].
  rewrite make_id_str_int.
  destruct (decide (exceeds n)) as [He|He]; rewrite exceeds_iff in He;
    [by rewrite decide_True|by rewrite decide_False].
Qed.

(** The boundary: with a limit of [k] digits, [10 ^ k - 1] and its
    negation are the last integers formatted, [10 ^ k] and its negation
    the first refused, and the digits of [10 ^ k] pass as text. *)
Theorem make_id_str_boundary o rel :
  int_max_str_digits ≠ 0%nat →
  Limited.make_id_str (Scalar.TileInt (10 ^ Z.of_nat int_max_str_digits - 1)) o rel
    = Ok (Scalar.make_id_str
            (Scalar.TileInt (10 ^ Z.of_nat int_max_str_digits - 1)) o rel)
  ∧ Limited.make_id_str (Scalar.TileInt (10 ^ Z.of_nat int_max_str_digits)) o rel
    = Err ValueError
  ∧ Limited.make_id_str (Scalar.TileInt (- 10 ^ Z.of_nat int_max_str_digits)) o rel
    = Err ValueError
  ∧ Limited.make_id_str
      (Scalar.TileStr (str_of_int (10 ^ Z.of_nat int_max_str_digits))) o rel
    = Ok (Scalar.make_id_str
            (Scalar.TileInt (10 ^ Z.of_nat int_max_str_digits)) o rel).
Proof.
  intros Hl. generalize (Z.pow_pos_nonneg 10 (Z.of_nat int_max_str_digits)).
  pose proof (exceeds_iff (10 ^ Z.of_nat int_max_str_digits - 1)) as H1.
  pose proof (exceeds_iff (10 ^ Z.of_nat int_max_str_digits)) as H2.
  pose proof (exceeds_iff (- 10 ^ Z.of_nat int_max_str_digits)) as H3.
  revert H1 H2 H3. generalize (10 ^ Z.of_nat int_max_str_digits).
  intros N H1 H2 H3 HN. rewrite !make_id_str_int.
  rewrite decide_False, !decide_True by (rewrite ?H1, ?H2, ?H3; lia).
  by split_and!.
Qed.
End limited.

Lemma make_id_str_boundary_witness :
  Limited.make_id_str (H := default_limit) (Scalar.TileInt (10 ^ Z.of_nat 4300 - 1))
      (lit "obj1") None
    = Ok (Scalar.make_id_str (Scalar.TileInt (10 ^ Z.of_nat 4300 - 1)) (lit "obj1") None)
  ∧ Limited.make_id_str (H := default_limit) (Scalar.TileInt (10 ^ Z.of_nat 4300))
      (lit "obj1") None
    = Err ValueError
  ∧ Limited.make_id_str (H := default_limit) (Scalar.TileInt (- 10 ^ Z.of_nat 4300))
      (lit "obj1") None
    = Err ValueError
  ∧ Limited.make_id_str (H := default_limit)
      (Scalar.TileStr (str_of_int (10 ^ Z.of_nat 4300))) (lit "obj1") None
    = Ok (Scalar.make_id_str (Scalar.TileInt (10 ^ Z.of_nat 4300)) (lit "obj1") None).
Proof.
  apply (make_id_str_boundary (H := default_limit) (lit "obj1") None).
  discriminate.
Defined.
