(* ===== verification/Utf8.v ===== *)
(** * UTF-8: [str.encode()] and [bytes.decode()]

    [get_hash_id] calls [str.encode()] with its defaults: UTF-8, strict
    error handling.  A code point below [0x80] is one byte, below
    [0x800] two, below [0x10000] three, and four otherwise; a surrogate
    raises UnicodeEncodeError at its position.

    [decode] is the strict decoder of the same codec.  It refuses
    overlong forms, surrogates and values above [0x10FFFF], and is used
    here to state that encoding loses nothing. *)

From S2P Require Import Prelude PyStr.

#[local] Open Scope Z_scope.

(** * Definitions *)

(** The bytes of one code point; [None] for a surrogate and for an
    integer that is no code point. *)
Definition encode_char (c : codepoint) : option bytes :=
  if decide (c < 0) then None
  else if decide (c < 0x80) then Some [c]
  else if decide (c < 0x800) then
    Some [0xC0 + c / 64; 0x80 + c mod 64]
  else if decide (is_surrogate c) then None
  else if decide (c < 0x10000) then
    Some [0xE0 + c / 4096; 0x80 + (c / 64) mod 64; 0x80 + c mod 64]
  else if decide (c ≤ 0x10FFFF) then
    Some [0xF0 + c / 262144; 0x80 + (c / 4096) mod 64;
          0x80 + (c / 64) mod 64; 0x80 + c mod 64]
  else None.

(** Encoding from position [i]: the first code point without an
    encoding raises at its index. *)
Fixpoint encode_from (i : nat) (s : pystr) : result bytes :=
  match s with
  | [] => Ok []
  | c :: s' =>
      match encode_char c with
      | Some bs => (bs ++.) <$> encode_from (S i) s'
      | None => Err (UnicodeEncodeError i)
      end
  end.

(** [s.encode()] *)
Definition encode (s : pystr) : result bytes := encode_from 0 s.

(** A continuation byte [10xxxxxx]. *)
Definition is_cont (b : Z) : Prop := 0x80 ≤ b < 0xC0.

#[export] Instance is_cont_dec b : Decision (is_cont b) := _.

(** Decoding from byte position [i]. *)
Fixpoint decode_from (i : nat) (bs : bytes) : result pystr :=
  let fail := Err (UnicodeDecodeError i) in
  match bs with
  | [] => Ok []
  | b0 :: rest =>
      if decide (0 ≤ b0 < 0x80) then (b0 ::.) <$> decode_from (1 + i) rest
      else if decide (0xC2 ≤ b0 < 0xE0) then
        match rest with
        | b1 :: rest =>
            if decide (is_cont b1)
            then (((b0 - 0xC0) * 64 + (b1 - 0x80)) ::.)
                   <$> decode_from (2 + i) rest
            else fail
        | _ => fail
        end
      else if decide (0xE0 ≤ b0 < 0xF0) then
        match rest with
        | b1 :: b2 :: rest =>
            let c := (b0 - 0xE0) * 4096 + (b1 - 0x80) * 64 + (b2 - 0x80) in
            if decide (is_cont b1 ∧ is_cont b2 ∧ 0x800 ≤ c ∧ ¬ is_surrogate c)
            then (c ::.) <$> decode_from (3 + i) rest
            else fail
        | _ => fail
        end
      else if decide (0xF0 ≤ b0 < 0xF5) then
        match rest with
        | b1 :: b2 :: b3 :: rest =>
            let c := (b0 - 0xF0) * 262144 + (b1 - 0x80) * 4096
                     + (b2 - 0x80) * 64 + (b3 - 0x80) in
            if decide (is_cont b1 ∧ is_cont b2 ∧ is_cont b3
                       ∧ 0x10000 ≤ c ≤ 0x10FFFF)
            then (c ::.) <$> decode_from (4 + i) rest
            else fail
        | _ => fail
        end
      else fail
  end.

(** [bs.decode()] *)
Definition decode (bs : bytes) : result pystr := decode_from 0 bs.

(** * One code point *)

(** Linear arithmetic with the equations of division and modulo. *)
#[local] Ltac zdm :=
  unfold is_scalar, is_codepoint, is_surrogate, is_cont, is_byte, is_ascii in *;
  Z.div_mod_to_equations; lia.

(** Settles the tests of a branch from the bounds in the context. *)
#[local] Ltac settle :=
  repeat first
    [ rewrite decide_True by zdm
    | rewrite decide_False by zdm ].

Section encode_char.
Implicit Types (c : Z) (bs rest : bytes) (i : nat).

(** A code point has an encoding exactly when it is a scalar value. *)
Lemma encode_char_is_Some c : is_Some (encode_char c) ↔ is_scalar c.
Proof.
  unfold encode_char.
  repeat case_decide; (split; [intros [? ?]; simplify_eq; zdm|intros ?]);
    first [by eexists | exfalso; zdm].
Qed.

Lemma encode_char_None c : encode_char c = None ↔ ¬ is_scalar c.
Proof. by rewrite <-encode_char_is_Some, eq_None_not_Some. Qed.

Lemma encode_char_ascii c : is_ascii c → encode_char c = Some [c].
Proof. intros Hc. unfold encode_char. by settle. Qed.

Lemma encode_char_bytes c bs : encode_char c = Some bs → Forall is_byte bs.
Proof.
  unfold encode_char. intros Hc.
  repeat case_decide; simplify_eq; repeat constructor; zdm.
Qed.

Lemma encode_char_length c bs :
  encode_char c = Some bs → (1 ≤ length bs ≤ 4)%nat.
Proof.
  unfold encode_char. intros Hc. repeat case_decide; simplify_eq/=; lia.
Qed.

(** The decoder reads back one encoded code point and goes on behind
    it. *)
Lemma decode_encode_char c bs rest i :
  encode_char c = Some bs →
  decode_from i (bs ++ rest) = (c ::.) <$> decode_from (length bs + i) rest.
Proof.
  unfold encode_char. intros Hc.
  repeat case_decide; simplify_eq; cbn [app decode_from length]; settle;
    try done; do 2 f_equal; zdm.
Qed.
End encode_char.

(** * Text *)

Section encode.
Implicit Types (c : Z) (s : pystr) (b bs : bytes) (i j : nat).

Lemma encode_from_cons_Ok i c s b :
  encode_from i (c :: s) = Ok b ↔
  ∃ bc b', encode_char c = Some bc ∧ encode_from (S i) s = Ok b' ∧ b = bc ++ b'.
Proof.
  cbn. destruct (encode_char c) as [bc|]; [|naive_solver].
  rewrite fmap_Ok_iff. naive_solver.
Qed.

(** Success, and the bytes produced, do not depend on the start
    position: it only labels the error. *)
Lemma encode_from_Ok_shift i j s b :
  encode_from i s = Ok b → encode_from j s = Ok b.
Proof.
  revert i j b. induction s as [|c s IH]; intros i j b; [done|].
  rewrite !encode_from_cons_Ok. intros (bc & b' & ? & ?%(IH _ (S j)) & ?).
  eauto.
Qed.

(** Encoding succeeds exactly on text made of scalar values. *)
Lemma encode_from_is_Ok i s : is_Ok (encode_from i s) ↔ Forall is_scalar s.
Proof.
  revert i. induction s as [|c s IH]; intros i.
  - split; [constructor|by eexists].
  - rewrite Forall_cons, <-encode_char_is_Some, <-(IH (S i)). cbn.
    destruct (encode_char c); [rewrite is_Ok_fmap|];
      unfold is_Ok, is_Some; naive_solver.
Qed.

(** The error names the first code point that is not a scalar value. *)
Lemma encode_from_Err i s e :
  encode_from i s = Err e ↔
  ∃ k c, e = UnicodeEncodeError (i + k) ∧ s !! k = Some c
         ∧ ¬ is_scalar c ∧ Forall is_scalar (take k s).
Proof.
  revert i. induction s as [|c s IH]; intros i; cbn.
  - split; [done|]. by intros (k & c & _ & ? & _).
  - destruct (encode_char c) as [bc|] eqn:Hc.
    + assert (is_scalar c) by (apply encode_char_is_Some; eauto).
      rewrite fmap_Err_iff, IH. split.
      * intros (k & c' & -> & ? & ? & ?). exists (S k), c'.
        split_and!; [f_equal; lia|done..|by constructor].
      * intros ([|k] & c' & -> & Hk & ? & Ht); simplify_eq/=; [done|].
        apply Forall_cons in Ht as [_ Ht]. exists k, c'.
        split_and!; [f_equal; lia|done..].
    + apply encode_char_None in Hc. split.
      * intros [= <-]. exists 0%nat, c.
        split_and!; [f_equal; lia|done..|constructor].
      * intros ([|k] & c' & -> & Hk & ? & Ht); simplify_eq/=.
        -- f_equal. f_equal. lia.
        -- by apply Forall_cons in Ht as [? _].
Qed.

Lemma encode_from_app i s1 s2 :
  encode_from i (s1 ++ s2) =
    b1 ← encode_from i s1; b2 ← encode_from (i + length s1) s2; Ok (b1 ++ b2).
Proof.
  revert i. induction s1 as [|c s1 IH]; intros i; cbn.
  - rewrite Nat.add_0_r. by destruct (encode_from i s2).
  - destruct (encode_char c) as [bc|]; [|done]. rewrite IH.
    replace (S i + length s1)%nat with (i + S (length s1))%nat by lia.
    destruct (encode_from (S i) s1); [|done]. cbn.
    destruct (encode_from _ s2); [|done]. cbn. by rewrite app_assoc.
Qed.

Lemma encode_from_ascii i s : Forall is_ascii s → encode_from i s = Ok s.
Proof.
  intros Hs. revert i. induction Hs as [|c s Hc _ IH]; intros i; [done|].
  cbn. by rewrite encode_char_ascii, IH.
Qed.

Lemma encode_from_bytes i s b : encode_from i s = Ok b → Forall is_byte b.
Proof.
  revert i b. induction s as [|c s IH]; intros i b.
  - intros [= <-]. constructor.
  - intros (bc & b' & ?%encode_char_bytes & ?%IH & ->)%encode_from_cons_Ok.
    by apply Forall_app.
Qed.

Lemma encode_from_length i s b :
  encode_from i s = Ok b → (length s ≤ length b ≤ 4 * length s)%nat.
Proof.
  revert i b. induction s as [|c s IH]; intros i b.
  - intros [= <-]. cbn. lia.
  - intros (bc & b' & ?%encode_char_length & ?%IH & ->)%encode_from_cons_Ok.
    rewrite length_app. cbn. lia.
Qed.

(** Round trip: decoding the encoding gives the text back. *)
Lemma decode_encode_from i j s b :
  encode_from i s = Ok b → decode_from j b = Ok s.
Proof.
  revert i j b. induction s as [|c s IH]; intros i j b.
  - by intros [= <-].
  - intros (bc & b' & Hc & Hs & ->)%encode_from_cons_Ok.
    rewrite (decode_encode_char c) by done. by erewrite IH.
Qed.
End encode.
