(* ===== verification/Sha256.v ===== *)
(** * SHA-256 and [hexdigest]

    [get_hash_id] hashes with [hashlib.sha256] and returns
    [.hexdigest()].  This file holds the algorithm as FIPS 180-4 gives
    it, on byte strings:

    - 32-bit words are integers in [0, 2^32); every sum is reduced
      modulo [2^32] where the standard says so ([add32]), rotations and
      shifts are written with [Z.shiftr], [Z.shiftl] and [Z.lor];
    - [pad] appends the bit 1, zero bits and the 64-bit length;
    - [schedule] expands the sixteen words of a block to sixty-four;
    - [round] is one step of the compression function on the eight
      working variables, [compress] all sixty-four;
    - [process_block] adds the compressed block to the hash value;
    - [sha256] runs the blocks from the initial hash value and lays the
      eight words out big-endian.

    [Digest] is what a caller may rely on without knowing the
    algorithm: the digest is a byte string of a fixed size. *)

From S2P Require Import Prelude PyStr.

#[local] Open Scope Z_scope.

(** * Words *)

Definition wrap32 (x : Z) : Z := x mod 2 ^ 32.

Definition add32 (x y : Z) : Z := wrap32 (x + y).

Definition not32 (x : Z) : Z := Z.lxor x 0xFFFFFFFF.

(** Rotate and shift right, section 3.2 of the standard. *)
Definition rotr (n x : Z) : Z :=
  Z.lor (Z.shiftr x n) (wrap32 (Z.shiftl x (32 - n))).

Definition shr (n x : Z) : Z := Z.shiftr x n.

(** The six logical functions, section 4.1.2. *)
Definition Ch (x y z : Z) : Z := Z.lxor (Z.land x y) (Z.land (not32 x) z).

Definition Maj (x y z : Z) : Z :=
  Z.lxor (Z.lxor (Z.land x y) (Z.land x z)) (Z.land y z).

Definition bsig0 (x : Z) : Z := Z.lxor (Z.lxor (rotr 2 x) (rotr 13 x)) (rotr 22 x).

Definition bsig1 (x : Z) : Z := Z.lxor (Z.lxor (rotr 6 x) (rotr 11 x)) (rotr 25 x).

Definition ssig0 (x : Z) : Z := Z.lxor (Z.lxor (rotr 7 x) (rotr 18 x)) (shr 3 x).

Definition ssig1 (x : Z) : Z := Z.lxor (Z.lxor (rotr 17 x) (rotr 19 x)) (shr 10 x).

(** The constants of the standard are the first 32 bits of the
    fractional parts of square and cube roots of the first primes.
    [root_bits k b n r] adds to [r], from bit [b - 1] down, every bit
    that keeps its [k]-th power at most [n]: with [r = 0] and [2^b] above
    the root it is the integer [k]-th root of [n]. *)
Fixpoint root_bits (k : Z) (b : nat) (n r : Z) : Z :=
  match b with
  | O => r
  | S b' =>
      let r' := r + 2 ^ Z.of_nat b' in
      root_bits k b' n (if decide (r' ^ k ≤ n) then r' else r)
  end.

(** The first 32 bits of the fractional part of the [k]-th root of
    [p], for [p] below [2^8]. *)
Definition frac_root (k p : Z) : Z :=
  wrap32 (root_bits k 40 (p * 2 ^ (32 * k)) 0).

Definition is_prime (p : Z) : bool :=
  forallb (λ d, negb (p mod Z.of_nat d =? 0)) (seq 2 (Z.to_nat p - 2)).

(** The first [n] primes, for [n] up to 64. *)
Definition first_primes (n : nat) : list Z :=
  take n (filter (λ p, is_prime p = true) (Z.of_nat <$> seq 2 310)).

(** The round constants, section 4.2.2. *)
Definition K256 : list Z := frac_root 3 <$> first_primes 64.

(** * Bytes and words *)

(** The [n] low-order bytes of [x], most significant first. *)
Fixpoint be_bytes (n : nat) (x : Z) : bytes :=
  match n with
  | O => []
  | S n => (x / 256 ^ Z.of_nat n) mod 256 :: be_bytes n x
  end.

(** The integer a byte string denotes, big-endian. *)
Definition be_word (bs : bytes) : Z := foldl (λ acc b, acc * 256 + b) 0 bs.

(** The 32-bit words of a byte string, four bytes each. *)
Fixpoint words_of (n : nat) (bs : bytes) : list Z :=
  match n with
  | O => []
  | S n => be_word (take 4 bs) :: words_of n (drop 4 bs)
  end.

(** * Padding, section 5.1.1 *)

(** The number of zero bytes after the byte [0x80]. *)
Definition pad_zeros (len : nat) : nat := Z.to_nat ((55 - Z.of_nat len) mod 64).

Definition pad (msg : bytes) : bytes :=
  msg ++ [0x80] ++ replicate (pad_zeros (length msg)) 0
      ++ be_bytes 8 ((8 * Z.of_nat (length msg)) mod 2 ^ 64).

(** The [n] blocks of 64 bytes of a padded message. *)
Fixpoint blocks_of (n : nat) (bs : bytes) : list bytes :=
  match n with
  | O => []
  | S n => take 64 bs :: blocks_of n (drop 64 bs)
  end.

Definition blocks (bs : bytes) : list bytes := blocks_of (length bs / 64) bs.

(** * The hash computation, section 6.2.2 *)

(** The eight working variables, and the eight words of a hash value. *)
Record hash_state : Type := HashState {
  va : Z; vb : Z; vc : Z; vd : Z; ve : Z; vf : Z; vg : Z; vh : Z
}.

(** The initial hash value, section 5.3.3. *)
Definition H0 : hash_state :=
  let h i := frac_root 2 (first_primes 8 !!! i) in
  HashState (h 0%nat) (h 1%nat) (h 2%nat) (h 3%nat)
            (h 4%nat) (h 5%nat) (h 6%nat) (h 7%nat).

(** Step 1: [n] more words of the message schedule, each from the words
    2, 7, 15 and 16 places before it. *)
Fixpoint expand (n : nat) (w : list Z) : list Z :=
  match n with
  | O => w
  | S n =>
      let t := length w in
      expand n
        (w ++ [add32 (add32 (add32 (ssig1 (w !!! (t - 2)%nat)) (w !!! (t - 7)%nat))
                            (ssig0 (w !!! (t - 15)%nat)))
                     (w !!! (t - 16)%nat)])
  end.

Definition schedule (block : bytes) : list Z := expand 48 (words_of 16 block).

(** Step 3: one round, with its constant and its schedule word. *)
Definition round (s : hash_state) (kw : Z * Z) : hash_state :=
  let t1 :=
    add32 (add32 (add32 (add32 (vh s) (bsig1 (ve s))) (Ch (ve s) (vf s) (vg s)))
                 kw.1) kw.2 in
  let t2 := add32 (bsig0 (va s)) (Maj (va s) (vb s) (vc s)) in
  HashState (add32 t1 t2) (va s) (vb s) (vc s)
            (add32 (vd s) t1) (ve s) (vf s) (vg s).

Definition compress (s : hash_state) (w : list Z) : hash_state :=
  foldl round s (zip K256 w).

(** Step 4: the next hash value. *)
Definition add_state (s t : hash_state) : hash_state :=
  HashState (add32 (va s) (va t)) (add32 (vb s) (vb t))
            (add32 (vc s) (vc t)) (add32 (vd s) (vd t))
            (add32 (ve s) (ve t)) (add32 (vf s) (vf t))
            (add32 (vg s) (vg t)) (add32 (vh s) (vh t)).

Definition process_block (s : hash_state) (block : bytes) : hash_state :=
  add_state s (compress s (schedule block)).

Definition state_words (s : hash_state) : list Z :=
  [va s; vb s; vc s; vd s; ve s; vf s; vg s; vh s].

Definition state_bytes (s : hash_state) : bytes :=
  state_words s ≫= be_bytes 4.

(** [hashlib.sha256(msg).digest()] *)
Definition sha256 (msg : bytes) : bytes :=
  state_bytes (foldl process_block H0 (blocks (pad msg))).

(** * Hexadecimal digests *)

(** One lowercase hexadecimal digit, [0-9a-f]. *)
Definition hex_digit (d : Z) : codepoint :=
  if decide (d < 10) then 48 + d else 87 + d.

Definition hex_byte (b : Z) : pystr := [hex_digit (b / 16); hex_digit (b mod 16)].

(** [.hexdigest()] of a digest. *)
Definition hexdigest (bs : bytes) : pystr := bs ≫= hex_byte.

Definition is_hex_lower (c : codepoint) : Prop :=
  48 ≤ c ≤ 57 ∨ 97 ≤ c ≤ 102.

#[export] Instance is_hex_lower_dec c : Decision (is_hex_lower c) := _.

(** * Well-formedness *)

Definition is_word32 (x : Z) : Prop := 0 ≤ x < 2 ^ 32.

#[export] Instance is_word32_dec x : Decision (is_word32 x) := _.

(** Every word of a hash value is a 32-bit word. *)
Definition state_ok (s : hash_state) : Prop := Forall is_word32 (state_words s).

#[export] Instance state_ok_dec s : Decision (state_ok s) := _.

(** * The interface of a hash algorithm

    What [hashlib] promises of every algorithm: [digest] maps a byte
    string to a byte string of [digest_size] bytes. *)

Class Digest : Type := {
  digest : bytes → bytes;
  digest_size : nat;
  digest_length msg : length (digest msg) = digest_size;
  digest_bytes msg : Forall is_byte (digest msg);
}.

(** * Words stay words *)

Create HintDb word32.

Section words.
Implicit Types (x y z n : Z).

Lemma wrap32_word x : is_word32 (wrap32 x).
Proof. by apply Z_mod_pow2_range. Qed.

Lemma wrap32_id x : is_word32 x → wrap32 x = x.
Proof. intros Hx. by apply Z.mod_small. Qed.

Lemma add32_word x y : is_word32 (add32 x y).
Proof. apply wrap32_word. Qed.

Lemma add32_comm x y : add32 x y = add32 y x.
Proof. unfold add32. by rewrite Z.add_comm. Qed.

(** With no carry out of the word, [add32] is the sum. *)
Lemma add32_no_carry x y : is_word32 (x + y) → add32 x y = x + y.
Proof. apply wrap32_id. Qed.

(** With a carry, it is the sum less [2^32]. *)
Lemma add32_carry x y :
  is_word32 x → is_word32 y → 2 ^ 32 ≤ x + y → add32 x y = x + y - 2 ^ 32.
Proof.
  unfold add32, wrap32, is_word32. intros Hx Hy Hc.
  symmetry. apply (Z.mod_unique _ _ 1); lia.
Qed.

Lemma lor_word x y : is_word32 x → is_word32 y → is_word32 (Z.lor x y).
Proof. by apply Z_lor_below. Qed.

Lemma lxor_word x y : is_word32 x → is_word32 y → is_word32 (Z.lxor x y).
Proof. by apply Z_lxor_below. Qed.

Lemma land_word x y : is_word32 x → is_word32 y → is_word32 (Z.land x y).
Proof. by apply Z_land_below. Qed.

Lemma not32_word x : is_word32 x → is_word32 (not32 x).
Proof. intros Hx. by apply lxor_word. Qed.

Lemma shr_word n x : 0 ≤ n → is_word32 x → is_word32 (shr n x).
Proof. intros Hn Hx. by apply Z_shiftr_below. Qed.

Lemma rotr_word n x : 0 ≤ n → is_word32 x → is_word32 (rotr n x).
Proof.
  intros Hn Hx. apply lor_word; [by apply Z_shiftr_below|apply wrap32_word].
Qed.
End words.

#[export] Hint Resolve wrap32_word add32_word lor_word lxor_word land_word
  not32_word shr_word rotr_word : word32.

#[export] Hint Extern 1 (0 ≤ _) => lia : word32.

Section functions.
Implicit Types (x y z : Z).

Lemma Ch_word x y z : is_word32 x → is_word32 y → is_word32 z → is_word32 (Ch x y z).
Proof. unfold Ch. auto with word32. Qed.

Lemma Maj_word x y z :
  is_word32 x → is_word32 y → is_word32 z → is_word32 (Maj x y z).
Proof. unfold Maj. auto with word32. Qed.

Lemma bsig0_word x : is_word32 x → is_word32 (bsig0 x).
Proof. unfold bsig0. auto 7 with word32. Qed.

Lemma bsig1_word x : is_word32 x → is_word32 (bsig1 x).
Proof. unfold bsig1. auto 7 with word32. Qed.

Lemma ssig0_word x : is_word32 x → is_word32 (ssig0 x).
Proof. unfold ssig0. auto 7 with word32. Qed.

Lemma ssig1_word x : is_word32 x → is_word32 (ssig1 x).
Proof. unfold ssig1. auto 7 with word32. Qed.

Lemma frac_root_word k p : is_word32 (frac_root k p).
Proof. apply wrap32_word. Qed.

Lemma K256_words : Forall is_word32 K256.
Proof.
  unfold K256. apply Forall_fmap, Forall_true. intros p. apply frac_root_word.
Qed.

Lemma length_K256 : length K256 = 64%nat.
Proof. by vm_compute. Qed.

(** The tables are those the standard prints: their first and last
    entries. *)
Lemma K256_ends : K256 !! 0%nat = Some 0x428a2f98 ∧ last K256 = Some 0xc67178f2.
Proof. by vm_compute. Qed.

Lemma H0_ends : va H0 = 0x6a09e667 ∧ vh H0 = 0x5be0cd19.
Proof. by vm_compute. Qed.
End functions.

#[export] Hint Resolve Ch_word Maj_word bsig0_word bsig1_word ssig0_word
  ssig1_word : word32.

(** * Bytes of words *)

Section be_bytes.
Implicit Types (x : Z) (n : nat) (bs : bytes).

Lemma length_be_bytes n x : length (be_bytes n x) = n.
Proof. induction n; cbn; auto. Qed.

Lemma be_bytes_bytes n x : Forall is_byte (be_bytes n x).
Proof.
  induction n; cbn; constructor; [|done]. by apply Z.mod_pos_bound.
Qed.

Lemma be_word_snoc bs b : be_word (bs ++ [b]) = be_word bs * 256 + b.
Proof. unfold be_word. by rewrite foldl_app. Qed.

Lemma be_word_cons b bs :
  be_word (b :: bs) = b * 256 ^ Z.of_nat (length bs) + be_word bs.
Proof.
  induction bs as [|c bs IH] using rev_ind; [cbn; lia|].
  rewrite app_comm_cons, !be_word_snoc, IH, length_app. cbn [length].
  rewrite Nat2Z.inj_add, Z.pow_add_r by lia. change (256 ^ Z.of_nat 1) with 256.
  lia.
Qed.

(** A byte string denotes an integer below [256 ^ length]. *)
Lemma be_word_range bs :
  Forall is_byte bs → 0 ≤ be_word bs < 256 ^ Z.of_nat (length bs).
Proof.
  induction 1 as [|b bs Hb _ IH]; [done|]. rewrite be_word_cons.
  cbn [length]. rewrite Nat2Z.inj_succ, Z.pow_succ_r by lia.
  unfold is_byte in Hb. nia.
Qed.

(** The [n] bytes of an integer denote it modulo [256 ^ n]. *)
Lemma be_word_be_bytes_mod n x :
  be_word (be_bytes n x) = x mod 256 ^ Z.of_nat n.
Proof.
  induction n as [|n IH].
  - change (256 ^ Z.of_nat 0) with 1. by rewrite Z.mod_1_r.
  - cbn [be_bytes]. rewrite be_word_cons, length_be_bytes, IH.
    pose proof (Z.pow_pos_nonneg 256 (Z.of_nat n)) as Hp.
    rewrite Nat2Z.inj_succ, Z.pow_succ_r, (Z.mul_comm 256) by lia.
    rewrite Z.rem_mul_r by lia. lia.
Qed.

(** Round trip: the bytes of an integer that fits denote it. *)
Lemma be_word_be_bytes n x :
  0 ≤ x < 256 ^ Z.of_nat n → be_word (be_bytes n x) = x.
Proof. intros Hx. rewrite be_word_be_bytes_mod. by apply Z.mod_small. Qed.
End be_bytes.

#[export] Hint Rewrite length_be_bytes : zoo_len.

(** * The hash value stays well formed *)

Section state.
Implicit Types (s t : hash_state) (w : list Z) (block : bytes).

Lemma state_ok_intro a b c d e f g h :
  is_word32 a → is_word32 b → is_word32 c → is_word32 d →
  is_word32 e → is_word32 f → is_word32 g → is_word32 h →
  state_ok (HashState a b c d e f g h).
Proof.
  intros. unfold state_ok, state_words. cbn.
  rewrite !Forall_cons, Forall_nil. naive_solver.
Qed.

Lemma state_ok_elim s :
  state_ok s →
  is_word32 (va s) ∧ is_word32 (vb s) ∧ is_word32 (vc s) ∧ is_word32 (vd s) ∧
  is_word32 (ve s) ∧ is_word32 (vf s) ∧ is_word32 (vg s) ∧ is_word32 (vh s).
Proof. unfold state_ok, state_words. rewrite !Forall_cons. naive_solver. Qed.

Lemma H0_ok : state_ok H0.
Proof. unfold H0. repeat constructor; apply frac_root_word. Qed.

(** A round writes two sums and moves six words. *)
Lemma round_ok s kw : state_ok s → state_ok (round s kw).
Proof.
  intros (?&?&?&?&?&?&?&?)%state_ok_elim.
  apply state_ok_intro; auto with word32.
Qed.

Lemma compress_ok s w : state_ok s → state_ok (compress s w).
Proof.
  intros Hs. unfold compress. apply (foldl_invariant state_ok); [done|].
  intros. by apply round_ok.
Qed.

Lemma add_state_ok s t : state_ok (add_state s t).
Proof. apply state_ok_intro; apply add32_word. Qed.

Lemma process_block_ok s block : state_ok (process_block s block).
Proof. apply add_state_ok. Qed.

Lemma hash_blocks_ok s (bl : list bytes) :
  state_ok s → state_ok (foldl process_block s bl).
Proof.
  intros Hs. apply (foldl_invariant state_ok); [done|].
  intros. apply process_block_ok.
Qed.

Lemma length_state_bytes s : length (state_bytes s) = 32%nat.
Proof.
  unfold state_bytes. by rewrite (length_bind_const _ 4) by apply length_be_bytes.
Qed.

Lemma state_bytes_bytes s : Forall is_byte (state_bytes s).
Proof. apply Forall_bind_list. intros x. apply be_bytes_bytes. Qed.

Lemma words_of_app n (b rest : bytes) :
  length b = 4%nat → words_of (S n) (b ++ rest) = be_word b :: words_of n rest.
Proof. intros Hb. cbn. by rewrite take_app_length', drop_app_length'. Qed.

Lemma be_word_be_bytes4 (x : Z) : is_word32 x → be_word (be_bytes 4 x) = x.
Proof. intros Hx. apply be_word_be_bytes. exact Hx. Qed.

Lemma state_bytes_unfold s :
  state_bytes s =
    be_bytes 4 (va s) ++ be_bytes 4 (vb s) ++ be_bytes 4 (vc s) ++
    be_bytes 4 (vd s) ++ be_bytes 4 (ve s) ++ be_bytes 4 (vf s) ++
    be_bytes 4 (vg s) ++ be_bytes 4 (vh s) ++ [].
Proof. reflexivity. Qed.

(** The words of a well-formed hash value are read back from its
    bytes. *)
Lemma words_of_state_bytes s :
  state_ok s → words_of 8 (state_bytes s) = state_words s.
Proof.
  intros (?&?&?&?&?&?&?&?)%state_ok_elim.
  rewrite state_bytes_unfold, !words_of_app by apply length_be_bytes.
  rewrite !be_word_be_bytes4 by assumption. reflexivity.
Qed.
End state.

#[export] Hint Resolve H0_ok round_ok compress_ok add_state_ok
  process_block_ok hash_blocks_ok : word32.

(** * Padding and blocks *)

Section padding.
Implicit Types (msg bs : bytes) (n len : nat).

Lemma pad_zeros_lt len : (pad_zeros len < 64)%nat.
Proof.
  unfold pad_zeros. pose proof (Z.mod_pos_bound (55 - Z.of_nat len) 64). lia.
Qed.

Lemma length_pad msg :
  length (pad msg) = (length msg + 9 + pad_zeros (length msg))%nat.
Proof.
  unfold pad. rewrite !length_app, length_replicate, length_be_bytes.
  cbn [length]. lia.
Qed.

(** The padded message is a whole number of 64-byte blocks. *)
Lemma length_pad_blocks msg : (length (pad msg) mod 64 = 0)%nat.
Proof.
  rewrite length_pad. unfold pad_zeros.
  generalize (length msg). intros len.
  pose proof (Z.mod_pos_bound (55 - Z.of_nat len) 64).
  apply Nat2Z.inj. rewrite Nat2Z.inj_mod, !Nat2Z.inj_add, Z2Nat.id by lia.
  change (Z.of_nat 64) with 64. change (Z.of_nat 9) with 9.
  change (Z.of_nat 0) with 0. Z.div_mod_to_equations. lia.
Qed.

(** It is at least nine bytes and at most seventy-two bytes longer than
    the message. *)
Lemma length_pad_bounds msg :
  (length msg + 9 ≤ length (pad msg) ≤ length msg + 72)%nat.
Proof. rewrite length_pad. pose proof (pad_zeros_lt (length msg)). lia. Qed.

Lemma pad_prefix msg : msg `prefix_of` pad msg.
Proof. by apply prefix_app_r. Qed.

Lemma pad_bytes msg : Forall is_byte msg → Forall is_byte (pad msg).
Proof.
  intros Hm. unfold pad. rewrite !Forall_app. split_and!; [done|..].
  - by repeat constructor.
  - by apply Forall_replicate.
  - apply be_bytes_bytes.
Qed.

Lemma length_blocks_of n bs : length (blocks_of n bs) = n.
Proof. revert bs. induction n; intros bs; cbn; auto. Qed.

(** Cutting into blocks loses nothing when the length is a multiple of
    64. *)
Lemma concat_blocks_of n bs :
  length bs = (64 * n)%nat → concat (blocks_of n bs) = bs.
Proof.
  revert bs. induction n as [|n IH]; intros bs Hlen; cbn.
  - by destruct bs.
  - rewrite IH by (rewrite length_drop; lia). apply take_drop.
Qed.

Lemma blocks_of_length n bs :
  length bs = (64 * n)%nat → Forall (λ b, length b = 64%nat) (blocks_of n bs).
Proof.
  revert bs. induction n as [|n IH]; intros bs Hlen; cbn; constructor.
  - rewrite length_take. lia.
  - apply IH. rewrite length_drop. lia.
Qed.

Lemma concat_blocks_pad msg : concat (blocks (pad msg)) = pad msg.
Proof.
  unfold blocks. apply concat_blocks_of.
  pose proof (length_pad_blocks msg) as Hm.
  pose proof (Nat.div_mod_eq (length (pad msg)) 64). lia.
Qed.

(** The message is the front of its padding, and the last eight bytes
    are its length in bits. *)
Lemma take_pad msg : take (length msg) (pad msg) = msg.
Proof. unfold pad. by rewrite take_app_length. Qed.

Lemma pad_length_field msg :
  drop (length msg + 1 + pad_zeros (length msg)) (pad msg) =
    be_bytes 8 ((8 * Z.of_nat (length msg)) mod 2 ^ 64).
Proof.
  unfold pad. rewrite !app_assoc. apply drop_app_length'.
  rewrite !length_app, length_replicate. cbn. lia.
Qed.

(** Padding loses nothing: two messages of less than [2^64] bits with
    the same padding are the same message. *)
Lemma pad_inj msg1 msg2 :
  8 * Z.of_nat (length msg1) < 2 ^ 64 → 8 * Z.of_nat (length msg2) < 2 ^ 64 →
  pad msg1 = pad msg2 → msg1 = msg2.
Proof.
  intros H1 H2 Hpad.
  assert (length msg1 = length msg2) as Hlen.
  { pose proof (f_equal length Hpad) as Hl. rewrite !length_pad in Hl.
    pose proof (pad_length_field msg1) as Hf1.
    pose proof (pad_length_field msg2) as Hf2.
    rewrite Hpad in Hf1. replace (length msg1 + 1 + pad_zeros (length msg1))%nat
      with (length msg2 + 1 + pad_zeros (length msg2))%nat in Hf1 by lia.
    rewrite Hf2 in Hf1. apply (f_equal be_word) in Hf1.
    rewrite !be_word_be_bytes_mod in Hf1. change (256 ^ Z.of_nat 8) with (2 ^ 64) in Hf1.
    rewrite !Z.mod_mod, !Z.mod_small in Hf1 by lia. lia. }
  rewrite <-(take_pad msg1), <-(take_pad msg2), Hpad. by rewrite Hlen.
Qed.

(** So does cutting into blocks. *)
Lemma blocks_pad_inj msg1 msg2 :
  8 * Z.of_nat (length msg1) < 2 ^ 64 → 8 * Z.of_nat (length msg2) < 2 ^ 64 →
  blocks (pad msg1) = blocks (pad msg2) → msg1 = msg2.
Proof.
  intros H1 H2 Hb. apply pad_inj; [done..|].
  by rewrite <-(concat_blocks_pad msg1), <-(concat_blocks_pad msg2), Hb.
Qed.
End padding.

(** * The message schedule *)

Section schedule.
Implicit Types (w : list Z) (n : nat) (block : bytes).

Lemma length_words_of n block : length (words_of n block) = n.
Proof. revert block. induction n; intros; cbn; auto. Qed.

Lemma length_expand n w : length (expand n w) = (length w + n)%nat.
Proof.
  revert w. induction n as [|n IH]; intros w; cbn; [lia|].
  rewrite IH, length_app. cbn. lia.
Qed.

Lemma length_schedule block : length (schedule block) = 64%nat.
Proof. unfold schedule. by rewrite length_expand, length_words_of. Qed.

Lemma expand_words n w : Forall is_word32 w → Forall is_word32 (expand n w).
Proof.
  revert w. induction n as [|n IH]; intros w Hw; [done|].
  cbn. apply IH, Forall_app. split; [done|].
  apply Forall_singleton, add32_word.
Qed.

Lemma words_of_words n block :
  Forall is_byte block → Forall is_word32 (words_of n block).
Proof.
  revert block. induction n as [|n IH]; intros block Hb; cbn; constructor.
  - pose proof (be_word_range (take 4 block) (Forall_take _ _ _ Hb)) as Hr.
    rewrite length_take in Hr. unfold is_word32.
    assert (256 ^ Z.of_nat (4 `min` length block) ≤ 2 ^ 32); [|lia].
    change (2 ^ 32) with (256 ^ 4). apply Z.pow_le_mono_r; lia.
  - by apply IH, Forall_drop.
Qed.

Lemma schedule_words block :
  Forall is_byte block → Forall is_word32 (schedule block).
Proof.
  intros Hb. unfold schedule. apply expand_words. apply words_of_words, Hb.
Qed.

(** The expansion keeps the words it starts from. *)
Lemma expand_prefix n w : w `prefix_of` expand n w.
Proof.
  revert w. induction n as [|n IH]; intros w; [done|].
  cbn. etrans; [|apply IH]. by apply prefix_app_r.
Qed.
End schedule.

#[export] Hint Rewrite length_pad length_blocks_of length_words_of
  length_expand length_schedule length_state_bytes : zoo_len.

(** * The digest *)

Section digest.
Implicit Types (msg : bytes).

Lemma length_sha256 msg : length (sha256 msg) = 32%nat.
Proof. apply length_state_bytes. Qed.

Lemma sha256_bytes msg : Forall is_byte (sha256 msg).
Proof. apply state_bytes_bytes. Qed.

(** The number of blocks hashed for a message. *)
Lemma length_blocks_pad msg :
  length (blocks (pad msg)) = ((length msg + 8) / 64 + 1)%nat.
Proof.
  unfold blocks. rewrite length_blocks_of.
  pose proof (length_pad_blocks msg) as Hm.
  pose proof (length_pad_bounds msg) as Hb.
  pose proof (Nat.div_mod_eq (length (pad msg)) 64) as Hd.
  pose proof (Nat.div_mod_eq (length msg + 8) 64) as Hd'.
  pose proof (Nat.mod_upper_bound (length msg + 8) 64). nia.
Qed.

(** The test vectors of the standard: the empty message, one block, and
    a message whose padding needs a second block. *)
Lemma sha256_empty :
  sha256 [] =
    [0xe3; 0xb0; 0xc4; 0x42; 0x98; 0xfc; 0x1c; 0x14;
     0x9a; 0xfb; 0xf4; 0xc8; 0x99; 0x6f; 0xb9; 0x24;
     0x27; 0xae; 0x41; 0xe4; 0x64; 0x9b; 0x93; 0x4c;
     0xa4; 0x95; 0x99; 0x1b; 0x78; 0x52; 0xb8; 0x55].
Proof. vm_compute. reflexivity. Qed.

Lemma sha256_abc :
  sha256 [97; 98; 99] =
    [0xba; 0x78; 0x16; 0xbf; 0x8f; 0x01; 0xcf; 0xea;
     0x41; 0x41; 0x40; 0xde; 0x5d; 0xae; 0x22; 0x23;
     0xb0; 0x03; 0x61; 0xa3; 0x96; 0x17; 0x7a; 0x9c;
     0xb4; 0x10; 0xff; 0x61; 0xf2; 0x00; 0x15; 0xad].
Proof. vm_compute. reflexivity. Qed.
End digest.

#[export] Instance sha256_digest : Digest := {|
  digest := sha256;
  digest_size := 32;
  digest_length := length_sha256;
  digest_bytes := sha256_bytes;
|}.

(** * Hexadecimal digests *)

Section hexdigest.
Implicit Types (b d : Z) (bs : bytes).

Lemma hex_digit_lower d : 0 ≤ d < 16 → is_hex_lower (hex_digit d).
Proof. unfold is_hex_lower, hex_digit. case_decide; lia. Qed.

Lemma hex_digit_inj d1 d2 :
  0 ≤ d1 < 16 → 0 ≤ d2 < 16 → hex_digit d1 = hex_digit d2 → d1 = d2.
Proof. unfold hex_digit. repeat case_decide; lia. Qed.

Lemma hex_byte_lower b : is_byte b → Forall is_hex_lower (hex_byte b).
Proof.
  unfold is_byte, hex_byte. intros Hb.
  apply Forall_cons; split; [|apply Forall_singleton];
    apply hex_digit_lower; Z.div_mod_to_equations; lia.
Qed.

Lemma hex_byte_inj b1 b2 :
  is_byte b1 → is_byte b2 → hex_byte b1 = hex_byte b2 → b1 = b2.
Proof.
  unfold is_byte. intros H1 H2 [= Hhi Hlo].
  apply hex_digit_inj in Hhi, Hlo; Z.div_mod_to_equations; lia.
Qed.

Lemma length_hexdigest bs : length (hexdigest bs) = (2 * length bs)%nat.
Proof. by apply length_bind_const. Qed.

(** A hexadecimal digest is made of the characters [0-9a-f]. *)
Lemma hexdigest_lower bs : Forall is_byte bs → Forall is_hex_lower (hexdigest bs).
Proof.
  induction 1 as [|b bs Hb _ IH]; [constructor|].
  apply Forall_app. split; [by apply hex_byte_lower|done].
Qed.

(** Digests with the same hexadecimal form are equal. *)
Lemma hexdigest_inj bs1 bs2 :
  Forall is_byte bs1 → Forall is_byte bs2 →
  hexdigest bs1 = hexdigest bs2 → bs1 = bs2.
Proof.
  intros H1. revert bs2. induction H1 as [|b1 bs1 Hb1 _ IH];
    intros [|b2 bs2] H2 Heq; try done.
  apply Forall_cons in H2 as [Hb2 H2]. injection Heq as Hhi Hlo Heq.
  f_equal; [|by apply IH].
  apply hex_byte_inj; [done..|]. unfold hex_byte. congruence.
Qed.

(** Digits and lowercase letters only: no uppercase letter. *)
Lemma is_hex_lower_ascii c : is_hex_lower c → is_ascii c.
Proof. unfold is_hex_lower, is_ascii. lia. Qed.
End hexdigest.

#[export] Hint Rewrite length_sha256 length_hexdigest : zoo_len.
