(* ===== verification/HashId.v ===== *)
(** * [get_hash_id]

    Models [get_hash_id] of
    src/src/zootasks_utils/_src/upload_utils.py (lines 12-34):

    - [str_to_hash] (line 30) is the subject id followed by the extra
      key, with no separator;
    - [encoded] (line 32, the argument of [hashlib.sha256]) is its UTF-8
      encoding, which raises on a lone surrogate;
    - [hash_str] (line 32) is the digest of these bytes;
    - the result (line 34) is its hexadecimal form.

    The function is first written for any hash algorithm that meets the
    [Digest] interface of [Sha256] ([get_hash_id_with]), and its
    properties are proved from the interface alone; [get_hash_id] is the
    instance at SHA-256. *)

From stdpp Require Import strings.
From S2P Require Import Prelude PyStr Utf8 Sha256.

#[local] Open Scope Z_scope.

(** * Definitions *)

(** Line 30: [subject_id + extra_key]. *)
Definition str_to_hash (subject_id extra_key : pystr) : pystr :=
  subject_id ++ extra_key.

(** Line 32: [str_to_hash.encode()]. *)
Definition encoded (subject_id extra_key : pystr) : result bytes :=
  encode (str_to_hash subject_id extra_key).

(** Line 32: the hash object's digest. *)
Definition hash_str `{D : Digest} (subject_id extra_key : pystr)
    : result bytes :=
  digest <$> encoded subject_id extra_key.

(** Lines 30-34 for an algorithm [D]. *)
Definition get_hash_id_with (D : Digest) (subject_id extra_key : pystr)
    : result pystr :=
  hexdigest <$> hash_str subject_id extra_key.

(** Lines 12-34. *)
Definition get_hash_id (subject_id extra_key : pystr) : result pystr :=
  get_hash_id_with sha256_digest subject_id extra_key.

(** * Properties from the interface *)

Section with_digest.
Context (D : Digest).
Implicit Types (a k s h : pystr) (b : bytes) (e : exn).

Lemma get_hash_id_with_Ok a k h :
  get_hash_id_with D a k = Ok h ↔
  ∃ b, encode (a ++ k) = Ok b ∧ h = hexdigest (digest b).
Proof.
  unfold get_hash_id_with, hash_str, encoded, str_to_hash.
  rewrite fmap_Ok_iff. setoid_rewrite fmap_Ok_iff. naive_solver.
Qed.

Lemma get_hash_id_with_Err a k e :
  get_hash_id_with D a k = Err e ↔ encode (a ++ k) = Err e.
Proof.
  unfold get_hash_id_with, hash_str, encoded, str_to_hash.
  by rewrite !fmap_Err_iff.
Qed.

Lemma get_hash_id_with_is_Ok a k :
  is_Ok (get_hash_id_with D a k) ↔ Forall is_scalar (a ++ k).
Proof.
  unfold get_hash_id_with, hash_str, encoded, str_to_hash.
  rewrite !is_Ok_fmap. apply encode_from_is_Ok.
Qed.

Lemma length_get_hash_id_with a k h :
  get_hash_id_with D a k = Ok h → length h = (2 * digest_size)%nat.
Proof.
  intros (b & _ & ->)%get_hash_id_with_Ok.
  by rewrite length_hexdigest, digest_length.
Qed.

Lemma get_hash_id_with_lower a k h :
  get_hash_id_with D a k = Ok h → Forall is_hex_lower h.
Proof.
  intros (b & _ & ->)%get_hash_id_with_Ok. apply hexdigest_lower, digest_bytes.
Qed.

Lemma get_hash_id_with_assoc a s k :
  get_hash_id_with D (a ++ s) k = get_hash_id_with D a (s ++ k).
Proof.
  unfold get_hash_id_with, hash_str, encoded, str_to_hash.
  by rewrite <-app_assoc.
Qed.
End with_digest.

(** * What is hashed *)

Section hashed.
Implicit Types (a k : pystr) (b : bytes).

(** The bytes hashed determine the text. *)
Lemma encoded_text a k a' k' b :
  encoded a k = Ok b → encoded a' k' = Ok b → a ++ k = a' ++ k'.
Proof.
  unfold encoded, str_to_hash, encode.
  intros H1%(decode_encode_from _ 0) H2%(decode_encode_from _ 0). congruence.
Qed.

(** Text of less than [2^59] code points is a message of less than
    [2^64] bits. *)
Lemma encoded_short a k b :
  encoded a k = Ok b → Z.of_nat (length (a ++ k)) < 2 ^ 59 →
  8 * Z.of_nat (length b) < 2 ^ 64.
Proof.
  unfold encoded, str_to_hash, encode. intros Hb%encode_from_length Hlen.
  change (2 ^ 64) with (32 * 2 ^ 59). lia.
Qed.
End hashed.

(** * [get_hash_id] *)

Section get_hash_id.
Implicit Types (a k s h : pystr) (b : bytes) (e : exn).

(** C3: [get_hash_id] returns a digest exactly when neither argument
    holds a surrogate code point; otherwise it raises. *)
Theorem get_hash_id_is_Ok a k :
  is_Ok (get_hash_id a k) ↔ Forall is_scalar a ∧ Forall is_scalar k.
Proof. unfold get_hash_id. by rewrite get_hash_id_with_is_Ok, Forall_app. Qed.

(** C7: when [get_hash_id] raises, the exception is UnicodeEncodeError
    at the index, in the concatenated text, of the first code point that
    is not a scalar value; and every such text raises it. *)
Theorem get_hash_id_Err a k e :
  get_hash_id a k = Err e ↔
  ∃ i c, e = UnicodeEncodeError i ∧ (a ++ k) !! i = Some c
         ∧ ¬ is_scalar c ∧ Forall is_scalar (take i (a ++ k)).
Proof.
  unfold get_hash_id. rewrite get_hash_id_with_Err. unfold encode.
  rewrite encode_from_Err. by setoid_rewrite Nat.add_0_l.
Qed.

(** C20: a result of [get_hash_id] has 64 characters, each a digit or a
    lowercase letter from [a] to [f]. *)
Theorem get_hash_id_shape a k h :
  get_hash_id a k = Ok h → length h = 64%nat ∧ Forall is_hex_lower h.
Proof.
  intros Hh. split.
  - by apply (length_get_hash_id_with sha256_digest) in Hh.
  - by apply (get_hash_id_with_lower sha256_digest) in Hh.
Qed.

(** The subject id of the documentation's example, hashed with the
    extra key [release-42]. *)
Theorem get_hash_id_example :
  get_hash_id (lit "Q1_R1_5_obj1") (lit "release-42") =
    Ok (lit "b032a3d8342836bf84a36bdfa0ed3990c1256ad780d99978f929d6445be3af8f").
Proof. vm_compute. reflexivity. Qed.

Lemma get_hash_id_shape_witness :
  length (lit "b032a3d8342836bf84a36bdfa0ed3990c1256ad780d99978f929d6445be3af8f")
    = 64%nat
  ∧ Forall is_hex_lower
      (lit "b032a3d8342836bf84a36bdfa0ed3990c1256ad780d99978f929d6445be3af8f").
Proof.
  exact (get_hash_id_shape (lit "Q1_R1_5_obj1") (lit "release-42") _
           ltac:(vm_compute; reflexivity)).
Defined.

(** C37: only the concatenation is hashed: moving text from the end of
    the subject id to the front of the extra key does not change the
    result. *)
Theorem get_hash_id_assoc a s k :
  get_hash_id (a ++ s) k = get_hash_id a (s ++ k).
Proof. apply get_hash_id_with_assoc. Qed.

(** The bytes that are hashed determine the concatenated text. *)
Theorem encoded_inj a k a' k' b :
  encoded a k = Ok b → encoded a' k' = Ok b → a ++ k = a' ++ k'.
Proof. apply encoded_text. Qed.

(** C33: encoding, padding and cutting into blocks lose nothing: two
    texts of less than [2^59] code points that give SHA-256 the same
    blocks are the same text.  Two different texts with the same hash id
    are therefore a collision of the compression function itself. *)
Theorem hashed_blocks_inj a k a' k' b b' :
  encoded a k = Ok b → encoded a' k' = Ok b' →
  Z.of_nat (length (a ++ k)) < 2 ^ 59 → Z.of_nat (length (a' ++ k')) < 2 ^ 59 →
  blocks (pad b) = blocks (pad b') → a ++ k = a' ++ k'.
Proof.
  intros Hb Hb' Hl Hl' Heq. apply (encoded_text a k a' k' b); [done|].
  rewrite (blocks_pad_inj b b'); eauto using encoded_short.
Qed.

(** On ASCII text nothing can raise, and the bytes hashed are the
    code points themselves. *)
Theorem get_hash_id_ascii a k :
  Forall is_ascii a → Forall is_ascii k →
  get_hash_id a k = Ok (hexdigest (sha256 (a ++ k))).
Proof.
  intros Ha Hk. unfold get_hash_id, get_hash_id_with, hash_str, encoded.
  unfold str_to_hash, encode. by rewrite encode_from_ascii by by apply Forall_app.
Qed.

Lemma encoded_inj_witness : lit "ab" ++ lit "c" = lit "a" ++ lit "bc".
Proof.
  apply (encoded_inj (lit "ab") (lit "c") (lit "a") (lit "bc") [97; 98; 99]);
    vm_compute; reflexivity.
Defined.

Lemma get_hash_id_ascii_witness :
  get_hash_id (lit "Q1_R1_5_obj1") (lit "release-42") =
    Ok (hexdigest (sha256 (lit "Q1_R1_5_obj1" ++ lit "release-42"))).
Proof.
  apply (get_hash_id_ascii (lit "Q1_R1_5_obj1") (lit "release-42")); by_compute.
Defined.

Lemma hashed_blocks_inj_witness : lit "ab" ++ lit "c" = lit "a" ++ lit "bc".
Proof.
  apply (hashed_blocks_inj (lit "ab") (lit "c") (lit "a") (lit "bc")
           [97; 98; 99] [97; 98; 99]); by vm_compute.
Defined.
End get_hash_id.
