(* ===== verification/HashIdAny.v ===== *)
(** * [get_hash_id] on arguments of any type

    The parameters of [get_hash_id] are annotated [str]
    (src/src/zootasks_utils/_src/upload_utils.py, line 12), but the
    function is not dispatched and Python does not check annotations:
    whatever the caller passes reaches line 30.  This file runs the body
    on the built-in values a caller may pass by mistake and shows which
    line stops them:

    - [pyobj]: [None], [bool], [int], [str] and [bytes] values;
    - [py_add] is [+] (line 30): text with text and bytes with bytes
      concatenate, integers and Booleans add as integers, every other
      pair raises TypeError;
    - [py_encode] is [.encode()] (line 32): only text has the method,
      every other value raises AttributeError;
    - [get_hash_id_any] is lines 29-34 on these values. *)

From stdpp Require Import strings.
From S2P Require Import Prelude PyStr Utf8 Sha256 HashId.

#[local] Open Scope Z_scope.

(** * Definitions *)

Inductive pyobj : Type :=
  | PNone
  | PBool (b : bool)
  | PInt (n : Z)
  | PStr (s : pystr)
  | PBytes (bs : bytes).

#[export] Instance pyobj_eq_dec : EqDecision pyobj.
Proof. solve_decision. Defined.

(** The integer a value is in arithmetic: [bool] is a subclass of
    [int]. *)
Definition as_int (v : pyobj) : option Z :=
  match v with
  | PBool b => Some (Z.b2z b)
  | PInt n => Some n
  | _ => None
  end.

(** [x + y] *)
Definition py_add (x y : pyobj) : result pyobj :=
  match x, y with
  | PStr s, PStr t => Ok (PStr (s ++ t))
  | PBytes s, PBytes t => Ok (PBytes (s ++ t))
  | _, _ =>
      match as_int x, as_int y with
      | Some n, Some m => Ok (PInt (n + m))
      | _, _ => Err TypeError
      end
  end.

(** [x.encode()] *)
Definition py_encode (x : pyobj) : result bytes :=
  match x with
  | PStr s => encode s
  | _ => Err (AttributeError (lit "encode"))
  end.

(** Lines 29-34 on any two values. *)
Definition get_hash_id_any (subject_id extra_key : pyobj) : result pystr :=
  str_to_hash ← py_add subject_id extra_key;
  data ← py_encode str_to_hash;
  Ok (hexdigest (sha256 data)).

(** The annotation [str]. *)
Definition is_str (v : pyobj) : Prop := ∃ s, v = PStr s.

#[export] Instance is_str_dec v : Decision (is_str v).
Proof. destruct v; [right..|left|right]; unfold is_str; naive_solver. Defined.

(** The pairs [+] accepts without giving text. *)
Definition adds_to_other (x y : pyobj) : Prop :=
  (is_Some (as_int x) ∧ is_Some (as_int y))
  ∨ ∃ s t, x = PBytes s ∧ y = PBytes t.

(** * Lemmas *)

Section any.
Implicit Types (x y v : pyobj) (a k h : pystr) (e : exn).

Lemma py_add_str x y s :
  py_add x y = Ok (PStr s) ↔ ∃ a k, x = PStr a ∧ y = PStr k ∧ s = a ++ k.
Proof.
  split; [|by intros (a & k & -> & -> & ->)].
  destruct x, y; cbn; try done; try (by destruct b); try (by destruct b, b0).
  intros [= <-]. eauto.
Qed.

Lemma py_add_Ok x y v :
  py_add x y = Ok v →
  (is_str x ∧ is_str y ∧ is_str v) ∨ (adds_to_other x y ∧ ¬ is_str v).
Proof.
  unfold is_str, adds_to_other.
  destruct x, y; cbn; intros Hv; simplify_eq; try (by left; eauto 10);
    right; (split; [|by intros [? ?]]); eauto 10.
Qed.

Lemma py_add_Err x y e :
  py_add x y = Err e ↔
  e = TypeError ∧ ¬ (is_str x ∧ is_str y) ∧ ¬ adds_to_other x y.
Proof.
  unfold is_str, adds_to_other, is_Some.
  destruct x, y; cbn; naive_solver.
Qed.

Lemma get_hash_id_any_text a k :
  get_hash_id_any (PStr a) (PStr k) = get_hash_id a k.
Proof.
  unfold get_hash_id_any, get_hash_id, get_hash_id_with, hash_str, encoded,
    str_to_hash.
  cbn [py_add py_encode mbind result_bind]. by destruct (encode (a ++ k)).
Qed.

(** A pair that [+] accepts without giving text stops at [.encode()]. *)
Lemma get_hash_id_any_other x y :
  adds_to_other x y →
  get_hash_id_any x y = Err (AttributeError (lit "encode")).
Proof.
  unfold get_hash_id_any.
  intros [[[n Hn] [m Hm]]|(s & t & -> & ->)]; [|done].
  by destruct x, y; simplify_eq/=.
Qed.

Lemma get_hash_id_any_add_Err x y e :
  py_add x y = Err e → get_hash_id_any x y = Err e.
Proof. unfold get_hash_id_any. by intros ->. Qed.

Lemma get_hash_id_any_cases x y :
  (∃ a k, x = PStr a ∧ y = PStr k)
  ∨ adds_to_other x y
  ∨ py_add x y = Err TypeError.
Proof.
  destruct (py_add x y) as [v|e] eqn:Hadd.
  - apply py_add_Ok in Hadd as [([a ->] & [k ->] & _)|[? _]]; eauto 10.
  - destruct (proj1 (py_add_Err _ _ _) Hadd) as (-> & _). eauto.
Qed.
End any.

(** * Theorems *)

Section theorems.
Implicit Types (x y : pyobj) (a k : pystr) (e : exn).

(** The annotations of [get_hash_id] are not checked, yet hold of
    every run of the body that returns: it returns a digest exactly when
    both arguments are text without surrogate code points, and then the
    digest of [HashId]. *)
Theorem get_hash_id_any_Ok x y h :
  get_hash_id_any x y = Ok h ↔
  ∃ a k, x = PStr a ∧ y = PStr k ∧ get_hash_id a k = Ok h.
Proof.
  split; [|intros (a & k & -> & -> & <-); apply get_hash_id_any_text].
  destruct (get_hash_id_any_cases x y) as [(a & k & -> & ->)|[Ho|He]].
  - rewrite get_hash_id_any_text. eauto.
  - by rewrite get_hash_id_any_other.
  - by rewrite (get_hash_id_any_add_Err _ _ _ He).
Qed.

(** C34: what a call with other arguments raises.  Two integers or
    Booleans, or two byte strings, pass [+] and raise AttributeError at
    [.encode()]; every other pair that is not two texts raises TypeError
    at [+]; two texts raise only what [get_hash_id] raises. *)
Theorem get_hash_id_any_Err x y e :
  get_hash_id_any x y = Err e ↔
  (∃ a k, x = PStr a ∧ y = PStr k ∧ get_hash_id a k = Err e)
  ∨ (adds_to_other x y ∧ e = AttributeError (lit "encode"))
  ∨ (¬ (is_str x ∧ is_str y) ∧ ¬ adds_to_other x y ∧ e = TypeError).
Proof.
  split.
  - destruct (get_hash_id_any_cases x y) as [(a & k & -> & ->)|[Ho|He]].
    + rewrite get_hash_id_any_text. eauto 10.
    + rewrite get_hash_id_any_other by done. intros [= <-]. eauto.
    + rewrite (get_hash_id_any_add_Err _ _ _ He). intros [= <-].
      apply py_add_Err in He as (_ & ? & ?). eauto.
  - intros [(a & k & -> & -> & <-)|[[Ho ->]|(Hs & Ho & ->)]].
    + apply get_hash_id_any_text.
    + by apply get_hash_id_any_other.
    + by apply get_hash_id_any_add_Err, py_add_Err.
Qed.

(** [get_hash_id(1, extra_key=2)], [get_hash_id(b"a", extra_key=b"b")],
    [get_hash_id("a", extra_key=1)] and [get_hash_id(None, extra_key="k")]. *)
Lemma get_hash_id_any_examples :
  get_hash_id_any (PInt 1) (PInt 2) = Err (AttributeError (lit "encode"))
  ∧ get_hash_id_any (PBytes [97]) (PBytes [98]) = Err (AttributeError (lit "encode"))
  ∧ get_hash_id_any (PStr (lit "a")) (PInt 1) = Err TypeError
  ∧ get_hash_id_any PNone (PStr (lit "k")) = Err TypeError.
Proof. done. Qed.
End theorems.
