(* ===== verification/Polars.v ===== *)
(** * polars: the fragment the data-frame [make_id_str] uses

    The data-frame method builds one column expression from
    [pl.col], [pl.lit], [Expr.cast], [+] on strings and
    [Expr.str.replace], evaluates it with [DataFrame.select] and reads
    the result with [DataFrame.get_column].  This file models these
    operations on typed columns with nulls.

    - A column ([column]) is a list of optional values of one type:
      Boolean, one of the eight integer types, String, or the Null
      type.  A data frame is a list of named columns.
    - [cast_str] is the cast to String, which cannot fail.  [cast_int64]
      is the strict cast to Int64: it raises InvalidOperationError when a
      value does not fit or a string is not an integer, and keeps nulls.
    - [add_str] is [+] on String columns: row-wise concatenation, null
      when either side is null, with a column of length one broadcast
      to the length of the other.
    - [str_replace] is [Expr.str.replace(pattern, value)] with its
      default [n = 1]: the first match only.  The pattern is taken
      literally, which is what the regular expression ["-"] means.
    - [select] first resolves the column names of the expression
      against the frame, as the query planner does, and then evaluates.

    How polars reads an integer from a string is stated as an interface,
    [Int64Parser]: it reads the decimal form of every Int64 back, and
    accepts nothing but an optionally signed string of digits in range.
    [strict_parser] is an instance. *)

From stdpp Require Import strings.
From S2P Require Import Prelude PyStr.

#[local] Open Scope Z_scope.

(** The names of this file live in the module [pl], as the sources
    write [pl.col], [pl.lit] and [pl.Int64]. *)
Module pl.

(** * Data types *)

Inductive int_type : Type := I8 | I16 | I32 | I64 | U8 | U16 | U32 | U64.

#[export] Instance int_type_eq_dec : EqDecision int_type.
Proof. solve_decision. Defined.

Definition int_bits (t : int_type) : Z :=
  match t with
  | I8 | U8 => 8 | I16 | U16 => 16 | I32 | U32 => 32 | I64 | U64 => 64
  end.

Definition int_signed (t : int_type) : bool :=
  match t with I8 | I16 | I32 | I64 => true | _ => false end.

Definition int_min (t : int_type) : Z :=
  if int_signed t then - 2 ^ (int_bits t - 1) else 0.

Definition int_max (t : int_type) : Z :=
  if int_signed t then 2 ^ (int_bits t - 1) - 1 else 2 ^ int_bits t - 1.

Definition in_range (t : int_type) (z : Z) : Prop := int_min t ≤ z ≤ int_max t.

#[export] Instance in_range_dec t z : Decision (in_range t z) := _.

Inductive dtype : Type := Boolean | Int (t : int_type) | String | Null.

#[export] Instance dtype_eq_dec : EqDecision dtype.
Proof. solve_decision. Defined.

(** * Columns and frames *)

Inductive column : Type :=
  | BoolCol (l : list (option bool))
  | IntCol (t : int_type) (l : list (option Z))
  | StrCol (l : list (option pystr))
  | NullCol (n : nat).

#[export] Instance column_eq_dec : EqDecision column.
Proof. solve_decision. Defined.

Definition col_dtype (c : column) : dtype :=
  match c with
  | BoolCol _ => Boolean
  | IntCol t _ => Int t
  | StrCol _ => String
  | NullCol _ => Null
  end.

Definition col_len (c : column) : nat :=
  match c with
  | BoolCol l => length l
  | IntCol _ l => length l
  | StrCol l => length l
  | NullCol n => n
  end.

(** Every non-null value of the list satisfies [P]. *)
Definition all_valid {A} (P : A → Prop) (l : list (option A)) : Prop :=
  Forall (λ o, ∀ x, o = Some x → P x) l.

(** A function applied to every non-null value. *)
Definition map_cells {A B} (f : A → B) (l : list (option A)) : list (option B) :=
  fmap (M := list) (fmap (M := option) f) l.

(** Integers fit their type and strings are valid UTF-8 text. *)
Definition col_wf (c : column) : Prop :=
  match c with
  | IntCol t l => all_valid (in_range t) l
  | StrCol l => all_valid (Forall is_scalar) l
  | _ => True
  end.

(** A named column, [pl.Series]. *)
Record series : Type := Series { s_name : pystr; s_col : column }.

#[export] Instance series_eq_dec : EqDecision series.
Proof. solve_decision. Defined.

(** [pl.DataFrame]: its columns in order. *)
Definition dataframe : Type := list series.

Definition df_names (df : dataframe) : list pystr := s_name <$> df.

Definition height (df : dataframe) : nat :=
  match df with
  | [] => 0
  | s :: _ => col_len (s_col s)
  end.

(** Column names are distinct, columns have one length, values are well
    formed. *)
Definition df_wf (df : dataframe) : Prop :=
  NoDup (df_names df)
  ∧ Forall (λ s, col_len (s_col s) = height df) df
  ∧ Forall (λ s, col_wf (s_col s)) df.

(** The column of a name. *)
Fixpoint df_lookup (name : pystr) (df : dataframe) : option column :=
  match df with
  | [] => None
  | s :: df' => if decide (s_name s = name) then Some (s_col s) else df_lookup name df'
  end.

(** [df.get_column(name)] *)
Definition get_column (df : dataframe) (name : pystr) : result series :=
  match df_lookup name df with
  | Some c => Ok (Series name c)
  | None => Err (ColumnNotFoundError name)
  end.

(** * Reading integers from strings *)

(** The most liberal reading: an optional sign and at least one digit. *)
Definition read_signed (s : pystr) : option Z :=
  match s with
  | c :: s' =>
      if decide (c = hyphen) then Z.opp <$> parse_nat s'
      else if decide (c = 43) then parse_nat s'
      else parse_nat s
  | [] => None
  end.

Class Int64Parser : Type := {
  parse_i64 : pystr → option Z;
  parse_i64_complete z : in_range I64 z → parse_i64 (str_of_int z) = Some z;
  parse_i64_sound s z :
    parse_i64 s = Some z → in_range I64 z ∧ read_signed s = Some z;
}.

(** The reader that accepts a minus sign and digits and nothing else. *)
Definition strict_parse_i64 (s : pystr) : option Z :=
  z ← int_of_str s; if decide (in_range I64 z) then Some z else None.

(** * Casts *)

(** The String form of a Boolean value. *)
Definition pl_str_of_bool (b : bool) : pystr :=
  if b then lit "true" else lit "false".

(** The values of a column as strings. *)
Definition str_cells (c : column) : list (option pystr) :=
  match c with
  | BoolCol l => map_cells pl_str_of_bool l
  | IntCol _ l => map_cells str_of_int l
  | StrCol l => l
  | NullCol n => replicate n None
  end.

(** [Expr.cast(pl.String)] *)
Definition cast_str (c : column) : column := StrCol (str_cells c).

(** A strict cast of one value: a null stays null, a value that cannot
    be converted raises. *)
Definition cast_cell {A B} (f : A → option B) (o : option A)
    : result (option B) :=
  match o with
  | None => Ok None
  | Some x => Some <$> of_option InvalidOperationError (f x)
  end.

Definition fit_i64 (z : Z) : option Z :=
  if decide (in_range I64 z) then Some z else None.

(** The values of a column as 64-bit integers. *)
Definition int_cells `{Int64Parser} (c : column) : result (list (option Z)) :=
  match c with
  | BoolCol l => Ok (map_cells Z.b2z l)
  | IntCol _ l => mapM (cast_cell fit_i64) l
  | StrCol l => mapM (cast_cell parse_i64) l
  | NullCol n => Ok (replicate n None)
  end.

(** [Expr.cast(pl.Int64)], strict. *)
Definition cast_int64 `{Int64Parser} (c : column) : result column :=
  IntCol I64 <$> int_cells c.

(** * String operations *)

(** Row-wise concatenation; null when either side is null. *)
Definition concat_cell (x y : option pystr) : option pystr :=
  s ← x; t ← y; Some (s ++ t).

(** [+] on two String columns: equal lengths pair up, a column of
    length one is broadcast. *)
Definition add_str_lists (l1 l2 : list (option pystr))
    : result (list (option pystr)) :=
  if decide (length l1 = length l2) then Ok (zip_with concat_cell l1 l2)
  else match l2, l1 with
       | [y], _ => Ok ((λ x, concat_cell x y) <$> l1)
       | _, [x] => Ok (concat_cell x <$> l2)
       | _, _ => Err ShapeError
       end.

Definition add_str (c1 c2 : column) : result column :=
  match c1, c2 with
  | StrCol l1, StrCol l2 => StrCol <$> add_str_lists l1 l2
  | _, _ => Err InvalidOperationError
  end.

(** [Expr.str.replace(pattern, value)], [n = 1]. *)
Definition str_replace (pattern value : pystr) (c : column) : result column :=
  match c with
  | StrCol l => Ok (StrCol (map_cells (replace pattern value (Some 1%nat)) l))
  | _ => Err InvalidOperationError
  end.

(** * Expressions *)

Inductive expr : Type :=
  | Col (name : pystr)
  | Lit (s : pystr)
  | Cast (e : expr) (t : dtype)
  | Add (e1 e2 : expr)
  | StrReplace (e : expr) (pattern value : pystr)
  | Alias (e : expr) (name : pystr).

(** The column names an expression reads, left to right. *)
Fixpoint expr_columns (e : expr) : list pystr :=
  match e with
  | Col name => [name]
  | Lit _ => []
  | Cast e _ | StrReplace e _ _ | Alias e _ => expr_columns e
  | Add e1 e2 => expr_columns e1 ++ expr_columns e2
  end.

(** The name of the column an expression produces. *)
Fixpoint output_name (e : expr) : pystr :=
  match e with
  | Col name => name
  | Lit _ => lit "literal"
  | Cast e _ | StrReplace e _ _ => output_name e
  | Add e1 _ => output_name e1
  | Alias _ name => name
  end.

(** Planning: every column the expression reads is in the frame. *)
Fixpoint resolve (df : dataframe) (names : list pystr) : result unit :=
  match names with
  | [] => Ok ()
  | name :: names =>
      match df_lookup name df with
      | Some _ => resolve df names
      | None => Err (ColumnNotFoundError name)
      end
  end.

(** Evaluation of an expression on a frame. *)
Fixpoint eval `{Int64Parser} (df : dataframe) (e : expr) : result column :=
  match e with
  | Col name => of_option (ColumnNotFoundError name) (df_lookup name df)
  | Lit s => Ok (StrCol [Some s])
  | Cast e String => cast_str <$> eval df e
  | Cast e (Int I64) => eval df e ≫= cast_int64
  | Cast e _ => Err InvalidOperationError
  | Add e1 e2 => c1 ← eval df e1; c2 ← eval df e2; add_str c1 c2
  | StrReplace e pattern value => eval df e ≫= str_replace pattern value
  | Alias e _ => eval df e
  end.

(** [df.select(e)] for one expression: a new frame of one column.  The
    frame [df] itself is not changed. *)
Definition select `{Int64Parser} (df : dataframe) (e : expr) : result dataframe :=
  _ ← resolve df (expr_columns e);
  c ← eval df e;
  Ok [Series (output_name e) c].

(** * Frames *)

Section frames.
Implicit Types (df : dataframe) (s : series) (c : column) (name : pystr).

Lemma df_lookup_Some df name c :
  df_lookup name df = Some c → Series name c ∈ df.
Proof.
  induction df as [|[n c'] df IH]; [done|]. cbn.
  case_decide; [intros [= ->]; subst; left|right; auto].
Qed.

Lemma df_lookup_None df name : df_lookup name df = None ↔ name ∉ df_names df.
Proof.
  induction df as [|[n c'] df IH]; cbn.
  - split; [intros _; apply not_elem_of_nil|done].
  - rewrite not_elem_of_cons, <-IH. case_decide; naive_solver.
Qed.

Lemma df_lookup_is_Some df name :
  is_Some (df_lookup name df) ↔ name ∈ df_names df.
Proof.
  rewrite <-not_eq_None_Some, df_lookup_None.
  destruct (decide (name ∈ df_names df)); naive_solver.
Qed.

(** Well-formedness is decidable. *)
Lemma all_valid_alt {A} (P : A → Prop) (l : list (option A)) :
  all_valid P l ↔ Forall (from_option P True) l.
Proof.
  unfold all_valid. apply Forall_proper; [|done].
  intros [x|]; cbn; naive_solver.
Qed.

#[export] Instance from_option_True_dec {A} (P : A → Prop)
    `{∀ x, Decision (P x)} (o : option A) : Decision (from_option P True o).
Proof. destruct o; cbn; apply _. Defined.

#[export] Instance all_valid_dec {A} (P : A → Prop) `{∀ x, Decision (P x)}
    (l : list (option A)) : Decision (all_valid P l).
Proof.
  refine (cast_if (decide (Forall (from_option P True) l)));
    by rewrite all_valid_alt.
Defined.

#[export] Instance col_wf_dec c : Decision (col_wf c).
Proof. destruct c; cbn; apply _. Defined.

#[export] Instance df_wf_dec df : Decision (df_wf df).
Proof. unfold df_wf. apply _. Defined.

(** In a well-formed frame, a column has the frame's height and well
    formed values. *)
Lemma df_lookup_wf df name c :
  df_wf df → df_lookup name df = Some c → col_len c = height df ∧ col_wf c.
Proof.
  intros (_ & Hlen & Hwf) Hin%df_lookup_Some.
  rewrite list.Forall_forall in Hlen, Hwf. split; [apply (Hlen _ Hin)|apply (Hwf _ Hin)].
Qed.

Lemma get_column_Ok df name s :
  get_column df name = Ok s ↔ ∃ c, df_lookup name df = Some c ∧ s = Series name c.
Proof. unfold get_column. destruct (df_lookup name df); naive_solver. Qed.

Lemma resolve_Ok df names :
  resolve df names = Ok () ↔ Forall (λ n, n ∈ df_names df) names.
Proof.
  induction names as [|n names IH]; cbn.
  - split; [constructor|done].
  - rewrite Forall_cons, <-IH, <-df_lookup_is_Some.
    destruct (df_lookup n df); unfold is_Some; naive_solver.
Qed.

(** Planning fails with the first name, from the left, that is not a
    column of the frame. *)
Lemma resolve_Err df names e :
  resolve df names = Err e ↔
  ∃ i n, e = ColumnNotFoundError n ∧ names !! i = Some n ∧ n ∉ df_names df
         ∧ Forall (λ n, n ∈ df_names df) (take i names).
Proof.
  induction names as [|n names IH]; cbn.
  - split; [done|]. by intros (i & n & _ & ? & _).
  - destruct (df_lookup n df) as [c|] eqn:Hn.
    + assert (n ∈ df_names df) by (apply df_lookup_is_Some; eauto).
      rewrite IH. split.
      * intros (i & m & -> & ? & ? & ?). exists (S i), m.
        split_and!; [done..|]. by apply Forall_cons.
      * intros ([|i] & m & -> & ? & ? & Ht); simplify_eq/=; [done|].
        apply Forall_cons in Ht as [_ Ht]. by exists i, m.
    + apply df_lookup_None in Hn. split.
      * intros [= <-]. exists 0%nat, n. split_and!; [done..|]. by apply Forall_nil.
      * intros ([|i] & m & -> & ? & ? & Ht); simplify_eq/=; [done|].
        by apply Forall_cons in Ht as [? _].
Qed.
End frames.

(** * Casts *)

Section casts.
Context `{Int64Parser}.
Implicit Types (c : column) (l : list (option Z)) (z : Z).

Lemma length_map_cells {A B} (f : A → B) (l : list (option A)) :
  length (map_cells f l) = length l.
Proof. apply length_fmap. Qed.

Lemma map_cells_lookup {A B} (f : A → B) (l : list (option A)) i :
  map_cells f l !! i = fmap f <$> l !! i.
Proof. apply list_lookup_fmap. Qed.

Lemma all_valid_lookup {A} (P : A → Prop) (l : list (option A)) i x :
  all_valid P l → l !! i = Some (Some x) → P x.
Proof.
  unfold all_valid. rewrite list.Forall_forall. intros Hl Hi.
  apply (Hl (Some x)); [by eapply list_elem_of_lookup_2|done].
Qed.

Lemma all_valid_map_cells {A B} (f : A → B) (P : B → Prop) (l : list (option A)) :
  (∀ x, P (f x)) → all_valid P (map_cells f l).
Proof.
  intros Hf. unfold all_valid, map_cells. apply Forall_fmap, Forall_true.
  intros [x|] y [= <-]. apply Hf.
Qed.

(** The String form of a well-formed column is valid text. *)
Lemma str_cells_wf c : col_wf c → all_valid (Forall is_scalar) (str_cells c).
Proof.
  destruct c as [lb|t li|ls|n]; cbn; intros Hc.
  - apply all_valid_map_cells. intros []; by_compute.
  - apply all_valid_map_cells, str_of_int_scalar.
  - done.
  - apply Forall_replicate. by intros x.
Qed.

Lemma length_str_cells c : length (str_cells c) = col_len c.
Proof. destruct c; cbn; by rewrite ?length_map_cells, ?length_replicate. Qed.

Lemma col_len_cast_str c : col_len (cast_str c) = col_len c.
Proof. apply length_str_cells. Qed.

Lemma fit_i64_Some z z' : fit_i64 z = Some z' ↔ in_range I64 z ∧ z' = z.
Proof. unfold fit_i64. case_decide; naive_solver. Qed.

Lemma in_range_I64 z : in_range I64 z ↔ - 2 ^ 63 ≤ z < 2 ^ 63.
Proof. unfold in_range, int_min, int_max. cbn. lia. Qed.

Lemma cast_cell_Ok {A B} (f : A → option B) (o : option A) (o' : option B) :
  cast_cell f o = Ok o' ↔
  (o = None ∧ o' = None) ∨ ∃ x y, o = Some x ∧ f x = Some y ∧ o' = Some y.
Proof.
  destruct o as [x|]; cbn.
  - destruct (f x) as [y|] eqn:Hf; cbn; split.
    + intros [= <-]. right. by exists x, y.
    + intros [[? _]|(x' & y' & ? & ? & ->)]; simplify_eq; congruence.
    + done.
    + intros [[? _]|(x' & y' & ? & ? & ->)]; simplify_eq; congruence.
  - split; [intros [= <-]; by left|].
    intros [[_ ->]|(x' & y' & ? & _)]; done.
Qed.

Lemma cast_cell_is_Ok {A B} (f : A → option B) (o : option A) :
  is_Ok (cast_cell f o) ↔ ∀ x, o = Some x → is_Some (f x).
Proof.
  destruct o as [x|]; cbn.
  - destruct (f x) as [y|] eqn:Hf; cbn; split.
    + intros _ x' [= <-]. by rewrite Hf.
    + intros _. by eexists.
    + by intros [? ?].
    + intros Hx. destruct (Hx x eq_refl) as [? ?]. congruence.
  - split; [done|]. intros _. by eexists.
Qed.

Lemma cast_cell_Err {A B} (f : A → option B) (o : option A) e :
  cast_cell f o = Err e → e = InvalidOperationError.
Proof. destruct o as [x|]; cbn; [destruct (f x); cbn|]; naive_solver. Qed.

(** A strict cast keeps the number of rows. *)
Lemma length_int_cells c l : int_cells c = Ok l → length l = col_len c.
Proof.
  destruct c; cbn; intros Hl; simplify_result;
    rewrite ?length_map_cells, ?length_replicate; try done;
    by apply length_mapM_Ok in Hl.
Qed.

(** Every value a strict cast produces fits Int64. *)
Lemma int_cells_wf c l : int_cells c = Ok l → all_valid (in_range I64) l.
Proof.
  unfold all_valid. destruct c as [lb|t li|ls|n]; cbn; intros Hl.
  - simplify_result. apply Forall_fmap, Forall_true.
    intros [[]|] z ?; simplify_eq/=; by apply in_range_I64.
  - apply mapM_Ok_iff in Hl.
    eapply Forall2_Forall_r; [exact Hl|]. apply Forall_true.
    intros o o' Ho z ->. apply cast_cell_Ok in Ho as [[_ ?]|(x&y&_&Hf&?)];
      simplify_eq. by apply fit_i64_Some in Hf as [? ->].
  - apply mapM_Ok_iff in Hl.
    eapply Forall2_Forall_r; [exact Hl|]. apply Forall_true.
    intros o o' Ho z ->. apply cast_cell_Ok in Ho as [[_ ?]|(x&y&_&Hf&?)];
      simplify_eq. by apply parse_i64_sound in Hf as [? _].
  - simplify_result. apply Forall_replicate. by intros z.
Qed.

(** The values a strict cast to Int64 accepts: integers that fit and
    strings the parser reads. *)
Definition castable (c : column) : Prop :=
  match c with
  | IntCol _ l => all_valid (in_range I64) l
  | StrCol l => all_valid (λ s, is_Some (parse_i64 s)) l
  | BoolCol _ | NullCol _ => True
  end.

#[export] Instance castable_dec c : Decision (castable c).
Proof. destruct c; cbn; apply _. Defined.

Lemma cast_cells_is_Ok {A B} (f : A → option B) (l : list (option A)) :
  is_Ok (mapM (cast_cell f) l) ↔ all_valid (λ x, is_Some (f x)) l.
Proof.
  rewrite mapM_is_Ok. unfold all_valid.
  apply Forall_proper; [|done]. intros o. apply cast_cell_is_Ok.
Qed.

Lemma int_cells_is_Ok c : is_Ok (int_cells c) ↔ castable c.
Proof.
  destruct c as [lb|t li|ls|n]; cbn; [by split; [|eexists]| | |by split; [|eexists]].
  - rewrite cast_cells_is_Ok. unfold all_valid, fit_i64.
    split; intros Hl; (eapply list.Forall_impl; [exact Hl|]);
      intros o Ho z ->; specialize (Ho z eq_refl); case_decide;
      first [done|by destruct Ho|by eexists].
  - apply cast_cells_is_Ok.
Qed.

Lemma int_cells_is_Ok_not c : ¬ castable c ↔ is_Err (int_cells c).
Proof. by rewrite <-int_cells_is_Ok, not_is_Ok. Qed.

(** The only error of a strict cast is InvalidOperationError. *)
Lemma int_cells_Err c e : int_cells c = Err e → e = InvalidOperationError.
Proof.
  destruct c as [lb|t li|ls|n]; cbn; try done;
    intros (o & _ & ?%cast_cell_Err)%mapM_Err_elem; done.
Qed.

Lemma cast_int64_Ok c c' :
  cast_int64 c = Ok c' ↔ ∃ l, int_cells c = Ok l ∧ c' = IntCol I64 l.
Proof. unfold cast_int64. apply fmap_Ok_iff. Qed.

(** The decimal form of a 64-bit integer is read back by every
    parser. *)
Lemma cast_cell_parse_str_of_int (o : option Z) :
  (∀ z, o = Some z → in_range I64 z) →
  cast_cell parse_i64 (str_of_int <$> o) = Ok o.
Proof.
  destruct o as [z|]; [|done]. intros Hz. cbn.
  by rewrite parse_i64_complete by auto.
Qed.
End casts.

(** * String operations *)

Section strings.
Implicit Types (x y z : option pystr) (l : list (option pystr)).

Lemma concat_cell_None_l y : concat_cell None y = None.
Proof. done. Qed.

Lemma concat_cell_None_r x : concat_cell x None = None.
Proof. by destruct x. Qed.

Lemma concat_cell_Some x y s :
  concat_cell x y = Some s ↔ ∃ a b, x = Some a ∧ y = Some b ∧ s = a ++ b.
Proof. destruct x, y; naive_solver. Qed.

Lemma concat_cell_assoc x y z :
  concat_cell (concat_cell x y) z = concat_cell x (concat_cell y z).
Proof. destruct x, y, z; cbn; by rewrite ?app_assoc. Qed.

(** Columns of one length are paired row by row. *)
Lemma add_str_lists_same l1 l2 :
  length l1 = length l2 → add_str_lists l1 l2 = Ok (zip_with concat_cell l1 l2).
Proof. intros Hlen. unfold add_str_lists. by rewrite decide_True. Qed.

(** A literal on the right is appended to every row. *)
Lemma add_str_lists_lit_r l y :
  add_str_lists l [y] = Ok ((λ x, concat_cell x y) <$> l).
Proof.
  unfold add_str_lists. case_decide as Hlen; [|done].
  by destruct l as [|x [|??]].
Qed.

(** A literal on the left is put in front of every row. *)
Lemma add_str_lists_lit_l x l :
  add_str_lists [x] l = Ok (concat_cell x <$> l).
Proof.
  unfold add_str_lists. case_decide as Hlen.
  - by destruct l as [|y [|??]].
  - by destruct l as [|y [|??]].
Qed.

Lemma length_add_str_lists l1 l2 l :
  add_str_lists l1 l2 = Ok l → length l = (length l1 `max` length l2)%nat
                                ∨ length l = (length l1 `min` length l2)%nat.
Proof.
  unfold add_str_lists. case_decide as Hlen.
  - intros [= <-]. rewrite length_zip_with. lia.
  - destruct l2 as [|y [|??]], l1 as [|x [|??]]; intros ?; simplify_result;
      rewrite ?length_fmap; cbn; lia.
Qed.
End strings.

(** * The strict parser *)

Section strict_parser.
Implicit Types (s : pystr) (z : Z).

Lemma int_of_str_read_signed s z : int_of_str s = Some z → read_signed s = Some z.
Proof.
  destruct s as [|c s]; [done|]. cbn. case_decide; [done|].
  case_decide as Hc; [|done]. subst c. intros Hp. by vm_compute in Hp.
Qed.

Lemma strict_parse_i64_complete z :
  in_range I64 z → strict_parse_i64 (str_of_int z) = Some z.
Proof.
  intros Hz. unfold strict_parse_i64. rewrite int_of_str_of_int. cbn.
  by rewrite decide_True.
Qed.

Lemma strict_parse_i64_sound s z :
  strict_parse_i64 s = Some z → in_range I64 z ∧ read_signed s = Some z.
Proof.
  unfold strict_parse_i64. destruct (int_of_str s) as [z'|] eqn:Hs; [|done].
  cbn. case_decide; intros [= <-]. split; [done|].
  by apply int_of_str_read_signed.
Qed.
End strict_parser.

#[export] Instance strict_parser : Int64Parser := {|
  parse_i64 := strict_parse_i64;
  parse_i64_complete := strict_parse_i64_complete;
  parse_i64_sound := strict_parse_i64_sound;
|}.

(** * Evaluation *)

Section eval.
Context `{Int64Parser}.
Implicit Types (df : dataframe) (e : expr) (c : column) (name : pystr).

Lemma eval_Col df name c : df_lookup name df = Some c → eval df (Col name) = Ok c.
Proof. intros Hc. cbn. by rewrite Hc. Qed.

Lemma eval_cast_str df e c :
  eval df e = Ok c → eval df (Cast e String) = Ok (StrCol (str_cells c)).
Proof. intros He. cbn. by rewrite He. Qed.

Lemma eval_cast_int64 df e c :
  eval df e = Ok c → eval df (Cast e (Int I64)) = cast_int64 c.
Proof. intros He. cbn. by rewrite He. Qed.

Lemma eval_add_lit_r df e l s :
  eval df e = Ok (StrCol l) →
  eval df (Add e (Lit s)) = Ok (StrCol ((λ x, concat_cell x (Some s)) <$> l)).
Proof. intros He. cbn. rewrite He. cbn. by rewrite add_str_lists_lit_r. Qed.

Lemma eval_add_lit_l df e l s :
  eval df e = Ok (StrCol l) →
  eval df (Add (Lit s) e) = Ok (StrCol (concat_cell (Some s) <$> l)).
Proof. intros He. cbn. rewrite He. cbn. by rewrite add_str_lists_lit_l. Qed.

Lemma eval_add_same df e1 e2 l1 l2 :
  eval df e1 = Ok (StrCol l1) → eval df e2 = Ok (StrCol l2) →
  length l1 = length l2 →
  eval df (Add e1 e2) = Ok (StrCol (zip_with concat_cell l1 l2)).
Proof.
  intros He1 He2 Hlen. cbn. rewrite He1, He2. cbn.
  by rewrite add_str_lists_same.
Qed.

Lemma eval_str_replace df e l pattern value :
  eval df e = Ok (StrCol l) →
  eval df (StrReplace e pattern value) =
    Ok (StrCol (map_cells (replace pattern value (Some 1%nat)) l)).
Proof. intros He. cbn. by rewrite He. Qed.

(** Once the names are resolved, evaluation finds every column. *)
Lemma eval_not_ColumnNotFound df e name :
  resolve df (expr_columns e) = Ok () →
  eval df e ≠ Err (ColumnNotFoundError name).
Proof.
  rewrite resolve_Ok. revert name.
  induction e as [n|s|e IH t|e1 IH1 e2 IH2|e IH p v|e IH n];
    intros name Hr; cbn in *.
  - apply Forall_singleton, df_lookup_is_Some in Hr as [c ->]. done.
  - done.
  - specialize (IH name Hr). destruct t as [|[]| |]; try done;
      destruct (eval df e) as [c|e'] eqn:He; cbn; try congruence.
    unfold cast_int64. destruct (int_cells c) as [|e'] eqn:Hc; [done|].
    apply int_cells_Err in Hc as ->. done.
  - apply Forall_app in Hr as [Hr1 Hr2].
    specialize (IH1 name Hr1). specialize (IH2 name Hr2).
    destruct (eval df e1) as [c1|]; cbn; [|congruence].
    destruct (eval df e2) as [c2|]; cbn; [|congruence].
    destruct c1, c2; cbn; try done.
    unfold add_str_lists. case_decide; [done|].
    repeat case_match; done.
  - specialize (IH name Hr).
    destruct (eval df e) as [[]|]; cbn; congruence.
  - by apply IH.
Qed.
(** Planning and evaluation look at the frame through the columns the
    expression names, and at nothing else. *)
Lemma resolve_ext df df' names :
  Forall (λ n, is_Some (df_lookup n df) ↔ is_Some (df_lookup n df')) names →
  resolve df names = resolve df' names.
Proof.
  induction 1 as [|n names [Hn1 Hn2] _ IH]; [done|]. cbn. rewrite IH.
  destruct (df_lookup n df) as [c|], (df_lookup n df') as [c'|]; try done.
  - by destruct Hn1.
  - by destruct Hn2.
Qed.

Lemma eval_ext df df' e :
  Forall (λ n, df_lookup n df = df_lookup n df') (expr_columns e) →
  eval df e = eval df' e.
Proof.
  induction e as [n|s|e IH t|e1 IH1 e2 IH2|e IH p v|e IH n]; cbn; intros Hc.
  - rewrite Forall_singleton in Hc. by rewrite Hc.
  - done.
  - by rewrite IH.
  - apply Forall_app in Hc as [? ?]. by rewrite IH1, IH2.
  - by rewrite IH.
  - auto.
Qed.
End eval.

End pl.
