(* ===== verification/IdStrBatch.v ===== *)
(** * The data-frame [make_id_str]

    Models the second method registered under [make_id_str] in
    src/src/zootasks_utils/_src/upload_utils.py (lines 71-98):

    - [prefix_expr] (lines 84-86): the [release_name] column cast to
      String and followed by an underscore, or the literal empty string
      when [include_release_name] is false;
    - [tile_expr] (line 91): the [tile_index] column cast to Int64 and
      then to String;
    - [object_expr] (line 93): the [object_id] column cast to String
      with [str.replace("-", "NEG")];
    - [id_expr] (lines 89-94): their concatenation, left to right;
    - the result (line 98): the expression is selected under the name
      [unique_id] and that column is returned.

    [id_column] says what the result holds row by row; the theorems
    relate the method to it and to the scalar method of [IdStr]. *)

From stdpp Require Import strings.
From S2P Require Import Prelude PyStr Numpy IdStr Polars.

#[local] Open Scope Z_scope.

Module Batch.
Import pl.

(** * Definitions *)

(** The column names the method reads and the one it writes. *)
Definition release_name : pystr := lit "release_name".

Definition tile_index : pystr := lit "tile_index".

Definition object_id : pystr := lit "object_id".

Definition unique_id : pystr := lit "unique_id".

(** Lines 84-86. *)
Definition prefix_expr (include_release_name : bool) : expr :=
  if include_release_name
  then Add (Cast (Col release_name) String) (Lit (lit "_"))
  else Lit (lit "").

(** Line 91. *)
Definition tile_expr : expr := Cast (Cast (Col tile_index) (Int I64)) String.

(** Line 93. *)
Definition object_expr : expr :=
  StrReplace (Cast (Col object_id) String) (lit "-") (lit "NEG").

(** Lines 89-94. *)
Definition id_expr (include_release_name : bool) : expr :=
  Add (Add (Add (prefix_expr include_release_name) tile_expr) (Lit (lit "_")))
      object_expr.

(** Lines 72-98. *)
Definition make_id_str `{Int64Parser}
    (df : dataframe) (include_release_name : bool) : result series :=
  out ← select df (Alias (id_expr include_release_name) unique_id);
  get_column out unique_id.

(** * The rows of the result *)

(** The prefix of a row: its release name and an underscore, or the
    empty string. *)
Definition prefix_cell (include_release_name : bool) (r : option pystr)
    : option pystr :=
  if include_release_name then concat_cell r (Some (lit "_")) else Some (lit "").

Definition tile_cell (t : option Z) : option pystr := str_of_int <$> t.

Definition object_cell (o : option pystr) : option pystr :=
  replace (lit "-") (lit "NEG") (Some 1%nat) <$> o.

(** One row: null as soon as one part is null. *)
Definition id_cell (p : option pystr) (t : option Z) (o : option pystr)
    : option pystr :=
  concat_cell (concat_cell (concat_cell p (tile_cell t)) (Some (lit "_")))
              (object_cell o).

(** All rows, from the release names, the tile indexes as integers and
    the object ids as strings. *)
Definition id_column (include_release_name : bool)
    (rs : list (option pystr)) (ts : list (option Z)) (os : list (option pystr))
    : list (option pystr) :=
  let ps :=
    if include_release_name then prefix_cell true <$> rs
    else replicate (length ts) (Some (lit "")) in
  zip_with (λ pt o, concat_cell pt (object_cell o))
    (zip_with (λ p t, concat_cell (concat_cell p (tile_cell t)) (Some (lit "_")))
       ps ts)
    os.

(** The rows the scalar method gives, called once per row with an
    integer tile index and a release name. *)
Definition scalar_column (rs : list pystr) (ts : list Z) (os : list pystr)
    : list (option pystr) :=
  zip_with (λ rt o, Some (Scalar.make_id_str (Scalar.TileInt rt.2) o (Some rt.1)))
    (zip rs ts) os.

(** The String cells of the [release_name] column, when it is read. *)
Definition release_cells (df : dataframe) (include_release_name : bool)
    : option (list (option pystr)) :=
  if include_release_name then str_cells <$> df_lookup release_name df
  else Some [].

(** The columns the method reads, in the order the expression names
    them. *)
Definition read_columns (include_release_name : bool) : list pystr :=
  (if include_release_name then [release_name] else []) ++ [tile_index; object_id].

(** What the method reads from a frame: the release names, the tile
    indexes as 64-bit integers and the object ids as strings. *)
Definition inputs `{Int64Parser} (df : dataframe) (include_release_name : bool)
    (rs : list (option pystr)) (ts : list (option Z)) (os : list (option pystr))
    : Prop :=
  release_cells df include_release_name = Some rs
  ∧ (∃ ct, df_lookup tile_index df = Some ct ∧ int_cells ct = Ok ts)
  ∧ (∃ co, df_lookup object_id df = Some co ∧ os = str_cells co).

(** A frame of one row. *)
Definition row_frame (r : pystr) (t : Z) (o : pystr) : dataframe :=
  [Series release_name (StrCol [Some r]);
   Series tile_index (IntCol I64 [Some t]);
   Series object_id (StrCol [Some o])].

(** The frame of two rows used as the running example: release
    [Q1_R1], tile indexes 1 and 2, object ids [a-1] and [b-2]. *)
Definition example_frame : dataframe :=
  [Series release_name (StrCol [Some (lit "Q1_R1"); Some (lit "Q1_R1")]);
   Series tile_index (IntCol I64 [Some 1; Some 2]);
   Series object_id (StrCol [Some (lit "a-1"); Some (lit "b-2")])].

(** Frames for the other outcomes: a null object id in the second row;
    tile indexes held as text, the second not a number; no [object_id]
    column. *)
Definition null_frame : dataframe :=
  [Series release_name (StrCol [Some (lit "R"); Some (lit "R")]);
   Series tile_index (IntCol I64 [Some 1; Some 2]);
   Series object_id (StrCol [Some (lit "a"); None])].

Definition text_frame : dataframe :=
  [Series tile_index (StrCol [Some (lit "1"); Some (lit "abc")]);
   Series object_id (StrCol [Some (lit "a"); Some (lit "b")])].

Definition short_frame : dataframe :=
  [Series tile_index (IntCol I64 [Some 1])].

(** * Evaluation of the expressions *)

Section eval.
Context `{Int64Parser}.
Implicit Types (df : dataframe) (c cr ct co : column) (inc : bool).
Implicit Types (rs os : list (option pystr)) (ts : list (option Z)).

Lemma eval_prefix_expr_true df cr :
  df_lookup release_name df = Some cr →
  eval df (prefix_expr true) = Ok (StrCol (prefix_cell true <$> str_cells cr)).
Proof.
  intros Hr. unfold prefix_expr.
  by rewrite (eval_add_lit_r _ _ (str_cells cr))
    by by apply eval_cast_str, eval_Col.
Qed.

Lemma eval_tile_expr df ct ts :
  df_lookup tile_index df = Some ct → int_cells ct = Ok ts →
  eval df tile_expr = Ok (StrCol (tile_cell <$> ts)).
Proof.
  intros Ht Hts. unfold tile_expr.
  rewrite (eval_cast_str _ _ (IntCol I64 ts)); [done|].
  rewrite (eval_cast_int64 _ _ ct) by by apply eval_Col.
  unfold cast_int64. by rewrite Hts.
Qed.

Lemma eval_object_expr df co :
  df_lookup object_id df = Some co →
  eval df object_expr = Ok (StrCol (object_cell <$> str_cells co)).
Proof.
  intros Ho. unfold object_expr.
  by rewrite (eval_str_replace _ _ (str_cells co))
    by by apply eval_cast_str, eval_Col.
Qed.

(** The prefix and the tile index, joined. *)
Lemma eval_prefix_tile df inc rs ct ts :
  release_cells df inc = Some rs →
  df_lookup tile_index df = Some ct → int_cells ct = Ok ts →
  (inc = true → length rs = length ts) →
  eval df (Add (prefix_expr inc) tile_expr) =
    Ok (StrCol (zip_with (λ p t, concat_cell p (tile_cell t))
                  (if inc then prefix_cell true <$> rs
                   else replicate (length ts) (Some (lit ""))) ts)).
Proof.
  intros Hrs Ht Hts Hlen. pose proof (eval_tile_expr df ct ts Ht Hts) as Hte.
  destruct inc; cbn [release_cells] in Hrs.
  - destruct (df_lookup release_name df) as [cr|] eqn:Hr; [|done].
    injection Hrs as <-.
    rewrite (eval_add_same _ _ _ (prefix_cell true <$> str_cells cr)
               (tile_cell <$> ts)).
    + by rewrite zip_with_fmap_r.
    + by apply eval_prefix_expr_true.
    + done.
    + rewrite !length_fmap. auto.
  - change (prefix_expr false) with (Lit (lit "")).
    rewrite (eval_add_lit_l _ _ (tile_cell <$> ts)) by done.
    by rewrite zip_with_replicate_l, <-list_fmap_compose by done.
Qed.

(** The whole expression evaluates to the rows of [id_column]. *)
Lemma eval_id_expr df inc rs ct ts co :
  release_cells df inc = Some rs →
  df_lookup tile_index df = Some ct → int_cells ct = Ok ts →
  df_lookup object_id df = Some co →
  (inc = true → length rs = length ts) → length ts = col_len co →
  eval df (id_expr inc) = Ok (StrCol (id_column inc rs ts (str_cells co))).
Proof.
  intros Hrs Ht Hts Ho Hlen1 Hlen2. unfold id_expr.
  pose proof (eval_prefix_tile df inc rs ct ts Hrs Ht Hts Hlen1) as Hpt.
  apply (eval_add_lit_r _ _ _ (lit "_")) in Hpt.
  rewrite (eval_add_same _ _ _ _ _ Hpt (eval_object_expr df co Ho)).
  - unfold id_column. by rewrite zip_with_fmap_r, fmap_zip_with.
  - rewrite !length_fmap, length_zip_with, length_str_cells.
    destruct inc; rewrite ?length_fmap, ?length_replicate; [|lia].
    specialize (Hlen1 eq_refl). lia.
Qed.

Lemma expr_columns_id_expr inc : expr_columns (id_expr inc) = read_columns inc.
Proof. by destruct inc. Qed.

(** When the tile indexes cannot be cast, the expression raises the
    cast's error. *)
Lemma eval_id_expr_Err df inc rs ct e :
  release_cells df inc = Some rs →
  df_lookup tile_index df = Some ct → int_cells ct = Err e →
  eval df (id_expr inc) = Err e.
Proof.
  intros Hrs Ht Hts.
  assert (eval df tile_expr = Err e) as Hte.
  { unfold tile_expr. cbn [eval]. rewrite Ht. cbn. unfold cast_int64.
    by rewrite Hts. }
  assert (is_Ok (eval df (prefix_expr inc))) as [cp Hp].
  { destruct inc; cbn [release_cells] in Hrs; [|by eexists].
    destruct (df_lookup release_name df) as [cr|] eqn:Hr; [|done].
    eexists. by apply eval_prefix_expr_true. }
  unfold id_expr. cbn [eval]. by rewrite Hp, Hte.
Qed.

(** The method is name resolution, evaluation, and the name
    [unique_id]. *)
Lemma make_id_str_eval df inc :
  make_id_str df inc =
    (_ ← resolve df (read_columns inc);
     c ← eval df (id_expr inc);
     Ok (Series unique_id c)).
Proof.
  unfold make_id_str, select. cbn [expr_columns]. rewrite expr_columns_id_expr.
  destruct (resolve df (read_columns inc)); [|reflexivity]. cbn [mbind result_bind].
  destruct (eval df (id_expr inc)) eqn:He; cbn [eval]; rewrite He; [|reflexivity].
  unfold get_column. cbn [mbind result_bind df_lookup s_name s_col output_name].
  by rewrite decide_True.
Qed.

(** The columns read are in the frame exactly when each lookup
    succeeds. *)
Lemma resolve_read_columns df inc :
  resolve df (read_columns inc) = Ok () ↔
  is_Some (release_cells df inc) ∧ is_Some (df_lookup tile_index df)
  ∧ is_Some (df_lookup object_id df).
Proof.
  rewrite resolve_Ok. unfold read_columns, release_cells.
  rewrite Forall_app, !Forall_cons_iff, <-!df_lookup_is_Some.
  destruct inc.
  - rewrite Forall_singleton, <-df_lookup_is_Some, fmap_is_Some.
    pose proof (Forall_nil_2 (λ n, n ∈ df_names df)). naive_solver.
  - pose proof (Forall_nil_2 (λ n, n ∈ df_names df)).
    assert (is_Some (Some (@nil (option pystr)))) by by eexists. naive_solver.
Qed.
End eval.

(** * The rows *)

Section rows.
Implicit Types (inc : bool) (p r o : option pystr) (t : option Z).
Implicit Types (rs os : list (option pystr)) (ts : list (option Z)).

Lemma id_cell_prefix_false t o :
  id_cell (prefix_cell false None) t o = id_cell (Some []) t o.
Proof. done. Qed.

(** A row is null as soon as its tile index or object id is null, or the
    release name when it is included. *)
Lemma id_cell_None p t o :
  id_cell p t o = None ↔ p = None ∨ t = None ∨ o = None.
Proof. destruct p, t, o; cbn; naive_solver. Qed.

Lemma id_cell_Some (a : pystr) (z : Z) (b : pystr) :
  id_cell (Some a) (Some z) (Some b) =
    Some (a ++ str_of_int z ++ lit "_"
          ++ replace (lit "-") (lit "NEG") (Some 1%nat) b).
Proof. cbn. by rewrite <-!app_assoc. Qed.

Lemma prefix_cell_None inc r : prefix_cell inc r = None ↔ inc = true ∧ r = None.
Proof. destruct inc, r; cbn; naive_solver. Qed.

(** A row and the scalar method on the row's values: they agree exactly
    when the object id has at most one hyphen. *)
Lemma id_cell_scalar (rel : option pystr) (z : Z) (b : pystr) :
  last b ≠ Some 0 →
  id_cell (Some (Scalar.prefix rel)) (Some z) (Some b) =
    Some (Scalar.make_id_str (Scalar.TileInt z) b rel)
  ↔ (occurrences hyphen b ≤ 1)%nat.
Proof.
  intros Hb. rewrite id_cell_Some, Scalar.make_id_str_replace1, np_str_id by done.
  change (lit "-") with [hyphen]. rewrite replace_singleton.
  rewrite <-(replace1_once_all hyphen (lit "NEG") b) by by_compute.
  split; [|by intros ->]. intros [= Heq]. by simplify_list_eq.
Qed.

(** Valid text in, valid text out. *)
Lemma prefix_cell_valid inc r (a : pystr) :
  (∀ b, r = Some b → Forall is_scalar b) →
  prefix_cell inc r = Some a → Forall is_scalar a.
Proof.
  intros Hr. destruct inc, r as [b|]; cbn; intros [= <-]; [|constructor..].
  apply Forall_app. split; [by apply Hr|by_compute].
Qed.

Lemma id_cell_valid p t o (c : pystr) :
  (∀ a, p = Some a → Forall is_scalar a) →
  (∀ b, o = Some b → Forall is_scalar b) →
  id_cell p t o = Some c → Forall is_scalar c.
Proof.
  intros Hp Ho. destruct p as [a|], t as [z|], o as [b|]; try done.
  rewrite id_cell_Some. intros Hc. apply (inj Some) in Hc as <-.
  change (lit "-") with [hyphen]. rewrite replace_singleton, !Forall_app.
  split_and!; [by apply Hp|apply str_of_int_scalar|by_compute|].
  apply Forall_replace1; [by_compute|by apply Ho].
Qed.

(** Row [i] of the result is made from row [i] of each column. *)
Lemma id_column_lookup inc rs ts os i :
  (inc = true → length rs = length ts) →
  id_column inc rs ts os !! i =
    t ← ts !! i; o ← os !! i;
    Some (id_cell (prefix_cell inc (default None (rs !! i))) t o).
Proof.
  intros Hlen. unfold id_column. rewrite !lookup_zip_with.
  destruct (ts !! i) as [t|] eqn:Ht; cbn.
  - destruct inc.
    + rewrite list_lookup_fmap.
      destruct (rs !! i) as [r|] eqn:Hr; cbn; [by destruct (os !! i)|].
      apply lookup_ge_None in Hr. apply lookup_lt_Some in Ht.
      specialize (Hlen eq_refl). lia.
    + rewrite lookup_replicate_2 by by eapply lookup_lt_Some.
      cbn. by destruct (os !! i).
  - destruct inc; [|by destruct (replicate _ _ !! i)].
    by destruct ((prefix_cell true <$> rs) !! i).
Qed.

(** The result has as many rows as the shortest column. *)
Lemma length_id_column inc rs ts os :
  (inc = true → length rs = length ts) → length ts = length os →
  length (id_column inc rs ts os) = length ts.
Proof.
  intros Hlen1 Hlen2. unfold id_column. rewrite !length_zip_with.
  destruct inc; rewrite ?length_fmap, ?length_replicate; [|lia].
  specialize (Hlen1 eq_refl). lia.
Qed.

(** On rows without nulls whose object ids have at most one hyphen, the
    rows of the data-frame method are those of the scalar method. *)
Lemma id_column_scalar (rs' : list pystr) (ts' : list Z) (os' : list pystr) :
  length rs' = length ts' →
  Forall (λ x, (occurrences hyphen x ≤ 1)%nat ∧ last x ≠ Some 0) os' →
  id_column true (Some <$> rs') (Some <$> ts') (Some <$> os') =
    scalar_column rs' ts' os'.
Proof.
  intros Hlen Hos. apply list_eq. intros i.
  rewrite id_column_lookup by by rewrite !length_fmap.
  unfold scalar_column. rewrite !lookup_zip_with, !list_lookup_fmap.
  destruct (ts' !! i) as [t|] eqn:Ht; cbn; [|by destruct (rs' !! i)].
  destruct (rs' !! i) as [r|] eqn:Hr; cbn.
  - destruct (os' !! i) as [x|] eqn:Ho; cbn; [|done]. f_equal.
    rewrite list.Forall_forall in Hos.
    destruct (Hos x) as [Hocc Hlast]; [by eapply list_elem_of_lookup_2|].
    by apply (id_cell_scalar (Some r)).
  - apply lookup_ge_None in Hr. apply lookup_lt_Some in Ht. lia.
Qed.
End rows.

(** * The method on a frame *)

Section frames.
Context `{Int64Parser}.
Implicit Types (df : dataframe) (s : series) (c ct co : column) (inc : bool).
Implicit Types (rs os : list (option pystr)) (ts : list (option Z)).

(** In a well-formed frame everything read has the frame's height. *)
Lemma inputs_lengths df inc rs ts os :
  df_wf df → inputs df inc rs ts os →
  (inc = true → length rs = height df)
  ∧ length ts = height df ∧ length os = height df.
Proof.
  intros Hwf (Hrs & (ct & Ht & Hts) & (co & Ho & ->)).
  apply length_int_cells in Hts. rewrite length_str_cells.
  destruct (df_lookup_wf _ _ _ Hwf Ht) as [Hlt _].
  destruct (df_lookup_wf _ _ _ Hwf Ho) as [Hlo _].
  split_and!; [|congruence..]. intros ->. cbn [release_cells] in Hrs.
  destruct (df_lookup release_name df) as [cr|] eqn:Hr; [|done].
  injection Hrs as <-. rewrite length_str_cells.
  by destruct (df_lookup_wf _ _ _ Hwf Hr) as [-> _].
Qed.

Lemma inputs_resolve df inc rs ts os :
  inputs df inc rs ts os → resolve df (read_columns inc) = Ok ().
Proof.
  intros (Hrs & (ct & Ht & _) & (co & Ho & _)).
  apply resolve_read_columns. by rewrite Hrs, Ht, Ho.
Qed.

(** From what is read to the result. *)
Lemma make_id_str_inputs df inc rs ts os :
  df_wf df → inputs df inc rs ts os →
  make_id_str df inc = Ok (Series unique_id (StrCol (id_column inc rs ts os))).
Proof.
  intros Hwf Hin.
  destruct (inputs_lengths _ _ _ _ _ Hwf Hin) as (Hlr & Hlt & Hlo).
  rewrite make_id_str_eval, (inputs_resolve _ _ _ _ _ Hin).
  destruct Hin as (Hrs & (ct & Ht & Hts) & (co & Ho & ->)).
  rewrite length_str_cells in Hlo.
  rewrite (eval_id_expr df inc rs ct ts co); [done..| |congruence].
  intros Hinc. rewrite (Hlr Hinc). done.
Qed.

(** Once the names are resolved, the tile indexes either cast or raise. *)
Lemma resolved_inputs df inc :
  resolve df (read_columns inc) = Ok () →
  (∃ rs ts os, inputs df inc rs ts os)
  ∨ ∃ rs ct e, release_cells df inc = Some rs
      ∧ df_lookup tile_index df = Some ct ∧ int_cells ct = Err e.
Proof.
  intros ([rs Hrs] & [ct Ht] & [co Ho])%resolve_read_columns.
  destruct (int_cells ct) as [ts|e] eqn:Hts.
  - left. exists rs, ts, (str_cells co). split_and!; eauto.
  - right. by exists rs, ct, e.
Qed.

(** From a result back to what was read. *)
Lemma make_id_str_Ok_inv df inc s :
  df_wf df → make_id_str df inc = Ok s →
  ∃ rs ts os, inputs df inc rs ts os
    ∧ s = Series unique_id (StrCol (id_column inc rs ts os)).
Proof.
  intros Hwf Hs. pose proof Hs as Hs'. rewrite make_id_str_eval in Hs'.
  apply bind_Ok_iff in Hs' as ([] & Hres & Hev).
  destruct (resolved_inputs _ _ Hres) as [(rs&ts&os&Hin)|(rs&ct&e&Hrs&Ht&Hts)].
  - exists rs, ts, os. split; [done|].
    rewrite (make_id_str_inputs _ _ _ _ _ Hwf Hin) in Hs. congruence.
  - by rewrite (eval_id_expr_Err _ _ _ _ e Hrs Ht Hts) in Hev.
Qed.

(** A tile index that does not cast makes the method raise, whatever
    else the frame holds. *)
Lemma make_id_str_cast_Err df inc ct e :
  resolve df (read_columns inc) = Ok () →
  df_lookup tile_index df = Some ct → int_cells ct = Err e →
  make_id_str df inc = Err e.
Proof.
  intros Hres Ht Hts. rewrite make_id_str_eval, Hres. cbn [mbind result_bind].
  apply resolve_read_columns in Hres as ([rs Hrs] & _ & _).
  by rewrite (eval_id_expr_Err _ _ _ _ e Hrs Ht Hts).
Qed.

(** The errors: a missing column, or a tile index that does not cast. *)
Lemma make_id_str_Err_iff df inc e :
  df_wf df →
  make_id_str df inc = Err e ↔
  resolve df (read_columns inc) = Err e
  ∨ (resolve df (read_columns inc) = Ok ()
     ∧ ∃ ct, df_lookup tile_index df = Some ct ∧ int_cells ct = Err e).
Proof.
  intros Hwf. split.
  - intros He. destruct (resolve df (read_columns inc)) as [[]|e'] eqn:Hres.
    + right. split; [done|].
      destruct (resolved_inputs _ _ Hres) as [(rs&ts&os&Hin)|(rs&ct&e'&Hrs&Ht&Hts)].
      * by rewrite (make_id_str_inputs _ _ _ _ _ Hwf Hin) in He.
      * rewrite make_id_str_eval, Hres in He. cbn [mbind result_bind] in He.
        rewrite (eval_id_expr_Err _ _ _ _ e' Hrs Ht Hts) in He.
        exists ct. split; [done|]. by injection He as <-.
    + left. rewrite make_id_str_eval, Hres in He. by injection He as ->.
  - intros [Hres|[Hres (ct & Ht & Hts)]].
    + by rewrite make_id_str_eval, Hres.
    + by eapply make_id_str_cast_Err.
Qed.

(** What is read from a well-formed frame is valid text. *)
Lemma inputs_valid df inc rs ts os :
  df_wf df → inputs df inc rs ts os →
  all_valid (Forall is_scalar) rs ∧ all_valid (Forall is_scalar) os.
Proof.
  intros Hwf (Hrs & _ & (co & Ho & ->)). split.
  - destruct inc; cbn [release_cells] in Hrs; [|injection Hrs as <-; constructor].
    destruct (df_lookup release_name df) as [cr|] eqn:Hr; [|done].
    injection Hrs as <-. by apply str_cells_wf, (df_lookup_wf df release_name).
  - by apply str_cells_wf, (df_lookup_wf df object_id).
Qed.

Lemma id_column_valid inc rs ts os :
  (inc = true → length rs = length ts) →
  all_valid (Forall is_scalar) rs → all_valid (Forall is_scalar) os →
  all_valid (Forall is_scalar) (id_column inc rs ts os).
Proof.
  intros Hlen Hrs Hos. apply Forall_lookup. intros i x Hi c ->.
  rewrite id_column_lookup in Hi by done.
  destruct (ts !! i) as [t|]; [|done]. destruct (os !! i) as [o|] eqn:Ho; [|done].
  injection Hi as Hi. eapply id_cell_valid; [| |exact Hi].
  - intros a Ha. eapply prefix_cell_valid; [|exact Ha]. intros b Hb.
    destruct (rs !! i) as [r|] eqn:Hr; [|done]. cbn in Hb. subst r.
    exact (all_valid_lookup _ _ _ _ Hrs Hr).
  - intros b ->. exact (all_valid_lookup _ _ _ _ Hos Ho).
Qed.

(** The result is a String column of valid text. *)
Lemma make_id_str_valid df inc s :
  df_wf df → make_id_str df inc = Ok s →
  ∃ l, s_col s = StrCol l ∧ all_valid (Forall is_scalar) l.
Proof.
  intros Hwf (rs & ts & os & Hin & ->)%make_id_str_Ok_inv; [|done].
  destruct (inputs_lengths _ _ _ _ _ Hwf Hin) as (Hlr & Hlt & _).
  destruct (inputs_valid _ _ _ _ _ Hwf Hin) as [Hrs Hos].
  eexists. split; [done|].
  apply id_column_valid; [|done..]. intros Hinc. by rewrite Hlr.
Qed.
End frames.

(** * Theorems *)

Section theorems.
Context `{Int64Parser}.
Implicit Types (df : dataframe) (s : series) (c ct co : column) (inc : bool).
Implicit Types (rs os : list (option pystr)) (ts : list (option Z)).

(** C2: on a well-formed frame, the data-frame [make_id_str] returns a
    series exactly when the columns it reads exist and the tile indexes
    cast to Int64; the series is then named [unique_id] and holds, row by
    row, the prefix, the tile index in decimal, an underscore, and the
    object id with its first hyphen replaced by [NEG]. *)
Theorem make_id_str_Ok df inc s :
  df_wf df →
  make_id_str df inc = Ok s ↔
  ∃ rs ts os, inputs df inc rs ts os
    ∧ s = Series unique_id (StrCol (id_column inc rs ts os)).
Proof.
  intros Hwf. split; [by apply make_id_str_Ok_inv|].
  intros (rs & ts & os & Hin & ->). by apply make_id_str_inputs.
Qed.

(** C5: on a well-formed frame, the data-frame [make_id_str] raises
    ColumnNotFoundError for the first column, in the order release name,
    tile index, object id, that the frame lacks; when all are present it
    raises InvalidOperationError exactly when a tile index does not cast
    to Int64; and it raises nothing else. *)
Theorem make_id_str_Err df inc e :
  df_wf df →
  make_id_str df inc = Err e ↔
  (∃ i n, e = ColumnNotFoundError n ∧ read_columns inc !! i = Some n
          ∧ n ∉ df_names df
          ∧ Forall (λ n, n ∈ df_names df) (take i (read_columns inc)))
  ∨ (e = InvalidOperationError
     ∧ Forall (λ n, n ∈ df_names df) (read_columns inc)
     ∧ ∃ ct, df_lookup tile_index df = Some ct ∧ ¬ castable ct).
Proof.
  intros Hwf. rewrite (make_id_str_Err_iff _ _ _ Hwf), resolve_Err, resolve_Ok.
  apply or_iff_compat_l. split.
  - intros (Hres & ct & Ht & Hts). pose proof (int_cells_Err _ _ Hts) as ->.
    split_and!; [done..|]. exists ct. split; [done|].
    apply int_cells_is_Ok_not. by eexists.
  - intros (-> & Hres & ct & Ht & [e' Hts]%int_cells_is_Ok_not).
    pose proof (int_cells_Err _ _ Hts) as ->. eauto.
Qed.

(** C10: the series returned for a well-formed frame is named
    [unique_id], is of type String, and has one row per row of the
    frame. *)
Theorem make_id_str_shape df inc s :
  df_wf df → make_id_str df inc = Ok s →
  s_name s = unique_id ∧ col_dtype (s_col s) = String
  ∧ col_len (s_col s) = height df.
Proof.
  intros Hwf (rs & ts & os & Hin & ->)%make_id_str_Ok_inv; [|done].
  destruct (inputs_lengths _ _ _ _ _ Hwf Hin) as (Hlr & Hlt & Hlo).
  split_and!; [done..|]. cbn. rewrite length_id_column; [done| |congruence].
  intros Hinc. by rewrite Hlr.
Qed.

(** Rows keep their order: row [i] of the result is built from row
    [i] of the release names, of the tile indexes and of the object ids,
    and from no other row. *)
Theorem make_id_str_row df inc rs ts os s i :
  df_wf df → inputs df inc rs ts os → make_id_str df inc = Ok s →
  str_cells (s_col s) !! i =
    t ← ts !! i; o ← os !! i;
    Some (id_cell (prefix_cell inc (default None (rs !! i))) t o).
Proof.
  intros Hwf Hin Hs. rewrite (make_id_str_inputs _ _ _ _ _ Hwf Hin) in Hs.
  injection Hs as <-. cbn [s_col str_cells]. apply id_column_lookup.
  destruct (inputs_lengths _ _ _ _ _ Hwf Hin) as (Hlr & Hlt & _).
  intros Hinc. by rewrite Hlr.
Qed.

(** C26: a row of the result is null exactly when its tile index or its
    object id is null, or its release name when the release name is
    included. *)
Theorem make_id_str_null df inc rs ts os s i :
  df_wf df → inputs df inc rs ts os → make_id_str df inc = Ok s →
  (i < height df)%nat →
  str_cells (s_col s) !! i = Some None ↔
  (inc = true ∧ rs !! i = Some None) ∨ ts !! i = Some None ∨ os !! i = Some None.
Proof.
  intros Hwf Hin Hs Hi. rewrite (make_id_str_inputs _ _ _ _ _ Hwf Hin) in Hs.
  destruct (inputs_lengths _ _ _ _ _ Hwf Hin) as (Hlr & Hlt & Hlo).
  injection Hs as <-. cbn [s_col str_cells].
  rewrite id_column_lookup by (intros Hinc; by rewrite Hlr).
  destruct (lookup_lt_is_Some_2 ts i) as [t Ht]; [lia|].
  destruct (lookup_lt_is_Some_2 os i) as [o Ho]; [lia|].
  rewrite Ht, Ho. cbn. rewrite (inj_iff Some), id_cell_None, prefix_cell_None.
  destruct inc; [|naive_solver].
  destruct (lookup_lt_is_Some_2 rs i) as [r Hr]; [rewrite Hlr by done; lia|].
  rewrite Hr. cbn. naive_solver.
Qed.

(** C25: on a well-formed frame the method returns a series exactly when
    the frame has the columns it reads and every tile index is null, a
    Boolean, an integer that fits 64 bits, or text that reads as one. *)
Theorem make_id_str_is_Ok df inc :
  df_wf df →
  is_Ok (make_id_str df inc) ↔
  Forall (λ n, n ∈ df_names df) (read_columns inc)
  ∧ ∀ ct, df_lookup tile_index df = Some ct → castable ct.
Proof.
  intros Hwf. rewrite <-resolve_Ok. split.
  - intros [s (rs&ts&os&Hin&_)%make_id_str_Ok_inv]; [|done].
    split; [by eapply inputs_resolve|].
    destruct Hin as (_ & (ct & Ht & Hts) & _). intros ct' Ht'.
    apply int_cells_is_Ok. exists ts. congruence.
  - intros [Hres Hct].
    destruct (resolved_inputs _ _ Hres) as [(rs&ts&os&Hin)|(rs&ct&e&_&Ht&Hts)].
    + eexists. by apply make_id_str_inputs.
    + apply Hct, int_cells_is_Ok in Ht as [ts Hts']. congruence.
Qed.

(** Text in the tile index column that is not an optionally signed
    run of digits makes the method raise InvalidOperationError, whatever
    integer reader the engine uses and whatever the other rows hold. *)
Theorem make_id_str_bad_tile df inc l (bad : pystr) :
  Forall (λ n, n ∈ df_names df) (read_columns inc) →
  df_lookup tile_index df = Some (StrCol l) →
  Some bad ∈ l → read_signed bad = None →
  make_id_str df inc = Err InvalidOperationError.
Proof.
  intros Hres%resolve_Ok Ht Hin Hbad.
  assert (is_Err (int_cells (StrCol l))) as [e He].
  { apply int_cells_is_Ok_not. intros Hl. unfold castable, all_valid in Hl.
    rewrite list.Forall_forall in Hl. destruct (Hl _ Hin bad eq_refl) as [z Hz].
    apply parse_i64_sound in Hz as [_ Hz]. congruence. }
  pose proof (int_cells_Err _ _ He) as ->. by eapply make_id_str_cast_Err.
Qed.

(** C6: row [i] of the result equals the scalar [make_id_str] of row
    [i]'s tile index, object id and release name exactly when the object
    id has at most one hyphen (the object id not ending in NUL, which the
    scalar method would drop). *)
Theorem make_id_str_row_scalar df inc rs ts os s i rel t o :
  df_wf df → inputs df inc rs ts os → make_id_str df inc = Ok s →
  match rel with
  | Some r => inc = true ∧ rs !! i = Some (Some r)
  | None => inc = false
  end →
  ts !! i = Some (Some t) → os !! i = Some (Some o) → last o ≠ Some 0 →
  str_cells (s_col s) !! i =
    Some (Some (Scalar.make_id_str (Scalar.TileInt t) o rel))
  ↔ (occurrences hyphen o ≤ 1)%nat.
Proof.
  intros Hwf Hin Hs Hrel Ht Ho Hlast.
  rewrite (make_id_str_inputs _ _ _ _ _ Hwf Hin) in Hs.
  destruct (inputs_lengths _ _ _ _ _ Hwf Hin) as (Hlr & Hlt & _).
  injection Hs as <-. cbn [s_col str_cells].
  rewrite id_column_lookup, Ht, Ho by (intros Hinc; by rewrite Hlr).
  cbn [mbind option_bind]. rewrite (inj_iff Some), <-(id_cell_scalar rel) by done.
  destruct rel as [r|]; [destruct Hrel as [-> ->]|subst inc]; done.
Qed.

(** Without the release name the method does not look at the
    [release_name] column: two frames with the same tile indexes and
    object ids give the same outcome. *)
Theorem make_id_str_no_release df df' :
  df_lookup tile_index df = df_lookup tile_index df' →
  df_lookup object_id df = df_lookup object_id df' →
  make_id_str df false = make_id_str df' false.
Proof.
  intros Ht Ho. rewrite !make_id_str_eval.
  rewrite (resolve_ext df df'), (eval_ext df df'); [done|..].
  - rewrite expr_columns_id_expr. by repeat constructor.
  - repeat constructor; by rewrite ?Ht, ?Ho.
Qed.

(** The two-row example: with the release name the result is
    [Q1_R1_1_aNEG1], [Q1_R1_2_bNEG2]; without it, [1_aNEG1], [2_bNEG2]. *)
Theorem make_id_str_example :
  make_id_str example_frame true =
    Ok (Series unique_id
          (StrCol [Some (lit "Q1_R1_1_aNEG1"); Some (lit "Q1_R1_2_bNEG2")]))
  ∧ make_id_str example_frame false =
    Ok (Series unique_id (StrCol [Some (lit "1_aNEG1"); Some (lit "2_bNEG2")])).
Proof. split; vm_compute; reflexivity. Qed.

(** An object id with two hyphens: the data-frame method replaces
    the first one only, the scalar method both. *)
Theorem make_id_str_second_hyphen :
  make_id_str (row_frame (lit "R") 1 (lit "a-b-c")) true =
    Ok (Series unique_id (StrCol [Some (lit "R_1_aNEGb-c")]))
  ∧ Scalar.make_id_str (Scalar.TileInt 1) (lit "a-b-c") (Some (lit "R")) =
    lit "R_1_aNEGbNEGc".
Proof. split; vm_compute; reflexivity. Qed.

(** C11: refinement of the scalar method: on a well-formed frame without
    nulls, with integer tile indexes and object ids that have at most
    one hyphen and do not end in NUL, the data-frame method returns, row
    by row and in order, what the scalar method returns for that row. *)
Theorem make_id_str_refines_scalar df
    (rs' : list pystr) (ts' : list Z) (os' : list pystr) :
  df_wf df → inputs df true (Some <$> rs') (Some <$> ts') (Some <$> os') →
  Forall (λ o, (occurrences hyphen o ≤ 1)%nat ∧ last o ≠ Some 0) os' →
  make_id_str df true =
    Ok (Series unique_id (StrCol (scalar_column rs' ts' os'))).
Proof.
  intros Hwf Hin Hos.
  destruct (inputs_lengths _ _ _ _ _ Hwf Hin) as (Hlr & Hlt & _).
  specialize (Hlr eq_refl). rewrite length_fmap in Hlr. rewrite length_fmap in Hlt.
  rewrite (make_id_str_inputs _ _ _ _ _ Hwf Hin), id_column_scalar;
    [done|congruence|done].
Qed.
End theorems.

(** * The theorems at the example frames *)

Section witnesses.

Lemma example_frame_wf : df_wf example_frame.
Proof. by_compute. Qed.

Lemma example_frame_inputs :
  inputs example_frame true
    [Some (lit "Q1_R1"); Some (lit "Q1_R1")] [Some 1; Some 2]
    [Some (lit "a-1"); Some (lit "b-2")].
Proof.
  split_and!; [|exists (IntCol I64 [Some 1; Some 2])
               |exists (StrCol [Some (lit "a-1"); Some (lit "b-2")])];
    try split; vm_compute; reflexivity.
Qed.

Lemma example_frame_result :
  make_id_str example_frame true =
    Ok (Series unique_id
          (StrCol [Some (lit "Q1_R1_1_aNEG1"); Some (lit "Q1_R1_2_bNEG2")])).
Proof. vm_compute. reflexivity. Qed.

Lemma make_id_str_Ok_witness :
  ∃ rs ts os, inputs example_frame true rs ts os
    ∧ Series unique_id
        (StrCol [Some (lit "Q1_R1_1_aNEG1"); Some (lit "Q1_R1_2_bNEG2")]) =
      Series unique_id (StrCol (id_column true rs ts os)).
Proof.
  exact (proj1 (make_id_str_Ok example_frame true _ example_frame_wf)
           example_frame_result).
Defined.

Lemma make_id_str_shape_witness :
  s_name (Series unique_id
            (StrCol [Some (lit "Q1_R1_1_aNEG1"); Some (lit "Q1_R1_2_bNEG2")]))
    = unique_id
  ∧ col_dtype (StrCol [Some (lit "Q1_R1_1_aNEG1"); Some (lit "Q1_R1_2_bNEG2")])
    = String
  ∧ col_len (StrCol [Some (lit "Q1_R1_1_aNEG1"); Some (lit "Q1_R1_2_bNEG2")])
    = height example_frame.
Proof.
  exact (make_id_str_shape example_frame true _ example_frame_wf
           example_frame_result).
Defined.

Lemma make_id_str_row_witness :
  Some (Some (lit "Q1_R1_2_bNEG2")) =
    Some (id_cell (prefix_cell true (Some (lit "Q1_R1"))) (Some 2)
            (Some (lit "b-2"))).
Proof.
  exact (make_id_str_row example_frame true _ _ _ _ 1 example_frame_wf
           example_frame_inputs example_frame_result).
Defined.

Lemma make_id_str_row_scalar_witness :
  Some (Some (lit "Q1_R1_2_bNEG2")) =
    Some (Some (Scalar.make_id_str (Scalar.TileInt 2) (lit "b-2")
                  (Some (lit "Q1_R1"))))
  ↔ (occurrences hyphen (lit "b-2") ≤ 1)%nat.
Proof.
  apply (make_id_str_row_scalar example_frame true _ _ _ _ 1
           (Some (lit "Q1_R1")) 2 (lit "b-2") example_frame_wf
           example_frame_inputs example_frame_result); by vm_compute.
Defined.

Lemma make_id_str_is_Ok_witness :
  is_Ok (make_id_str example_frame true) ↔
  Forall (λ n, n ∈ df_names example_frame) (read_columns true)
  ∧ ∀ ct, df_lookup tile_index example_frame = Some ct → castable ct.
Proof. exact (make_id_str_is_Ok example_frame true example_frame_wf). Defined.

Lemma make_id_str_Err_witness :
  (∃ i n, ColumnNotFoundError object_id = ColumnNotFoundError n
          ∧ read_columns false !! i = Some n ∧ n ∉ df_names short_frame
          ∧ Forall (λ n, n ∈ df_names short_frame) (take i (read_columns false)))
  ∨ (ColumnNotFoundError object_id = InvalidOperationError
     ∧ Forall (λ n, n ∈ df_names short_frame) (read_columns false)
     ∧ ∃ ct, df_lookup tile_index short_frame = Some ct ∧ ¬ castable ct).
Proof.
  apply (make_id_str_Err short_frame false (ColumnNotFoundError object_id)).
  - by_compute.
  - vm_compute. reflexivity.
Defined.

Lemma make_id_str_null_witness :
  str_cells (StrCol [Some (lit "R_1_a"); None]) !! 1%nat = Some None ↔
  (true = true ∧ [Some (lit "R"); Some (lit "R")] !! 1%nat = Some None)
  ∨ [Some 1; Some 2] !! 1%nat = Some None
  ∨ [Some (lit "a"); None] !! 1%nat = Some (@None pystr).
Proof.
  apply (make_id_str_null null_frame true _ _ _
           (Series unique_id (StrCol [Some (lit "R_1_a"); None])) 1).
  - by_compute.
  - split_and!; [|exists (IntCol I64 [Some 1; Some 2])
                 |exists (StrCol [Some (lit "a"); None])];
      try split; vm_compute; reflexivity.
  - vm_compute. reflexivity.
  - vm_compute. lia.
Defined.

Lemma make_id_str_bad_tile_witness :
  make_id_str text_frame false = Err InvalidOperationError.
Proof.
  apply (make_id_str_bad_tile text_frame false
           [Some (lit "1"); Some (lit "abc")] (lit "abc")).
  - by_compute.
  - vm_compute. reflexivity.
  - by_compute.
  - vm_compute. reflexivity.
Defined.

Lemma make_id_str_no_release_witness :
  make_id_str example_frame false = make_id_str (tail example_frame) false.
Proof.
  apply (make_id_str_no_release example_frame (tail example_frame));
    vm_compute; reflexivity.
Defined.

Lemma make_id_str_refines_scalar_witness :
  make_id_str example_frame true =
    Ok (Series unique_id
          (StrCol (scalar_column [lit "Q1_R1"; lit "Q1_R1"] [1; 2]
                     [lit "a-1"; lit "b-2"]))).
Proof.
  apply (make_id_str_refines_scalar example_frame
           [lit "Q1_R1"; lit "Q1_R1"] [1; 2] [lit "a-1"; lit "b-2"]).
  - exact example_frame_wf.
  - exact example_frame_inputs.
  - by_compute.
Defined.
End witnesses.

End Batch.
