(* ===== verification/Dispatch.v ===== *)
(** * Calls: multiple dispatch and argument binding

    [make_id_str] is two methods registered with plum's [@dispatch]
    (src/src/zootasks_utils/_src/upload_utils.py, lines 41-44 and
    71-72); [get_hash_id] is a plain function whose parameters are
    marked positional-only and keyword-only (line 12).  This file models
    what happens between a call and a method body:

    - [value], [pytype], [isinstance]: the Python values the signatures
      name and their runtime types ([bool] is a subclass of [int]);
    - [param], [pyfunc], [scalar_def], [frame_def], [get_hash_id_def]:
      the parameter lists as the sources declare them;
    - [signatures]: plum registers a method once for each number of
      trailing positional defaults left out; [methods] is the list of
      what the two [@dispatch] lines register;
    - [resolve_method]: plum looks only at the positional arguments,
      keeps the signatures of the same length whose types all match, and
      raises NotFoundLookupError when there is none.  Whenever one
      candidate remains no ordering of signatures is consulted;
      [resolve_method] reports AmbiguousLookupError for more than one,
      and [resolve_method_unambiguous] shows that these methods never
      get there;
    - [bind_args], [bind_kwargs]: Python's binding of positional-only
      and keyword-only parameters, which raises TypeError;
    - [call_make_id_str], [call_get_hash_id]: a call from resolution to
      the result of the body ([IdStr], [IdStrBatch], [HashId]).

    [call_get_hash_id] takes text arguments: the function does not check
    its annotations, and [HashIdAny] runs the calls that break them. *)

From stdpp Require Import strings.
From S2P Require Import Prelude PyStr IdStr Polars IdStrBatch HashId.

#[local] Open Scope Z_scope.
#[local] Existing Instances pl.series_eq_dec pl.strict_parser.

(** * Definitions *)

(** The values a call of [make_id_str] may pass. *)
Inductive value : Type :=
  | VNone
  | VBool (b : bool)
  | VInt (n : Z)
  | VStr (s : pystr)
  | VFrame (df : pl.dataframe)
  | VSeries (s : pl.series).

#[export] Instance value_eq_dec : EqDecision value.
Proof. solve_decision. Defined.

(** The classes the annotations name. *)
Inductive pytype : Type := TInt | TStr | TNoneType | TBool | TDataFrame.

#[export] Instance pytype_eq_dec : EqDecision pytype.
Proof. solve_decision. Defined.

Definition isinstance (v : value) (t : pytype) : bool :=
  match v, t with
  | VNone, TNoneType => true
  | VBool _, (TBool | TInt) => true
  | VInt _, TInt => true
  | VStr _, TStr => true
  | VFrame _, TDataFrame => true
  | _, _ => false
  end.

(** An annotation is a union of classes. *)
Definition annotation : Type := list pytype.

Definition is_bearable (v : value) (a : annotation) : bool :=
  existsb (isinstance v) a.

Record param : Type := Param {
  p_name : pystr;
  p_type : annotation;
  p_default : option value;
}.

(** A [def]: the parameters before [/] and those after [*]. *)
Record pyfunc : Type := PyFunc {
  positional : list param;
  keyword_only : list param;
}.

Inductive method : Type := ScalarMethod | FrameMethod.

#[export] Instance method_eq_dec : EqDecision method.
Proof. solve_decision. Defined.

(** Lines 42-44. *)
Definition scalar_def : pyfunc :=
  PyFunc [Param (lit "tile_index") [TInt; TStr] None;
          Param (lit "object_id") [TStr] None;
          Param (lit "release_name") [TStr; TNoneType] (Some VNone)]
         [].

(** Line 72. *)
Definition frame_def : pyfunc :=
  PyFunc [Param (lit "df") [TDataFrame] None]
         [Param (lit "include_release_name") [TBool] (Some (VBool true))].

Definition method_def (m : method) : pyfunc :=
  match m with
  | ScalarMethod => scalar_def
  | FrameMethod => frame_def
  end.

(** Line 12. *)
Definition get_hash_id_def : pyfunc :=
  PyFunc [Param (lit "subject_id") [TStr] None]
         [Param (lit "extra_key") [TStr] None].

(** The signatures plum registers for a parameter list: one for each
    way of leaving out trailing parameters that have defaults. *)
Fixpoint signatures (ps : list param) : list (list annotation) :=
  match ps with
  | [] => [[]]
  | p :: ps' =>
      (if forallb (λ q, bool_decide (is_Some (p_default q))) ps then [[]] else [])
      ++ ((λ s, p_type p :: s) <$> signatures ps')
  end.

(** Lines 41 and 71: both methods are registered under one name. *)
Definition methods : list (list annotation * method) :=
  m ← [ScalarMethod; FrameMethod];
  (λ s, (s, m)) <$> signatures (positional (method_def m)).

Fixpoint matches (args : list value) (sig : list annotation) : bool :=
  match args, sig with
  | [], [] => true
  | v :: args, a :: sig => is_bearable v a && matches args sig
  | _, _ => false
  end.

Definition candidates (args : list value) : list (list annotation * method) :=
  filter (λ sm, matches args sm.1 = true) methods.

Definition resolve_method (args : list value) : result method :=
  match candidates args with
  | [] => Err NotFoundLookupError
  | [sm] => Ok sm.2
  | _ => Err AmbiguousLookupError
  end.

(** Positional arguments against positional-only parameters. *)
Fixpoint bind_args (ps : list param) (args : list value) : result (list value) :=
  match ps, args with
  | [], [] => Ok []
  | [], _ :: _ => Err TypeError
  | p :: ps, [] =>
      v ← of_option TypeError (p_default p); (λ vs, v :: vs) <$> bind_args ps []
  | p :: ps, v :: args => (λ vs, v :: vs) <$> bind_args ps args
  end.

Fixpoint kw_lookup {V} (name : pystr) (kwargs : list (pystr * V)) : option V :=
  match kwargs with
  | [] => None
  | (k, v) :: kwargs => if decide (k = name) then Some v else kw_lookup name kwargs
  end.

(** Keyword arguments against keyword-only parameters: every keyword
    must name one, and one without a default must be given. *)
Definition bind_kwargs {V} (default : param → option V)
    (ks : list param) (kwargs : list (pystr * V)) : result (list V) :=
  if forallb (λ kv, bool_decide (kv.1 ∈ p_name <$> ks)) kwargs
  then mapM (λ p, of_option TypeError
                    (from_option Some (default p) (kw_lookup (p_name p) kwargs)))
            ks
  else Err TypeError.

(** The truth value the [if] of line 85 takes of its flag. *)
Definition truthy (v : value) : result bool :=
  match v with
  | VNone => Ok false
  | VBool b => Ok b
  | VInt n => Ok (bool_decide (n ≠ 0))
  | VStr s => Ok (bool_decide (s ≠ []))
  | VFrame _ | VSeries _ => Err TypeError
  end.

(** The values of the scalar method's parameters, as the body uses
    them, and back. *)
Definition tile_of (v : value) : option Scalar.tile_index :=
  match v with
  | VInt n => Some (Scalar.TileInt n)
  | VBool b => Some (Scalar.TileBool b)
  | VStr s => Some (Scalar.TileStr s)
  | _ => None
  end.

Definition release_of (v : value) : option (option pystr) :=
  match v with
  | VNone => Some None
  | VStr s => Some (Some s)
  | _ => None
  end.

Definition tile_value (t : Scalar.tile_index) : value :=
  match t with
  | Scalar.TileInt n => VInt n
  | Scalar.TileBool b => VBool b
  | Scalar.TileStr s => VStr s
  end.

Definition release_value (rel : option pystr) : value :=
  from_option VStr VNone rel.

Definition scalar_args (vals : list value)
    : option (Scalar.tile_index * pystr * option pystr) :=
  match vals with
  | [t; VStr o; r] => tile ← tile_of t; rel ← release_of r; Some (tile, o, rel)
  | _ => None
  end.

Definition frame_args (vals : list value) : option pl.dataframe :=
  match vals with
  | [VFrame df] => Some df
  | _ => None
  end.

(** The bound values have the types the method's body expects. *)
Definition typed_args (m : method) (vals : list value) : Prop :=
  match m with
  | ScalarMethod => is_Some (scalar_args vals)
  | FrameMethod => is_Some (frame_args vals)
  end.

Record call (V : Type) : Type := Call {
  args : list V;
  kwargs : list (pystr * V);
}.

Arguments Call {V} args kwargs.
Arguments args {V} c.
Arguments kwargs {V} c.

(** A call of [make_id_str], from its arguments to its result. *)
Definition call_make_id_str `{pl.Int64Parser} (c : call value) : result value :=
  m ← resolve_method (args c);
  vals ← bind_args (positional (method_def m)) (args c);
  kws ← bind_kwargs p_default (keyword_only (method_def m)) (kwargs c);
  match m with
  | ScalarMethod =>
      '(tile, o, rel) ← of_option TypeError (scalar_args vals);
      Ok (VStr (Scalar.make_id_str tile o rel))
  | FrameMethod =>
      df ← of_option TypeError (frame_args vals);
      inc ← truthy (default VNone (head kws));
      VSeries <$> Batch.make_id_str df inc
  end.

(** A call of [get_hash_id] on text. *)
Definition call_get_hash_id (c : call pystr) : result pystr :=
  match args c with
  | [subject_id] =>
      kws ← bind_kwargs (λ _, None) (keyword_only get_hash_id_def) (kwargs c);
      extra_key ← of_option TypeError (head kws);
      get_hash_id subject_id extra_key
  | _ => Err TypeError
  end.

(** * Resolution *)

Section resolution.
Implicit Types (v : value) (vals : list value) (m : method).

Lemma matches_length (l : list value) sig :
  matches l sig = true → length l = length sig.
Proof.
  revert sig. induction l as [|v l IH]; intros [|a sig]; cbn; try done.
  intros [_ ?]%andb_prop. f_equal. auto.
Qed.

(** The three registered signatures, by what they accept. *)
Lemma matches_scalar2 (l : list value) :
  matches l [[TInt; TStr]; [TStr]] = true ↔
  ∃ v o, l = [v; VStr o] ∧ is_Some (tile_of v).
Proof.
  split.
  - destruct l as [|v [|w [|]]]; cbn; rewrite ?andb_false_r; try done.
    destruct v, w; cbn; try done; intros _; by eexists _, _.
  - intros (v & o & -> & [t Ht]). by destruct v.
Qed.

Lemma matches_scalar3 (l : list value) :
  matches l [[TInt; TStr]; [TStr]; [TStr; TNoneType]] = true ↔
  ∃ v o r, l = [v; VStr o; r] ∧ is_Some (tile_of v) ∧ is_Some (release_of r).
Proof.
  split.
  - destruct l as [|v [|w [|r [|]]]]; cbn; rewrite ?andb_false_r; try done.
    destruct v, w, r; cbn; try done; intros _; by eexists _, _, _.
  - intros (v & o & r & -> & [t Ht] & [rel Hr]). by destruct v, r.
Qed.

Lemma matches_frame (l : list value) :
  matches l [[TDataFrame]] = true ↔ ∃ df, l = [VFrame df].
Proof.
  split.
  - destruct l as [|[] [|]]; cbn; try done. intros _. by eexists.
  - by intros [df ->].
Qed.

(** Resolution is a choice between the three signatures; their lengths
    differ, so no two accept the same arguments. *)
Lemma resolve_method_cases (l : list value) :
  resolve_method l =
    if matches l [[TInt; TStr]; [TStr]]
       || matches l [[TInt; TStr]; [TStr]; [TStr; TNoneType]]
    then Ok ScalarMethod
    else if matches l [[TDataFrame]] then Ok FrameMethod
    else Err NotFoundLookupError.
Proof.
  unfold resolve_method, candidates.
  change methods with
    [([[TInt; TStr]; [TStr]], ScalarMethod);
     ([[TInt; TStr]; [TStr]; [TStr; TNoneType]], ScalarMethod);
     ([[TDataFrame]], FrameMethod)].
  rewrite !filter_cons, filter_nil. cbn [fst snd].
  destruct (matches l [[TInt; TStr]; [TStr]]) eqn:H2;
    destruct (matches l [[TInt; TStr]; [TStr]; [TStr; TNoneType]]) eqn:H3;
    destruct (matches l [[TDataFrame]]) eqn:H1;
    repeat match goal with
      | H : matches _ _ = true |- _ => apply matches_length in H; cbn in H
      end; try lia; by repeat case_decide.
Qed.

Lemma bind_args_scalar (l vals : list value) :
  bind_args (positional (method_def ScalarMethod)) l = Ok vals ↔
  (∃ v w, l = [v; w] ∧ vals = [v; w; VNone])
  ∨ (∃ v w r, l = [v; w; r] ∧ vals = [v; w; r]).
Proof. destruct l as [|v [|w [|r [|]]]]; cbn; naive_solver. Qed.

Lemma bind_args_frame (l vals : list value) :
  bind_args (positional (method_def FrameMethod)) l = Ok vals ↔
  ∃ v, l = [v] ∧ vals = [v].
Proof. destruct l as [|v [|]]; cbn; naive_solver. Qed.

Lemma scalar_args_Some (vals : list value) x :
  scalar_args vals = Some x ↔
  ∃ v o r t rel, vals = [v; VStr o; r] ∧ tile_of v = Some t
    ∧ release_of r = Some rel ∧ x = (t, o, rel).
Proof.
  split.
  - destruct vals as [|v [|[] [|r [|]]]]; cbn; try done.
    destruct (tile_of v) as [t|] eqn:Ht; [|done]. cbn.
    destruct (release_of r) as [rel|] eqn:Hr; [|done]. cbn.
    intros [= <-]. by eexists _, _, _, _, _.
  - intros (v & o & r & t & rel & -> & Ht & Hr & ->). cbn. by rewrite Ht, Hr.
Qed.

(** A method that is selected binds its arguments, to values of the
    types its body expects. *)
Lemma resolve_method_bind (l : list value) m :
  resolve_method l = Ok m →
  ∃ vals, bind_args (positional (method_def m)) l = Ok vals ∧ typed_args m vals.
Proof.
  rewrite resolve_method_cases.
  destruct (matches l _) eqn:H2; [|destruct (matches l [[_;_];_;_]) eqn:H3];
    cbn [orb]; [..|destruct (matches l [[TDataFrame]]) eqn:H1; [|done]];
    intros [= <-].
  - apply matches_scalar2 in H2 as (v & o & -> & [t Ht]).
    eexists; split; [cbn; reflexivity|]. cbn. rewrite Ht. by eexists.
  - apply matches_scalar3 in H3 as (v & o & r & -> & [t Ht] & [rel Hr]).
    eexists; split; [cbn; reflexivity|]. cbn. rewrite Ht, Hr. by eexists.
  - apply matches_frame in H1 as [df ->].
    eexists; split; [cbn; reflexivity|]. by eexists.
Qed.

(** C9: plum selects a method exactly when the positional arguments
    bind to that method's parameters (defaults filling what is left out)
    and have the types its body expects: a tile index that is an
    integer, a Boolean or text, an object id that is text, a release name
    that is text or None; or one data frame. *)
Theorem resolve_method_Ok (l : list value) m :
  resolve_method l = Ok m ↔
  ∃ vals, bind_args (positional (method_def m)) l = Ok vals ∧ typed_args m vals.
Proof.
  split; [apply resolve_method_bind|]. rewrite resolve_method_cases.
  intros (vals & Hb & Ht). destruct m.
  - destruct Ht as [x (v&o&r&t&rel&->&Ht&Hr&_)%scalar_args_Some].
    apply bind_args_scalar in Hb as [(?&?&->&?)|(?&?&?&->&?)]; simplify_eq.
    + rewrite (proj2 (matches_scalar2 _)); [done|]. by eexists _, _.
    + rewrite (proj2 (matches_scalar3 _)), orb_true_r; [done|].
      by eexists _, _, _.
  - apply bind_args_frame in Hb as (v & -> & ->).
    destruct Ht as [df Hdf]. destruct v; done.
Qed.
End resolution.

(** * Calls *)

Section calls.
Context `{pl.Int64Parser}.
Implicit Types (v : value) (c : call value) (t : Scalar.tile_index).

Lemma resolve_method_scalar2 t (o : pystr) :
  resolve_method [tile_value t; VStr o] = Ok ScalarMethod.
Proof.
  rewrite resolve_method_cases, (proj2 (matches_scalar2 _)); [done|].
  eexists _, _. split; [done|]. by destruct t.
Qed.

Lemma resolve_method_scalar3 t (o : pystr) (rel : option pystr) :
  resolve_method [tile_value t; VStr o; release_value rel] = Ok ScalarMethod.
Proof.
  rewrite resolve_method_cases, (proj2 (matches_scalar3 _)), orb_true_r; [done|].
  eexists _, _, _. split_and!; [done|by destruct t|by destruct rel].
Qed.

Lemma scalar_args_values t (o : pystr) (rel : option pystr) :
  scalar_args [tile_value t; VStr o; release_value rel] = Some (t, o, rel).
Proof. by destruct t, rel. Qed.

(** C23: for no arguments does plum find two methods: resolution never
    raises AmbiguousLookupError. *)
Theorem resolve_method_unambiguous (l : list value) :
  resolve_method l ≠ Err AmbiguousLookupError.
Proof. rewrite resolve_method_cases. by repeat case_match. Qed.

(** C21: a call with a tile index, an object id and a release name (or
    None) and no keywords returns the scalar method's identifier; with
    the release name left out it is the identifier for None. *)
Theorem call_scalar t (o : pystr) (rel : option pystr) :
  call_make_id_str (Call [tile_value t; VStr o; release_value rel] []) =
    Ok (VStr (Scalar.make_id_str t o rel))
  ∧ call_make_id_str (Call [tile_value t; VStr o] []) =
    Ok (VStr (Scalar.make_id_str t o None)).
Proof.
  unfold call_make_id_str. cbn [args kwargs].
  rewrite resolve_method_scalar2, resolve_method_scalar3. cbn [mbind result_bind].
  split.
  - change (bind_args _ _) with (Ok [tile_value t; VStr o; release_value rel]).
    cbn [mbind result_bind]. by rewrite scalar_args_values.
  - change (bind_args _ _) with (Ok [tile_value t; VStr o; release_value None]).
    cbn [mbind result_bind]. by rewrite scalar_args_values.
Qed.

(** C22: a call with one data frame runs the data-frame method, with
    the release name included unless the keyword
    [include_release_name] is given, whose truth value then decides. *)
Theorem call_frame (df : pl.dataframe) v :
  call_make_id_str (Call [VFrame df] []) = VSeries <$> Batch.make_id_str df true
  ∧ call_make_id_str (Call [VFrame df] [(lit "include_release_name", v)]) =
    (inc ← truthy v; VSeries <$> Batch.make_id_str df inc).
Proof. split; reflexivity. Qed.

(** C35: the scalar method takes no keywords: any keyword argument
    makes the call raise TypeError. *)
Theorem call_scalar_keyword c :
  resolve_method (args c) = Ok ScalarMethod → kwargs c ≠ [] →
  call_make_id_str c = Err TypeError.
Proof.
  intros Hr Hk. pose proof Hr as (vals & Hb & _)%resolve_method_bind.
  unfold call_make_id_str. rewrite Hr. cbn [mbind result_bind]. rewrite Hb.
  by destruct (kwargs c) as [|[k v] kw].
Qed.

(** C36: an object id that is not text is rejected before any body
    runs: the call raises NotFoundLookupError. *)
Theorem call_object_id_type v1 v2 (rest : list value) kw :
  (∀ o, v2 ≠ VStr o) →
  call_make_id_str (Call (v1 :: v2 :: rest) kw) = Err NotFoundLookupError.
Proof.
  intros Hv. unfold call_make_id_str. cbn [args]. rewrite resolve_method_cases.
  destruct (matches _ [[_; _]; [_]]) eqn:H2.
  { apply matches_scalar2 in H2 as (?&?&?&_). naive_solver. }
  destruct (matches _ [[_; _]; _; _]) eqn:H3.
  { apply matches_scalar3 in H3 as (?&?&?&?&_). naive_solver. }
  destruct (matches _ [[TDataFrame]]) eqn:H1; [|done].
  by apply matches_frame in H1 as [? ?].
Qed.
End calls.

Lemma call_scalar_keyword_witness :
  call_make_id_str
    (Call [VInt 12345; VStr (lit "abc-123")] [(lit "release_name", VStr (lit "Q1_R1"))])
  = Err TypeError.
Proof.
  apply (call_scalar_keyword
           (Call [VInt 12345; VStr (lit "abc-123")]
                 [(lit "release_name", VStr (lit "Q1_R1"))]));
    [vm_compute; reflexivity|done].
Defined.

Lemma call_object_id_type_witness :
  call_make_id_str (Call [VInt 1; VInt 2] []) = Err NotFoundLookupError.
Proof. apply (call_object_id_type (VInt 1) (VInt 2) [] []). by intros o. Defined.

(** * [get_hash_id] *)

Section get_hash_id.
Implicit Types (a k : pystr) (c : call pystr).

(** A call of [get_hash_id] with one positional argument and the
    keyword [extra_key] is the function on these two texts. *)
Lemma call_get_hash_id_bound a k :
  call_get_hash_id (Call [a] [(lit "extra_key", k)]) = get_hash_id a k.
Proof. reflexivity. Qed.

(** Every other call of [get_hash_id] (no or several positional
    arguments, the extra key passed by position or left out, another
    keyword) raises TypeError. *)
Theorem call_get_hash_id_TypeError c :
  NoDup (kwargs c).*1 →
  (∀ a k, c ≠ Call [a] [(lit "extra_key", k)]) →
  call_get_hash_id c = Err TypeError.
Proof.
  destruct c as [[|a [|]] kw]; cbn; try done. intros Hnd Hc.
  destruct kw as [|[k v] [|[k' v'] kw]]; [done| |].
  - unfold bind_kwargs. cbn. case_bool_decide as Hk; [|done].
    apply list_elem_of_singleton in Hk as ->. by destruct (Hc a v).
  - unfold bind_kwargs. cbn. case_bool_decide as Hk; [|done].
    case_bool_decide as Hk'; [|done]. cbn in Hnd.
    apply list_elem_of_singleton in Hk as ->.
    apply list_elem_of_singleton in Hk' as ->.
    apply NoDup_cons in Hnd as [Hnd _]. destruct Hnd. by left.
Qed.

Lemma call_get_hash_id_TypeError_witness :
  call_get_hash_id (Call [lit "Q1_R1_5_obj1"; lit "release-42"] []) = Err TypeError.
Proof.
  apply (call_get_hash_id_TypeError (Call [lit "Q1_R1_5_obj1"; lit "release-42"] []));
    [constructor|done].
Defined.
End get_hash_id.
