(* ===== verification/CallAny.v ===== *)
(** * Calls of [get_hash_id] with any arguments

    [get_hash_id] (src/src/zootasks_utils/_src/upload_utils.py, lines
    12-34) is a plain function: the interpreter binds the arguments of a
    call to the positional-only [subject_id] and the keyword-only
    [extra_key] of line 12, checks nothing else, and runs the body.
    [Dispatch.call_get_hash_id] is that call on text; this file is the
    call on the values of [HashIdAny], the binding of [Dispatch]
    followed by the body of [HashIdAny]:

    - [call_get_hash_id_any]: a call, from its arguments to a digest or
      an exception;
    - [call_map]: the call with its arguments under a function, which
      takes a call on text to the same call on values.

    The keywords of a call are distinct, as Python's call syntax
    requires. *)

From stdpp Require Import strings.
From S2P Require Import Prelude PyStr Utf8 Sha256 HashId HashIdAny Polars Dispatch.

#[local] Open Scope Z_scope.

(** * Definitions *)

(** A call of [get_hash_id], from its arguments to its result. *)
Definition call_get_hash_id_any (c : call pyobj) : result pystr :=
  match args c with
  | [subject_id] =>
      kws ← bind_kwargs (λ _, None) (keyword_only get_hash_id_def) (kwargs c);
      extra_key ← of_option TypeError (head kws);
      get_hash_id_any subject_id extra_key
  | _ => Err TypeError
  end.

(** The call with every argument under [f]. *)
Definition call_map {V W} (f : V → W) (c : call V) : call W :=
  Call (f <$> args c) (prod_map id f <$> kwargs c).

(** The one shape of call that binds: one positional argument and the
    keyword [extra_key]. *)
Definition binds {V} (c : call V) : Prop :=
  ∃ x y, c = Call [x] [(lit "extra_key", y)].

(** * Binding *)

Section binding.
Context {V : Type}.
Implicit Types (kw : list (pystr * V)) (v : V) (c : call V).

(** What the keywords of a call bind to [extra_key]. *)
Lemma bind_extra_key kw vs :
  NoDup kw.*1 →
  bind_kwargs (λ _, None) (keyword_only get_hash_id_def) kw = Ok vs ↔
  ∃ v, kw = [(lit "extra_key", v)] ∧ vs = [v].
Proof.
  intros Hnd. split; [|by intros (v & -> & ->)].
  destruct kw as [|[k v] [|[k' v'] kw]]; [done| |];
    unfold bind_kwargs; cbn; case_bool_decide as Hk; try done.
  - apply list_elem_of_singleton in Hk as ->. intros [= <-]. eauto.
  - case_bool_decide as Hk'; [|done].
    apply list_elem_of_singleton in Hk as ->.
    apply list_elem_of_singleton in Hk' as ->.
    apply NoDup_cons in Hnd as [[] _]. by left.
Qed.

Lemma bind_extra_key_Err kw e :
  bind_kwargs (λ _, None) (keyword_only get_hash_id_def) kw = Err e → e = TypeError.
Proof.
  unfold bind_kwargs. case_match; [|congruence]. cbn.
  by destruct (kw_lookup _ kw); cbn; intros [= <-].
Qed.

#[export] Instance binds_dec c : Decision (binds c).
Proof.
  refine (match c with
          | Call [x] [(k, y)] => cast_if (decide (k = lit "extra_key"))
          | _ => right _
          end); unfold binds; naive_solver.
Defined.
End binding.

(** * Binding is natural in the values *)

Section naturality.
Context {V W : Type} (f : V → W).
Implicit Types (kw : list (pystr * V)) (ks : list param).

Lemma kw_lookup_fmap name kw :
  kw_lookup name (prod_map id f <$> kw : list (pystr * W)) = f <$> kw_lookup name kw.
Proof.
  induction kw as [|[k v] kw IH]; [done|].
  rewrite fmap_cons. cbn [kw_lookup prod_map id fst snd]. by case_decide.
Qed.

Lemma forallb_fmap_keys (P : pystr * W → bool) (Q : pystr * V → bool) kw :
  (∀ k v, P (k, f v) = Q (k, v)) →
  forallb P (prod_map id f <$> kw) = forallb Q kw.
Proof.
  intros HPQ. induction kw as [|[k v] kw IH]; [done|].
  rewrite fmap_cons. cbn [forallb prod_map id fst snd]. by rewrite HPQ, IH.
Qed.

Lemma mapM_lookup_fmap ks kw :
  mapM (λ p, of_option TypeError
               (from_option Some None
                  (kw_lookup (p_name p) (prod_map id f <$> kw : list (pystr * W))))) ks
  = fmap (M := list) f <$>
      mapM (λ p, of_option TypeError
                   (from_option Some None (kw_lookup (p_name p) kw))) ks.
Proof.
  induction ks as [|p ks IH]; [done|].
  cbn [mapM]. rewrite IH, kw_lookup_fmap. clear IH.
  destruct (kw_lookup (p_name p) kw); [|done]. cbn.
  by destruct (mapM _ ks).
Qed.

(** Binding looks at the names of the keywords only. *)
Lemma bind_kwargs_fmap ks kw :
  bind_kwargs (λ _, None) ks (prod_map id f <$> kw : list (pystr * W))
  = fmap (M := list) f <$> bind_kwargs (λ _, None) ks kw.
Proof.
  unfold bind_kwargs.
  rewrite (forallb_fmap_keys _ (λ kv, bool_decide (kv.1 ∈ p_name <$> ks)))
    by done.
  case_match; [apply mapM_lookup_fmap|done].
Qed.
End naturality.

(** * The call *)

Section call.
Implicit Types (c : call pyobj) (x y : pyobj) (a k h : pystr) (e : exn).

Lemma call_get_hash_id_any_bound x y :
  call_get_hash_id_any (Call [x] [(lit "extra_key", y)]) = get_hash_id_any x y.
Proof. reflexivity. Qed.

(** A call that does not bind raises TypeError before the body runs. *)
Lemma call_get_hash_id_any_unbound c :
  NoDup (kwargs c).*1 → ¬ binds c → call_get_hash_id_any c = Err TypeError.
Proof.
  intros Hnd Hc. destruct c as [[|x [|]] kw]; cbn; try done.
  destruct (bind_kwargs _ _ kw) as [vs|e] eqn:Hb; cbn.
  - apply bind_extra_key in Hb as (y & -> & ->); [|done].
    destruct Hc. by exists x, y.
  - by apply bind_extra_key_Err in Hb as ->.
Qed.

(** A call on text is the call of [Dispatch]. *)
Lemma call_get_hash_id_any_text (c : call pystr) :
  call_get_hash_id_any (call_map PStr c) = call_get_hash_id c.
Proof.
  destruct c as [[|a [|]] kw]; try done.
  unfold call_get_hash_id_any, call_get_hash_id, call_map.
  cbn [args kwargs fmap list_fmap]. rewrite bind_kwargs_fmap.
  destruct (bind_kwargs _ _ kw) as [[|k ks]|e]; try done.
  apply get_hash_id_any_text.
Qed.
End call.

(** * Theorems *)

Section theorems.
Implicit Types (c : call pyobj) (x y : pyobj) (a k h : pystr) (e : exn).

(** C18: a call of [get_hash_id] returns exactly when it passes one
    positional argument and the keyword [extra_key], both text without
    surrogate code points, and it returns the digest of the two texts:
    although nothing checks them, the annotations of line 12 hold of
    every call that returns. *)
Theorem call_get_hash_id_any_Ok c h :
  NoDup (kwargs c).*1 →
  call_get_hash_id_any c = Ok h ↔
  ∃ a k, c = Call [PStr a] [(lit "extra_key", PStr k)] ∧ get_hash_id a k = Ok h.
Proof.
  intros Hnd. split.
  - destruct (decide (binds c)) as [(x & y & ->)|Hc];
      [|by rewrite call_get_hash_id_any_unbound].
    rewrite call_get_hash_id_any_bound.
    destruct (get_hash_id_any_cases x y) as [(a & k & -> & ->)|[Ho|He]].
    + rewrite get_hash_id_any_text. eauto.
    + by rewrite get_hash_id_any_other.
    + by rewrite (get_hash_id_any_add_Err _ _ _ He).
  - intros (a & k & -> & <-). apply get_hash_id_any_text.
Qed.

(** Every call raises or returns: which exception, by the shape of the
    call and then by the body. *)
Theorem call_get_hash_id_any_Err c e :
  NoDup (kwargs c).*1 →
  call_get_hash_id_any c = Err e ↔
  (¬ binds c ∧ e = TypeError)
  ∨ ∃ x y, c = Call [x] [(lit "extra_key", y)] ∧ get_hash_id_any x y = Err e.
Proof.
  intros Hnd. destruct (decide (binds c)) as [(x & y & ->)|Hc].
  - rewrite call_get_hash_id_any_bound. split; [eauto 10|].
    intros [[[] _]|(x' & y' & [= <- <-] & He)]; [by eexists _, _|done].
  - rewrite call_get_hash_id_any_unbound by done. split.
    + intros [= <-]. by left.
    + intros [[_ ->]|(x & y & -> & _)]; [done|]. destruct Hc. by eexists _, _.
Qed.
End theorems.

(** * The theorems at calls *)

Section witnesses.

Notation subject := (lit "Q1_R1_5_obj1") (only parsing).

Lemma call_get_hash_id_any_Ok_witness :
  call_get_hash_id_any (Call [PStr subject] [(lit "extra_key", PStr (lit "release-42"))])
    = get_hash_id subject (lit "release-42")
  ∧ is_Ok (get_hash_id subject (lit "release-42")).
Proof.
  assert (is_Ok (get_hash_id subject (lit "release-42"))) as [h Hh] by by_compute.
  split; [|by exists h]. rewrite Hh.
  apply (call_get_hash_id_any_Ok _ h); [by_compute|]. eauto.
Defined.

(** [get_hash_id("Q1_R1_5_obj1", "release-42")],
    [get_hash_id(5, extra_key="release-42")],
    [get_hash_id(5, extra_key=42)] and
    [get_hash_id("Q1_R1_5_obj1", extra_key="release-42", key="k")]. *)
Lemma call_get_hash_id_any_examples :
  call_get_hash_id_any (Call [PStr subject; PStr (lit "release-42")] []) = Err TypeError
  ∧ call_get_hash_id_any (Call [PInt 5] [(lit "extra_key", PStr (lit "release-42"))])
    = Err TypeError
  ∧ call_get_hash_id_any (Call [PInt 5] [(lit "extra_key", PInt 42)])
    = Err (AttributeError (lit "encode"))
  ∧ call_get_hash_id_any
      (Call [PStr subject] [(lit "extra_key", PStr (lit "release-42"));
                            (lit "key", PStr (lit "k"))])
    = Err TypeError.
Proof. done. Qed.
End witnesses.
