(* ===== verification/Pipeline.v ===== *)
(** * From identifiers to hash ids

    The identifiers that [make_id_str] builds are the subject ids that
    [get_hash_id] hashes: the example of the documentation hashes
    [Q1_R1_5_obj1], the identifier of tile 5 and object [obj1] in release
    [Q1_R1].  This file composes the two functions of
    src/src/zootasks_utils/_src/upload_utils.py, as modelled in [IdStr],
    [IdStrBatch] and [HashId], and shows when the composition returns
    and what it returns:

    - [hash_of_id] is
      [get_hash_id(make_id_str(tile_index, object_id, release_name),
      extra_key=extra_key)]. *)

From stdpp Require Import strings.
From S2P Require Import Prelude PyStr Numpy IdStr Utf8 Sha256 HashId Polars.
From S2P Require Import IdStrBatch.

#[local] Open Scope Z_scope.

(** * Definitions *)

(** The hash id of the identifier of a subject. *)
Definition hash_of_id
    (tile : Scalar.tile_index) (object_id : pystr) (release_name : option pystr)
    (extra_key : pystr) : result pystr :=
  get_hash_id (Scalar.make_id_str tile object_id release_name) extra_key.

(** * Shared lemmas *)

Section hash.
Implicit Types (a k h : pystr).

Lemma get_hash_id_Ok_iff a k :
  is_Ok (get_hash_id a k) ↔ Forall is_scalar a ∧ Forall is_scalar k.
Proof. unfold get_hash_id. by rewrite get_hash_id_with_is_Ok, Forall_app. Qed.

(** On valid text the hash id exists and is 64 hexadecimal digits. *)
Lemma get_hash_id_valid a k :
  Forall is_scalar a → Forall is_scalar k →
  ∃ h, get_hash_id a k = Ok h ∧ length h = 64%nat ∧ Forall is_hex_lower h.
Proof.
  intros Ha Hk. destruct (proj2 (get_hash_id_Ok_iff a k)) as [h Hh]; [done|].
  exists h. split; [done|]. split.
  - by apply (length_get_hash_id_with sha256_digest) in Hh.
  - by apply (get_hash_id_with_lower sha256_digest) in Hh.
Qed.

Lemma Forall_ascii_scalar (s : pystr) : Forall is_ascii s → Forall is_scalar s.
Proof. intros Hs. eapply list.Forall_impl; [exact Hs|]. apply is_ascii_scalar. Qed.
End hash.

(** * The scalar path *)

Section scalar.
Implicit Types (t : Scalar.tile_index) (o k h : pystr) (rel : option pystr).

(** C12: hashing the identifier of a subject returns a digest exactly
    when the formatted tile index, the object id as numpy stores it, the
    release name and the extra key hold no surrogate code point;
    otherwise it raises. *)
Theorem hash_of_id_is_Ok t o rel k :
  is_Ok (hash_of_id t o rel k) ↔
  Forall is_scalar (Scalar.format_tile t) ∧ Forall is_scalar (np_str o)
  ∧ (∀ r, rel = Some r → Forall is_scalar r) ∧ Forall is_scalar k.
Proof.
  unfold hash_of_id. rewrite get_hash_id_Ok_iff, Scalar.make_id_str_scalar.
  naive_solver.
Qed.

(** With an integer tile index and ASCII object id, release name and
    extra key, hashing the identifier always returns 64 lowercase
    hexadecimal digits. *)
Theorem hash_of_id_ascii (n : Z) o (r : pystr) k :
  Forall is_ascii o → Forall is_ascii r → Forall is_ascii k →
  ∃ h, hash_of_id (Scalar.TileInt n) o (Some r) k = Ok h
       ∧ length h = 64%nat ∧ Forall is_hex_lower h.
Proof.
  intros Ho Hr Hk. apply get_hash_id_valid; [|by apply Forall_ascii_scalar].
  apply Scalar.make_id_str_scalar. split_and!.
  - apply str_of_int_scalar.
  - by apply Forall_rstrip, Forall_ascii_scalar.
  - intros ? [= <-]. by apply Forall_ascii_scalar.
Qed.

Lemma hash_of_id_ascii_witness :
  ∃ h, hash_of_id (Scalar.TileInt 5) (lit "obj1") (Some (lit "Q1_R1"))
         (lit "release-42") = Ok h
       ∧ length h = 64%nat ∧ Forall is_hex_lower h.
Proof.
  apply (hash_of_id_ascii 5 (lit "obj1") (lit "Q1_R1") (lit "release-42"));
    by_compute.
Defined.

(** The documented example end to end: the identifier of tile 5,
    object [obj1], release [Q1_R1] is [Q1_R1_5_obj1], and its hash id
    with the extra key [release-42] is the digest below. *)
Theorem hash_of_id_example :
  Scalar.make_id_str (Scalar.TileInt 5) (lit "obj1") (Some (lit "Q1_R1")) =
    lit "Q1_R1_5_obj1"
  ∧ hash_of_id (Scalar.TileInt 5) (lit "obj1") (Some (lit "Q1_R1"))
      (lit "release-42") =
    Ok (lit "b032a3d8342836bf84a36bdfa0ed3990c1256ad780d99978f929d6445be3af8f").
Proof. split; vm_compute; reflexivity. Qed.
End scalar.

(** * The data-frame path *)

Section frame.
Context `{pl.Int64Parser}.
Implicit Types (df : pl.dataframe) (s : pl.series) (k id : pystr).

(** Every identifier that the data-frame method builds from a
    well-formed frame can be hashed: with an extra key free of
    surrogates, [get_hash_id] returns 64 lowercase hexadecimal digits for
    every row that is not null. *)
Theorem hash_of_rows_is_Ok df inc s k i id :
  pl.df_wf df → Batch.make_id_str df inc = Ok s → Forall is_scalar k →
  pl.str_cells (pl.s_col s) !! i = Some (Some id) →
  ∃ h, get_hash_id id k = Ok h ∧ length h = 64%nat ∧ Forall is_hex_lower h.
Proof.
  intros Hwf Hs Hk Hi.
  destruct (Batch.make_id_str_valid _ _ _ Hwf Hs) as (l & Hl & Hvalid).
  rewrite Hl in Hi. apply get_hash_id_valid; [|done].
  exact (pl.all_valid_lookup _ _ _ _ Hvalid Hi).
Qed.
End frame.

Lemma hash_of_rows_is_Ok_witness :
  ∃ h, get_hash_id (lit "Q1_R1_2_bNEG2") (lit "release-42") = Ok h
       ∧ length h = 64%nat ∧ Forall is_hex_lower h.
Proof.
  apply (hash_of_rows_is_Ok (H := pl.strict_parser) Batch.example_frame true
           _ (lit "release-42") 1 (lit "Q1_R1_2_bNEG2")
           Batch.example_frame_wf Batch.example_frame_result);
    [by_compute|by vm_compute].
Defined.
