(* ===== verification/Data.v ===== *)
(** * The dataset descriptor

    Models src/src/zootasks_utils/data.py (lines 5-11): the module-level
    value [euclid_q1_morphology], built once by [pooch.create] from a
    cache directory, a base locator and a registry of one file.

    - [app_name], [doi], [registry]: the three literals of lines 6-10;
    - [Platform] is what the code asks of the operating system: the cache
      directory of an application ([pooch.os_cache]); [unix] and
      [windows] are two instances;
    - [create] is [pooch.create] for the arguments the code passes: it
      keeps the path and the registry and gives the base locator exactly
      one trailing slash;
    - [get_url], [hash_algorithm], [hash_digest] are what pooch reads
      from the descriptor when a file is fetched: the locator of a
      registered file, and the algorithm and digest of its checksum.

    Downloading, caching and verifying a file are pooch's and are not
    modelled. *)

From stdpp Require Import strings gmap.
From S2P Require Import Prelude PyStr Sha256.

#[local] Open Scope Z_scope.

(** * Definitions *)

Notation slash := 47 (only parsing).

Notation colon := 58 (only parsing).

(** ** The operating system *)

Class Platform : Type := {
  user_cache_dir : pystr → pystr;
  user_cache_dir_inj : Inj (=) (=) user_cache_dir;
}.

(** [$XDG_CACHE_HOME/app], with [~/.cache] as the default home. *)
Definition unix_cache_dir (cache_home app : pystr) : pystr :=
  cache_home ++ [slash] ++ app.

(** [%LOCALAPPDATA%\app\app\Cache]. *)
Definition windows_cache_dir (local_appdata app : pystr) : pystr :=
  local_appdata ++ [92] ++ app ++ [92] ++ app ++ lit "\Cache".

(** [pooch.os_cache(project)] *)
Definition os_cache `{Platform} (project : pystr) : pystr :=
  user_cache_dir project.

(** ** pooch *)

Record pooch : Type := Pooch {
  path : pystr;
  base_url : pystr;
  registry_of : gmap pystr pystr;
  urls : gmap pystr pystr;
}.

(** [pooch.create(path=, base_url=, registry=)] *)
Definition create (path base_url : pystr) (registry : gmap pystr pystr) : pooch :=
  Pooch path (rstrip slash base_url ++ [slash]) registry ∅.

(** [Pooch.get_url(fname)] *)
Definition get_url (p : pooch) (fname : pystr) : result pystr :=
  match registry_of p !! fname with
  | None => Err ValueError
  | Some _ => Ok (default (base_url p ++ fname) (urls p !! fname))
  end.

(** [s.split(c)[0]] and [s.split(c)[-1]]. *)
Fixpoint before_first (c : Z) (s : pystr) : pystr :=
  match s with
  | [] => []
  | x :: s' => if decide (x = c) then [] else x :: before_first c s'
  end.

Fixpoint after_last (c : Z) (s : pystr) : pystr :=
  match s with
  | [] => []
  | x :: s' => if decide (c ∈ s') then after_last c s'
               else if decide (x = c) then s' else s
  end.

(** [str.lower] on ASCII text. *)
Definition lower_char (c : Z) : Z := if decide (65 ≤ c ≤ 90) then c + 32 else c.

Definition lower (s : pystr) : pystr := lower_char <$> s.

(** [pooch.hashes.hash_algorithm(hash_string)] *)
Definition hash_algorithm (hash_string : pystr) : pystr :=
  lower (if decide (colon ∈ hash_string) then before_first colon hash_string
         else lit "sha256").

(** The digest a file's hash is compared with:
    [known_hash.split(":")[-1].lower()]. *)
Definition hash_digest (hash_string : pystr) : pystr :=
  lower (after_last colon hash_string).

(** [pooch.hashes.hash_matches] for a file whose hash under the
    checksum's algorithm is [file_hash]. *)
Definition hash_matches (file_hash known_hash : pystr) : bool :=
  bool_decide (lower file_hash = hash_digest known_hash).

(** ** The descriptor *)

(** Line 6. *)
Definition app_name : pystr := lit "eggs-zoo-connect".

(** Line 7. *)
Definition doi : pystr := lit "doi:10.5281/zenodo.15106473".

Definition catalogue : pystr := lit "morphology_catalogue.parquet".

(** Lines 8-10. *)
Definition registry : gmap pystr pystr :=
  {[ catalogue := lit "md5:79e7880d5989e05ec23205782c30025a" ]}.

(** Lines 5-11. *)
Definition euclid_q1_morphology `{Platform} : pooch :=
  create (os_cache app_name) doi registry.

(** The size in bytes of the digests of the algorithms pooch knows by
    name. *)
Definition digest_bytes_of (algorithm : pystr) : option nat :=
  if decide (algorithm = lit "md5") then Some 16%nat
  else if decide (algorithm = lit "sha1") then Some 20%nat
  else if decide (algorithm = lit "sha256") then Some 32%nat
  else if decide (algorithm = lit "sha512") then Some 64%nat
  else None.

(** A checksum is well formed when it names a known algorithm and
    carries a lowercase hexadecimal digest of that algorithm's size. *)
Definition checksum_wf (hash_string : pystr) : Prop :=
  ∃ n, digest_bytes_of (hash_algorithm hash_string) = Some n
       ∧ length (hash_digest hash_string) = (2 * n)%nat
       ∧ Forall is_hex_lower (hash_digest hash_string).

(** * Platforms *)

#[export] Instance unix_cache_dir_inj cache_home : Inj (=) (=) (unix_cache_dir cache_home).
Proof. intros a b Hab. unfold unix_cache_dir in Hab. by simplify_list_eq. Qed.

Lemma windows_cache_dir_length local_appdata app :
  length (windows_cache_dir local_appdata app) =
    (length local_appdata + 2 * length app + 8)%nat.
Proof. unfold windows_cache_dir. rewrite !length_app. cbn. lia. Qed.

#[export] Instance windows_cache_dir_inj local_appdata :
  Inj (=) (=) (windows_cache_dir local_appdata).
Proof.
  intros a b Hab. pose proof (f_equal length Hab) as Hlen.
  rewrite !windows_cache_dir_length in Hlen.
  unfold windows_cache_dir in Hab. apply app_inv_head in Hab.
  injection Hab as Hab. apply app_inj_1 in Hab as [? _]; [done|lia].
Qed.

Definition unix (cache_home : pystr) : Platform :=
  {| user_cache_dir := unix_cache_dir cache_home |}.

Definition windows (local_appdata : pystr) : Platform :=
  {| user_cache_dir := windows_cache_dir local_appdata |}.

(** * pooch *)

Section pooch.
Implicit Types (s u h f : pystr) (c : Z) (reg : gmap pystr pystr).

Lemma lower_char_idemp c : lower_char (lower_char c) = lower_char c.
Proof. unfold lower_char. repeat case_decide; lia. Qed.

Lemma lower_idemp s : lower (lower s) = lower s.
Proof.
  unfold lower. rewrite <-list_fmap_compose. apply list_fmap_ext.
  intros _ c _. apply lower_char_idemp.
Qed.

Lemma lower_hex s : Forall is_hex_lower s → lower s = s.
Proof.
  unfold lower. induction 1 as [|c s Hc _ IH]; [done|]. cbn. rewrite IH.
  f_equal. unfold lower_char, is_hex_lower in *. case_decide; lia.
Qed.

Lemma before_first_absent c s : c ∉ s → before_first c s = s.
Proof.
  induction s as [|x s IH]; [done|]. intros [? ?]%not_elem_of_cons. cbn.
  rewrite decide_False by done. f_equal. auto.
Qed.

Lemma after_last_absent c s : c ∉ s → after_last c s = s.
Proof.
  induction s as [|x s IH]; [done|]. intros [? ?]%not_elem_of_cons. cbn.
  by rewrite !decide_False.
Qed.

(** The two parts of [algorithm:digest]. *)
Lemma before_first_app c s u : c ∉ s → before_first c (s ++ c :: u) = s.
Proof.
  induction s as [|x s IH]; cbn; [by rewrite decide_True|].
  intros [? ?]%not_elem_of_cons. rewrite decide_False by done. f_equal. auto.
Qed.

Lemma after_last_app c s u : c ∉ u → after_last c (s ++ c :: u) = u.
Proof.
  intros Hu. induction s as [|x s IH]; cbn.
  - by rewrite decide_False, decide_True.
  - rewrite decide_True; [done|]. apply elem_of_app. right. by left.
Qed.

(** The base locator ends in one slash, however many it was given. *)
Lemma base_url_create pa u reg :
  ∃ s, base_url (create pa u reg) = s ++ [slash] ∧ last s ≠ Some slash
       ∧ ∃ n, u = s ++ replicate n slash.
Proof.
  exists (rstrip slash u). split_and!; [done|apply last_rstrip|apply rstrip_replicate].
Qed.
End pooch.

(** * The descriptor *)

Section descriptor.
Context `{Platform}.
Implicit Types (f h : pystr).

Lemma registry_lookup f h :
  registry !! f = Some h ↔
  f = catalogue ∧ h = lit "md5:79e7880d5989e05ec23205782c30025a".
Proof. unfold registry. rewrite lookup_singleton_Some. naive_solver. Qed.

(** The descriptor holds the cache directory the platform gives the
    application [eggs-zoo-connect], the DOI locator followed by one
    slash, the registry of the one file, and no per-file locators. *)
Lemma euclid_q1_morphology_fields :
  euclid_q1_morphology =
    Pooch (user_cache_dir (lit "eggs-zoo-connect"))
          (lit "doi:10.5281/zenodo.15106473/")
          {[ lit "morphology_catalogue.parquet" :=
               lit "md5:79e7880d5989e05ec23205782c30025a" ]}
          ∅.
Proof. reflexivity. Qed.

(** Every checksum of the registry is well formed: it names MD5
    and carries 32 lowercase hexadecimal digits. *)
Theorem registry_checksums f h :
  registry_of euclid_q1_morphology !! f = Some h →
  hash_algorithm h = lit "md5" ∧ checksum_wf h.
Proof.
  intros [-> ->]%registry_lookup. split; [by vm_compute|].
  exists 16%nat. split_and!; [by vm_compute..|by_compute].
Qed.

Lemma get_url_descriptor f :
  get_url euclid_q1_morphology f =
    if decide (f = lit "morphology_catalogue.parquet")
    then Ok (lit "doi:10.5281/zenodo.15106473/morphology_catalogue.parquet")
    else Err ValueError.
Proof.
  unfold get_url. cbn [registry_of euclid_q1_morphology create urls base_url].
  case_decide as Hf.
  - subst f. unfold registry, catalogue. by rewrite lookup_singleton_eq, lookup_empty.
  - unfold registry. by rewrite lookup_singleton_ne.
Qed.


(** A file matches its checksum exactly when its hash, in any
    letter case, is the registry's digest. *)
Lemma hash_matches_registry (file_hash : pystr) h :
  registry_of euclid_q1_morphology !! catalogue = Some h →
  hash_matches file_hash h = true ↔
  lower file_hash = lit "79e7880d5989e05ec23205782c30025a".
Proof.
  intros [_ ->]%registry_lookup. unfold hash_matches.
  rewrite bool_decide_eq_true.
  by change (hash_digest _) with (lit "79e7880d5989e05ec23205782c30025a").
Qed.
End descriptor.

(** Two applications never share a cache directory, and
    [pooch.create] leaves exactly one slash at the end of the base
    locator, whatever the platform, path and registry. *)
Theorem create_isolated `{Platform} (app1 app2 u : pystr) reg :
  app1 ≠ app2 →
  path (create (os_cache app1) u reg) ≠ path (create (os_cache app2) u reg)
  ∧ ∃ s, base_url (create (os_cache app1) u reg) = s ++ [slash]
         ∧ last s ≠ Some slash.
Proof.
  intros Happ. split.
  - cbn. unfold os_cache. intros Heq. by apply user_cache_dir_inj in Heq.
  - destruct (base_url_create (os_cache app1) u reg) as (s & ? & ? & _). eauto.
Qed.

(** * The theorems at a platform *)

Section witnesses.

Lemma registry_checksums_witness :
  hash_algorithm (lit "md5:79e7880d5989e05ec23205782c30025a") = lit "md5"
  ∧ checksum_wf (lit "md5:79e7880d5989e05ec23205782c30025a").
Proof.
  apply (registry_checksums (H := unix (lit "/home/user/.cache"))
           (lit "morphology_catalogue.parquet")).
  by vm_compute.
Defined.

Lemma hash_matches_registry_witness :
  hash_matches (lit "79E7880D5989E05EC23205782C30025A")
    (lit "md5:79e7880d5989e05ec23205782c30025a") = true
  ↔ lower (lit "79E7880D5989E05EC23205782C30025A") =
    lit "79e7880d5989e05ec23205782c30025a".
Proof.
  apply (hash_matches_registry (H := unix (lit "/home/user/.cache"))).
  by vm_compute.
Defined.

Lemma create_isolated_witness :
  path (create (os_cache (H := unix (lit "/home/user/.cache")) (lit "eggs-zoo-connect"))
          doi registry)
  ≠ path (create (os_cache (H := unix (lit "/home/user/.cache")) (lit "pooch"))
            doi registry)
  ∧ ∃ s, base_url (create (os_cache (H := unix (lit "/home/user/.cache"))
                             (lit "eggs-zoo-connect")) doi registry)
         = s ++ [slash] ∧ last s ≠ Some slash.
Proof.
  apply (create_isolated (H := unix (lit "/home/user/.cache"))). by_compute.
Defined.
End witnesses.
