(* ===== verification/Fetch.v ===== *)
(** * Fetching through the descriptor

    src/src/zootasks_utils/data.py only builds the descriptor
    [euclid_q1_morphology]; what it is for is [Pooch.fetch], which
    callers run on it.  This file models that use, from pooch's
    documented behaviour, far enough to say what the descriptor of the
    sources guarantees about the files it hands out.

    - [world] is what a fetch reads and writes: the files of the local
      cache, by path, and what the server offers, by locator;
    - [FileHash] is the hash of a file's content under a named
      algorithm, as a class: MD5, which the registry of the sources
      names, is not modelled, and the theorems hold for every instance;
    - [verify], [download_action], [stream_download] and [fetch] follow
      pooch: a file that is in the cache and has the registry's checksum
      is returned as it is; a missing file or one with another checksum
      is downloaded, checked, and only then put in place; with the
      default of no retries, a failed download or a content with another
      checksum raises and leaves the cache as it was;
    - [step] is a transition system over worlds: fetches, and what
      others do meanwhile, writing or deleting cache files and changing
      what the server offers; [steps] are its traces. *)

From stdpp Require Import strings gmap.
From S2P Require Import Prelude PyStr Sha256 Data.

#[local] Open Scope Z_scope.

(** * Definitions *)

(** [hashlib.new(algorithm)] over a file, as a hexadecimal digest; [None]
    when the algorithm is not available. *)
Class FileHash : Type := {
  file_hash : pystr → bytes → option pystr;
}.

Record world : Type := World {
  cache : gmap pystr bytes;
  remote : gmap pystr bytes;
}.

#[export] Instance world_eq_dec : EqDecision world.
Proof. solve_decision. Defined.

(** [self.abspath / fname] *)
Definition full_path (p : pooch) (fname : pystr) : pystr :=
  path p ++ [slash] ++ fname.

(** [hash_matches(file, known_hash)]; an algorithm that is not available
    raises ValueError. *)
Definition verify `{FileHash} (content : bytes) (known_hash : pystr)
    : result bool :=
  h ← of_option ValueError (file_hash (hash_algorithm known_hash) content);
  Ok (hash_matches h known_hash).

Inductive action : Type := Download | Update | Fetch.

#[export] Instance action_eq_dec : EqDecision action.
Proof. solve_decision. Defined.

(** [download_action(path, known_hash)] *)
Definition download_action `{FileHash} (w : world) (full known_hash : pystr)
    : result action :=
  match cache w !! full with
  | None => Ok Download
  | Some content =>
      ok ← verify content known_hash; Ok (if ok : bool then Fetch else Update)
  end.

(** [stream_download] with no retries: the content is checked before it
    is moved into place. *)
Definition stream_download `{FileHash} (w : world) (url full known_hash : pystr)
    : result world :=
  content ← of_option DownloadError (remote w !! url);
  ok ← verify content known_hash;
  if ok : bool then Ok (World (<[full := content]> (cache w)) (remote w))
  else Err ValueError.

(** [Pooch.fetch(fname)]: the path of the file and the world after. *)
Definition fetch `{FileHash} (p : pooch) (w : world) (fname : pystr)
    : result (pystr * world) :=
  known_hash ← of_option ValueError (registry_of p !! fname);
  url ← get_url p fname;
  let full := full_path p fname in
  a ← download_action w full known_hash;
  match a with
  | Fetch => Ok (full, w)
  | Download | Update =>
      w' ← stream_download w url full known_hash; Ok (full, w')
  end.

(** A fetch as a transition: an exception leaves the world as it was. *)
Definition fetch_world `{FileHash} (p : pooch) (w : world) (fname : pystr) : world :=
  match fetch p w fname with Ok (_, w') => w' | Err _ => w end.

Definition fetch_result `{FileHash} (p : pooch) (w : world) (fname : pystr)
    : result pystr :=
  fst <$> fetch p w fname.

Inductive event : Type :=
  | Fetched (fname : pystr) (r : result pystr)
  | Written (path : pystr) (content : option bytes)
  | Served (url : pystr) (content : option bytes).

#[export] Instance event_eq_dec : EqDecision event.
Proof. solve_decision. Defined.

Inductive step `{FileHash} (p : pooch) : world → event → world → Prop :=
  | step_fetch w fname :
      step p w (Fetched fname (fetch_result p w fname)) (fetch_world p w fname)
  | step_written w pa content :
      step p w (Written pa content)
        (World (partial_alter (λ _, content) pa (cache w)) (remote w))
  | step_served w url content :
      step p w (Served url content)
        (World (cache w) (partial_alter (λ _, content) url (remote w))).

Inductive steps `{FileHash} (p : pooch) : world → list event → world → Prop :=
  | steps_nil w : steps p w [] w
  | steps_cons w1 e w2 tr w3 :
      step p w1 e w2 → steps p w2 tr w3 → steps p w1 (e :: tr) w3.

(** The transition system run on a list of events: the recorded result
    of a fetch is replaced by the one the fetch has. *)
Definition exec `{FileHash} (p : pooch) (w : world) (e : event) : event * world :=
  match e with
  | Fetched fname _ => (Fetched fname (fetch_result p w fname), fetch_world p w fname)
  | Written pa content =>
      (e, World (partial_alter (λ _, content) pa (cache w)) (remote w))
  | Served url content =>
      (e, World (cache w) (partial_alter (λ _, content) url (remote w)))
  end.

Fixpoint run `{FileHash} (p : pooch) (w : world) (es : list event)
    : list event * world :=
  match es with
  | [] => ([], w)
  | e :: es' =>
      let '(e', w') := exec p w e in
      let '(tr, w'') := run p w' es' in (e' :: tr, w'')
  end.

(** The file is in the cache with the checksum the registry gives it. *)
Definition verified `{FileHash} (p : pooch) (w : world) (fname : pystr) : Prop :=
  ∃ known_hash content,
    registry_of p !! fname = Some known_hash
    ∧ cache w !! full_path p fname = Some content
    ∧ verify content known_hash = Ok true.

(** Every registered file that is in the cache has its checksum. *)
Definition cache_ok `{FileHash} (p : pooch) (w : world) : Prop :=
  ∀ fname known_hash content,
    registry_of p !! fname = Some known_hash →
    cache w !! full_path p fname = Some content →
    verify content known_hash = Ok true.

(** Nobody but pooch writes to the cache. *)
Definition undisturbed (e : event) : Prop :=
  match e with
  | Written _ _ => False
  | Fetched _ _ | Served _ _ => True
  end.

(** The names of the registered files the cache holds with their
    checksum: what a fetch promises, without paths and contents. *)
#[export] Instance verified_dec `{FileHash} p w fname : Decision (verified p w fname).
Proof.
  unfold verified.
  destruct (registry_of p !! fname) as [k|]; [|right; naive_solver].
  destruct (cache w !! full_path p fname) as [c|]; [|right; naive_solver].
  destruct (decide (verify c k = Ok true)); [left|right]; naive_solver.
Defined.

Definition verified_files `{FileHash} (p : pooch) (w : world) : gset pystr :=
  filter (verified p w) (dom (registry_of p)).

(** The files a trace reports as fetched. *)
Definition fetched (tr : list event) : gset pystr :=
  list_to_set (omap (λ e, match e with
                          | Fetched fname (Ok _) => Some fname
                          | _ => None
                          end) tr).

(** ** Builds of [hashlib] *)

(** A build in which only SHA-256, the algorithm this development
    models, is available. *)
Definition sha256_only : FileHash :=
  {| file_hash algorithm content :=
       if decide (algorithm = lit "sha256")
       then Some (hexdigest (sha256 content)) else None |}.

(** A stand-in for MD5 in a world where [published] is the file behind
    the checksum [digest]: that content has the digest, every other
    content the digest of its SHA-256 cut to 128 bits. *)
Definition md5_of (published : bytes) (digest : pystr) : FileHash :=
  {| file_hash algorithm content :=
       if decide (algorithm = lit "md5")
       then Some (if decide (content = published) then digest
                  else take 32 (hexdigest (sha256 content)))
       else None |}.

(** ** Worlds *)

(** A first run: nothing in the cache, and the server offers [content]
    at the catalogue's locator. *)
Definition first_run (content : bytes) : world :=
  World ∅ {[ lit "doi:10.5281/zenodo.15106473/morphology_catalogue.parquet" := content ]}.

(** * One fetch *)

Section fetch.
Context `{FileHash}.
Implicit Types (p : pooch) (w : world) (f k pa url : pystr) (c : bytes).

#[export] Instance full_path_inj p : Inj (=) (=) (full_path p).
Proof. intros f1 f2 Heq%app_inv_head. by injection Heq. Qed.

Lemma download_action_Fetch w pa k :
  download_action w pa k = Ok Fetch ↔
  ∃ c, cache w !! pa = Some c ∧ verify c k = Ok true.
Proof.
  unfold download_action.
  destruct (cache w !! pa) as [c|]; [|naive_solver congruence].
  destruct (verify c k) as [[]|] eqn:?; cbn; naive_solver congruence.
Qed.

(** When no download is spared, the cache has no such file or one with
    another checksum. *)
Lemma download_action_miss w pa k a c :
  download_action w pa k = Ok a → a ≠ Fetch →
  cache w !! pa = Some c → verify c k = Ok false.
Proof.
  unfold download_action. intros Ha Hne Hc. rewrite Hc in Ha.
  by destruct (verify c k) as [[]|]; simplify_result.
Qed.

Lemma stream_download_Ok w url pa k w' :
  stream_download w url pa k = Ok w' ↔
  ∃ c, remote w !! url = Some c ∧ verify c k = Ok true
       ∧ w' = World (<[pa := c]> (cache w)) (remote w).
Proof.
  unfold stream_download.
  destruct (remote w !! url) as [c|]; cbn; [|naive_solver].
  destruct (verify c k) as [[]|] eqn:?; cbn; naive_solver congruence.
Qed.

(** A download raises when the server has no such file, when the
    algorithm of the checksum is not available, or when the content has
    another checksum. *)
Lemma stream_download_Err w url pa k e :
  stream_download w url pa k = Err e ↔
  (remote w !! url = None ∧ e = DownloadError)
  ∨ ∃ c, remote w !! url = Some c
         ∧ (verify c k = Err e ∨ verify c k = Ok false ∧ e = ValueError).
Proof.
  unfold stream_download.
  destruct (remote w !! url) as [c|]; cbn; [|naive_solver].
  destruct (verify c k) as [[]|] eqn:?; cbn; naive_solver congruence.
Qed.

(** What a fetch that returns has done: nothing, on a file that was in
    the cache with its checksum, or one download whose content has the
    checksum and is now the file. *)
Lemma fetch_Ok_inv p w f pa w' :
  fetch p w f = Ok (pa, w') →
  pa = full_path p f ∧
  ∃ k c, registry_of p !! f = Some k ∧ verify c k = Ok true
    ∧ ((cache w !! pa = Some c ∧ w' = w)
       ∨ (∃ url, get_url p f = Ok url ∧ remote w !! url = Some c
            ∧ (∀ c', cache w !! pa = Some c' → verify c' k = Ok false)
            ∧ w' = World (<[pa := c]> (cache w)) (remote w))).
Proof.
  unfold fetch. intros Hf.
  destruct (registry_of p !! f) as [k|] eqn:Hk; [|done]. cbn in Hf.
  case_result (get_url p f) as url Hurl.
  case_result (download_action w (full_path p f) k) as a Ha.
  destruct (decide (a = Fetch)) as [->|Hne].
  { simplify_result. apply download_action_Fetch in Ha as (c & ? & ?). naive_solver. }
  assert (stream_download w url (full_path p f) k = Ok w' ∧ pa = full_path p f)
    as [(c & ? & ? & ->)%stream_download_Ok ->].
  { destruct a; [..|done];
      by case_result (stream_download w url (full_path p f) k) as w1 Hd. }
  split; [done|]. exists k, c. split_and!; [done..|]. right. exists url.
  split_and!; [done..| |done]. eauto using download_action_miss.
Qed.

Lemma fetch_verified p w f pa w' :
  fetch p w f = Ok (pa, w') → pa = full_path p f ∧ verified p w' f.
Proof.
  intros (-> & k & c & ? & ? & [[? ->]|(? & ? & ? & ? & ->)])%fetch_Ok_inv;
    (split; [done|]); exists k, c; split_and!; try done.
  apply lookup_insert_eq.
Qed.

(** A verified file is returned from the cache: no download, no write. *)
Lemma fetch_hit p w f : verified p w f → fetch p w f = Ok (full_path p f, w).
Proof.
  intros (k & c & Hk & Hc & Hv). unfold fetch, get_url. rewrite Hk. cbn.
  by rewrite (proj2 (download_action_Fetch _ _ _) (ex_intro _ c (conj Hc Hv))).
Qed.

(** A fetch writes, if at all, the file it was asked for. *)
Lemma fetch_world_cache p w f pa :
  pa ≠ full_path p f → cache (fetch_world p w f) !! pa = cache w !! pa.
Proof.
  intros Hpa. unfold fetch_world.
  destruct (fetch p w f) as [[pa' w']|] eqn:Hf; [|done].
  apply fetch_Ok_inv in Hf as (-> & k & c & _ & _ & [[_ ->]|(? & _ & _ & _ & ->)]);
    [done|]. by apply lookup_insert_ne.
Qed.

Lemma fetch_world_remote p w f : remote (fetch_world p w f) = remote w.
Proof.
  unfold fetch_world. destruct (fetch p w f) as [[pa' w']|] eqn:Hf; [|done].
  by apply fetch_Ok_inv in Hf as (_ & k & c & _ & _ & [[_ ->]|(? & _ & _ & _ & ->)]).
Qed.

(** What a fetch does to the files that are verified: it adds the one it
    returned, and touches no other. *)
Lemma fetch_world_verified p w f f' :
  verified p (fetch_world p w f) f' ↔
  verified p w f' ∨ (f' = f ∧ is_Ok (fetch p w f)).
Proof.
  destruct (decide (f' = f)) as [->|Hne].
  - unfold fetch_world. destruct (fetch p w f) as [[pa w']|e] eqn:Hf.
    + pose proof (fetch_verified _ _ _ _ _ Hf) as [_ ?]. split; [|done].
      intros _. right. split; [done|by eexists].
    + split; [by left|]. intros [|[_ [? ?]]]; done.
  - unfold verified. rewrite fetch_world_cache by (by intros ?%(inj _)).
    naive_solver.
Qed.
End fetch.

(** * Traces *)

Section traces.
Context `{FileHash} (p : pooch).
Implicit Types (w : world) (f : pystr) (e : event) (tr : list event).

Lemma fetch_hit_world w f : verified p w f → fetch_world p w f = w.
Proof. intros Hv. unfold fetch_world. by rewrite fetch_hit. Qed.

(** With the server's content right and the algorithm available on
    whatever the cache holds, a fetch returns: a missing file is
    downloaded and a damaged one is replaced. *)
Lemma fetch_repairs w f k url c :
  registry_of p !! f = Some k → get_url p f = Ok url →
  remote w !! url = Some c → verify c k = Ok true →
  (∀ c', cache w !! full_path p f = Some c' → is_Ok (verify c' k)) →
  ∃ w', fetch p w f = Ok (full_path p f, w') ∧ verified p w' f.
Proof.
  intros Hk Hurl Hc Hv Hcache.
  assert (is_Ok (fetch p w f)) as [[pa w'] Hf]; last first.
  { destruct (fetch_verified _ _ _ _ _ Hf) as [-> ?]. eauto. }
  assert (stream_download w url (full_path p f) k
          = Ok (World (<[full_path p f := c]> (cache w)) (remote w))) as Hd.
  { apply stream_download_Ok. eauto. }
  unfold fetch, download_action. rewrite Hk, Hurl. cbn.
  destruct (cache w !! full_path p f) as [c'|]; cbn; [|rewrite Hd; by eexists].
  destruct (Hcache c' eq_refl) as [[] ->]; cbn; [|rewrite Hd]; by eexists.
Qed.

(** When a fetch returns: the file is verified, or the algorithm is
    available on what the cache holds and the server offers a content
    with the checksum. *)
Lemma fetch_is_Ok w f :
  is_Ok (fetch p w f) ↔
  verified p w f
  ∨ ∃ k url c, registry_of p !! f = Some k ∧ get_url p f = Ok url
      ∧ (∀ c', cache w !! full_path p f = Some c' → is_Ok (verify c' k))
      ∧ remote w !! url = Some c ∧ verify c k = Ok true.
Proof.
  split.
  - intros [[pa w'] (-> & k & c & Hk & Hv & Hcase)%fetch_Ok_inv].
    destruct Hcase as [[? ->]|(url & ? & ? & Hmiss & ->)]; [left; by exists k, c|].
    right. exists k, url, c. split_and!; [done..| |done|done].
    intros c' ?%Hmiss. by eexists.
  - intros [Hv|(k & url & c & ? & ? & ? & ? & ?)]; [rewrite fetch_hit by done; by eexists|].
    destruct (fetch_repairs w f k url c) as (w' & -> & _); [done..|by eexists].
Qed.

Lemma fetched_cons e tr : fetched (e :: tr) = fetched [e] ∪ fetched tr.
Proof. unfold fetched. destruct e as [? []| |]; set_solver. Qed.

Lemma fetched_fetch w f f' :
  f' ∈ fetched [Fetched f (fetch_result p w f)] ↔ f' = f ∧ is_Ok (fetch p w f).
Proof.
  unfold fetched, fetch_result, is_Ok.
  destruct (fetch p w f) as [[]|]; cbn; set_solver.
Qed.

(** One step of anybody but a writer adds the file it fetched to the
    verified ones and changes nothing else about them. *)
Lemma step_verified w e w' f :
  step p w e w' → undisturbed e →
  verified p w' f ↔ verified p w f ∨ f ∈ fetched [e].
Proof.
  destruct 1 as [w f0| |]; [intros _|done|intros _].
  - by rewrite fetch_world_verified, fetched_fetch.
  - unfold verified, fetched. set_solver.
Qed.

Lemma steps_verified w tr w' f :
  steps p w tr w' → Forall undisturbed tr →
  verified p w' f ↔ verified p w f ∨ f ∈ fetched tr.
Proof.
  induction 1 as [|w1 e w2 tr w3 Hstep _ IH]; [set_solver|].
  intros [He Htr]%Forall_cons. rewrite fetched_cons, IH by done.
  rewrite (step_verified _ _ _ _ Hstep He). set_solver.
Qed.

Lemma fetch_world_cache_ok w f : cache_ok p w → cache_ok p (fetch_world p w f).
Proof.
  intros Hok f' k c Hk Hc. destruct (decide (f' = f)) as [->|Hne].
  - unfold fetch_world in Hc. destruct (fetch p w f) as [[pa w']|] eqn:Hf; [|eauto].
    apply fetch_verified in Hf as [_ (k' & c' & ? & ? & ?)]. by simplify_eq.
  - rewrite fetch_world_cache in Hc by (by intros ?%(inj _)). eauto.
Qed.

Lemma step_cache_ok w e w' :
  step p w e w' → undisturbed e → cache_ok p w → cache_ok p w'.
Proof. destruct 1; [intros _; apply fetch_world_cache_ok|done..]. Qed.

Lemma steps_cache_ok w tr w' :
  steps p w tr w' → Forall undisturbed tr → cache_ok p w → cache_ok p w'.
Proof.
  induction 1 as [|w1 e w2 tr w3 Hstep _ IH]; [done|].
  intros [He Htr]%Forall_cons Hok. eauto using step_cache_ok.
Qed.

Lemma step_exec w e w' : step p w e w' ↔ exec p w e = (e, w').
Proof.
  split; [by destruct 1|].
  destruct e; cbn; [intros [= Hr <-]|intros [= <-]; constructor..].
  rewrite <- Hr at 1. constructor.
Qed.

(** The traces are the runs: the transition system is deterministic in
    its events. *)
Lemma steps_run w tr w' : steps p w tr w' ↔ run p w tr = (tr, w').
Proof.
  split.
  - induction 1 as [|w1 e w2 tr w3 Hstep%step_exec _ IH]; [done|].
    cbn. by rewrite Hstep, IH.
  - revert w. induction tr as [|e tr IH]; intros w; cbn; [intros [= <-]; constructor|].
    destruct (exec p w e) as [e' w1] eqn:He, (run p w1 tr) as [tr' w2] eqn:Hr.
    intros [= -> -> ->]. eapply steps_cons; [by apply step_exec|by apply IH].
Qed.

Lemma steps_app w1 tr1 w2 tr2 w3 :
  steps p w1 tr1 w2 → steps p w2 tr2 w3 → steps p w1 (tr1 ++ tr2) w3.
Proof. induction 1; [done|]. intros. cbn. eauto using steps_cons. Qed.

(** The verified files, as a set, are those there were and those the
    trace fetched. *)
Lemma steps_verified_files w tr w' :
  steps p w tr w' → Forall undisturbed tr →
  verified_files p w' = verified_files p w ∪ fetched tr.
Proof.
  intros Hs Htr. apply set_eq. intros f. unfold verified_files.
  rewrite elem_of_union, !elem_of_filter, (steps_verified _ _ _ f Hs Htr).
  split; [naive_solver|]. intros [[? ?]|Hf]; [naive_solver|].
  split; [by right|].
  assert (verified p w' f) as (k & _ & Hk & _) by (by apply (steps_verified _ _ _ f Hs Htr); right).
  by apply elem_of_dom.
Qed.
End traces.

(** * The descriptor of the sources *)

Section descriptor.
Context `{Platform} `{FileHash}.
Implicit Types (w : world) (f pa : pystr) (c : bytes).

Notation checksum := (lit "md5:79e7880d5989e05ec23205782c30025a") (only parsing).
Notation digest := (lit "79e7880d5989e05ec23205782c30025a") (only parsing).
Notation locator :=
  (lit "doi:10.5281/zenodo.15106473/morphology_catalogue.parquet") (only parsing).

(** A content has the registry's checksum when MD5 is available and
    gives it the registry's digest, in any letter case. *)
Lemma verify_checksum c :
  verify c checksum = Ok true ↔
  ∃ h, file_hash (lit "md5") c = Some h ∧ lower h = digest.
Proof.
  unfold verify. change (hash_algorithm checksum) with (lit "md5").
  destruct (file_hash (lit "md5") c) as [h|]; cbn; [|naive_solver].
  unfold hash_matches. change (hash_digest checksum) with digest.
  case_bool_decide; naive_solver.
Qed.

Lemma verify_available c :
  is_Ok (verify c checksum) ↔ is_Some (file_hash (lit "md5") c).
Proof.
  unfold verify. change (hash_algorithm checksum) with (lit "md5").
  destruct (file_hash (lit "md5") c); cbn; [|split; by intros [? ?]].
  split; by eexists.
Qed.

Lemma verified_catalogue w f :
  verified euclid_q1_morphology w f ↔
  f = catalogue ∧ ∃ c h, cache w !! full_path euclid_q1_morphology catalogue = Some c
                   ∧ file_hash (lit "md5") c = Some h ∧ lower h = digest.
Proof.
  unfold verified. split.
  - intros (k & c & [-> ->]%registry_lookup & ? & (h & ? & ?)%verify_checksum). eauto 10.
  - intros (-> & c & h & ? & ? & ?). exists checksum, c.
    split_and!; [by apply registry_lookup|done|apply verify_checksum; eauto].
Qed.
(** * Theorems *)

(** C13: a fetch through the descriptor that returns was asked for the
    catalogue, returns its path in the application's cache directory,
    and leaves there a file whose MD5 is the registry's digest: either
    the world is as it was, or the file is what the server offered at
    the DOI locator, checked before it was put in place. *)
Theorem fetch_catalogue w f pa w' :
  fetch euclid_q1_morphology w f = Ok (pa, w') →
  f = catalogue ∧ pa = os_cache app_name ++ lit "/morphology_catalogue.parquet"
  ∧ ∃ c h, cache w' !! pa = Some c
      ∧ file_hash (lit "md5") c = Some h ∧ lower h = digest
      ∧ (w' = w ∨ remote w !! locator = Some c
                  ∧ w' = World (<[pa := c]> (cache w)) (remote w)).
Proof.
  intros Hf. pose proof (fetch_verified _ _ _ _ _ Hf) as [_ Hv].
  apply verified_catalogue in Hv as (-> & c & h & Hc & ? & ?).
  apply fetch_Ok_inv in Hf as (-> & k & c' & _ & _ & Hcase).
  split_and!; [done..|]. exists c, h. split_and!; [done..|].
  destruct Hcase as [[_ ->]|(url & Hurl & Hr & _ & ->)]; [by left|right].
  rewrite get_url_descriptor in Hurl. injection Hurl as <-.
  cbn [cache] in Hc. rewrite lookup_insert_eq in Hc. by simplify_eq.
Qed.

(** Fetching is idempotent: after a fetch that returned, the same
    fetch returns the same path and leaves the world as it is, without
    a download. *)
Theorem fetch_idempotent w f pa w' :
  fetch euclid_q1_morphology w f = Ok (pa, w') →
  fetch euclid_q1_morphology w' f = Ok (pa, w')
  ∧ download_action w' pa checksum = Ok Fetch.
Proof.
  intros [-> Hv]%fetch_verified. split; [by apply fetch_hit|].
  destruct Hv as (k & c & [_ ->]%registry_lookup & ? & ?).
  apply download_action_Fetch. eauto.
Qed.

(** C31: when a fetch through the descriptor returns.  The file asked for
    is the catalogue, and either the cache holds it with its checksum,
    or MD5 is available on what the cache holds and the server offers,
    at the DOI locator, a content with the checksum.  In every other
    case the fetch raises. *)
Theorem fetch_catalogue_is_Ok w f :
  is_Ok (fetch euclid_q1_morphology w f) ↔
  f = catalogue
  ∧ (verified euclid_q1_morphology w catalogue
     ∨ (∀ c', cache w !! full_path euclid_q1_morphology catalogue = Some c' →
              is_Some (file_hash (lit "md5") c'))
       ∧ ∃ c h, remote w !! locator = Some c
           ∧ file_hash (lit "md5") c = Some h ∧ lower h = digest).
Proof.
  rewrite fetch_is_Ok. split.
  - intros [Hv|(k & url & c & [-> ->]%registry_lookup & Hurl & Hcache & Hr & Hv)].
    { pose proof Hv as [-> _]%verified_catalogue. eauto. }
    rewrite get_url_descriptor in Hurl. injection Hurl as <-.
    apply verify_checksum in Hv as (h & ? & ?). split; [done|right].
    split; [|by eauto]. intros c' ?%Hcache. by apply verify_available.
  - intros [-> [Hv|[Hcache (c & h & Hr & Hh & Hd)]]]; [by left|right].
    exists checksum, locator, c.
    split_and!; [by apply registry_lookup|by rewrite get_url_descriptor| |done|].
    + intros c' ?%Hcache. by apply verify_available.
    + apply verify_checksum. eauto.
Qed.

(** C30: as long as nobody but pooch writes to the cache, the registered
    files that are there with their checksum are, after any number of
    fetches and of changes of what the server offers, those that were
    there before and those the fetches returned; and only the catalogue
    is ever returned. *)
Theorem fetch_trace_verified w tr w' :
  steps euclid_q1_morphology w tr w' → Forall undisturbed tr →
  verified_files euclid_q1_morphology w' =
    verified_files euclid_q1_morphology w ∪ fetched tr
  ∧ fetched tr ⊆ {[catalogue]}.
Proof.
  intros Hs Htr. split; [by apply steps_verified_files|].
  intros f Hf. apply elem_of_singleton.
  assert (verified euclid_q1_morphology w' f) as Hv
    by (apply (steps_verified _ _ _ _ f Hs Htr); by right).
  by apply verified_catalogue in Hv as [-> _].
Qed.

(** From an empty cache, and as long as nobody but pooch writes to
    it, whatever file is at the catalogue's path has the registry's MD5:
    no trace of fetches, failed or not, against any server leaves an
    unchecked file there. *)
Theorem fetch_cache_checked (served : gmap pystr bytes) tr w' c :
  steps euclid_q1_morphology (World ∅ served) tr w' → Forall undisturbed tr →
  cache w' !! (os_cache app_name ++ lit "/morphology_catalogue.parquet") = Some c →
  ∃ h, file_hash (lit "md5") c = Some h ∧ lower h = digest.
Proof.
  intros Hs Htr Hc. apply verify_checksum.
  eapply (steps_cache_ok _ _ _ _ Hs Htr); [|by apply registry_lookup|exact Hc].
  by intros f k c' _ Hc'.
Qed.
End descriptor.

(** Where [hashlib] has no MD5, no fetch through the descriptor returns:
    the checksum of the registry cannot be computed, for a file of the
    cache as for a download. *)
Lemma fetch_without_md5 `{Platform} w f :
  ¬ is_Ok (fetch (H := sha256_only) euclid_q1_morphology w f).
Proof.
  rewrite (fetch_is_Ok (H := sha256_only)).
  intros [(_ & c & h & _ & [=] & _)%(verified_catalogue (H1 := sha256_only))
         |(k & _ & c & [_ ->]%registry_lookup & _ & _ & _ & Hv)].
  by apply (verify_checksum (H1 := sha256_only)) in Hv as (h & [=] & _).
Qed.

(** * The theorems at a platform *)

Section witnesses.
#[local] Instance home : Platform := unix (lit "/home/user/.cache").
#[local] Instance md5 : FileHash :=
  md5_of [80; 65; 82; 49] (lit "79e7880d5989e05ec23205782c30025a").

Notation pa := (lit "/home/user/.cache/eggs-zoo-connect/morphology_catalogue.parquet")
  (only parsing).
Notation fetched_world :=
  (World (<[pa := [80; 65; 82; 49]]> ∅) (remote (first_run [80; 65; 82; 49])))
  (only parsing).

Lemma first_run_fetch :
  fetch euclid_q1_morphology (first_run [80; 65; 82; 49]) catalogue
  = Ok (pa, fetched_world).
Proof. by_compute. Qed.

Lemma first_run_steps :
  steps euclid_q1_morphology (first_run [80; 65; 82; 49])
    [Fetched (lit "README") (Err ValueError); Fetched catalogue (Ok pa);
     Served (lit "doi:10.5281/zenodo.15106473/morphology_catalogue.parquet") None;
     Fetched catalogue (Ok pa)]
    (World (<[pa := [80; 65; 82; 49]]> ∅) ∅).
Proof. apply steps_run. by_compute. Qed.
Lemma first_run_undisturbed :
  Forall undisturbed
    [Fetched (lit "README") (Err ValueError); Fetched catalogue (Ok pa);
     Served (lit "doi:10.5281/zenodo.15106473/morphology_catalogue.parquet") None;
     Fetched catalogue (Ok pa)].
Proof. by repeat constructor. Qed.

(** The premise that nobody else writes is needed: after a fetch and a
    write of other bytes to the file, the cache holds an unchecked file;
    the next fetch finds it out and replaces it. *)
Lemma fetch_after_write :
  run euclid_q1_morphology (first_run [80; 65; 82; 49])
    [Fetched catalogue (Ok pa); Written pa (Some [0])]
  = ([Fetched catalogue (Ok pa); Written pa (Some [0])],
     World (<[pa := [0]]> ∅) (remote (first_run [80; 65; 82; 49])))
  ∧ download_action (World (<[pa := [0]]> ∅) (remote (first_run [80; 65; 82; 49])))
      pa (lit "md5:79e7880d5989e05ec23205782c30025a") = Ok Update
  ∧ fetch euclid_q1_morphology
      (World (<[pa := [0]]> ∅) (remote (first_run [80; 65; 82; 49]))) catalogue
    = Ok (pa, fetched_world).
Proof. split_and!; by_compute. Qed.

Lemma fetch_catalogue_witness :
  catalogue = catalogue
  ∧ pa = os_cache app_name ++ lit "/morphology_catalogue.parquet"
  ∧ ∃ c h, cache fetched_world !! pa = Some c
      ∧ file_hash (lit "md5") c = Some h
      ∧ lower h = lit "79e7880d5989e05ec23205782c30025a"
      ∧ (fetched_world = first_run [80; 65; 82; 49]
         ∨ remote (first_run [80; 65; 82; 49])
             !! lit "doi:10.5281/zenodo.15106473/morphology_catalogue.parquet" = Some c
           ∧ fetched_world
             = World (<[pa := c]> (cache (first_run [80; 65; 82; 49])))
                     (remote (first_run [80; 65; 82; 49]))).
Proof. apply (fetch_catalogue _ _ _ _ first_run_fetch). Defined.

Lemma fetch_idempotent_witness :
  fetch euclid_q1_morphology fetched_world catalogue = Ok (pa, fetched_world)
  ∧ download_action fetched_world pa (lit "md5:79e7880d5989e05ec23205782c30025a")
    = Ok Fetch.
Proof. apply (fetch_idempotent _ _ _ _ first_run_fetch). Defined.

Lemma fetch_trace_verified_witness :
  verified_files euclid_q1_morphology (World (<[pa := [80; 65; 82; 49]]> ∅) ∅)
  = verified_files euclid_q1_morphology (first_run [80; 65; 82; 49])
    ∪ fetched [Fetched (lit "README") (Err ValueError); Fetched catalogue (Ok pa);
               Served (lit "doi:10.5281/zenodo.15106473/morphology_catalogue.parquet")
                 None;
               Fetched catalogue (Ok pa)]
  ∧ fetched [Fetched (lit "README") (Err ValueError); Fetched catalogue (Ok pa);
             Served (lit "doi:10.5281/zenodo.15106473/morphology_catalogue.parquet")
               None;
             Fetched catalogue (Ok pa)] ⊆ {[catalogue]}.
Proof.
  apply (fetch_trace_verified _ _ _ first_run_steps first_run_undisturbed).
Defined.

Lemma fetch_cache_checked_witness :
  ∃ h, file_hash (lit "md5") [80; 65; 82; 49] = Some h
       ∧ lower h = lit "79e7880d5989e05ec23205782c30025a".
Proof.
  apply (fetch_cache_checked _ _ _ _ first_run_steps first_run_undisturbed).
  by_compute.
Defined.
End witnesses.
