(* ===== verification/FetchConc.v ===== *)
(** * Fetches that run together

    [Fetch.fetch] is one fetch run to its end.  pooch does it in steps:
    it looks at the cache and chooses an action, streams the download
    into a temporary file of its own beside the target, checks the hash
    of the temporary file, and moves it over the target.  Several
    processes that share a cache directory may be between these steps
    at once, and the server may change meanwhile.  This file models the
    steps and their interleavings:

    - [pc]: where a process is in its fetch; the content of its
      temporary file is part of it, since no other process names that
      file;
    - [thread_step]: the next step of one process on the shared world;
    - [config]: the shared world and the processes; [cstep] is one step
      of one process, or of the server, or a write by somebody else;
      [csteps] are the traces, [crun] runs a schedule;
    - [solo]: the steps of one process with nothing in between.

    Reading the cached file and hashing it is one step, and so is the
    move: a reader never sees half a file.  Retries (off in the
    descriptor of the sources) and processors are not modelled. *)

From stdpp Require Import strings gmap.
From S2P Require Import Prelude PyStr Sha256 Data Fetch.

#[local] Open Scope Z_scope.

(** * Definitions *)

Inductive pc : Type :=
  | Start (fname : pystr)
  | Downloading (fname : pystr)
  | Verifying (fname : pystr) (tmp : bytes)
  | Moving (fname : pystr) (tmp : bytes)
  | Done (fname : pystr) (r : result pystr).

#[export] Instance pc_eq_dec : EqDecision pc.
Proof. solve_decision. Defined.

(** The step of [fetch] up to [download_action]. *)
Definition check_step `{FileHash} (p : pooch) (w : world) (fname : pystr) : pc :=
  match registry_of p !! fname with
  | None => Done fname (Err ValueError)
  | Some known_hash =>
      match download_action w (full_path p fname) known_hash with
      | Ok Fetch => Done fname (Ok (full_path p fname))
      | Ok _ => Downloading fname
      | Err e => Done fname (Err e)
      end
  end.

(** [downloader(url, tmp, pooch)] *)
Definition download_step (p : pooch) (w : world) (fname : pystr) : pc :=
  match url ← get_url p fname; of_option DownloadError (remote w !! url) with
  | Ok content => Verifying fname content
  | Err e => Done fname (Err e)
  end.

(** [hash_matches(tmp, known_hash, strict=True)] *)
Definition verify_step `{FileHash} (p : pooch) (fname : pystr) (tmp : bytes) : pc :=
  match known_hash ← of_option ValueError (registry_of p !! fname);
        verify tmp known_hash with
  | Ok true => Moving fname tmp
  | Ok false => Done fname (Err ValueError)
  | Err e => Done fname (Err e)
  end.

(** [shutil.move(tmp, fname)] *)
Definition move_step (p : pooch) (w : world) (fname : pystr) (tmp : bytes) : world :=
  World (<[full_path p fname := tmp]> (cache w)) (remote w).

(** The next step of a process; none when it has returned or raised. *)
Definition thread_step `{FileHash} (p : pooch) (w : world) (s : pc)
    : option (world * pc) :=
  match s with
  | Start fname => Some (w, check_step p w fname)
  | Downloading fname => Some (w, download_step p w fname)
  | Verifying fname tmp => Some (w, verify_step p fname tmp)
  | Moving fname tmp =>
      Some (move_step p w fname tmp, Done fname (Ok (full_path p fname)))
  | Done _ _ => None
  end.

Record config : Type := Config {
  shared : world;
  procs : list pc;
}.

#[export] Instance config_eq_dec : EqDecision config.
Proof. solve_decision. Defined.

Inductive label : Type :=
  | Thread (i : nat)
  | Env (e : event).

#[export] Instance label_eq_dec : EqDecision label.
Proof. solve_decision. Defined.

(** The world after a write by somebody else or a change of the
    server. *)
Definition env_step (w : world) (e : event) : option world :=
  match e with
  | Written pa content =>
      Some (World (partial_alter (λ _, content) pa (cache w)) (remote w))
  | Served url content =>
      Some (World (cache w) (partial_alter (λ _, content) url (remote w)))
  | Fetched _ _ => None
  end.

Inductive cstep `{FileHash} (p : pooch) : config → label → config → Prop :=
  | cstep_thread w ts i s w' s' :
      ts !! i = Some s → thread_step p w s = Some (w', s') →
      cstep p (Config w ts) (Thread i) (Config w' (<[i := s']> ts))
  | cstep_env w ts e w' :
      env_step w e = Some w' →
      cstep p (Config w ts) (Env e) (Config w' ts).

Inductive csteps `{FileHash} (p : pooch) : config → list label → config → Prop :=
  | csteps_nil c : csteps p c [] c
  | csteps_cons c1 l c2 tr c3 :
      cstep p c1 l c2 → csteps p c2 tr c3 → csteps p c1 (l :: tr) c3.

(** One label run on a configuration; none when the label names a
    process that is not there or has finished. *)
Definition cexec `{FileHash} (p : pooch) (c : config) (l : label) : option config :=
  match l with
  | Thread i =>
      s ← procs c !! i;
      '(w', s') ← thread_step p (shared c) s;
      Some (Config w' (<[i := s']> (procs c)))
  | Env e => w' ← env_step (shared c) e; Some (Config w' (procs c))
  end.

(** A schedule run on a configuration. *)
Fixpoint crun `{FileHash} (p : pooch) (c : config) (tr : list label) : option config :=
  match tr with
  | [] => Some c
  | l :: tr' => c' ← cexec p c l; crun p c' tr'
  end.

(** One process with nothing in between: at most four steps. *)
Fixpoint solo_from `{FileHash} (p : pooch) (fuel : nat) (w : world) (s : pc)
    : world * pc :=
  match fuel with
  | O => (w, s)
  | S fuel =>
      match thread_step p w s with
      | Some (w', s') => solo_from p fuel w' s'
      | None => (w, s)
      end
  end.

Definition solo `{FileHash} (p : pooch) (w : world) (fname : pystr) : world * pc :=
  solo_from p 4 w (Start fname).

(** The steps a process has left, at most. *)
Definition remaining (s : pc) : nat :=
  match s with
  | Start _ => 4
  | Downloading _ => 3
  | Verifying _ _ => 2
  | Moving _ _ => 1
  | Done _ _ => 0
  end.

Definition weight (c : config) : nat := sum_list (remaining <$> procs c).

Definition is_thread (l : label) : bool :=
  match l with
  | Thread _ => true
  | Env _ => false
  end.

(** The steps of processes in a trace. *)
Definition thread_steps (tr : list label) : nat :=
  length (filter (λ l, is_thread l = true) tr).

(** Nobody but the processes writes to the cache. *)
Definition quiet (l : label) : Prop :=
  match l with
  | Env (Written _ _) => False
  | _ => True
  end.

#[export] Instance quiet_dec l : Decision (quiet l).
Proof. destruct l as [|[]]; cbn; apply _. Defined.

(** What a process holds is sound: a temporary file about to be moved
    has the checksum, and a path that was returned is that of the file,
    which is in the cache with its checksum. *)
Definition pc_ok `{FileHash} (p : pooch) (w : world) (s : pc) : Prop :=
  match s with
  | Moving fname tmp =>
      ∃ known_hash, registry_of p !! fname = Some known_hash
                    ∧ verify tmp known_hash = Ok true
  | Done fname (Ok pa) => pa = full_path p fname ∧ verified p w fname
  | _ => True
  end.

(** The invariant of the processes that share a cache. *)
Definition inv `{FileHash} (p : pooch) (c : config) : Prop :=
  cache_ok p (shared c) ∧ Forall (pc_ok p (shared c)) (procs c).

(** * One process *)

Section thread.
Context `{FileHash} (p : pooch).
Implicit Types (w : world) (s : pc) (f : pystr) (c : bytes).

(** Every step brings a process closer to its end: no process loops. *)
Lemma thread_step_remaining w s w' s' :
  thread_step p w s = Some (w', s') → (remaining s' < remaining s)%nat.
Proof.
  destruct s as [f|f|f c|f c|f r]; cbn; intros [= <- <-]; cbn; try lia.
  - unfold check_step. repeat case_match; cbn; lia.
  - unfold download_step. repeat case_match; cbn; lia.
  - unfold verify_step. repeat case_match; cbn; lia.
Qed.

(** A process that has not finished can step: no process is stuck. *)
Lemma thread_step_is_Some w s :
  is_Some (thread_step p w s) ↔ remaining s ≠ 0%nat.
Proof. destruct s; cbn; split; (done || by intros []). Qed.

(** A move of checked content keeps what was verified and verifies the
    file moved. *)
Lemma move_step_verified w f c k f' :
  registry_of p !! f = Some k → verify c k = Ok true →
  verified p (move_step p w f c) f' ↔ verified p w f' ∨ f' = f.
Proof.
  intros Hk Hv. unfold verified, move_step. cbn [cache].
  destruct (decide (f' = f)) as [->|Hne].
  - rewrite lookup_insert_eq. naive_solver.
  - rewrite lookup_insert_ne by (by intros ?%(inj _)). naive_solver.
Qed.

Lemma move_step_cache_ok w f c k :
  registry_of p !! f = Some k → verify c k = Ok true →
  cache_ok p w → cache_ok p (move_step p w f c).
Proof.
  intros Hk Hv Hok f' k' c' Hk'. unfold move_step. cbn [cache].
  destruct (decide (f' = f)) as [->|Hne].
  - rewrite lookup_insert_eq. intros [= <-]. congruence.
  - rewrite lookup_insert_ne by (by intros ?%(inj _)). eauto.
Qed.

(** What a step leaves the stepping process with. *)
Lemma thread_step_pc_ok w s w' s' :
  pc_ok p w s → thread_step p w s = Some (w', s') → pc_ok p w' s'.
Proof.
  destruct s as [f|f|f c|f c|f r]; cbn [thread_step pc_ok];
    intros Hs [= <- <-]; cbn [pc_ok].
  - unfold check_step. destruct (registry_of p !! f) as [k|] eqn:Hk; [|done].
    destruct (download_action _ _ k) as [[]|] eqn:Ha; cbn; try done.
    apply download_action_Fetch in Ha as (c & ? & ?). split; [done|]. by exists k, c.
  - unfold download_step. by case_match.
  - unfold verify_step. destruct (registry_of p !! f) as [k|] eqn:Hk; [|done].
    cbn. destruct (verify c k) as [[]|] eqn:Hv; try done. cbn. eauto.
  - destruct Hs as (k & Hk & Hv). split; [done|].
    apply (move_step_verified _ _ _ k); auto.
Qed.

(** What a step of one process leaves the others with. *)
Lemma thread_step_others w s w' s' s0 :
  pc_ok p w s → thread_step p w s = Some (w', s') →
  pc_ok p w s0 → pc_ok p w' s0.
Proof.
  destruct s as [f|f|f c|f c|f r]; cbn [thread_step];
    intros Hs [= <- <-]; try done.
  destruct Hs as (k & Hk & Hv), s0 as [| | | |f0 [pa|]]; cbn; try done.
  intros [-> ?]. split; [done|]. apply (move_step_verified _ _ _ k); auto.
Qed.

Lemma thread_step_cache_ok w s w' s' :
  pc_ok p w s → thread_step p w s = Some (w', s') →
  cache_ok p w → cache_ok p w'.
Proof.
  destruct s as [f|f|f c|f c|f r]; cbn [thread_step];
    intros Hs [= <- <-]; try done.
  destruct Hs as (k & Hk & Hv). by apply (move_step_cache_ok _ _ _ k).
Qed.

(** The steps of one process, with nothing in between, are
    [Fetch.fetch]. *)
Lemma solo_fetch w f :
  solo p w f = (fetch_world p w f, Done f (fetch_result p w f)).
Proof.
  unfold solo, fetch_world, fetch_result, fetch, get_url.
  cbn [solo_from thread_step]. unfold check_step.
  destruct (registry_of p !! f) as [k|] eqn:Hk; [|done].
  cbn [of_option mbind result_bind].
  destruct (download_action w (full_path p f) k) as [[]|]; try done.
  all: cbn [solo_from thread_step]; unfold download_step, stream_download, get_url.
  all: rewrite Hk; cbn [mbind result_bind].
  all: destruct (remote w !! _) as [c|]; [|done].
  all: cbn [solo_from thread_step of_option mbind result_bind].
  all: unfold verify_step; rewrite Hk; cbn [of_option mbind result_bind].
  all: by destruct (verify c k) as [[]|].
Qed.
End thread.

(** * Interleavings *)

Section interleaving.
Context `{FileHash} (p : pooch).
Implicit Types (c : config) (l : label) (tr : list label) (w : world).

Lemma env_step_quiet w e w' s :
  quiet (Env e) → env_step w e = Some w' →
  cache w' = cache w ∧ (pc_ok p w s → pc_ok p w' s).
Proof.
  destruct e as [| |url content]; try done. intros _ [= <-]. split; [done|].
  by destruct s as [| | | |f [pa|]].
Qed.

(** Every step of a process, and every change of the server, keeps the
    invariant. *)
Lemma cstep_inv c l c' : quiet l → cstep p c l c' → inv p c → inv p c'.
Proof.
  intros Hq Hstep [Hcache Hprocs]. destruct Hstep as [w ts i s w' s' Hi Hs|w ts e w' He].
  - cbn in *. pose proof (proj1 (Forall_lookup _ _) Hprocs i s Hi) as Hok.
    split; cbn; [by eapply thread_step_cache_ok|].
    apply Forall_insert; [|by eapply thread_step_pc_ok].
    eapply Forall_impl; [exact Hprocs|]. intros s0. by eapply thread_step_others.
  - cbn in *. split; cbn.
    + destruct (env_step_quiet w e w' (Start []) Hq He) as [Hc _].
      intros f k c0. rewrite Hc. apply Hcache.
    + eapply Forall_impl; [exact Hprocs|]. intros s0.
      by apply (env_step_quiet w e w' s0).
Qed.

Lemma csteps_inv c tr c' :
  csteps p c tr c' → Forall quiet tr → inv p c → inv p c'.
Proof.
  induction 1 as [|c1 l c2 tr c3 Hstep _ IH]; [done|].
  intros [Hl Htr]%Forall_cons Hinv. eauto using cstep_inv.
Qed.

(** Processes that have not started satisfy the invariant on a checked
    cache. *)
Lemma inv_start w (fnames : list pystr) :
  cache_ok p w → inv p (Config w (Start <$> fnames)).
Proof. intros Hw. split; [done|]. by apply Forall_fmap, Forall_true. Qed.

(** ** Termination *)

Lemma sum_list_insert (ns : list nat) i n m :
  ns !! i = Some n → (sum_list (<[i := m]> ns) + n = sum_list ns + m)%nat.
Proof.
  revert i. induction ns as [|k ns IH]; intros [|i]; try done; simpl.
  - intros [= ->]. lia.
  - intros Hi%IH. lia.
Qed.

Lemma thread_steps_cons l tr :
  thread_steps (l :: tr) = ((if is_thread l then 1 else 0) + thread_steps tr)%nat.
Proof. unfold thread_steps. rewrite filter_cons. by destruct l. Qed.

Lemma cstep_weight c l c' :
  cstep p c l c' → ((if is_thread l then 1 else 0) + weight c' ≤ weight c)%nat.
Proof.
  destruct 1 as [w ts i s w' s' Hi Hs%thread_step_remaining|]; [|done].
  unfold weight. cbn. rewrite list_fmap_insert.
  pose proof (sum_list_insert (remaining <$> ts) i (remaining s) (remaining s')) as Hsum.
  rewrite list_lookup_fmap, Hi in Hsum. specialize (Hsum eq_refl). lia.
Qed.

(** The processes take, together, at most as many steps as their
    remaining steps add up to, however they are scheduled. *)
Lemma csteps_weight c tr c' :
  csteps p c tr c' → (thread_steps tr + weight c' ≤ weight c)%nat.
Proof.
  induction 1 as [|c1 l c2 tr c3 Hstep%cstep_weight _ IH]; [done|].
  rewrite thread_steps_cons. lia.
Qed.

Lemma weight_start w (fnames : list pystr) :
  weight (Config w (Start <$> fnames)) = (4 * length fnames)%nat.
Proof.
  unfold weight. cbn. induction fnames as [|f fnames IH]; [done|]. cbn in *. lia.
Qed.

(** A configuration in which some process has not finished can step:
    there is no deadlock. *)
Lemma cstep_progress c i s :
  procs c !! i = Some s → remaining s ≠ 0%nat → ∃ c', cstep p c (Thread i) c'.
Proof.
  intros Hi [[w' s'] Hs]%(thread_step_is_Some p (shared c)). destruct c as [w ts].
  eexists. by eapply cstep_thread.
Qed.

(** ** Schedules *)

Lemma cstep_cexec c l c' : cstep p c l c' ↔ cexec p c l = Some c'.
Proof.
  split.
  - destruct 1 as [w ts i s w' s' Hi Hs|w ts e w' He]; cbn.
    + by rewrite Hi; cbn; rewrite Hs.
    + by rewrite He.
  - destruct c as [w ts], l as [i|e]; cbn.
    + destruct (ts !! i) as [s|] eqn:Hi; [|done]. cbn.
      destruct (thread_step p w s) as [[w' s']|] eqn:Hs; [|done].
      intros [= <-]. by eapply cstep_thread.
    + destruct (env_step w e) as [w'|] eqn:He; [|done].
      intros [= <-]. by constructor.
Qed.

(** The traces are the schedules that run. *)
Lemma csteps_crun c tr c' : csteps p c tr c' ↔ crun p c tr = Some c'.
Proof.
  split.
  - induction 1 as [|c1 l c2 tr c3 Hstep%cstep_cexec _ IH]; [done|].
    cbn. by rewrite Hstep.
  - revert c. induction tr as [|l tr IH]; intros c; cbn.
    + intros [= <-]. constructor.
    + destruct (cexec p c l) as [c2|] eqn:Hl; [|done]. cbn. intros Hr.
      eapply csteps_cons; [by apply cstep_cexec|by apply IH].
Qed.
End interleaving.

(** * One process among the others *)

Section solo.
Context `{FileHash} (p : pooch).
Implicit Types (w : world) (s : pc).

(** The run of one process is a trace of the system in which only that
    process steps. *)
Lemma solo_from_csteps fuel w s :
  ∃ k, (k ≤ fuel)%nat
       ∧ csteps p (Config w [s]) (replicate k (Thread 0))
           (Config (solo_from p fuel w s).1 [(solo_from p fuel w s).2]).
Proof.
  revert w s. induction fuel as [|fuel IH]; intros w s; cbn [solo_from].
  { exists 0%nat. split; [done|constructor]. }
  destruct (thread_step p w s) as [[w' s']|] eqn:Hs.
  - destruct (IH w' s') as (k & Hk & Hsteps). exists (S k). split; [lia|].
    eapply csteps_cons; [|exact Hsteps]. by apply (cstep_thread p w [s] 0 s).
  - exists 0%nat. split; [lia|constructor].
Qed.
End solo.

(** * The descriptor of the sources *)

Section descriptor.
Context `{Platform} `{FileHash}.
Implicit Types (w : world) (f pa : pystr) (tr : list label) (c : config).

Notation digest := (lit "79e7880d5989e05ec23205782c30025a") (only parsing).

(** C14: processes that fetch through the descriptor at the same time,
    from an empty cache, in any interleaving of their steps and of
    changes of the server, hand out only a checked file: a process that
    has returned a path was asked for the catalogue and the file at
    that path has, then and as long as nobody else writes to the cache,
    the registry's MD5. *)
Theorem concurrent_fetch_checked (served : gmap pystr bytes) fnames tr c i f pa :
  csteps euclid_q1_morphology (Config (World ∅ served) (Start <$> fnames)) tr c →
  Forall quiet tr →
  procs c !! i = Some (Done f (Ok pa)) →
  f = catalogue ∧ pa = os_cache app_name ++ lit "/morphology_catalogue.parquet"
  ∧ ∃ content h, cache (shared c) !! pa = Some content
      ∧ file_hash (lit "md5") content = Some h ∧ lower h = digest.
Proof.
  intros Hsteps Hq Hi.
  assert (inv euclid_q1_morphology c) as [_ Hprocs].
  { eapply csteps_inv; [exact Hsteps|exact Hq|]. by apply inv_start. }
  destruct (proj1 (Forall_lookup _ _) Hprocs i _ Hi) as [-> Hv].
  apply verified_catalogue in Hv as (-> & content & h & ? & ? & ?). eauto 10.
Qed.

(** One process that runs alone takes the steps of [fetch]: from a
    process that has not started, at most four steps of it lead to the
    world and the result that [Fetch.fetch] gives. *)
Theorem solo_fetch_steps w f :
  ∃ k, (k ≤ 4)%nat
       ∧ csteps euclid_q1_morphology (Config w [Start f]) (replicate k (Thread 0))
           (Config (fetch_world euclid_q1_morphology w f)
                   [Done f (fetch_result euclid_q1_morphology w f)]).
Proof.
  destruct (solo_from_csteps euclid_q1_morphology 4 w (Start f)) as (k & Hk & Hs).
  exists k. split; [done|]. fold (solo euclid_q1_morphology w f) in Hs.
  by rewrite solo_fetch in Hs.
Qed.

(** Fetches through the descriptor terminate under every schedule:
    [n] processes take at most [4 * n] steps together, and a process
    that has not finished can always take its next step. *)
Theorem concurrent_fetch_terminates w fnames tr c :
  csteps euclid_q1_morphology (Config w (Start <$> fnames)) tr c →
  (thread_steps tr ≤ 4 * length fnames)%nat
  ∧ ∀ i s, procs c !! i = Some s → remaining s ≠ 0%nat →
           ∃ c', cstep euclid_q1_morphology c (Thread i) c'.
Proof.
  intros Hsteps%csteps_weight. rewrite weight_start in Hsteps.
  split; [lia|]. intros i s. apply cstep_progress.
Qed.
End descriptor.

(** * The theorems at a platform *)

Section witnesses.
#[local] Existing Instances Fetch.home Fetch.md5.

Notation pa := (lit "/home/user/.cache/eggs-zoo-connect/morphology_catalogue.parquet")
  (only parsing).
Notation locator :=
  (lit "doi:10.5281/zenodo.15106473/morphology_catalogue.parquet") (only parsing).

(** Two processes fetch the catalogue and a third a file that is not
    registered; the server withdraws the file between the downloads and
    the checks. *)
Notation schedule :=
  [Thread 0; Thread 1; Thread 2; Thread 0; Thread 1; Env (Served locator None);
   Thread 1; Thread 0; Thread 1; Thread 0]%nat (only parsing).
Notation start :=
  (Config (World ∅ {[ locator := [80; 65; 82; 49] ]})
          (Start <$> [catalogue; catalogue; lit "README"])) (only parsing).
Notation finish :=
  (Config (World (<[pa := [80; 65; 82; 49]]> ∅) ∅)
          [Done catalogue (Ok pa); Done catalogue (Ok pa);
           Done (lit "README") (Err ValueError)]) (only parsing).

Lemma schedule_steps : csteps euclid_q1_morphology start schedule finish.
Proof. apply csteps_crun. by_compute. Qed.

Lemma concurrent_fetch_checked_witness :
  catalogue = catalogue
  ∧ pa = os_cache app_name ++ lit "/morphology_catalogue.parquet"
  ∧ ∃ content h, cache (shared finish) !! pa = Some content
      ∧ file_hash (lit "md5") content = Some h
      ∧ lower h = lit "79e7880d5989e05ec23205782c30025a".
Proof.
  apply (concurrent_fetch_checked _ [catalogue; catalogue; lit "README"]
           schedule finish 1 catalogue pa schedule_steps);
    [by repeat constructor|done].
Defined.

Lemma concurrent_fetch_terminates_witness :
  (thread_steps schedule ≤ 4 * length [catalogue; catalogue; lit "README"])%nat
  ∧ ∀ i s, procs finish !! i = Some s → remaining s ≠ 0%nat →
           ∃ c', cstep euclid_q1_morphology finish (Thread i) c'.
Proof.
  apply (concurrent_fetch_terminates _ [catalogue; catalogue; lit "README"]
           schedule finish schedule_steps).
Defined.
End witnesses.
