(* ===== verification/Package.v ===== *)
(** * The package and its imports

    Models src/src/zootasks_utils/__init__.py (lines 3-6): the names the
    package promises in [__all__] and the two [from ... import]
    statements that are to bind them, run against the files of the
    package as they lie under src/src/zootasks_utils/.

    - [entry] is a file tree: a module file with the names it binds at
      its top level, or a directory, which is a package (a regular one
      when it has an [__init__.py], a namespace package otherwise);
    - [import_from] is [from .a.b import n1, n2] inside a package's
      [__init__.py]: the module [a.b] is found below the package, and
      each name must be bound by it or be one of its submodules;
    - [exec_init] runs the statements in order and returns the names
      bound, or the first ImportError;
    - [zootasks_utils] is the tree of the sources and [init] the
      statements of lines 5-6. *)

From stdpp Require Import strings.
From S2P Require Import Prelude PyStr.

#[local] Open Scope Z_scope.

(** * Definitions *)

Inductive entry : Type :=
  | ModuleFile (name : pystr) (binds : list pystr)
  | Directory (name : pystr) (init : option (list pystr)) (entries : list entry).

Definition entry_name (e : entry) : pystr :=
  match e with
  | ModuleFile name _ | Directory name _ _ => name
  end.

(** The names a module binds at its top level; a namespace package
    binds none. *)
Definition entry_binds (e : entry) : list pystr :=
  match e with
  | ModuleFile _ binds => binds
  | Directory _ init _ => default [] init
  end.

Definition entry_children (e : entry) : list entry :=
  match e with
  | ModuleFile _ _ => []
  | Directory _ _ entries => entries
  end.

Definition find_entry (name : pystr) (es : list entry) : option entry :=
  list_find (λ e, entry_name e = name) es ≫= λ ie, Some ie.2.

(** The module at a dotted path below a package. *)
Fixpoint find_module (path : list pystr) (e : entry) : result entry :=
  match path with
  | [] => Ok e
  | name :: path =>
      match find_entry name (entry_children e) with
      | Some e' => find_module path e'
      | None => Err (ImportError name)
      end
  end.

(** One name of a [from ... import]: an attribute of the module, or a
    submodule of it. *)
Definition import_name (m : entry) (name : pystr) : result pystr :=
  if decide (name ∈ entry_binds m) then Ok name
  else match find_entry name (entry_children m) with
       | Some _ => Ok name
       | None => Err (ImportError name)
       end.

(** [from .path import names] in the [__init__.py] of [pkg]. *)
Definition import_from (pkg : entry) (path names : list pystr)
    : result (list pystr) :=
  m ← find_module path pkg; mapM (import_name m) names.

Record import_stmt : Type := ImportFrom {
  from_path : list pystr;
  import_names : list pystr;
}.

(** The statements of an [__init__.py], in order: the names bound. *)
Fixpoint exec_init (pkg : entry) (stmts : list import_stmt)
    : result (list pystr) :=
  match stmts with
  | [] => Ok []
  | s :: stmts =>
      ns ← import_from pkg (from_path s) (import_names s);
      (λ ms, ns ++ ms) <$> exec_init pkg stmts
  end.

(** [from m import *]: the names of [__all__] when the module has one,
    each of which must be bound; its public names otherwise. *)
Definition import_star (binds : list pystr) (all : option (list pystr))
    : result (list pystr) :=
  match all with
  | Some names =>
      mapM (λ n, if decide (n ∈ binds) then Ok n else Err (AttributeError n)) names
  | None => Ok (filter (λ n, head n ≠ Some underscore) binds)
  end.

(** upload_utils.py, line 3. *)
Definition upload_utils_all : list pystr := [lit "get_hash_id"; lit "make_id_str"].

(** upload_utils.py, lines 5-9: the names its imports bind. *)
Definition upload_utils_imports : list pystr :=
  [lit "hashlib"; lit "np"; lit "pl"; lit "dispatch"].

(** The names upload_utils.py binds: its imports and its two functions;
    the second [def make_id_str] registers with the first. *)
Definition upload_utils_binds : list pystr :=
  upload_utils_imports ++ [lit "get_hash_id"; lit "make_id_str"].

(** data.py, lines 3-5. *)
Definition data_binds : list pystr := [lit "pooch"; lit "euclid_q1_morphology"].

(** The files of the package.  Its own [__init__.py] has bound nothing
    when its statements start to run. *)
Definition zootasks_utils : entry :=
  Directory (lit "zootasks_utils") (Some [])
    [ModuleFile (lit "data") data_binds;
     Directory (lit "_src") None
       [ModuleFile (lit "upload_utils") upload_utils_binds]].

(** Line 3. *)
Definition all_names : list pystr :=
  [lit "data"; lit "get_hash_id"; lit "make_id_str"].

(** Lines 5-6. *)
Definition init : list import_stmt :=
  [ImportFrom [lit "_src"] [lit "data"];
   ImportFrom [lit "_src"; lit "upload_utils"]
     [lit "get_hash_id"; lit "make_id_str"]].

(** The statements with [data] imported from the package itself, where
    the file is. *)
Definition init_data_here : list import_stmt :=
  [ImportFrom [] [lit "data"];
   ImportFrom [lit "_src"; lit "upload_utils"]
     [lit "get_hash_id"; lit "make_id_str"]].

(** * Properties *)

Section imports.
Implicit Types (pkg m : entry) (name : pystr) (names : list pystr).

Lemma find_entry_Some name es e :
  find_entry name es = Some e → e ∈ es ∧ entry_name e = name.
Proof.
  unfold find_entry. destruct (list_find _ es) as [[i e']|] eqn:Hf; [|done].
  intros [= <-]. apply list_find_Some in Hf as (Hi & ? & _).
  split; [by eapply list_elem_of_lookup_2|done].
Qed.

Lemma find_entry_None name es :
  find_entry name es = None ↔ name ∉ entry_name <$> es.
Proof.
  unfold find_entry. destruct (list_find _ es) as [[i e']|] eqn:Hf; cbn.
  - apply list_find_Some in Hf as (Hi & <- & _). split; [done|].
    intros []. apply list_elem_of_fmap. exists e'.
    split; [done|by eapply list_elem_of_lookup_2].
  - split; [|done]. intros _ (e & -> & He)%list_elem_of_fmap.
    apply list_find_None in Hf. rewrite list.Forall_forall in Hf.
    by apply (Hf e).
Qed.

(** A name is imported exactly when the module binds it or has a
    submodule of that name. *)
Lemma import_name_Ok m name n :
  import_name m name = Ok n ↔
  n = name ∧ (name ∈ entry_binds m ∨ name ∈ entry_name <$> entry_children m).
Proof.
  unfold import_name. case_decide as Hb; [naive_solver|].
  destruct (find_entry name _) as [e|] eqn:Hf.
  - apply find_entry_Some in Hf as [? <-]. split; [|naive_solver].
    intros [= <-]. split; [done|]. right. by apply list_elem_of_fmap_2.
  - apply find_entry_None in Hf. naive_solver.
Qed.

Lemma import_name_Err m name e :
  import_name m name = Err e ↔
  e = ImportError name ∧ name ∉ entry_binds m
  ∧ name ∉ entry_name <$> entry_children m.
Proof.
  unfold import_name. case_decide as Hb; [naive_solver|].
  destruct (find_entry name _) as [e'|] eqn:Hf.
  - apply find_entry_Some in Hf as [? <-]. split; [done|].
    intros (_ & _ & []). by apply list_elem_of_fmap_2.
  - apply find_entry_None in Hf. naive_solver.
Qed.

(** What [from .path import names] binds is [names]. *)
Lemma import_from_Ok pkg path names ns :
  import_from pkg path names = Ok ns → ns = names.
Proof.
  unfold import_from. intros (m & _ & Hns)%bind_Ok_iff.
  apply mapM_Ok_iff in Hns. induction Hns as [|n n' ?? Hn _ IH]; [done|].
  apply import_name_Ok in Hn as [-> _]. by rewrite IH.
Qed.

(** A package whose statements all run binds the names they list. *)
Lemma exec_init_Ok pkg stmts ns :
  exec_init pkg stmts = Ok ns → ns = stmts ≫= import_names.
Proof.
  revert ns. induction stmts as [|s stmts IH]; intros ns Hns; simplify_result.
  - done.
  - apply bind_Ok_iff in Hns as (ms & ->%import_from_Ok & Hns).
    apply fmap_Ok_iff in Hns as (ks & Hks & ->). cbn. by rewrite (IH ks).
Qed.
End imports.

(** * Star imports *)

Section star.
Implicit Types (binds names : list pystr) (n : pystr).

(** With [__all__], a star import binds exactly its names, and succeeds
    exactly when the module binds each of them. *)
Lemma import_star_all binds names ns :
  import_star binds (Some names) = Ok ns ↔
  ns = names ∧ Forall (λ n, n ∈ binds) names.
Proof.
  unfold import_star. rewrite mapM_Ok_iff. split.
  - induction 1 as [|n y ms ks Hn _ IH]; [done|].
    case_decide; [|done]. injection Hn as <-. destruct IH as [-> ?].
    split; [done|]. by constructor.
  - intros [-> Hs]. induction Hs; constructor; [by rewrite decide_True|done].
Qed.

(** It raises AttributeError for the first name that is not bound. *)
Lemma import_star_Err binds names e :
  import_star binds (Some names) = Err e →
  ∃ n, e = AttributeError n ∧ n ∈ names ∧ n ∉ binds.
Proof.
  cbn. intros (n & Hn & He)%mapM_Err_elem. case_decide; [done|].
  injection He as <-. eauto.
Qed.
End star.

(** Importing the package raises ImportError for [data]: the first
    statement of [__init__.py] looks for it in [_src], which holds only
    [upload_utils]; no name of [__all__] is bound. *)
Theorem import_zootasks_utils :
  exec_init zootasks_utils init = Err (ImportError (lit "data")).
Proof. vm_compute. reflexivity. Qed.

(** With [data] imported from the package itself the statements run
    and bind exactly the names of [__all__]. *)
Lemma import_data_here :
  exec_init zootasks_utils init_data_here = Ok all_names.
Proof. vm_compute. reflexivity. Qed.

(** Whatever the files are, if the statements of [__init__.py] run
    then they bind exactly the names of [__all__], in its order. *)
Theorem init_binds_all pkg ns :
  exec_init pkg init = Ok ns → ns = all_names.
Proof. by intros ->%exec_init_Ok. Qed.

Lemma init_binds_all_witness :
  all_names = [lit "data"; lit "get_hash_id"; lit "make_id_str"].
Proof.
  symmetry.
  apply (init_binds_all
           (Directory (lit "zootasks_utils") None
              [Directory (lit "_src") None
                 [ModuleFile (lit "data") [];
                  ModuleFile (lit "upload_utils")
                    [lit "get_hash_id"; lit "make_id_str"]]])).
  vm_compute. reflexivity.
Defined.

(** [upload_utils] binds every name of its [__all__], so a star
    import of it succeeds and binds [get_hash_id] and [make_id_str] and
    none of the modules it imports. *)
Theorem upload_utils_star :
  import_star upload_utils_binds (Some upload_utils_all) =
    Ok [lit "get_hash_id"; lit "make_id_str"]
  ∧ ∀ n, n ∈ upload_utils_imports → n ∉ upload_utils_all.
Proof.
  split; [by vm_compute|]. intros n Hn Ha.
  assert (Forall (λ n, n ∉ upload_utils_all) upload_utils_imports) as Hf
    by by_compute.
  rewrite list.Forall_forall in Hf. by apply (Hf n).
Qed.
