(* ===== verification/Importer.v ===== *)
(** * The import system

    What the interpreter does when a module is imported, as far as the
    statements at the top level of the three files of the package need
    it: [sys.modules], the search for a module, the execution of a
    module body, and plum's registry of dispatched functions.  Modelled
    from the documented behaviour of importlib; [PackageImport] runs the
    files of the package against it.

    - [stmt] is a top-level statement: a docstring, an assignment, the
      two forms of [import], and a [def] with its decorator; [source] is
      a file or a directory of them;
    - [Env] is what imports run against: the directories of [sys.path]
      and the installed distributions;
    - [interp] is the state of the interpreter: [sys_modules], from
      dotted module names to namespaces, and [plum_functions], the
      methods [@dispatch] has registered under each name;
    - [comp] is the monad of the import system: a state that survives
      an exception, and no result at all when the fuel is used up;
    - [exec_stmt] and [exec_body] run statements in a module;
      [find_and_load] and [gcd_import] are the functions of these names
      in importlib: a module in [sys.modules] is returned as it is, its
      parent is imported first, the module is entered in [sys.modules]
      before its body runs and removed when the body raises, and bound
      in its parent when it returns.

    Fuel bounds the depth of nested imports; [gcd_import_mono] shows that
    more fuel never changes a result. *)

From stdpp Require Import strings gmap.
From S2P Require Import Prelude PyStr Polars Dispatch.

#[local] Open Scope Z_scope.
#[local] Existing Instances pl.series_eq_dec.

(** * Names and objects *)

(** A dotted module name, outermost first. *)
Definition modname : Type := list pystr.

(** [".".join(m)] *)
Definition dotted (m : modname) : pystr :=
  match m with
  | [] => []
  | n :: m => foldl (λ acc x, acc ++ lit "." ++ x) n m
  end.

#[export] Instance param_eq_dec : EqDecision param.
Proof. solve_decision. Defined.

#[export] Instance pyfunc_eq_dec : EqDecision pyfunc.
Proof. solve_decision. Defined.

(** What a name of a module can be bound to. *)
Inductive obj : Type :=
  | OModule (m : modname)
  | OFunction (f : pyfunc)
  | ODispatcher
  | ODispatched (name : pystr)
  | OValue.

#[export] Instance obj_eq_dec : EqDecision obj.
Proof. solve_decision. Defined.

Definition namespace : Type := gmap pystr obj.

(** * Statements and files *)

Inductive stmt : Type :=
  | Doc (text : pystr)
  | Assign (target : pystr) (reads : list pystr)
  | Import (module : modname) (asname : option pystr)
  | FromImport (level : nat) (module : modname) (names : list pystr)
  | Def (decorator : option pystr) (name : pystr) (f : pyfunc) (reads : list pystr).

Inductive source : Type :=
  | PyFile (name : pystr) (body : list stmt)
  | PyDir (name : pystr) (init : option (list stmt)) (children : list source).

(** * Finding a module *)

Definition source_name (s : source) : pystr :=
  match s with
  | PyFile name _ | PyDir name _ _ => name
  end.

(** The rank of a directory entry for a name: a directory with an
    [__init__.py] is found before a file, a file before a directory
    without. *)
Definition is_regular (name : pystr) (s : source) : bool :=
  match s with
  | PyDir n (Some _) _ => bool_decide (n = name)
  | _ => false
  end.

Definition is_file (name : pystr) (s : source) : bool :=
  match s with
  | PyFile n _ => bool_decide (n = name)
  | _ => false
  end.

Definition is_namespace (name : pystr) (s : source) : bool :=
  match s with
  | PyDir n None _ => bool_decide (n = name)
  | _ => false
  end.

Definition find_in (name : pystr) (dir : list source) : option source :=
  match find (is_regular name) dir with
  | Some s => Some s
  | None =>
      match find (is_file name) dir with
      | Some s => Some s
      | None => find (is_namespace name) dir
      end
  end.

Fixpoint find_source (path : modname) (dir : list source) : option source :=
  match path with
  | [] => None
  | [name] => find_in name dir
  | name :: path =>
      match find_in name dir with
      | Some (PyDir _ _ children) => find_source path children
      | _ => None
      end
  end.

Inductive spec : Type :=
  | SourceFile (body : list stmt)
  | RegularPackage (init : list stmt)
  | NamespacePackage
  | Installed (ns : namespace).

(** What imports run against: the directories of [sys.path] and the
    installed distributions, with the names each provides. *)
Class Env : Type := {
  sys_path : list source;
  site_packages : gmap pystr namespace;
}.

Definition find_spec `{Env} (name : modname) : option spec :=
  match find_source name sys_path with
  | Some (PyFile _ body) => Some (SourceFile body)
  | Some (PyDir _ (Some init) _) => Some (RegularPackage init)
  | Some (PyDir _ None _) => Some NamespacePackage
  | None =>
      match name with
      | [top] => Installed <$> site_packages !! top
      | _ => None
      end
  end.

Definition body_of (sp : spec) : list stmt :=
  match sp with
  | SourceFile body | RegularPackage body => body
  | NamespacePackage | Installed _ => []
  end.

(** The namespace of a module when its body starts to run: a package
    has its [__path__]. *)
Definition path_attr : pystr := lit "__path__".

Definition initial_ns (sp : spec) : namespace :=
  match sp with
  | SourceFile _ => ∅
  | RegularPackage _ | NamespacePackage => {[ path_attr := OValue ]}
  | Installed ns => ns
  end.

(** A namespace package below another package. *)
Definition namespace_parent `{Env} (parent : modname) : Prop :=
  removelast parent ≠ []
  ∧ match find_spec parent with Some NamespacePackage => True | _ => False end.

#[export] Instance namespace_parent_dec `{Env} parent : Decision (namespace_parent parent).
Proof. unfold namespace_parent. destruct (find_spec parent) as [[]|]; apply _. Defined.

(** * The interpreter *)

Record interp : Type := Interp {
  sys_modules : gmap modname namespace;
  plum_functions : gmap pystr (list pyfunc);
}.

#[export] Instance interp_eq_dec : EqDecision interp.
Proof. solve_decision. Defined.

(** A computation of the import system. *)
Definition comp (A : Type) : Type := interp → option (result A * interp).

#[export] Instance comp_ret : MRet comp := λ A a st, Some (Ok a, st).

#[export] Instance comp_bind : MBind comp := λ A B k m st,
  match m st with
  | Some (Ok a, st') => k a st'
  | Some (Err e, st') => Some (Err e, st')
  | None => None
  end.

Definition raise {A} (e : exn) : comp A := λ st, Some (Err e, st).

Definition out_of_fuel {A} : comp A := λ _, None.

(** [try: m; except Exception as e: ...] *)
Definition catch {A} (m : comp A) : comp (result A) := λ st,
  match m st with
  | Some (r, st') => Some (Ok r, st')
  | None => None
  end.

Definition loaded (m : modname) (st : interp) : Prop := is_Some (sys_modules st !! m).

(** [vars(sys.modules[m])] *)
Definition module_ns (m : modname) (st : interp) : namespace :=
  default ∅ (sys_modules st !! m).

(** [hasattr(sys.modules[m], "__path__")] *)
Definition is_package (m : modname) (st : interp) : Prop :=
  is_Some (module_ns m st !! path_attr).

(** A step that changes the state and cannot fail. *)
Definition modify (f : interp → interp) : comp unit := λ st, Some (Ok (), f st).

(** [setattr(sys.modules[m], n, o)] *)
Definition set_attr (m : modname) (n : pystr) (o : obj) (st : interp) : interp :=
  Interp (alter (insert n o) m (sys_modules st)) (plum_functions st).

Definition setattr (m : modname) (n : pystr) (o : obj) : comp unit :=
  modify (set_attr m n o).

(** [sys.modules[m] = module] *)
Definition set_module (m : modname) (ns : namespace) (st : interp) : interp :=
  Interp (<[m := ns]> (sys_modules st)) (plum_functions st).

Definition put_module (m : modname) (ns : namespace) : comp unit :=
  modify (set_module m ns).

(** [del sys.modules[m]] *)
Definition unset_module (m : modname) (st : interp) : interp :=
  Interp (delete m (sys_modules st)) (plum_functions st).

Definition del_module (m : modname) : comp unit := modify (unset_module m).

(** A global name read by a statement of module [cur]. *)
Definition load_name (cur : modname) (n : pystr) : comp obj := λ st,
  match module_ns cur st !! n with
  | Some o => Some (Ok o, st)
  | None => Some (Err (NameError n), st)
  end.

(** [dispatch.functions[name].register(f)] *)
Definition add_method (name : pystr) (f : pyfunc) (st : interp) : interp :=
  Interp (sys_modules st)
         (<[name := default [] (plum_functions st !! name) ++ [f]]> (plum_functions st)).

Definition register (name : pystr) (f : pyfunc) : comp unit := modify (add_method name f).

(** Statements in sequence. *)
Fixpoint each {A} (f : A → comp unit) (l : list A) : comp unit :=
  match l with
  | [] => mret ()
  | a :: l => _ ← f a; each f l
  end.

(** The absolute name of a relative import, from [__package__]. *)
Definition resolve_name (level : nat) (package module : modname) : result modname :=
  match level with
  | O => Ok module
  | S up =>
      if decide (level ≤ length package)%nat
      then Ok (take (length package - up) package ++ module)
      else Err (ImportError (dotted module))
  end.

Section exec.
Context (import_ : modname → comp unit).

(** [__package__] of a module: itself when it is a package. *)
Definition package_of (cur : modname) : comp modname := λ st,
  Some (Ok (if decide (is_package cur st) then cur else removelast cur), st).

(** One name of a [from m import ...]: a name that is not an attribute
    of a package is tried as its submodule, and it is no error yet
    when there is no such submodule. *)
Definition import_submodule (m : modname) (n : pystr) : comp unit := λ st,
  if decide (is_Some (module_ns m st !! n) ∨ ¬ is_package m st)
  then Some (Ok (), st)
  else match import_ (m ++ [n]) st with
       | Some (Err (ModuleNotFoundError x), st') =>
           if decide (x = dotted (m ++ [n])) then Some (Ok (), st')
           else Some (Err (ModuleNotFoundError x), st')
       | r => r
       end.

(** The attribute a [from m import n] binds: the attribute of the
    module, or the submodule in [sys.modules]. *)
Definition import_attr (m : modname) (n : pystr) : comp obj := λ st,
  match module_ns m st !! n with
  | Some o => Some (Ok o, st)
  | None =>
      if decide (loaded (m ++ [n]) st) then Some (Ok (OModule (m ++ [n])), st)
      else Some (Err (ImportError n), st)
  end.

Definition exec_stmt (cur : modname) (s : stmt) : comp unit :=
  match s with
  | Doc _ => setattr cur (lit "__doc__") OValue
  | Assign target reads =>
      _ ← each (λ n, _ ← load_name cur n; mret ()) reads;
      setattr cur target OValue
  | Import m asname =>
      _ ← import_ m;
      _ ← import_ (take 1 m);
      match asname with
      | Some n => setattr cur n (OModule m)
      | None => each (λ top, setattr cur top (OModule [top])) (take 1 m)
      end
  | FromImport level m names =>
      pkg ← package_of cur;
      match resolve_name level pkg m with
      | Err e => raise e
      | Ok abs =>
          _ ← import_ abs;
          _ ← each (import_submodule abs) names;
          each (λ n, o ← import_attr abs n; setattr cur n o) names
      end
  | Def decorator name f reads =>
      d ← match decorator with
          | Some d => o ← load_name cur d; mret (Some o)
          | None => mret None
          end;
      _ ← each (λ n, _ ← load_name cur n; mret ()) reads;
      match d with
      | None => setattr cur name (OFunction f)
      | Some ODispatcher => _ ← register name f; setattr cur name (ODispatched name)
      | Some _ => raise TypeError
      end
  end.

Definition exec_body (cur : modname) (body : list stmt) : comp unit :=
  each (exec_stmt cur) body.

(** A module that has been found: it is entered in [sys.modules], its
    body runs, and it is bound in its parent; when the body raises the
    module is removed again, and what the body loaded stays. *)
Definition load_spec (name : modname) (sp : spec) : comp unit :=
  let parent := removelast name in
  _ ← put_module name (initial_ns sp);
  r ← catch (exec_body name (body_of sp));
  match r with
  | Err e => _ ← del_module name; raise e
  | Ok _ =>
      each (λ child, setattr parent child (OModule name))
           (if decide (parent = []) then [] else drop (length parent) name)
  end.

(** The module itself, once its parent is there.  A module whose
    parent is no package is not found; a namespace package lists its
    directories from the path of its own parent, which must be
    loaded. *)
Definition load `{Env} (name : modname) : comp unit := λ st,
  let parent := removelast name in
  if decide (loaded name st) then Some (Ok (), st)
  else if decide (parent ≠ [] ∧ ¬ is_package parent st)
  then Some (Err (ModuleNotFoundError (dotted name)), st)
  else if decide (namespace_parent parent ∧ ¬ loaded (removelast parent) st)
  then Some (Err (KeyError (dotted (removelast parent))), st)
  else match find_spec name with
       | None => Some (Err (ModuleNotFoundError (dotted name)), st)
       | Some sp => load_spec name sp st
       end.

(** [_find_and_load]: the parent first, then the module itself. *)
Definition find_and_load `{Env} (name : modname) : comp unit :=
  _ ← (if decide (removelast name = []) then mret () else import_ (removelast name));
  load name.
End exec.

(** [importlib._bootstrap._gcd_import] *)
Fixpoint gcd_import `{Env} (fuel : nat) (name : modname) : comp unit :=
  match fuel with
  | O => out_of_fuel
  | S fuel => λ st,
      if decide (loaded name st) then Some (Ok (), st)
      else find_and_load (gcd_import fuel) name st
  end.

(** A statement typed at the prompt: it runs in [__main__]. *)
Definition main : modname := [lit "__main__"].

Definition run_stmt `{Env} (fuel : nat) (s : stmt) : comp unit :=
  exec_stmt (gcd_import fuel) main s.

(** The interpreter when it starts. *)
Definition fresh : interp := Interp {[ main := ∅ ]} ∅.

(** More fuel: [x] is [y] or has run out of fuel. *)
Definition lessdef {A} (x y : option A) : Prop := ∀ a, x = Some a → y = Some a.

Definition lessdef_comp {A} (m1 m2 : comp A) : Prop := ∀ st, lessdef (m1 st) (m2 st).

Infix "⊑" := lessdef_comp (at level 70).

(** * The monad *)

Section comp.
Context {A B : Type}.
Implicit Types (m : comp A) (k : A → comp B) (st : interp).

Lemma comp_bind_Ok m k st a st' :
  m st = Some (Ok a, st') → (m ≫= k) st = k a st'.
Proof. unfold mbind, comp_bind. by intros ->. Qed.

Lemma comp_bind_Err m k st e st' :
  m st = Some (Err e, st') → (m ≫= k) st = Some (Err e, st').
Proof. unfold mbind, comp_bind. by intros ->. Qed.
End comp.

Section importlib.
Context `{Env}.
Implicit Types (name : modname) (st : interp) (imp : modname → comp unit).

Lemma not_loaded m st : sys_modules st !! m = None → ¬ loaded m st.
Proof. unfold loaded. intros ->. by intros [? ?]. Qed.

Lemma gcd_import_loaded fuel name st :
  loaded name st → gcd_import (S fuel) name st = Some (Ok (), st).
Proof. intros Hl. cbn. by rewrite decide_True. Qed.

Lemma gcd_import_S fuel name st :
  ¬ loaded name st →
  gcd_import (S fuel) name st = find_and_load (gcd_import fuel) name st.
Proof. intros Hl. cbn. by rewrite decide_False. Qed.

Lemma find_and_load_top imp name st :
  removelast name = [] → find_and_load imp name st = load imp name st.
Proof. intros Hp. unfold find_and_load. by rewrite decide_True. Qed.

Lemma find_and_load_Ok imp name st st' :
  removelast name ≠ [] → imp (removelast name) st = Some (Ok (), st') →
  find_and_load imp name st = load imp name st'.
Proof.
  intros Hp Hi. unfold find_and_load. rewrite decide_False by done.
  by rewrite (comp_bind_Ok _ _ _ _ _ Hi).
Qed.

Lemma find_and_load_Err imp name st e st' :
  removelast name ≠ [] → imp (removelast name) st = Some (Err e, st') →
  find_and_load imp name st = Some (Err e, st').
Proof.
  intros Hp Hi. unfold find_and_load. rewrite decide_False by done.
  by rewrite (comp_bind_Err _ _ _ _ _ Hi).
Qed.

Lemma load_spec_found imp name st sp :
  ¬ loaded name st →
  removelast name = [] ∨ is_package (removelast name) st →
  ¬ namespace_parent (removelast name) ∨ loaded (removelast (removelast name)) st →
  find_spec name = Some sp →
  load imp name st = load_spec imp name sp st.
Proof.
  intros Hl Hp Hn Hs. unfold load. rewrite Hs.
  rewrite !decide_False; [done|naive_solver..].
Qed.

Lemma load_not_found imp name st :
  ¬ loaded name st →
  removelast name = [] ∨ is_package (removelast name) st →
  ¬ namespace_parent (removelast name) ∨ loaded (removelast (removelast name)) st →
  find_spec name = None →
  load imp name st = Some (Err (ModuleNotFoundError (dotted name)), st).
Proof.
  intros Hl Hp Hn Hs. unfold load. rewrite Hs.
  rewrite !decide_False; [done|naive_solver..].
Qed.

Lemma load_KeyError imp name st :
  ¬ loaded name st → is_package (removelast name) st →
  namespace_parent (removelast name) → ¬ loaded (removelast (removelast name)) st →
  load imp name st
    = Some (Err (KeyError (dotted (removelast (removelast name)))), st).
Proof.
  intros Hl Hp Hn Hs. unfold load.
  rewrite decide_False, decide_False, decide_True; [done|naive_solver..].
Qed.

Lemma load_not_package imp name st :
  ¬ loaded name st → removelast name ≠ [] → ¬ is_package (removelast name) st →
  load imp name st = Some (Err (ModuleNotFoundError (dotted name)), st).
Proof.
  intros Hl Hp Hn. unfold load. by rewrite decide_False, decide_True.
Qed.

Lemma import_submodule_missing imp m n st st' :
  module_ns m st !! n = None → is_package m st →
  imp (m ++ [n]) st = Some (Err (ModuleNotFoundError (dotted (m ++ [n]))), st') →
  import_submodule imp m n st = Some (Ok (), st').
Proof.
  intros Hn Hp Hi. unfold import_submodule. rewrite Hi.
  rewrite decide_False, decide_True; [done..|]. rewrite Hn. by intros [[]|].
Qed.

Lemma import_attr_missing m n st :
  module_ns m st !! n = None → ¬ loaded (m ++ [n]) st →
  import_attr m n st = Some (Err (ImportError n), st).
Proof. intros Hn Hl. unfold import_attr. by rewrite Hn, decide_False. Qed.
End importlib.

(** * More fuel *)

Section lessdef.
Context {A B : Type}.
Implicit Types (m : comp A) (k : A → comp B).

Lemma lessdef_refl m : m ⊑ m.
Proof. by intros st a. Qed.

Lemma bind_mono m1 m2 k1 k2 :
  m1 ⊑ m2 → (∀ a, k1 a ⊑ k2 a) → (m1 ≫= k1) ⊑ (m2 ≫= k2).
Proof.
  intros Hm Hk st r. unfold mbind, comp_bind.
  destruct (m1 st) as [[[a|e] st']|] eqn:Hst; [| |done];
    rewrite (Hm st _ Hst); [apply Hk|done].
Qed.

Lemma catch_mono m1 m2 : m1 ⊑ m2 → catch m1 ⊑ catch m2.
Proof.
  intros Hm st r. unfold catch.
  destruct (m1 st) as [[r' st']|] eqn:Hst; [|done]. by rewrite (Hm st _ Hst).
Qed.
End lessdef.

Lemma each_mono {A} (f1 f2 : A → comp unit) l :
  (∀ a, f1 a ⊑ f2 a) → each f1 l ⊑ each f2 l.
Proof.
  intros Hf. induction l as [|a l IH]; [apply lessdef_refl|].
  apply bind_mono; [apply Hf|done].
Qed.

Create HintDb mono discriminated.
#[export] Hint Resolve lessdef_refl bind_mono catch_mono each_mono : mono.

Section mono.
Context `{Env} (import1 import2 : modname → comp unit).
Hypothesis Himport : ∀ m, import1 m ⊑ import2 m.

Lemma import_submodule_mono m n :
  import_submodule import1 m n ⊑ import_submodule import2 m n.
Proof.
  intros st r. unfold import_submodule. case_decide; [done|].
  destruct (import1 (m ++ [n]) st) as [r'|] eqn:Hst; [|done].
  by rewrite (Himport _ st _ Hst).
Qed.

Lemma exec_stmt_mono cur s : exec_stmt import1 cur s ⊑ exec_stmt import2 cur s.
Proof.
  pose proof import_submodule_mono.
  destruct s as [| |m asname|level m names|]; cbn [exec_stmt];
    [apply lessdef_refl|apply lessdef_refl| | |apply lessdef_refl].
  - repeat (apply bind_mono; [done|intros _]). apply lessdef_refl.
  - apply bind_mono; [apply lessdef_refl|]. intros pkg.
    destruct (resolve_name level pkg m); [|apply lessdef_refl].
    repeat (apply bind_mono; [auto with mono|intros _]). apply lessdef_refl.
Qed.

Lemma exec_body_mono cur body : exec_body import1 cur body ⊑ exec_body import2 cur body.
Proof. apply each_mono, exec_stmt_mono. Qed.

Lemma load_spec_mono name sp : load_spec import1 name sp ⊑ load_spec import2 name sp.
Proof.
  apply bind_mono; [apply lessdef_refl|]. intros _.
  apply bind_mono; [apply catch_mono, exec_body_mono|]. intros ?. apply lessdef_refl.
Qed.

Lemma load_mono name : load import1 name ⊑ load import2 name.
Proof.
  intros st r. unfold load. repeat case_decide; try done.
  destruct (find_spec name) as [sp|]; [apply load_spec_mono|done].
Qed.

Lemma find_and_load_mono name :
  find_and_load import1 name ⊑ find_and_load import2 name.
Proof.
  apply bind_mono; [case_decide; auto with mono|]. intros _. apply load_mono.
Qed.
End mono.

Lemma gcd_import_mono `{Env} n m name : (n ≤ m)%nat → gcd_import n name ⊑ gcd_import m name.
Proof.
  revert m name. induction n as [|n IH]; intros m name Hnm st r; [done|].
  destruct m as [|m]; [lia|]. cbn. case_decide; [done|].
  apply find_and_load_mono. intros p. apply IH. lia.
Qed.

Lemma run_stmt_mono `{Env} n m s : (n ≤ m)%nat → run_stmt n s ⊑ run_stmt m s.
Proof. intros Hnm. apply exec_stmt_mono. intros name. by apply gcd_import_mono. Qed.

(** * The state under its updates *)

Section updates.
Implicit Types (st : interp) (m : modname) (n : pystr) (o : obj) (ns : namespace).

Lemma lookup_set_attr_ne m m' n o st :
  m ≠ m' → sys_modules (set_attr m n o st) !! m' = sys_modules st !! m'.
Proof. apply lookup_alter_ne. Qed.

Lemma lookup_set_attr_eq m n o st :
  sys_modules (set_attr m n o st) !! m = insert n o <$> sys_modules st !! m.
Proof. apply lookup_alter_eq. Qed.

Lemma lookup_set_module_ne m m' ns st :
  m ≠ m' → sys_modules (set_module m ns st) !! m' = sys_modules st !! m'.
Proof. apply lookup_insert_ne. Qed.

Lemma lookup_set_module_eq m ns st :
  sys_modules (set_module m ns st) !! m = Some ns.
Proof. apply lookup_insert_eq. Qed.

Lemma set_module_id m ns st : sys_modules st !! m = Some ns → set_module m ns st = st.
Proof. intros Hm. destruct st. unfold set_module. cbn in *. by rewrite insert_id. Qed.

Lemma lookup_unset_module_ne m m' st :
  m ≠ m' → sys_modules (unset_module m st) !! m' = sys_modules st !! m'.
Proof. apply lookup_delete_ne. Qed.

Lemma lookup_unset_module_eq m st : sys_modules (unset_module m st) !! m = None.
Proof. apply lookup_delete_eq. Qed.

Lemma is_package_lookup m st ns :
  sys_modules st !! m = Some ns → is_Some (ns !! path_attr) → is_package m st.
Proof. unfold is_package, module_ns. by intros ->. Qed.

Lemma is_package_loaded m st : is_package m st → loaded m st.
Proof.
  intros [o Ho]. unfold loaded, module_ns in *.
  destruct (sys_modules st !! m); [by eexists|]. destruct (lookup_empty_Some _ _ Ho).
Qed.

(** A package stays one when one of its names is bound. *)
Lemma is_package_set_attr m m' n o st :
  is_package m' st → is_package m' (set_attr m n o st).
Proof.
  unfold is_package, module_ns. destruct (decide (m = m')) as [->|Hm].
  - rewrite lookup_set_attr_eq. destruct (sys_modules st !! m'); cbn; [|done].
    intros Hp. apply lookup_insert_is_Some'. by right.
  - by rewrite lookup_set_attr_ne.
Qed.

Lemma loaded_set_attr m m' n o st : loaded m' st → loaded m' (set_attr m n o st).
Proof.
  unfold loaded. destruct (decide (m = m')) as [->|Hm].
  - rewrite lookup_set_attr_eq. by apply fmap_is_Some.
  - by rewrite lookup_set_attr_ne.
Qed.

(** A name bound in a loaded module is there. *)
Lemma module_ns_set_attr_eq m n o st :
  loaded m st → module_ns m (set_attr m n o st) !! n = Some o.
Proof.
  intros [ns Hm]. unfold module_ns. rewrite lookup_set_attr_eq, Hm.
  apply (lookup_insert_eq ns).
Qed.

Lemma module_ns_set_attr_ne m n n' o st :
  n ≠ n' → module_ns m (set_attr m n o st) !! n' = module_ns m st !! n'.
Proof.
  intros Hn. unfold module_ns. rewrite lookup_set_attr_eq.
  destruct (sys_modules st !! m) as [ns|]; [|done]. by apply (lookup_insert_ne ns).
Qed.

Lemma module_ns_add_method m n f st : module_ns m (add_method n f st) = module_ns m st.
Proof. reflexivity. Qed.
End updates.

(** * [def] statements *)

Section def.
Context (imp : modname → comp unit).
Implicit Types (m : modname) (st : interp).

Lemma each_load_name m reads st :
  Forall (λ n, is_Some (module_ns m st !! n)) reads →
  each (λ n, _ ← load_name m n; mret ()) reads st = Some (Ok (), st).
Proof.
  induction 1 as [|n reads [o Hn] _ IH]; [done|]. cbn [each].
  rewrite (comp_bind_Ok _ _ st () st); [done|].
  rewrite (comp_bind_Ok _ _ st o st); [done|]. unfold load_name. by rewrite Hn.
Qed.

(** A [def] without decorator binds the function. *)
Lemma exec_def_plain m name f st :
  exec_stmt imp m (Def None name f []) st
    = Some (Ok (), set_attr m name (OFunction f) st).
Proof. reflexivity. Qed.

(** A [def] under [@dispatch] adds a method to the function of its
    name in the dispatcher and binds that function. *)
Lemma exec_def_dispatch m d name f reads st :
  module_ns m st !! d = Some ODispatcher →
  Forall (λ n, is_Some (module_ns m st !! n)) reads →
  exec_stmt imp m (Def (Some d) name f reads) st
    = Some (Ok (), set_attr m name (ODispatched name) (add_method name f st)).
Proof.
  intros Hd Hreads. cbn [exec_stmt].
  rewrite (comp_bind_Ok _ _ st (Some ODispatcher) st).
  - by rewrite (comp_bind_Ok _ _ st () st) by by apply each_load_name.
  - rewrite (comp_bind_Ok _ _ st ODispatcher st); [done|].
    unfold load_name. by rewrite Hd.
Qed.

(** The decorator is looked up when the [def] runs. *)
Lemma exec_def_unbound m d name f reads st :
  module_ns m st !! d = None →
  exec_stmt imp m (Def (Some d) name f reads) st = Some (Err (NameError d), st).
Proof.
  intros Hd. cbn [exec_stmt].
  rewrite (comp_bind_Err _ _ st (NameError d) st); [done|].
  rewrite (comp_bind_Err _ _ st (NameError d) st); [done|].
  unfold load_name. by rewrite Hd.
Qed.
End def.
