(* ===== verification/PackageImport.v ===== *)
(** * Importing zootasks_utils

    The three files of the package as the statements at their top
    level, run by the import system of [Importer]:

    - [init_py] is src/src/zootasks_utils/__init__.py, [data_py] is
      data.py beside it, and [upload_utils_head] and [upload_utils_defs]
      are the statements of _src/upload_utils.py; [src_tree] is the
      directory src/src, with no [__init__.py] in [_src];
    - [published] is the environment with the files as they are, over
      any set of installed distributions; [repaired] is a variant that
      is not the repository's: [data] imported from the package itself
      (the statements [init_py_here]), with the five distributions the
      files import.  It is run as evidence for the reported bug;
    - [unloaded] is the invariant of an interpreter with the files as
      they are: of the modules of the package only the namespace package
      [_src] is ever in [sys.modules];
    - [reachable] are the states of an interpreter in which import
      statements are typed at the prompt.

    The first statement of [__init__.py] that imports raises, so the
    package is never loaded: [import_package_raises] is the first
    import, [import_after_failure] the imports after it, and
    [reachable_unloaded] the invariant.  [exec_defs] is what the three
    [def] statements register. *)

From stdpp Require Import strings gmap.
From S2P Require Import Prelude PyStr Polars Dispatch Package Importer.

#[local] Open Scope Z_scope.
#[local] Existing Instances pl.series_eq_dec.

(** * The files *)

(** __init__.py, lines 1-6. *)
Definition init_py : list stmt :=
  [Doc (lit "Utilities for Zooniverse and Zootasks.");
   Assign (lit "__all__") [];
   FromImport 1 [lit "_src"] [lit "data"];
   FromImport 1 [lit "_src"; lit "upload_utils"]
     [lit "get_hash_id"; lit "make_id_str"]].

(** data.py, lines 1-11. *)
Definition data_py : list stmt :=
  [Doc (lit "Data access utilities for eggs-zoo-connect.");
   Import [lit "pooch"] None;
   Assign (lit "euclid_q1_morphology") [lit "pooch"]].

(** upload_utils.py, lines 1-9. *)
Definition upload_utils_head : list stmt :=
  [Doc (lit "Common utilities for the Zooniverse Mobile App.");
   Assign (lit "__all__") [];
   Import [lit "hashlib"] None;
   Import [lit "numpy"] (Some (lit "np"));
   Import [lit "polars"] (Some (lit "pl"));
   FromImport 0 [lit "plum"] [lit "dispatch"]].

(** upload_utils.py, line 12: [def get_hash_id]. *)
Definition def_get_hash_id : stmt :=
  Def None (lit "get_hash_id") get_hash_id_def [].

(** upload_utils.py, lines 41-44: [@dispatch def make_id_str] on scalars. *)
Definition def_make_id_str : stmt :=
  Def (Some (lit "dispatch")) (lit "make_id_str") scalar_def [].

(** upload_utils.py, lines 71-72: [@dispatch def make_id_str] on a data
    frame; the annotation [pl.DataFrame] reads [pl]. *)
Definition def_make_id_str_frame : stmt :=
  Def (Some (lit "dispatch")) (lit "make_id_str") frame_def [lit "pl"].

(** The [def] statements of upload_utils.py, in the order of the file. *)
Definition upload_utils_defs : list stmt :=
  [def_get_hash_id; def_make_id_str; def_make_id_str_frame].

Definition upload_utils_py : list stmt := upload_utils_head ++ upload_utils_defs.

(** The directory src/src. *)
Definition src_tree (init : list stmt) : list source :=
  [PyDir (lit "zootasks_utils") (Some init)
     [PyFile (lit "data") data_py;
      PyDir (lit "_src") None [PyFile (lit "upload_utils") upload_utils_py]]].

(** [__init__.py] with [data] imported from the package itself. *)
Definition init_py_here : list stmt :=
  [Doc (lit "Utilities for Zooniverse and Zootasks.");
   Assign (lit "__all__") [];
   FromImport 1 [] [lit "data"];
   FromImport 1 [lit "_src"; lit "upload_utils"]
     [lit "get_hash_id"; lit "make_id_str"]].

(** The distributions the files import, with the one name that is
    imported from one of them. *)
Definition site_installed : gmap pystr namespace :=
  list_to_map [(lit "hashlib", ∅); (lit "numpy", ∅); (lit "polars", ∅);
               (lit "pooch", ∅); (lit "plum", {[ lit "dispatch" := ODispatcher ]})].

(** The files as they are, over any installed distributions, and the
    repaired package with the distributions the files import. *)
Definition published (site : gmap pystr namespace) : Env :=
  Build_Env (src_tree init_py) site.

Definition repaired : Env := Build_Env (src_tree init_py_here) site_installed.

(** * Names and states *)

Definition package : pystr := lit "zootasks_utils".
Definition package_name : modname := [package].
Definition src_name : modname := [package; lit "_src"].
Definition data_name : modname := [package; lit "_src"; lit "data"].
Definition upload_utils_name : modname := [package; lit "_src"; lit "upload_utils"].
Definition dispatch_name : pystr := lit "dispatch".
Definition make_id_str_name : pystr := lit "make_id_str".

(** The namespace of a package whose body has bound nothing. *)
Definition ns_path : namespace := {[ path_attr := OValue ]}.

(** No module of the package is in [sys.modules] but, at most, the
    namespace package [_src]. *)
Definition unloaded (st : interp) : Prop :=
  ∀ m ns, sys_modules st !! m = Some ns → head m = Some package →
          m = src_name ∧ ns = ns_path.

(** The package while its [__init__.py] runs. *)
Definition initialising (st : interp) : Prop :=
  is_package package_name st ∧ sys_modules st !! data_name = None.

(** The state after [_src] has been loaded from [__init__.py]. *)
Definition with_src (st : interp) : interp :=
  set_attr package_name (lit "_src") (OModule src_name)
    (set_module src_name ns_path st).

(** What a failed import of the package leaves behind: the namespace
    package [_src] in [sys.modules]. *)
Definition left_behind (st st' : interp) : Prop :=
  plum_functions st' = plum_functions st
  ∧ ∀ m, m ≠ package_name →
         sys_modules st' !! m = <[src_name := ns_path]> (sys_modules st) !! m.

(** What an import below the package gives: an exception, ImportError
    with [_src] left behind or KeyError where [_src] is there without
    its parent; or, for [_src] itself when it is there already, that
    module. *)
Definition refused (name : modname) (st : interp) (r : result unit) (st' : interp)
    : Prop :=
  match r with
  | Err e =>
      (e = ImportError (lit "data") ∧ st' = set_module src_name ns_path st)
      ∨ (e = KeyError package ∧ st' = st
         ∧ sys_modules st !! src_name = Some ns_path)
  | Ok _ => name = src_name ∧ st' = st ∧ sys_modules st !! src_name = Some ns_path
  end.

(** A computation that returns, keeps the package out and registers
    nothing. *)
Definition keeps {A} (m : comp A) : Prop :=
  ∀ st, unloaded st →
        ∃ r st', m st = Some (r, st')
               ∧ unloaded st' ∧ plum_functions st' = plum_functions st.

Definition is_import (s : stmt) : Prop :=
  match s with
  | Import _ _ | FromImport _ _ _ => True
  | _ => False
  end.

Definition stmt_module (s : stmt) : modname :=
  match s with
  | Import m _ | FromImport _ m _ => m
  | _ => []
  end.

(** The states of an interpreter in which import statements are typed
    at the prompt. *)
Inductive reachable `{Env} : interp → Prop :=
  | reachable_fresh : reachable fresh
  | reachable_stmt st fuel s r st' :
      reachable st → is_import s → run_stmt fuel s st = Some (r, st') →
      reachable st'.

(** The state after the three [def] statements of a module. *)
Definition with_defs (m : modname) (st : interp) : interp :=
  set_attr m make_id_str_name (ODispatched make_id_str_name)
    (add_method make_id_str_name frame_def
       (set_attr m make_id_str_name (ODispatched make_id_str_name)
          (add_method make_id_str_name scalar_def
             (set_attr m (lit "get_hash_id") (OFunction get_hash_id_def) st)))).

(** The interpreter after [import zootasks_utils] of the repaired
    package. *)
Definition imported : interp :=
  match run_stmt (H := repaired) 4 (Import package_name None) fresh with
  | Some (_, st) => st
  | None => fresh
  end.

(** A module in which upload_utils.py has run its imports. *)
Definition after_imports : interp :=
  set_module upload_utils_name
    {[ dispatch_name := ODispatcher; lit "pl" := OModule [lit "polars"] ]} fresh.

(** * The file tree of [Package] *)

Definition binds_of (s : stmt) : list pystr :=
  match s with
  | Doc _ => [lit "__doc__"]
  | Assign target _ => [target]
  | Import m asname => from_option (λ n, [n]) (take 1 m) asname
  | FromImport _ _ names => names
  | Def _ name _ _ => [name]
  end.

(** The names a star import would take where there is no [__all__]. *)
Definition public_names (body : list stmt) : list pystr :=
  remove_dups (filter (λ n, head n ≠ Some underscore) (body ≫= binds_of)).

(** A directory of files as [Package] sees it: the names each file
    binds. *)
Fixpoint erase (s : source) : entry :=
  match s with
  | PyFile name body => ModuleFile name (public_names body)
  | PyDir name init children =>
      Directory name ((λ _, []) <$> init) (erase <$> children)
  end.

(** The relative imports of an [__init__.py]. *)
Definition import_stmts (body : list stmt) : list import_stmt :=
  omap (λ s, match s with
             | FromImport 1 m names => Some (ImportFrom m names)
             | _ => None
             end) body.

(** * The files as they are *)

Section published.
Context (site : gmap pystr namespace).
Implicit Types (st : interp) (imp : modname → comp unit) (k fuel : nat).

#[local] Hint Extern 0 Env => exact (published site) : typeclass_instances.

Lemma find_spec_package : find_spec package_name = Some (RegularPackage init_py).
Proof. reflexivity. Qed.

Lemma find_spec_src : find_spec src_name = Some NamespacePackage.
Proof. reflexivity. Qed.

Lemma find_spec_data : find_spec data_name = None.
Proof. reflexivity. Qed.

Lemma namespace_parent_src : namespace_parent src_name.
Proof. by_compute. Qed.

Lemma ns_path_package : is_Some (ns_path !! path_attr).
Proof. by_compute. Qed.

(** ** The invariant under updates *)

Lemma unloaded_lookup st m :
  unloaded st → head m = Some package → m ≠ src_name → sys_modules st !! m = None.
Proof.
  intros Hun Hm Hne. destruct (sys_modules st !! m) as [ns|] eqn:Hl; [|done].
  by destruct (Hun m ns Hl Hm).
Qed.

Lemma unloaded_src st :
  unloaded st →
  sys_modules st !! src_name = None ∨ sys_modules st !! src_name = Some ns_path.
Proof.
  intros Hun. destruct (sys_modules st !! src_name) as [ns|] eqn:Hl; [|by left].
  right. by destruct (Hun src_name ns Hl eq_refl) as [_ ->].
Qed.

Lemma unloaded_set_src st : unloaded st → unloaded (set_module src_name ns_path st).
Proof.
  intros Hun m ns Hl Hm. destruct (decide (m = src_name)) as [->|Hne].
  - rewrite lookup_set_module_eq in Hl. by simplify_eq.
  - rewrite lookup_set_module_ne in Hl by done. by apply Hun.
Qed.

Lemma unloaded_set_external name ns st :
  head name ≠ Some package → unloaded st → unloaded (set_module name ns st).
Proof.
  intros Hh Hun m ns' Hl Hm. apply Hun; [|done].
  rewrite lookup_set_module_ne in Hl; [done|]. by intros ->.
Qed.

Lemma unloaded_fresh : unloaded fresh.
Proof.
  intros m ns Hl Hm. unfold fresh in Hl. cbn [sys_modules] in Hl.
  apply lookup_singleton_Some in Hl as [<- _]. by vm_compute in Hm.
Qed.

Lemma initialising_set_attr n o st :
  initialising st → initialising (set_attr package_name n o st).
Proof.
  intros [Hp Hd]. split; [by apply is_package_set_attr|].
  by rewrite lookup_set_attr_ne.
Qed.

Lemma with_src_initialising st : initialising st → initialising (with_src st).
Proof.
  intros [Hp Hd]. apply initialising_set_attr. split.
  - unfold is_package, module_ns in *. by rewrite lookup_set_module_ne.
  - by rewrite lookup_set_module_ne.
Qed.

Lemma lookup_with_src st : sys_modules (with_src st) !! src_name = Some ns_path.
Proof. unfold with_src. by rewrite lookup_set_attr_ne, lookup_set_module_eq. Qed.

Lemma left_behind_with_src st : left_behind st (with_src st).
Proof.
  split; [done|]. intros m Hm. unfold with_src. by rewrite lookup_set_attr_ne.
Qed.

Lemma left_behind_loaded st :
  sys_modules st !! src_name = Some ns_path → left_behind st st.
Proof. intros Hsrc. split; [done|]. intros m _. by rewrite insert_id. Qed.

Lemma left_behind_set_attr n o st st' :
  left_behind (set_attr package_name n o st) st' → left_behind st st'.
Proof.
  intros [Hf Hm]. split; [done|]. intros m Hne. rewrite (Hm m Hne).
  destruct (decide (m = src_name)) as [->|?]; [by rewrite !lookup_insert_eq|].
  by rewrite !lookup_insert_ne, lookup_set_attr_ne.
Qed.

(** What is left behind is the state with [_src] loaded. *)
Lemma left_behind_unset st st' :
  sys_modules st !! package_name = None →
  left_behind (set_module package_name ns_path st) st' →
  unset_module package_name st' = set_module src_name ns_path st.
Proof.
  intros Hpkg [Hf Hm]. destruct st as [sm pf], st' as [sm' pf']. cbn in *.
  unfold unset_module, set_module. cbn. f_equal; [|done].
  apply map_eq. intros m. destruct (decide (m = package_name)) as [->|Hne].
  - by rewrite lookup_delete_eq, lookup_insert_ne.
  - rewrite lookup_delete_ne, (Hm m Hne) by done.
    destruct (decide (m = src_name)) as [->|?]; [by rewrite !lookup_insert_eq|].
    by rewrite !lookup_insert_ne.
Qed.

(** ** The statements of [__init__.py] *)

(** [data] is not below [_src]. *)
Lemma import_data k st :
  initialising st → sys_modules st !! src_name = Some ns_path →
  gcd_import (S (S k)) data_name st
    = Some (Err (ModuleNotFoundError (dotted data_name)), st).
Proof.
  intros [Hp Hd] Hsrc.
  assert (loaded src_name st) as Hl by by eexists.
  rewrite gcd_import_S by by apply not_loaded.
  rewrite (find_and_load_Ok _ _ _ st); [|done|by apply gcd_import_loaded].
  apply load_not_found; [by apply not_loaded| | |done].
  - right. eapply is_package_lookup; [exact Hsrc|apply ns_path_package].
  - right. by apply is_package_loaded.
Qed.

(** The namespace package [_src], when it is not loaded yet. *)
Lemma import_src k st :
  initialising st → sys_modules st !! src_name = None →
  gcd_import (S (S k)) src_name st = Some (Ok (), with_src st).
Proof.
  intros [Hp Hd] Hsrc.
  rewrite gcd_import_S by by apply not_loaded.
  rewrite (find_and_load_Ok _ _ _ st);
    [|done|by apply gcd_import_loaded, is_package_loaded].
  by rewrite (load_spec_found _ _ _ NamespacePackage);
    [|by apply not_loaded|by right|by left; intros [[] _]|].
Qed.

(** [from ._src import data], from the state in which [_src] has been
    imported. *)
Lemma from_src_data_after k st st1 :
  is_package package_name st →
  gcd_import (S (S k)) src_name st = Some (Ok (), st1) →
  initialising st1 → sys_modules st1 !! src_name = Some ns_path →
  exec_stmt (gcd_import (S (S k))) package_name
            (FromImport 1 [lit "_src"] [lit "data"]) st
    = Some (Err (ImportError (lit "data")), st1).
Proof.
  intros Hp Himp Hinit Hsrc. pose proof Hinit as [_ Hd]. cbn [exec_stmt].
  rewrite (comp_bind_Ok _ _ st package_name st)
    by (unfold package_of; by rewrite decide_True).
  change (resolve_name 1 package_name [lit "_src"]) with (Ok src_name).
  cbv beta iota.
  rewrite (comp_bind_Ok _ _ st () st1) by done. cbn [each].
  assert (module_ns src_name st1 !! lit "data" = None) as Hn.
  { unfold module_ns. rewrite Hsrc. by_compute. }
  rewrite (comp_bind_Ok _ _ st1 () st1).
  - rewrite (comp_bind_Err _ _ st1 (ImportError (lit "data")) st1); [done|].
    rewrite (comp_bind_Err _ _ st1 (ImportError (lit "data")) st1); [done|].
    apply import_attr_missing; [done|]. by apply (not_loaded data_name).
  - rewrite (comp_bind_Ok _ _ st1 () st1); [done|].
    apply import_submodule_missing; [done| |by apply import_data].
    eapply is_package_lookup; [exact Hsrc|apply ns_path_package].
Qed.

(** [from ._src import data] in [__init__.py]. *)
Lemma from_src_data k st :
  initialising st →
  sys_modules st !! src_name = None ∨ sys_modules st !! src_name = Some ns_path →
  ∃ st', exec_stmt (gcd_import (S (S k))) package_name
                   (FromImport 1 [lit "_src"] [lit "data"]) st
           = Some (Err (ImportError (lit "data")), st')
       ∧ left_behind st st'.
Proof.
  intros Hinit [Hsrc|Hsrc].
  - exists (with_src st). split; [|apply left_behind_with_src].
    apply from_src_data_after;
      [apply Hinit|by apply import_src|by apply with_src_initialising
      |apply lookup_with_src].
  - exists st. split; [|by apply left_behind_loaded].
    apply from_src_data_after; [apply Hinit| |done..].
    apply gcd_import_loaded. by eexists.
Qed.

(** The body of [__init__.py]. *)
Lemma exec_init_py k st :
  initialising st →
  sys_modules st !! src_name = None ∨ sys_modules st !! src_name = Some ns_path →
  ∃ st', exec_body (gcd_import (S (S k))) package_name init_py st
           = Some (Err (ImportError (lit "data")), st')
       ∧ left_behind st st'.
Proof.
  intros Hinit Hsrc. unfold exec_body, init_py. cbn [each].
  set (st1 := set_attr package_name (lit "__doc__") OValue st).
  set (st2 := set_attr package_name (lit "__all__") OValue st1).
  destruct (from_src_data k st2) as (st' & Hst' & Hleft).
  { by do 2 apply initialising_set_attr. }
  { unfold st2, st1. by rewrite !lookup_set_attr_ne. }
  exists st'. split; [|by do 2 apply left_behind_set_attr in Hleft].
  rewrite (comp_bind_Ok _ _ st () st1) by done.
  rewrite (comp_bind_Ok _ _ st1 () st2) by done.
  by rewrite (comp_bind_Err _ _ st2 _ st' Hst').
Qed.

(** ** The package and the modules below it *)

(** The package, from a state in which it is not loaded. *)
Lemma import_package k st :
  unloaded st →
  gcd_import (S (S (S k))) package_name st
    = Some (Err (ImportError (lit "data")), set_module src_name ns_path st).
Proof.
  intros Hun.
  assert (sys_modules st !! package_name = None) as Hpkg by by apply unloaded_lookup.
  rewrite gcd_import_S, find_and_load_top by by try apply not_loaded.
  rewrite (load_spec_found _ _ _ (RegularPackage init_py));
    [|by apply not_loaded|by left|by left; intros [[] _]|done].
  unfold load_spec.
  change (initial_ns (RegularPackage init_py)) with ns_path.
  change (body_of (RegularPackage init_py)) with init_py.
  set (st1 := set_module package_name ns_path st).
  rewrite (comp_bind_Ok _ _ st () st1) by done.
  destruct (exec_init_py k st1) as (st' & Hst' & Hleft).
  { split.
    - eapply is_package_lookup; [apply lookup_set_module_eq|apply ns_path_package].
    - unfold st1. rewrite lookup_set_module_ne by done. by apply unloaded_lookup. }
  { unfold st1. rewrite lookup_set_module_ne by done. by apply unloaded_src. }
  rewrite (comp_bind_Ok _ _ st1 (Err (ImportError (lit "data"))) st')
    by (unfold catch; by rewrite Hst').
  rewrite (comp_bind_Ok _ _ st' () (unset_module package_name st')) by done.
  unfold raise. by rewrite (left_behind_unset st st').
Qed.

(** After a failed import has left [_src] behind, the import of a module
    below [_src] raises KeyError for the package: the path of a
    namespace package is computed from its parent, which is not in
    [sys.modules]. *)
Lemma import_below_src k x st :
  unloaded st → sys_modules st !! src_name = Some ns_path →
  gcd_import (S (S k)) (src_name ++ [x]) st = Some (Err (KeyError package), st).
Proof.
  intros Hun Hsrc.
  assert (¬ loaded (src_name ++ [x]) st) as Hl.
  { apply not_loaded. by apply unloaded_lookup. }
  rewrite gcd_import_S by done.
  rewrite (find_and_load_Ok _ _ _ st);
    rewrite ?removelast_last; [|done|by apply gcd_import_loaded; eexists].
  rewrite load_KeyError; rewrite ?removelast_last; [done..| | |].
  - eapply is_package_lookup; [exact Hsrc|apply ns_path_package].
  - apply namespace_parent_src.
  - apply (not_loaded package_name). by apply unloaded_lookup.
Qed.

(** Every module below the package, by induction on its name: the
    import of the parent fails, or the parent is [_src] without the
    package. *)
Lemma import_below k rest st :
  unloaded st →
  ∃ r st', gcd_import (length rest + 3 + k) (package :: rest) st = Some (r, st')
         ∧ refused (package :: rest) st r st'.
Proof.
  intros Hun. induction rest as [|x rest IH] using rev_ind.
  { eexists _, _. split; [by apply import_package|]. by left. }
  destruct IH as (r & st' & Hr & Href).
  replace (length (rest ++ [x]) + 3 + k)%nat with (S (length rest + 3 + k))
    by (rewrite length_app; cbn; lia).
  destruct (decide (loaded (package :: rest ++ [x]) st)) as [[ns Hl]|Hl].
  { destruct (Hun _ _ Hl eq_refl) as [Hn ->]. rewrite Hn in Hl |- *.
    eexists _, _. split; [by apply gcd_import_loaded; eexists|done]. }
  destruct r as [[]|e].
  - destruct Href as ([= ->] & -> & Hsrc).
    exists (Err (KeyError package)), st. split; [|by right].
    cbn [length Nat.add]. by apply (import_below_src _ x).
  - assert (removelast (package :: rest ++ [x]) = package :: rest) as Hparent
      by apply (removelast_last (package :: rest)).
    exists (Err e), st'. split; [|done]. rewrite gcd_import_S by done.
    by rewrite (find_and_load_Err _ _ _ e st') by by rewrite Hparent.
Qed.

Lemma import_below_fresh k rest st :
  unloaded st → sys_modules st !! src_name = None →
  gcd_import (length rest + 3 + k) (package :: rest) st
    = Some (Err (ImportError (lit "data")), set_module src_name ns_path st).
Proof.
  intros Hun Hsrc. destruct (import_below k rest st Hun) as (r & st' & -> & Href).
  destruct r as [[]|e]; cbn in Href.
  - destruct Href as (_ & _ & ?). congruence.
  - destruct Href as [[-> ->]|(_ & _ & ?)]; [done|congruence].
Qed.

Lemma refused_unloaded name st r st' :
  unloaded st → refused name st r st' →
  unloaded st' ∧ plum_functions st' = plum_functions st.
Proof.
  intros Hun. destruct r as [[]|e]; cbn.
  - by intros (_ & -> & _).
  - intros [[_ ->]|(_ & -> & _)]; [|done]. split; [|done].
    by apply unloaded_set_src.
Qed.

(** ** Modules outside the package *)

Lemma find_spec_external name :
  head name ≠ Some package →
  find_spec name = match name with
                   | [top] => Installed <$> site !! top
                   | _ => None
                   end.
Proof.
  intros Hh. unfold find_spec.
  assert (find_source name sys_path = None) as ->; [|done].
  destruct name as [|n [|n' name]]; [done|..]; cbn;
    unfold find_in; cbn; by rewrite bool_decide_eq_false_2 by naive_solver.
Qed.

Lemma load_external imp name st :
  head name ≠ Some package → unloaded st →
  ∃ r st', load imp name st = Some (r, st')
         ∧ unloaded st' ∧ plum_functions st' = plum_functions st.
Proof.
  intros Hh Hun. unfold load. repeat case_decide; eauto.
  rewrite find_spec_external by done.
  destruct name as [|top [|]]; eauto. destruct (site !! top) as [ns|]; cbn; eauto.
  eexists _, _. split; [reflexivity|]. split; [|done].
  by apply unloaded_set_external.
Qed.

Lemma import_external k name st :
  head name ≠ Some package → unloaded st →
  ∃ r st', gcd_import (length name + 1 + k) name st = Some (r, st')
         ∧ unloaded st' ∧ plum_functions st' = plum_functions st.
Proof.
  intros Hh Hun. induction name as [|x name IH] using rev_ind.
  { cbn. case_decide; [by eauto|]. by apply load_external. }
  replace (length (name ++ [x]) + 1 + k)%nat with (S (length name + 1 + k))
    by (rewrite length_app; cbn; lia).
  destruct (decide (loaded (name ++ [x]) st)) as [Hl|Hl].
  { rewrite gcd_import_loaded by done. eauto. }
  rewrite gcd_import_S by done.
  destruct (decide (name = [])) as [->|Hne].
  { rewrite find_and_load_top by done. by apply load_external. }
  destruct IH as (r & st' & Hr & Hun' & Hf).
  { by destruct name. }
  destruct r as [[]|e].
  - rewrite (find_and_load_Ok _ _ _ st') by by rewrite removelast_last.
    destruct (load_external (gcd_import (length name + 1 + k)) (name ++ [x]) st')
      as (r & st'' & -> & ? & ?); [done..|].
    eexists _, _. split; [done|]. split; [done|congruence].
  - rewrite (find_and_load_Err _ _ _ e st') by by rewrite removelast_last.
    eauto.
Qed.

(** ** Every import keeps the package out *)

Lemma gcd_import_unloaded fuel name st :
  (length name + 2 ≤ fuel)%nat → unloaded st →
  ∃ r st', gcd_import fuel name st = Some (r, st')
         ∧ unloaded st' ∧ plum_functions st' = plum_functions st
         ∧ (r = Ok () → head name = Some package → name = src_name).
Proof.
  intros Hfuel Hun. destruct (decide (head name = Some package)) as [Hh|Hh].
  - destruct name as [|? rest]; [done|]. injection Hh as ->.
    destruct (import_below (fuel - (length rest + 3)) rest st Hun)
      as (r & st' & Hr & Href).
    replace fuel with (length rest + 3 + (fuel - (length rest + 3)))%nat
      by (cbn in Hfuel; lia).
    exists r, st'. split; [done|].
    destruct (refused_unloaded _ _ _ _ Hun Href) as [? ?]. split_and!; [done..|].
    intros -> _. by destruct Href.
  - destruct (import_external (fuel - (length name + 1)) name st Hh Hun)
      as (r & st' & Hr & ? & ?).
    replace fuel with (length name + 1 + (fuel - (length name + 1)))%nat by lia.
    by exists r, st'.
Qed.

Section keeps.
Context {A B : Type}.
Implicit Types (m : comp A) (g : A → comp B).

Lemma keeps_pure m : (∀ st, ∃ r, m st = Some (r, st)) → keeps m.
Proof. intros Hm st Hun. destruct (Hm st) as [r ->]. eauto. Qed.

Lemma keeps_bind m g : keeps m → (∀ a, keeps (g a)) → keeps (m ≫= g).
Proof.
  intros Hm Hk st Hun. destruct (Hm st Hun) as (r & st' & Hr & Hun' & Hf).
  unfold mbind, comp_bind. rewrite Hr. destruct r as [a|e]; [|by eauto].
  destruct (Hk a st' Hun') as (r & st'' & -> & ? & ?).
  eexists _, _. split; [done|]. split; [done|congruence].
Qed.
End keeps.

Lemma keeps_each {A} (f : A → comp unit) l :
  (∀ a, keeps (f a)) → keeps (each f l).
Proof.
  intros Hf. induction l as [|a l IH]; [by apply keeps_pure; eauto|].
  by apply keeps_bind.
Qed.

(** Binding a name in a module outside the package. *)
Lemma keeps_setattr m n o : head m ≠ Some package → keeps (setattr m n o).
Proof.
  intros Hh st Hun. eexists _, _. split; [reflexivity|]. split; [|done].
  intros m' ns Hl Hm'. apply Hun; [|done].
  rewrite lookup_set_attr_ne in Hl; [done|]. by intros ->.
Qed.

Lemma keeps_gcd_import fuel name :
  (length name + 2 ≤ fuel)%nat → keeps (gcd_import fuel name).
Proof.
  intros Hfuel st Hun.
  destruct (gcd_import_unloaded fuel name st) as (r & st' & ? & ? & ? & _); eauto.
Qed.

Lemma keeps_import_submodule imp m n :
  keeps (imp (m ++ [n])) → keeps (import_submodule imp m n).
Proof.
  intros Hi st Hun. unfold import_submodule. case_decide; [by eauto|].
  destruct (Hi st Hun) as (r & st' & -> & ? & ?).
  destruct r as [|[]]; eauto. case_decide; eauto.
Qed.

Lemma keeps_package_of {B} cur (g : modname → comp B) :
  (∀ p, (length p ≤ length cur)%nat → keeps (g p)) → keeps (package_of cur ≫= g).
Proof.
  intros Hg st Hun. unfold mbind, comp_bind, package_of.
  apply Hg; [|done]. case_decide; [done|].
  destruct cur as [|c cur _] using rev_ind; [done|].
  rewrite removelast_last, length_app. lia.
Qed.

Lemma length_resolve_name level p m abs :
  resolve_name level p m = Ok abs → (length abs ≤ length p + length m)%nat.
Proof.
  destruct level as [|up]; cbn; [intros [= <-]; lia|].
  case_decide; [|done]. intros [= <-]. rewrite length_app, length_take. lia.
Qed.

(** An import statement at the prompt returns, whatever it names, and
    keeps the package out. *)
Lemma keeps_run_stmt fuel s :
  is_import s → (length (stmt_module s) + 4 ≤ fuel)%nat → keeps (run_stmt fuel s).
Proof.
  destruct s as [| |m asname|level m names|]; try done; intros _ Hfuel;
    unfold run_stmt; cbn [exec_stmt stmt_module] in *.
  - apply keeps_bind; [apply keeps_gcd_import; lia|intros _].
    apply keeps_bind; [apply keeps_gcd_import; rewrite length_take; lia|intros _].
    destruct asname; [by apply keeps_setattr|].
    apply keeps_each. intros top. by apply keeps_setattr.
  - apply keeps_package_of. intros p Hp.
    destruct (resolve_name level p m) as [abs|e] eqn:Habs;
      [|by apply keeps_pure; eauto].
    apply length_resolve_name in Habs. cbn in Hp.
    apply keeps_bind; [apply keeps_gcd_import; lia|intros _].
    apply keeps_bind; [|intros _].
    + apply keeps_each. intros n. apply keeps_import_submodule, keeps_gcd_import.
      rewrite length_app. cbn. lia.
    + apply keeps_each. intros n. apply keeps_bind; [|by intros; apply keeps_setattr].
      apply keeps_pure. intros st. unfold import_attr.
      destruct (module_ns abs st !! n); [by eauto|]. case_decide; eauto.
Qed.

Lemma reachable_keeps_out st :
  reachable st → unloaded st ∧ plum_functions st = ∅.
Proof.
  induction 1 as [|st fuel s r st' _ [Hun Hf] Hs Hr];
    [by split; [apply unloaded_fresh|]|].
  set (n := (fuel `max` (length (stmt_module s) + 4))%nat).
  destruct (keeps_run_stmt n s Hs ltac:(lia) st Hun) as (r' & st'' & Hr' & ? & ?).
  apply (run_stmt_mono fuel n s ltac:(lia)) in Hr. simplify_eq.
  split; [done|congruence].
Qed.

(** ** After a failed import *)

(** A module below [_src], once [_src] is left behind, in both forms of
    the statement. *)
Lemma run_import_below_src k x asname st :
  unloaded st → sys_modules st !! src_name = Some ns_path →
  run_stmt (S (S k)) (Import (src_name ++ [x]) asname) st
    = Some (Err (KeyError package), st).
Proof.
  intros Hun Hsrc. unfold run_stmt. cbn [exec_stmt].
  by rewrite (comp_bind_Err _ _ _ _ _ (import_below_src k x st Hun Hsrc)).
Qed.

Lemma import_submodule_src k x st :
  unloaded st → sys_modules st !! src_name = Some ns_path → x ≠ path_attr →
  import_submodule (gcd_import (S (S k))) src_name x st
    = Some (Err (KeyError package), st).
Proof.
  intros Hun Hsrc Hx. unfold import_submodule.
  rewrite decide_False, (import_below_src k x st Hun Hsrc); [done|].
  intros [[o Ho]|Hp].
  - unfold module_ns in Ho. rewrite Hsrc in Ho. cbn in Ho.
    by apply lookup_singleton_Some in Ho as [<- _].
  - apply Hp. eapply is_package_lookup; [exact Hsrc|apply ns_path_package].
Qed.

Lemma run_from_import_src k x names st :
  unloaded st → sys_modules st !! src_name = Some ns_path → x ≠ path_attr →
  run_stmt (S (S k)) (FromImport 0 src_name (x :: names)) st
    = Some (Err (KeyError package), st).
Proof.
  intros Hun Hsrc Hx. unfold run_stmt. cbn [exec_stmt].
  rewrite (comp_bind_Ok _ _ st _ st) by done. cbn [resolve_name].
  rewrite (comp_bind_Ok _ _ st () st) by (apply gcd_import_loaded; by eexists).
  cbn [each].
  rewrite (comp_bind_Err _ _ st (KeyError package) st); [done|].
  by rewrite (comp_bind_Err _ _ _ _ _ (import_submodule_src k x st Hun Hsrc Hx)).
Qed.

(** The package again: the same exception, and nothing changes. *)
Lemma run_import_again k asname st :
  unloaded st → sys_modules st !! src_name = Some ns_path →
  run_stmt (S (S (S k))) (Import package_name asname) st
    = Some (Err (ImportError (lit "data")), st).
Proof.
  intros Hun Hsrc. unfold run_stmt. cbn [exec_stmt].
  rewrite (comp_bind_Err _ _ _ _ _ (import_package k st Hun)).
  by rewrite set_module_id.
Qed.

(** ** Theorems *)

(** The two forms of the statement, for the package and every module
    below it. *)
Lemma run_import_raises k rest asname st :
  unloaded st → sys_modules st !! src_name = None →
  run_stmt (length rest + 3 + k) (Import (package :: rest) asname) st
    = Some (Err (ImportError (lit "data")), set_module src_name ns_path st).
Proof.
  intros Hun Hsrc. pose proof (import_below_fresh k rest st Hun Hsrc) as Hi.
  unfold run_stmt. cbn [exec_stmt]. by rewrite (comp_bind_Err _ _ _ _ _ Hi).
Qed.

Lemma run_from_import_raises k rest names st :
  unloaded st → sys_modules st !! src_name = None →
  run_stmt (length rest + 3 + k) (FromImport 0 (package :: rest) names) st
    = Some (Err (ImportError (lit "data")), set_module src_name ns_path st).
Proof.
  intros Hun Hsrc. pose proof (import_below_fresh k rest st Hun Hsrc) as Hi.
  unfold run_stmt. cbn [exec_stmt].
  rewrite (comp_bind_Ok _ _ st _ st) by done. cbn [resolve_name].
  by rewrite (comp_bind_Err _ _ _ _ _ Hi).
Qed.

(** C8: with the files as they are, an import of the package or of any
    module below it, in either form of the statement, from an
    interpreter that has none of its modules loaded, raises ImportError
    for [data]: the first import of [__init__.py] looks for [data] in
    [_src], where it is not.  The package is removed from [sys.modules]
    again and the namespace package [_src] stays there. *)
Theorem import_package_raises k rest asname names st :
  unloaded st → sys_modules st !! src_name = None →
  run_stmt (length rest + 3 + k) (Import (package :: rest) asname) st
    = Some (Err (ImportError (lit "data")), set_module src_name ns_path st)
  ∧ run_stmt (length rest + 3 + k) (FromImport 0 (package :: rest) names) st
    = Some (Err (ImportError (lit "data")), set_module src_name ns_path st).
Proof.
  intros Hun Hsrc.
  by split; [apply run_import_raises|apply run_from_import_raises].
Qed.

(** C15: whatever import statements are typed at the prompt, with
    whatever fuel, the package is never loaded: neither
    [zootasks_utils] nor [upload_utils] is ever in [sys.modules], no
    method is ever registered with the dispatcher, and the next import
    statement returns or raises within fuel 4 more than the length of
    the name it imports. *)
Theorem reachable_unloaded st s :
  reachable st →
  sys_modules st !! package_name = None
  ∧ sys_modules st !! upload_utils_name = None
  ∧ plum_functions st = ∅
  ∧ (is_import s →
     ∃ r st', run_stmt (length (stmt_module s) + 4) s st = Some (r, st')).
Proof.
  intros [Hun Hf]%reachable_keeps_out.
  split_and!; [by apply unloaded_lookup..|done|].
  intros Hs. destruct (keeps_run_stmt _ s Hs (le_n _) st Hun) as (r & st' & ? & _).
  eauto.
Qed.

(** C16: once an import of the package has failed and left the namespace
    package [_src] in [sys.modules], an import of a module below [_src],
    as [import zootasks_utils._src.x] or as
    [from zootasks_utils._src import x], raises KeyError for
    [zootasks_utils], not ImportError: the path of a namespace package
    is computed from its parent, which is no longer there.  An import of
    the package itself raises the ImportError for [data] again.  None of
    them changes the interpreter. *)
Theorem import_after_failure k x asname names st :
  unloaded st → sys_modules st !! src_name = Some ns_path → x ≠ path_attr →
  run_stmt (S (S k)) (Import (src_name ++ [x]) asname) st
    = Some (Err (KeyError package), st)
  ∧ run_stmt (S (S k)) (FromImport 0 src_name (x :: names)) st
    = Some (Err (KeyError package), st)
  ∧ run_stmt (S (S (S k))) (Import package_name asname) st
    = Some (Err (ImportError (lit "data")), st).
Proof.
  intros Hun Hsrc Hx. split_and!;
    [by apply run_import_below_src|by apply run_from_import_src
    |by apply run_import_again].
Qed.
End published.

(** * The [def] statements *)

Section defs.
Context (imp : modname → comp unit).
Implicit Types (m : modname) (st : interp).

Lemma run_defs m st :
  module_ns m st !! dispatch_name = Some ODispatcher →
  is_Some (module_ns m st !! lit "pl") →
  exec_body imp m upload_utils_defs st = Some (Ok (), with_defs m st).
Proof.
  intros Hd Hpl. unfold exec_body, upload_utils_defs, def_get_hash_id, def_make_id_str,
    def_make_id_str_frame. cbn [each].
  rewrite (comp_bind_Ok _ _ st () _ (exec_def_plain _ _ _ _ _)).
  erewrite comp_bind_Ok; [|apply exec_def_dispatch; [|done]].
  - erewrite comp_bind_Ok; [done|]. apply exec_def_dispatch.
    + by rewrite module_ns_set_attr_ne, module_ns_add_method,
        module_ns_set_attr_ne by by_compute.
    + constructor; [|done].
      by rewrite module_ns_set_attr_ne, module_ns_add_method,
        module_ns_set_attr_ne by by_compute.
  - by rewrite module_ns_set_attr_ne by by_compute.
Qed.

(** The methods registered under [make_id_str] after the statements:
    those that were there, then the two of the module, in the order of
    the file. *)
Lemma with_defs_methods m st :
  plum_functions (with_defs m st) !! make_id_str_name
    = Some (default [] (plum_functions st !! make_id_str_name)
            ++ [scalar_def; frame_def]).
Proof.
  unfold with_defs, add_method. cbn [plum_functions set_attr].
  rewrite !lookup_insert_eq. cbn. by rewrite <-app_assoc.
Qed.

Lemma with_defs_names m st :
  loaded m st →
  module_ns m (with_defs m st) !! lit "get_hash_id" = Some (OFunction get_hash_id_def)
  ∧ module_ns m (with_defs m st) !! make_id_str_name
    = Some (ODispatched make_id_str_name).
Proof.
  intros Hm. unfold with_defs. split.
  - rewrite module_ns_set_attr_ne, module_ns_add_method, module_ns_set_attr_ne,
      module_ns_add_method by by_compute.
    by apply module_ns_set_attr_eq.
  - apply module_ns_set_attr_eq. by do 2 apply loaded_set_attr.
Qed.

(** Before [from plum import dispatch] the second [def] raises. *)
Lemma defs_need_dispatch m st :
  module_ns m st !! dispatch_name = None →
  exec_body imp m upload_utils_defs st
    = Some (Err (NameError dispatch_name),
            set_attr m (lit "get_hash_id") (OFunction get_hash_id_def) st).
Proof.
  intros Hd. unfold exec_body, upload_utils_defs, def_get_hash_id, def_make_id_str,
    def_make_id_str_frame. cbn [each].
  rewrite (comp_bind_Ok _ _ st () _ (exec_def_plain _ _ _ _ _)).
  erewrite comp_bind_Err; [done|]. apply exec_def_unbound.
  by rewrite module_ns_set_attr_ne by by_compute.
Qed.

(** C19: the three [def] statements of upload_utils.py, run in a module
    that has [dispatch] and [pl] bound, return; [get_hash_id] is bound
    to a plain function with the parameters of line 12, [make_id_str]
    to the function of the dispatcher, and the dispatcher holds under
    that name the methods it had, then the scalar and the data-frame
    method: the second [def] adds to the first.  The signatures of
    these two are the ones [Dispatch.methods] resolves against. *)
Theorem exec_defs m ns st :
  sys_modules st !! m = Some ns →
  ns !! dispatch_name = Some ODispatcher → is_Some (ns !! lit "pl") →
  ∃ st', exec_body imp m upload_utils_defs st = Some (Ok (), st')
       ∧ module_ns m st' !! lit "get_hash_id" = Some (OFunction get_hash_id_def)
       ∧ module_ns m st' !! make_id_str_name = Some (ODispatched make_id_str_name)
       ∧ plum_functions st' !! make_id_str_name
         = Some (default [] (plum_functions st !! make_id_str_name)
                 ++ [scalar_def; frame_def])
       ∧ methods.*1 = f ← [scalar_def; frame_def]; signatures (positional f).
Proof.
  intros Hm Hd Hpl. exists (with_defs m st).
  destruct (with_defs_names m st) as [? ?]; [by eexists|].
  split_and!; [|done..|apply with_defs_methods|done].
  apply run_defs; unfold module_ns; by rewrite Hm.
Qed.
End defs.

(** * The repaired package *)

Section repaired.

#[local] Existing Instance repaired.

(** With [data] imported from the package itself and the five
    distributions installed, [import zootasks_utils] in a new
    interpreter returns, with fuel 4.  It binds the package at the
    prompt and every name of [__all__] in the package: [data] to the
    module, [get_hash_id] to the function of line 12, [make_id_str] to
    the function of the dispatcher, which holds its two methods in the
    order of the file.  A second import changes nothing. *)
Theorem import_here :
  run_stmt 4 (Import package_name None) fresh = Some (Ok (), imported)
  ∧ module_ns main imported !! package = Some (OModule package_name)
  ∧ Forall (λ n, is_Some (module_ns package_name imported !! n)) all_names
  ∧ module_ns package_name imported !! lit "data"
    = Some (OModule [package; lit "data"])
  ∧ module_ns package_name imported !! lit "get_hash_id"
    = Some (OFunction get_hash_id_def)
  ∧ module_ns package_name imported !! make_id_str_name
    = Some (ODispatched make_id_str_name)
  ∧ plum_functions imported = {[ make_id_str_name := [scalar_def; frame_def] ]}
  ∧ run_stmt 4 (Import package_name None) imported = Some (Ok (), imported).
Proof. split_and!; by_compute. Qed.

(** Three nested imports are the deepest: fuel 3 is not enough, and
    more than 4 changes nothing. *)
Lemma repaired_fuel fuel :
  run_stmt 3 (Import package_name None) fresh = None
  ∧ ((4 ≤ fuel)%nat →
     run_stmt fuel (Import package_name None) fresh = Some (Ok (), imported)).
Proof.
  split; [by_compute|]. intros Hfuel.
  apply (run_stmt_mono 4 fuel _ Hfuel). by_compute.
Qed.
End repaired.

(** Without pooch the import of [data] raises in data.py, and nothing
    of the package stays in [sys.modules]. *)
Lemma repaired_without_pooch :
  run_stmt (H := Build_Env (src_tree init_py_here) (delete (lit "pooch") site_installed))
    4 (Import package_name None) fresh
  = Some (Err (ModuleNotFoundError (lit "pooch")), fresh).
Proof. by_compute. Qed.

(** * The two models of the package *)

(** The tree and the statements [Package] runs are those of the
    files. *)
Lemma erase_src_tree :
  erase <$> src_tree init_py = [zootasks_utils]
  ∧ import_stmts init_py = init
  ∧ import_stmts init_py_here = init_data_here.
Proof. split_and!; by vm_compute. Qed.

(** [Package.exec_init] and the import system agree on the files: the
    same exception as they are, the names of [__all__] when
    repaired. *)
Lemma exec_init_agrees e :
  exec_init zootasks_utils init = Err e →
  gcd_import (H := published site_installed) 3 package_name fresh
    = Some (Err e, set_module src_name ns_path fresh).
Proof.
  intros He. assert (e = ImportError (lit "data")) as ->.
  { assert (exec_init zootasks_utils init = Err (ImportError (lit "data"))) as He'
      by by_compute. congruence. }
  apply (import_package site_installed 0), unloaded_fresh.
Qed.

(** * The theorems at an interpreter *)

Section witnesses.

(** [import zootasks_utils._src.upload_utils] and
    [from zootasks_utils._src.upload_utils import get_hash_id] in a new
    interpreter. *)
Lemma import_package_raises_witness :
  run_stmt (H := published site_installed) 5 (Import upload_utils_name None) fresh
    = Some (Err (ImportError (lit "data")), set_module src_name ns_path fresh)
  ∧ run_stmt (H := published site_installed) 5
      (FromImport 0 upload_utils_name [lit "get_hash_id"]) fresh
    = Some (Err (ImportError (lit "data")), set_module src_name ns_path fresh).
Proof.
  apply (import_package_raises site_installed 0 [lit "_src"; lit "upload_utils"]
           None [lit "get_hash_id"] fresh);
    [apply unloaded_fresh|by_compute].
Defined.

(** The state after a first [import zootasks_utils] has failed, and
    [from zootasks_utils._src import upload_utils] in it. *)
Lemma reachable_unloaded_witness :
  sys_modules (set_module src_name ns_path fresh) !! package_name = None
  ∧ sys_modules (set_module src_name ns_path fresh) !! upload_utils_name = None
  ∧ plum_functions (set_module src_name ns_path fresh) = ∅
  ∧ (is_import (FromImport 0 src_name [lit "upload_utils"]) →
     ∃ r st', run_stmt (H := published site_installed) 6
                (FromImport 0 src_name [lit "upload_utils"])
                (set_module src_name ns_path fresh) = Some (r, st')).
Proof.
  apply (reachable_unloaded site_installed (set_module src_name ns_path fresh)
           (FromImport 0 src_name [lit "upload_utils"])).
  apply (reachable_stmt fresh 3 (Import package_name None)
           (Err (ImportError (lit "data"))));
    [apply reachable_fresh|done|by_compute].
Defined.

(** [import zootasks_utils._src.upload_utils],
    [from zootasks_utils._src import upload_utils] and
    [import zootasks_utils] after a first import has failed. *)
Lemma import_after_failure_witness :
  run_stmt (H := published site_installed) 2 (Import upload_utils_name None)
    (set_module src_name ns_path fresh)
    = Some (Err (KeyError package), set_module src_name ns_path fresh)
  ∧ run_stmt (H := published site_installed) 2
      (FromImport 0 src_name [lit "upload_utils"])
      (set_module src_name ns_path fresh)
    = Some (Err (KeyError package), set_module src_name ns_path fresh)
  ∧ run_stmt (H := published site_installed) 3 (Import package_name None)
      (set_module src_name ns_path fresh)
    = Some (Err (ImportError (lit "data")), set_module src_name ns_path fresh).
Proof.
  apply (import_after_failure site_installed 0 (lit "upload_utils") None []
           (set_module src_name ns_path fresh));
    [apply unloaded_set_src, unloaded_fresh|by_compute..].
Defined.

Lemma exec_defs_witness :
  ∃ st', exec_body (gcd_import (H := published site_installed) 0)
           upload_utils_name upload_utils_defs
           after_imports = Some (Ok (), st')
       ∧ module_ns upload_utils_name st' !! lit "get_hash_id"
         = Some (OFunction get_hash_id_def)
       ∧ module_ns upload_utils_name st' !! make_id_str_name
         = Some (ODispatched make_id_str_name)
       ∧ plum_functions st' !! make_id_str_name
         = Some (default [] (plum_functions after_imports !! make_id_str_name)
                 ++ [scalar_def; frame_def])
       ∧ methods.*1 = f ← [scalar_def; frame_def]; signatures (positional f).
Proof.
  apply (exec_defs (gcd_import (H := published site_installed) 0) upload_utils_name
           {[ dispatch_name := ODispatcher; lit "pl" := OModule [lit "polars"] ]}
           after_imports);
    by_compute.
Defined.
End witnesses.
